(** * Countdown timer frame generator: a shallow embedding of
      [generate_countdown.py] and the properties of its specification.

    The development follows the layout of the script: Python primitives
    (integer formatting, [int(s, 16)], binary64 arithmetic), the two style
    catalogs, the rendering helpers, the two frame renderers, and the
    sequencer with its command-line entry point.  Calls into Pillow are
    recorded as constructors of an image description; the font files, the
    text metrics and libm's [cos] and [sin] are parameters of the
    renderers. *)

From Stdlib Require Import ZArith QArith Qround Qabs Qreduction Qpower.
From Stdlib Require Import Lia Lqa List String Ascii Bool.
From Stdlib Require Floats.SpecFloat.
Import ListNotations.

Open Scope string_scope.
Open Scope list_scope.
Open Scope Z_scope.

Infix "+++" := String.append (at level 60, right associativity).

(* ------------------------------------------------------------------ *)
(** * Python primitives                                                 *)
(* ------------------------------------------------------------------ *)

Module Py.

(** ** Exceptions and results *)

(** The exceptions the script can raise.  [ValueError_int] is the
    [ValueError] of [int(s, 16)] on a malformed literal, the only way
    [hex_to_rgb] fails on a string; [ValueError_nan] is the one of
    [int(x)] on a NaN. *)
Inductive exn : Type :=
| ValueError_int
| ValueError_nan
| IndexError
| ZeroDivisionError
| OverflowError
| UnboundLocalError.

Inductive result (A : Type) : Type :=
| Ok (a : A)
| Raise (e : exn).
Arguments Ok {A} a.
Arguments Raise {A} e.

Definition bind {A B : Type} (r : result A) (k : A -> result B) : result B :=
  match r with
  | Ok a => k a
  | Raise e => Raise e
  end.

(** A [for] loop whose body may raise: the state is threaded through the
    elements in order and the first exception ends the loop. *)
Fixpoint for_each {A S : Type} (xs : list A) (body : A -> S -> result S)
  (s : S) : result S :=
  match xs with
  | [] => Ok s
  | x :: xs' => bind (body x s) (for_each xs' body)
  end.

(** [range(start, stop)] and [range(start, stop, -1)]. *)
Definition range (start stop : Z) : list Z :=
  map (fun i => start + Z.of_nat i) (seq 0 (Z.to_nat (stop - start))).

Definition range_down (start stop : Z) : list Z :=
  map (fun i => start - Z.of_nat i) (seq 0 (Z.to_nat (start - stop))).

(** [t[i]] for a literal index [i >= 0]. *)
Definition index {A : Type} (t : list A) (i : nat) : result A :=
  match nth_error t i with
  | Some a => Ok a
  | None => Raise IndexError
  end.

(** ** Decimal formatting of integers: [str(n)] and [f"{n:0wd}"] *)

Definition digit_char (d : Z) : ascii := ascii_of_N (48 + Z.to_N d).

(** Most significant digit first; [fuel] bounds the number of digits. *)
Fixpoint str_digits (fuel : nat) (n : Z) : string :=
  match fuel with
  | O => EmptyString
  | S f =>
      (if n <? 10 then EmptyString else str_digits f (n / 10))
        +++ String (digit_char (n mod 10)) EmptyString
  end.

(** Decimal numeral of a non-negative integer. *)
Definition str_nat (n : Z) : string :=
  str_digits (S (Z.to_nat (Z.log2 n))) n.

(** Python's [str(n)]. *)
Definition str (n : Z) : string :=
  if n <? 0 then "-" +++ str_nat (- n) else str_nat n.

Fixpoint replicate (k : nat) (c : ascii) : string :=
  match k with
  | O => EmptyString
  | S k' => String c (replicate k' c)
  end.

Definition zfill (w : nat) (s : string) : string :=
  replicate (w - String.length s) "0" +++ s.

(** [f"{n:0wd}"]: sign-aware zero padding to a minimum width [w]. *)
Definition format_0d (w : nat) (n : Z) : string :=
  if n <? 0 then "-" +++ zfill (w - 1) (str_nat (- n))
  else zfill w (str_nat n).

(** [f"{s:ws}"]: left-aligned, padded with spaces to a minimum width. *)
Definition format_s (w : nat) (s : string) : string :=
  s +++ replicate (w - String.length s) " ".

(** [sep.join(parts)] *)
Fixpoint join (sep : string) (parts : list string) : string :=
  match parts with
  | [] => EmptyString
  | [p] => p
  | p :: ps => p +++ sep +++ join sep ps
  end.

(** The line feed of ["\n"]. *)
Definition nl : string := String (ascii_of_N 10) EmptyString.

(** Reading a decimal numeral back: the value of a string of digits. *)
Definition is_digit (c : ascii) : bool :=
  let n := N_of_ascii c in ((48 <=? n) && (n <=? 57))%N.

Definition digit_val (c : ascii) : Z := Z.of_N (N_of_ascii c) - 48.

Fixpoint all_digits (s : string) : bool :=
  match s with
  | EmptyString => true
  | String c s' => is_digit c && all_digits s'
  end.

Fixpoint dec_value_from (acc : Z) (s : string) : Z :=
  match s with
  | EmptyString => acc
  | String c s' => dec_value_from (10 * acc + digit_val c) s'
  end.

Definition dec_value (s : string) : Z := dec_value_from 0 s.

(** ** Strings: [lstrip], slices, [startswith], [endswith] *)

(** [s.lstrip(c)] for a one-character argument: every leading [c] goes. *)
Fixpoint lstrip (c : ascii) (s : string) : string :=
  match s with
  | String a s' => if Ascii.eqb a c then lstrip c s' else s
  | EmptyString => EmptyString
  end.

(** [s[i:i + 2]]; out-of-range slices are cut short, as in Python. *)
Definition slice2 (s : string) (i : nat) : string := String.substring i 2 s.

Definition startswith (s : string) (c : ascii) : bool :=
  match s with
  | String a _ => Ascii.eqb a c
  | EmptyString => false
  end.

Fixpoint endswith (s : string) (c : ascii) : bool :=
  match s with
  | EmptyString => false
  | String a EmptyString => Ascii.eqb a c
  | String _ s' => endswith s' c
  end.

(** [os.path.join(a, b)] of [posixpath]. *)
Definition path_join (a b : string) : string :=
  if startswith b "/" then b
  else if (String.eqb a "" || endswith a "/")%bool then a +++ b
  else a +++ "/" +++ b.

(** ** [int(s, 16)]

    The literal grammar of CPython on a [str] whose code points are below
    256: surrounding white space is dropped, one sign is allowed, then an
    optional [0x] or [0X] prefix (which one underscore may follow), then
    hexadecimal digits with single underscores between them. *)
Definition is_space (c : ascii) : bool :=
  let n := N_of_ascii c in
  (((9 <=? n) && (n <=? 13)) || ((28 <=? n) && (n <=? 32))
   || (n =? 133) || (n =? 160))%N%bool.

Definition hex_val (c : ascii) : option Z :=
  let n := N_of_ascii c in
  if ((48 <=? n) && (n <=? 57))%N then Some (Z.of_N n - 48)
  else if ((97 <=? n) && (n <=? 102))%N then Some (Z.of_N n - 87)
  else if ((65 <=? n) && (n <=? 70))%N then Some (Z.of_N n - 55)
  else None.

Fixpoint skip_spaces (s : string) : string :=
  match s with
  | String c s' => if is_space c then skip_spaces s' else s
  | EmptyString => EmptyString
  end.

Definition is_x (c : ascii) : bool := (Ascii.eqb c "x" || Ascii.eqb c "X")%bool.

Definition skip_prefix16 (s : string) : string :=
  match s with
  | String "0" (String c rest) =>
      if is_x c then
        match rest with
        | String "_" rest' => rest'
        | _ => rest
        end
      else s
  | _ => s
  end.

(** The digit scan: [acc] is the value read so far, [prev_us] tells
    whether the previous character was an underscore.  It returns the
    value and the unread rest, or [None] on a doubled or trailing
    underscore. *)
Fixpoint scan_hex (s : string) (acc : Z) (prev_us : bool)
  : option (Z * string) :=
  match s with
  | String c s' =>
      if Ascii.eqb c "_" then
        if prev_us then None else scan_hex s' acc true
      else
        match hex_val c with
        | Some d => scan_hex s' (16 * acc + d) false
        | None => if prev_us then None else Some (acc, s)
        end
  | EmptyString => if prev_us then None else Some (acc, s)
  end.

Definition int16 (s : string) : result Z :=
  let s1 := skip_spaces s in
  let '(neg, s2) :=
    match s1 with
    | String "+" r => (false, r)
    | String "-" r => (true, r)
    | _ => (false, s1)
    end in
  let s3 := skip_prefix16 s2 in
  if startswith s3 "_" then Raise ValueError_int
  else
    match scan_hex s3 0 false with
    | None => Raise ValueError_int
    | Some (v, rest) =>
        if (String.length rest =? String.length s3)%nat then Raise ValueError_int
        else
          match skip_spaces rest with
          | EmptyString => Ok (if neg then - v else v)
          | _ => Raise ValueError_int
          end
    end.

End Py.

Notation "x <- e ;; k" := (Py.bind e (fun x => k))
  (at level 61, e at next level, right associativity).

(* ------------------------------------------------------------------ *)
(** * Binary64 arithmetic                                               *)
(* ------------------------------------------------------------------ *)

(** Python's [float] is IEEE 754 binary64.  A finite value is kept as the
    rational it denotes, and every operation rounds its exact result to
    the nearest binary64 number, ties to even, with gradual underflow.
    The sign of zero is not kept: the script never divides by a float,
    prints one or takes its sign, so [-0.0] and [0.0] behave alike. *)
Module Float.

Inductive float : Type :=
| Fin (q : Q)
| Inf (negative : bool)
| NaN.

Definition pow2 (e : Z) : Q := Qpower (2 # 1) e.

(** [floor (log2 x)] for [x > 0]. *)
Definition flog2 (x : Q) : Z :=
  let l := Z.log2 (Qnum x) - Z.log2 (Zpos (Qden x)) in
  if Qle_bool (pow2 l) x then l else l - 1.

(** Exponent of the unit in the last place: 53 significant bits, and
    never below the subnormal spacing [2^-1074]. *)
Definition ulp_exp (x : Q) : Z := Z.max (flog2 x - 52) (-1074).

(** Nearest integer, ties to even. *)
Definition rne (y : Q) : Z :=
  let f := Qfloor y in
  match Qcompare (y - inject_Z f) (1 # 2) with
  | Lt => f
  | Gt => f + 1
  | Eq => if Z.even f then f else f + 1
  end.

Definition round_pos_raw (x : Q) : Q :=
  inject_Z (rne (x / pow2 (ulp_exp x))) * pow2 (ulp_exp x).

Definition round_pos (x : Q) : Q := Qred (round_pos_raw x).

(** Rounding to the binary64 grid, the exponent unbounded above. *)
Definition round (x : Q) : Q :=
  match Qcompare x 0 with
  | Eq => 0
  | Gt => round_pos x
  | Lt => - round_pos (- x)
  end.

Definition overflows (y : Q) : bool := Qle_bool (pow2 1024) (Qabs y).

(** The float nearest to an exact result. *)
Definition of_Q (x : Q) : float :=
  let y := round x in
  if overflows y then Inf (negb (Qle_bool 0 y)) else Fin y.

(** An integer literal that binary64 holds exactly, such as [360]. *)
Definition lit (n : Z) : float := Fin (inject_Z n).

(** [float(n)] as done implicitly by [int * float] and [int + float]. *)
Definition of_int (n : Z) : Py.result float :=
  match of_Q (inject_Z n) with
  | Fin q => Py.Ok (Fin q)
  | _ => Py.Raise Py.OverflowError
  end.

(** [a / b] on two [int]s: the correctly rounded quotient. *)
Definition truediv (a b : Z) : Py.result float :=
  if b =? 0 then Py.Raise Py.ZeroDivisionError
  else
    match of_Q (inject_Z a / inject_Z b) with
    | Fin q => Py.Ok (Fin q)
    | _ => Py.Raise Py.OverflowError
    end.

Definition is_neg (q : Q) : bool := negb (Qle_bool 0 q).

Definition is_zero (q : Q) : bool := Qeq_bool q 0.

Definition neg (x : float) : float :=
  match x with
  | Fin q => Fin (- q)
  | Inf s => Inf (negb s)
  | NaN => NaN
  end.

Definition add (x y : float) : float :=
  match x, y with
  | NaN, _ | _, NaN => NaN
  | Inf s, Inf s' => if Bool.eqb s s' then Inf s else NaN
  | Inf s, Fin _ | Fin _, Inf s => Inf s
  | Fin a, Fin b => of_Q (a + b)
  end.

Definition sub (x y : float) : float := add x (neg y).

Definition mul (x y : float) : float :=
  match x, y with
  | NaN, _ | _, NaN => NaN
  | Inf s, Inf s' => Inf (xorb s s')
  | Inf s, Fin a | Fin a, Inf s =>
      if is_zero a then NaN else Inf (xorb s (is_neg a))
  | Fin a, Fin b => of_Q (a * b)
  end.

(** [x > 0] *)
Definition gt0 (x : float) : bool :=
  match x with
  | Fin q => negb (Qle_bool q 0)
  | Inf s => negb s
  | NaN => false
  end.

(** [int(x)]: truncation toward zero. *)
Definition to_int (x : float) : Py.result Z :=
  match x with
  | Fin q => Py.Ok (Z.quot (Qnum q) (Zpos (Qden q)))
  | Inf _ => Py.Raise Py.OverflowError
  | NaN => Py.Raise Py.ValueError_nan
  end.

(** [n * x] and [n + x] with [n] an [int]. *)
Definition int_mul (n : Z) (x : float) : Py.result float :=
  f <- of_int n ;; Py.Ok (mul f x).

Definition int_add (n : Z) (x : float) : Py.result float :=
  f <- of_int n ;; Py.Ok (add f x).

(** The double nearest to pi, and [math.radians]' factor [pi / 180.0]. *)
Definition pi : Q := 884279719003555 # 281474976710656.

Definition deg_to_rad : float := of_Q (pi / 180).

Definition radians (degrees : Z) : Py.result float :=
  f <- of_int degrees ;; Py.Ok (mul f deg_to_rad).

(** Reading a value of the Standard Library's IEEE 754 model as a
    rational, to compare the two models. *)
Definition of_spec_float (f : SpecFloat.spec_float) : option Q :=
  match f with
  | SpecFloat.S754_zero _ => Some 0%Q
  | SpecFloat.S754_finite s m e =>
      Some (Qred (inject_Z (if s then Z.neg m else Z.pos m) * pow2 e))
  | _ => None
  end.

Definition spec_float_of_Z (n : Z) : SpecFloat.spec_float :=
  match n with
  | Z0 => SpecFloat.S754_zero false
  | Zpos p => SpecFloat.S754_finite false p 0
  | Zneg p => SpecFloat.S754_finite true p 0
  end.

End Float.

(* ------------------------------------------------------------------ *)
(** * Style definitions                                                 *)
(* ------------------------------------------------------------------ *)

(** A colour field is a hex string or a tuple ([str | tuple]). *)
Inductive color : Type :=
| CStr (s : string)
| CTuple (t : list Z).

(** [@dataclass class StyleConfig] *)
Module StyleConfig.
Record t : Type := mk {
  name : string;
  description : string;
  width : Z;
  height : Z;
  bg_color : color;
  text_color : color;
  font_size : Z;
  font_name : option string;
  separator : string;
  show_labels : bool;
  label_color : color;
  border : bool;
  border_color : color;
  border_width : Z;
  rounded_bg : bool;
  digit_bg_color : option color;
  glow : bool;
  progress_bar : bool;
  progress_color : color;
  gradient_bg : bool;
  gradient_colors : option (list color);
  circle_progress : bool;
  circle_color : color;
  monospace : bool
}.
End StyleConfig.

(** [@dataclass class CircleTimerConfig] *)
Module CircleTimerConfig.
Record t : Type := mk {
  name : string;
  description : string;
  width : Z;
  height : Z;
  bg_color : color;
  text_color : color;
  font_size : Z;
  wedge_color : color;
  wedge_alpha : Z;
  ring_color : color;
  ring_width : Z;
  tick_color : color;
  tick_major_len : Z;
  tick_minor_len : Z;
  show_ticks : bool;
  show_hour_numbers : bool;
  hour_number_color : color;
  center_dot : bool;
  center_dot_color : color;
  glow : bool;
  gradient_bg : bool;
  gradient_colors : option (list color)
}.
End CircleTimerConfig.

(** A [dict] with [str] keys: the items in insertion order.  Setting a
    key that is present replaces its value in place; a new key goes to
    the end. *)
Definition dict (V : Type) : Type := list (string * V).

Fixpoint dict_set {V : Type} (d : dict V) (k : string) (v : V) : dict V :=
  match d with
  | [] => [(k, v)]
  | (k', v') :: d' =>
      if String.eqb k' k then (k', v) :: d' else (k', v') :: dict_set d' k v
  end.

Fixpoint dict_get {V : Type} (d : dict V) (k : string) : option V :=
  match d with
  | [] => None
  | (k', v) :: d' => if String.eqb k' k then Some v else dict_get d' k
  end.

(** [k in d] *)
Definition dict_mem {V : Type} (d : dict V) (k : string) : bool :=
  match dict_get d k with Some _ => true | None => false end.

Definition dict_keys {V : Type} (d : dict V) : list string := map fst d.

(** A dict display [{k1: v1, ...}] and the unpacking [{**d, ...}]. *)
Definition dict_update {V : Type} (d : dict V) (items : list (string * V))
  : dict V :=
  fold_left (fun acc kv => dict_set acc (fst kv) (snd kv)) items d.

Definition dict_literal {V : Type} (items : list (string * V)) : dict V :=
  dict_update [] items.

Definition STYLES : dict StyleConfig.t :=
  dict_literal [
    ("modern",
     {|
        StyleConfig.name := "modern";
        StyleConfig.description := "Clean modern look with dark background and cyan text";
        StyleConfig.width := 1920;
        StyleConfig.height := 1080;
        StyleConfig.bg_color := (CStr "#0a0a0a");
        StyleConfig.text_color := (CStr "#00e5ff");
        StyleConfig.font_size := 280;
        StyleConfig.font_name := None;
        StyleConfig.separator := ":";
        StyleConfig.show_labels := true;
        StyleConfig.label_color := (CStr "#555555");
        StyleConfig.border := false;
        StyleConfig.border_color := (CStr "#000");
        StyleConfig.border_width := 0;
        StyleConfig.rounded_bg := true;
        StyleConfig.digit_bg_color := (Some (CStr "#1a1a2e"));
        StyleConfig.glow := false;
        StyleConfig.progress_bar := true;
        StyleConfig.progress_color := (CStr "#00e5ff");
        StyleConfig.gradient_bg := false;
        StyleConfig.gradient_colors := None;
        StyleConfig.circle_progress := false;
        StyleConfig.circle_color := (CStr "#000");
        StyleConfig.monospace := true
     |});
    ("classic",
     {|
        StyleConfig.name := "classic";
        StyleConfig.description := "Traditional white on black with serif-style digits";
        StyleConfig.width := 1920;
        StyleConfig.height := 1080;
        StyleConfig.bg_color := (CStr "#000000");
        StyleConfig.text_color := (CStr "#ffffff");
        StyleConfig.font_size := 300;
        StyleConfig.font_name := None;
        StyleConfig.separator := ":";
        StyleConfig.show_labels := false;
        StyleConfig.label_color := (CStr "#888");
        StyleConfig.border := true;
        StyleConfig.border_color := (CStr "#ffffff");
        StyleConfig.border_width := 4;
        StyleConfig.rounded_bg := false;
        StyleConfig.digit_bg_color := None;
        StyleConfig.glow := false;
        StyleConfig.progress_bar := false;
        StyleConfig.progress_color := (CStr "#000");
        StyleConfig.gradient_bg := false;
        StyleConfig.gradient_colors := None;
        StyleConfig.circle_progress := false;
        StyleConfig.circle_color := (CStr "#000");
        StyleConfig.monospace := true
     |});
    ("neon",
     {|
        StyleConfig.name := "neon";
        StyleConfig.description := "Neon glow effect on dark purple background";
        StyleConfig.width := 1920;
        StyleConfig.height := 1080;
        StyleConfig.bg_color := (CStr "#0d0221");
        StyleConfig.text_color := (CStr "#ff2afc");
        StyleConfig.font_size := 220;
        StyleConfig.font_name := None;
        StyleConfig.separator := " : ";
        StyleConfig.show_labels := false;
        StyleConfig.label_color := (CStr "#555");
        StyleConfig.border := false;
        StyleConfig.border_color := (CStr "#000");
        StyleConfig.border_width := 0;
        StyleConfig.rounded_bg := false;
        StyleConfig.digit_bg_color := None;
        StyleConfig.glow := true;
        StyleConfig.progress_bar := false;
        StyleConfig.progress_color := (CStr "#000");
        StyleConfig.gradient_bg := false;
        StyleConfig.gradient_colors := None;
        StyleConfig.circle_progress := false;
        StyleConfig.circle_color := (CStr "#000");
        StyleConfig.monospace := true
     |});
    ("minimal",
     {|
        StyleConfig.name := "minimal";
        StyleConfig.description := "Minimal white background with thin gray text";
        StyleConfig.width := 1920;
        StyleConfig.height := 1080;
        StyleConfig.bg_color := (CStr "#ffffff");
        StyleConfig.text_color := (CStr "#333333");
        StyleConfig.font_size := 260;
        StyleConfig.font_name := None;
        StyleConfig.separator := ":";
        StyleConfig.show_labels := true;
        StyleConfig.label_color := (CStr "#aaaaaa");
        StyleConfig.border := false;
        StyleConfig.border_color := (CStr "#000");
        StyleConfig.border_width := 0;
        StyleConfig.rounded_bg := false;
        StyleConfig.digit_bg_color := None;
        StyleConfig.glow := false;
        StyleConfig.progress_bar := false;
        StyleConfig.progress_color := (CStr "#000");
        StyleConfig.gradient_bg := false;
        StyleConfig.gradient_colors := None;
        StyleConfig.circle_progress := false;
        StyleConfig.circle_color := (CStr "#000");
        StyleConfig.monospace := true
     |});
    ("retro",
     {|
        StyleConfig.name := "retro";
        StyleConfig.description := "Retro LED display with amber digits on dark background";
        StyleConfig.width := 1920;
        StyleConfig.height := 1080;
        StyleConfig.bg_color := (CStr "#1a1000");
        StyleConfig.text_color := (CStr "#ff8c00");
        StyleConfig.font_size := 300;
        StyleConfig.font_name := None;
        StyleConfig.separator := ":";
        StyleConfig.show_labels := false;
        StyleConfig.label_color := (CStr "#555");
        StyleConfig.border := true;
        StyleConfig.border_color := (CStr "#332200");
        StyleConfig.border_width := 8;
        StyleConfig.rounded_bg := true;
        StyleConfig.digit_bg_color := (Some (CStr "#0f0a00"));
        StyleConfig.glow := true;
        StyleConfig.progress_bar := false;
        StyleConfig.progress_color := (CStr "#000");
        StyleConfig.gradient_bg := false;
        StyleConfig.gradient_colors := None;
        StyleConfig.circle_progress := false;
        StyleConfig.circle_color := (CStr "#000");
        StyleConfig.monospace := true
     |});
    ("gradient",
     {|
        StyleConfig.name := "gradient";
        StyleConfig.description := "Vibrant gradient background with white text";
        StyleConfig.width := 1920;
        StyleConfig.height := 1080;
        StyleConfig.bg_color := (CStr "#000000");
        StyleConfig.text_color := (CStr "#ffffff");
        StyleConfig.font_size := 280;
        StyleConfig.font_name := None;
        StyleConfig.separator := ":";
        StyleConfig.show_labels := true;
        StyleConfig.label_color := (CStr "#dddddd");
        StyleConfig.border := false;
        StyleConfig.border_color := (CStr "#000");
        StyleConfig.border_width := 0;
        StyleConfig.rounded_bg := false;
        StyleConfig.digit_bg_color := None;
        StyleConfig.glow := false;
        StyleConfig.progress_bar := true;
        StyleConfig.progress_color := (CStr "#ffffff");
        StyleConfig.gradient_bg := true;
        StyleConfig.gradient_colors := (Some [CStr "#667eea"; CStr "#764ba2"]);
        StyleConfig.circle_progress := false;
        StyleConfig.circle_color := (CStr "#000");
        StyleConfig.monospace := true
     |});
    ("terminal",
     {|
        StyleConfig.name := "terminal";
        StyleConfig.description := "Hacker-style green on black terminal look";
        StyleConfig.width := 1920;
        StyleConfig.height := 1080;
        StyleConfig.bg_color := (CStr "#0c0c0c");
        StyleConfig.text_color := (CStr "#00ff41");
        StyleConfig.font_size := 260;
        StyleConfig.font_name := None;
        StyleConfig.separator := ":";
        StyleConfig.show_labels := true;
        StyleConfig.label_color := (CStr "#006b1a");
        StyleConfig.border := true;
        StyleConfig.border_color := (CStr "#00ff41");
        StyleConfig.border_width := 2;
        StyleConfig.rounded_bg := false;
        StyleConfig.digit_bg_color := None;
        StyleConfig.glow := true;
        StyleConfig.progress_bar := false;
        StyleConfig.progress_color := (CStr "#000");
        StyleConfig.gradient_bg := false;
        StyleConfig.gradient_colors := None;
        StyleConfig.circle_progress := false;
        StyleConfig.circle_color := (CStr "#000");
        StyleConfig.monospace := true
     |});
    ("cinematic",
     {|
        StyleConfig.name := "cinematic";
        StyleConfig.description := "Cinematic widescreen with gold text on dark gradient";
        StyleConfig.width := 1920;
        StyleConfig.height := 1080;
        StyleConfig.bg_color := (CStr "#000000");
        StyleConfig.text_color := (CStr "#d4af37");
        StyleConfig.font_size := 220;
        StyleConfig.font_name := None;
        StyleConfig.separator := " : ";
        StyleConfig.show_labels := false;
        StyleConfig.label_color := (CStr "#555");
        StyleConfig.border := false;
        StyleConfig.border_color := (CStr "#000");
        StyleConfig.border_width := 0;
        StyleConfig.rounded_bg := false;
        StyleConfig.digit_bg_color := None;
        StyleConfig.glow := true;
        StyleConfig.progress_bar := false;
        StyleConfig.progress_color := (CStr "#000");
        StyleConfig.gradient_bg := true;
        StyleConfig.gradient_colors := (Some [CStr "#1a1a1a"; CStr "#000000"]);
        StyleConfig.circle_progress := false;
        StyleConfig.circle_color := (CStr "#000");
        StyleConfig.monospace := true
     |});
    ("sport",
     {|
        StyleConfig.name := "sport";
        StyleConfig.description := "Sporty bold red countdown with progress bar";
        StyleConfig.width := 1920;
        StyleConfig.height := 1080;
        StyleConfig.bg_color := (CStr "#111111");
        StyleConfig.text_color := (CStr "#ff1744");
        StyleConfig.font_size := 300;
        StyleConfig.font_name := None;
        StyleConfig.separator := ":";
        StyleConfig.show_labels := true;
        StyleConfig.label_color := (CStr "#666666");
        StyleConfig.border := false;
        StyleConfig.border_color := (CStr "#000");
        StyleConfig.border_width := 0;
        StyleConfig.rounded_bg := true;
        StyleConfig.digit_bg_color := (Some (CStr "#1c1c1c"));
        StyleConfig.glow := false;
        StyleConfig.progress_bar := true;
        StyleConfig.progress_color := (CStr "#ff1744");
        StyleConfig.gradient_bg := false;
        StyleConfig.gradient_colors := None;
        StyleConfig.circle_progress := false;
        StyleConfig.circle_color := (CStr "#000");
        StyleConfig.monospace := true
     |});
    ("elegant",
     {|
        StyleConfig.name := "elegant";
        StyleConfig.description := "Elegant cream background with dark brown text and circle progress";
        StyleConfig.width := 1920;
        StyleConfig.height := 1080;
        StyleConfig.bg_color := (CStr "#f5f0e8");
        StyleConfig.text_color := (CStr "#3e2723");
        StyleConfig.font_size := 180;
        StyleConfig.font_name := None;
        StyleConfig.separator := "  :  ";
        StyleConfig.show_labels := true;
        StyleConfig.label_color := (CStr "#8d6e63");
        StyleConfig.border := false;
        StyleConfig.border_color := (CStr "#000");
        StyleConfig.border_width := 0;
        StyleConfig.rounded_bg := false;
        StyleConfig.digit_bg_color := None;
        StyleConfig.glow := false;
        StyleConfig.progress_bar := false;
        StyleConfig.progress_color := (CStr "#000");
        StyleConfig.gradient_bg := false;
        StyleConfig.gradient_colors := None;
        StyleConfig.circle_progress := true;
        StyleConfig.circle_color := (CStr "#8d6e63");
        StyleConfig.monospace := true
     |})
  ].

Definition CIRCLE_STYLES : dict CircleTimerConfig.t :=
  dict_literal [
    ("circle-modern",
     {|
        CircleTimerConfig.name := "circle-modern";
        CircleTimerConfig.description := "Modern dark circle timer with cyan wedge";
        CircleTimerConfig.width := 1080;
        CircleTimerConfig.height := 1080;
        CircleTimerConfig.bg_color := (CStr "#0a0a0a");
        CircleTimerConfig.text_color := (CStr "#00e5ff");
        CircleTimerConfig.font_size := 90;
        CircleTimerConfig.wedge_color := (CStr "#00e5ff");
        CircleTimerConfig.wedge_alpha := 180;
        CircleTimerConfig.ring_color := (CStr "#00e5ff");
        CircleTimerConfig.ring_width := 6;
        CircleTimerConfig.tick_color := (CStr "#00e5ff");
        CircleTimerConfig.tick_major_len := 25;
        CircleTimerConfig.tick_minor_len := 12;
        CircleTimerConfig.show_ticks := true;
        CircleTimerConfig.show_hour_numbers := false;
        CircleTimerConfig.hour_number_color := (CStr "#555");
        CircleTimerConfig.center_dot := true;
        CircleTimerConfig.center_dot_color := (CStr "#00e5ff");
        CircleTimerConfig.glow := false;
        CircleTimerConfig.gradient_bg := false;
        CircleTimerConfig.gradient_colors := None
     |});
    ("circle-classic",
     {|
        CircleTimerConfig.name := "circle-classic";
        CircleTimerConfig.description := "Classic Time Timer style with red wedge on white";
        CircleTimerConfig.width := 1080;
        CircleTimerConfig.height := 1080;
        CircleTimerConfig.bg_color := (CStr "#ffffff");
        CircleTimerConfig.text_color := (CStr "#333333");
        CircleTimerConfig.font_size := 80;
        CircleTimerConfig.wedge_color := (CStr "#e53935");
        CircleTimerConfig.wedge_alpha := 200;
        CircleTimerConfig.ring_color := (CStr "#333333");
        CircleTimerConfig.ring_width := 5;
        CircleTimerConfig.tick_color := (CStr "#333333");
        CircleTimerConfig.tick_major_len := 30;
        CircleTimerConfig.tick_minor_len := 15;
        CircleTimerConfig.show_ticks := true;
        CircleTimerConfig.show_hour_numbers := true;
        CircleTimerConfig.hour_number_color := (CStr "#666666");
        CircleTimerConfig.center_dot := true;
        CircleTimerConfig.center_dot_color := (CStr "#333333");
        CircleTimerConfig.glow := false;
        CircleTimerConfig.gradient_bg := false;
        CircleTimerConfig.gradient_colors := None
     |});
    ("circle-neon",
     {|
        CircleTimerConfig.name := "circle-neon";
        CircleTimerConfig.description := "Neon glowing circle timer on dark purple";
        CircleTimerConfig.width := 1080;
        CircleTimerConfig.height := 1080;
        CircleTimerConfig.bg_color := (CStr "#0d0221");
        CircleTimerConfig.text_color := (CStr "#ff2afc");
        CircleTimerConfig.font_size := 90;
        CircleTimerConfig.wedge_color := (CStr "#ff2afc");
        CircleTimerConfig.wedge_alpha := 150;
        CircleTimerConfig.ring_color := (CStr "#ff2afc");
        CircleTimerConfig.ring_width := 4;
        CircleTimerConfig.tick_color := (CStr "#ff2afc");
        CircleTimerConfig.tick_major_len := 20;
        CircleTimerConfig.tick_minor_len := 10;
        CircleTimerConfig.show_ticks := true;
        CircleTimerConfig.show_hour_numbers := false;
        CircleTimerConfig.hour_number_color := (CStr "#555");
        CircleTimerConfig.center_dot := false;
        CircleTimerConfig.center_dot_color := (CStr "#000");
        CircleTimerConfig.glow := true;
        CircleTimerConfig.gradient_bg := false;
        CircleTimerConfig.gradient_colors := None
     |});
    ("circle-minimal",
     {|
        CircleTimerConfig.name := "circle-minimal";
        CircleTimerConfig.description := "Minimal circle timer with thin ring on white";
        CircleTimerConfig.width := 1080;
        CircleTimerConfig.height := 1080;
        CircleTimerConfig.bg_color := (CStr "#ffffff");
        CircleTimerConfig.text_color := (CStr "#333333");
        CircleTimerConfig.font_size := 80;
        CircleTimerConfig.wedge_color := (CStr "#90caf9");
        CircleTimerConfig.wedge_alpha := 140;
        CircleTimerConfig.ring_color := (CStr "#cccccc");
        CircleTimerConfig.ring_width := 2;
        CircleTimerConfig.tick_color := (CStr "#cccccc");
        CircleTimerConfig.tick_major_len := 15;
        CircleTimerConfig.tick_minor_len := 0;
        CircleTimerConfig.show_ticks := true;
        CircleTimerConfig.show_hour_numbers := false;
        CircleTimerConfig.hour_number_color := (CStr "#aaa");
        CircleTimerConfig.center_dot := false;
        CircleTimerConfig.center_dot_color := (CStr "#000");
        CircleTimerConfig.glow := false;
        CircleTimerConfig.gradient_bg := false;
        CircleTimerConfig.gradient_colors := None
     |});
    ("circle-retro",
     {|
        CircleTimerConfig.name := "circle-retro";
        CircleTimerConfig.description := "Retro amber circle timer with LED look";
        CircleTimerConfig.width := 1080;
        CircleTimerConfig.height := 1080;
        CircleTimerConfig.bg_color := (CStr "#1a1000");
        CircleTimerConfig.text_color := (CStr "#ff8c00");
        CircleTimerConfig.font_size := 90;
        CircleTimerConfig.wedge_color := (CStr "#ff8c00");
        CircleTimerConfig.wedge_alpha := 160;
        CircleTimerConfig.ring_color := (CStr "#ff8c00");
        CircleTimerConfig.ring_width := 5;
        CircleTimerConfig.tick_color := (CStr "#ff8c00");
        CircleTimerConfig.tick_major_len := 25;
        CircleTimerConfig.tick_minor_len := 12;
        CircleTimerConfig.show_ticks := true;
        CircleTimerConfig.show_hour_numbers := false;
        CircleTimerConfig.hour_number_color := (CStr "#555");
        CircleTimerConfig.center_dot := true;
        CircleTimerConfig.center_dot_color := (CStr "#ff8c00");
        CircleTimerConfig.glow := true;
        CircleTimerConfig.gradient_bg := false;
        CircleTimerConfig.gradient_colors := None
     |});
    ("circle-gradient",
     {|
        CircleTimerConfig.name := "circle-gradient";
        CircleTimerConfig.description := "Circle timer on vibrant purple gradient";
        CircleTimerConfig.width := 1080;
        CircleTimerConfig.height := 1080;
        CircleTimerConfig.bg_color := (CStr "#000000");
        CircleTimerConfig.text_color := (CStr "#ffffff");
        CircleTimerConfig.font_size := 80;
        CircleTimerConfig.wedge_color := (CStr "#ffffff");
        CircleTimerConfig.wedge_alpha := 120;
        CircleTimerConfig.ring_color := (CStr "#ffffff");
        CircleTimerConfig.ring_width := 4;
        CircleTimerConfig.tick_color := (CStr "#ffffffcc");
        CircleTimerConfig.tick_major_len := 20;
        CircleTimerConfig.tick_minor_len := 10;
        CircleTimerConfig.show_ticks := true;
        CircleTimerConfig.show_hour_numbers := false;
        CircleTimerConfig.hour_number_color := (CStr "#ddd");
        CircleTimerConfig.center_dot := true;
        CircleTimerConfig.center_dot_color := (CStr "#ffffff");
        CircleTimerConfig.glow := false;
        CircleTimerConfig.gradient_bg := true;
        CircleTimerConfig.gradient_colors := (Some [CStr "#667eea"; CStr "#764ba2"])
     |});
    ("circle-terminal",
     {|
        CircleTimerConfig.name := "circle-terminal";
        CircleTimerConfig.description := "Terminal green circle timer on black";
        CircleTimerConfig.width := 1080;
        CircleTimerConfig.height := 1080;
        CircleTimerConfig.bg_color := (CStr "#0c0c0c");
        CircleTimerConfig.text_color := (CStr "#00ff41");
        CircleTimerConfig.font_size := 80;
        CircleTimerConfig.wedge_color := (CStr "#00ff41");
        CircleTimerConfig.wedge_alpha := 130;
        CircleTimerConfig.ring_color := (CStr "#00ff41");
        CircleTimerConfig.ring_width := 3;
        CircleTimerConfig.tick_color := (CStr "#00ff41");
        CircleTimerConfig.tick_major_len := 20;
        CircleTimerConfig.tick_minor_len := 10;
        CircleTimerConfig.show_ticks := true;
        CircleTimerConfig.show_hour_numbers := false;
        CircleTimerConfig.hour_number_color := (CStr "#006b1a");
        CircleTimerConfig.center_dot := false;
        CircleTimerConfig.center_dot_color := (CStr "#000");
        CircleTimerConfig.glow := true;
        CircleTimerConfig.gradient_bg := false;
        CircleTimerConfig.gradient_colors := None
     |});
    ("circle-cinematic",
     {|
        CircleTimerConfig.name := "circle-cinematic";
        CircleTimerConfig.description := "Cinematic gold circle timer on dark gradient";
        CircleTimerConfig.width := 1080;
        CircleTimerConfig.height := 1080;
        CircleTimerConfig.bg_color := (CStr "#000000");
        CircleTimerConfig.text_color := (CStr "#d4af37");
        CircleTimerConfig.font_size := 90;
        CircleTimerConfig.wedge_color := (CStr "#d4af37");
        CircleTimerConfig.wedge_alpha := 160;
        CircleTimerConfig.ring_color := (CStr "#d4af37");
        CircleTimerConfig.ring_width := 5;
        CircleTimerConfig.tick_color := (CStr "#d4af37");
        CircleTimerConfig.tick_major_len := 25;
        CircleTimerConfig.tick_minor_len := 12;
        CircleTimerConfig.show_ticks := true;
        CircleTimerConfig.show_hour_numbers := true;
        CircleTimerConfig.hour_number_color := (CStr "#8a7a2a");
        CircleTimerConfig.center_dot := true;
        CircleTimerConfig.center_dot_color := (CStr "#d4af37");
        CircleTimerConfig.glow := true;
        CircleTimerConfig.gradient_bg := true;
        CircleTimerConfig.gradient_colors := (Some [CStr "#1a1a1a"; CStr "#000000"])
     |});
    ("circle-sport",
     {|
        CircleTimerConfig.name := "circle-sport";
        CircleTimerConfig.description := "Sporty red circle timer with bold digits";
        CircleTimerConfig.width := 1080;
        CircleTimerConfig.height := 1080;
        CircleTimerConfig.bg_color := (CStr "#111111");
        CircleTimerConfig.text_color := (CStr "#ff1744");
        CircleTimerConfig.font_size := 100;
        CircleTimerConfig.wedge_color := (CStr "#ff1744");
        CircleTimerConfig.wedge_alpha := 180;
        CircleTimerConfig.ring_color := (CStr "#ff1744");
        CircleTimerConfig.ring_width := 6;
        CircleTimerConfig.tick_color := (CStr "#ff1744");
        CircleTimerConfig.tick_major_len := 30;
        CircleTimerConfig.tick_minor_len := 15;
        CircleTimerConfig.show_ticks := true;
        CircleTimerConfig.show_hour_numbers := false;
        CircleTimerConfig.hour_number_color := (CStr "#666");
        CircleTimerConfig.center_dot := true;
        CircleTimerConfig.center_dot_color := (CStr "#ff1744");
        CircleTimerConfig.glow := false;
        CircleTimerConfig.gradient_bg := false;
        CircleTimerConfig.gradient_colors := None
     |});
    ("circle-elegant",
     {|
        CircleTimerConfig.name := "circle-elegant";
        CircleTimerConfig.description := "Elegant cream circle timer with brown wedge";
        CircleTimerConfig.width := 1080;
        CircleTimerConfig.height := 1080;
        CircleTimerConfig.bg_color := (CStr "#f5f0e8");
        CircleTimerConfig.text_color := (CStr "#3e2723");
        CircleTimerConfig.font_size := 80;
        CircleTimerConfig.wedge_color := (CStr "#8d6e63");
        CircleTimerConfig.wedge_alpha := 150;
        CircleTimerConfig.ring_color := (CStr "#3e2723");
        CircleTimerConfig.ring_width := 3;
        CircleTimerConfig.tick_color := (CStr "#8d6e63");
        CircleTimerConfig.tick_major_len := 25;
        CircleTimerConfig.tick_minor_len := 12;
        CircleTimerConfig.show_ticks := true;
        CircleTimerConfig.show_hour_numbers := true;
        CircleTimerConfig.hour_number_color := (CStr "#8d6e63");
        CircleTimerConfig.center_dot := true;
        CircleTimerConfig.center_dot_color := (CStr "#3e2723");
        CircleTimerConfig.glow := false;
        CircleTimerConfig.gradient_bg := false;
        CircleTimerConfig.gradient_colors := None
     |})
  ].

(** A style of either family; [isinstance(style, CircleTimerConfig)]
    tells them apart. *)
Inductive style : Type :=
| Digital (s : StyleConfig.t)
| Circle (c : CircleTimerConfig.t).

Definition style_description (s : style) : string :=
  match s with
  | Digital d => StyleConfig.description d
  | Circle c => CircleTimerConfig.description c
  end.

Definition style_width (s : style) : Z :=
  match s with
  | Digital d => StyleConfig.width d
  | Circle c => CircleTimerConfig.width c
  end.

Definition style_height (s : style) : Z :=
  match s with
  | Digital d => StyleConfig.height d
  | Circle c => CircleTimerConfig.height c
  end.

(** [ALL_STYLES = {**STYLES, **CIRCLE_STYLES}] *)
Definition ALL_STYLES : dict style :=
  dict_update
    (dict_update [] (map (fun kv => (fst kv, Digital (snd kv))) STYLES))
    (map (fun kv => (fst kv, Circle (snd kv))) CIRCLE_STYLES).

(* ------------------------------------------------------------------ *)
(** * Pillow: fonts, drawing calls and images                           *)
(* ------------------------------------------------------------------ *)

(** A font object, described by the call that made it. *)
Inductive font : Type :=
| truetype (path : string) (size : Z)
| load_default.

(** A coordinate or an angle handed to Pillow: an [int] or a [float]. *)
Inductive num : Type :=
| Int (n : Z)
| Flt (x : Float.float).

(** The [ImageDraw] calls of the script, with the arguments it passes;
    [None] stands for a keyword argument left at its default. *)
Inductive draw_op : Type :=
| line (xy : list (num * num)) (fill : list Z) (width : option Z)
| rectangle (xy : list Z) (fill outline : option (list Z)) (width : option Z)
| rounded_rectangle (xy : list Z) (radius : Z) (fill : list Z)
| arc (xy : list Z) (start end_ : num) (fill : list Z) (width : Z)
| text (xy : num * num) (txt : string) (fnt : font) (fill : list Z)
    (anchor : string)
| pieslice (xy : list Z) (start end_ : num) (fill : list Z)
| ellipse (xy : list Z) (fill outline : option (list Z)) (width : option Z).

(** An image, described by the calls that produced it. *)
Inductive image : Type :=
| Image_new (mode : string) (size : Z * Z) (fill : list Z)
| Draw (img : image) (op : draw_op)
| alpha_composite (im1 im2 : image)
| convert (img : image) (mode : string).

(** What the script takes from its platform: which font files exist and
    load, Pillow's text metrics ([draw.textbbox((0, 0), s, font=f,
    anchor="lt")], in whole pixels), libm's [cos] and [sin], and the
    bytes [img.save(path, "PNG", optimize=...)] writes for an image. *)
Record Env : Type := {
  path_exists : string -> bool;
  truetype_loads : string -> Z -> bool;
  textbbox : font -> string -> Z * Z * Z * Z;
  cos : Float.float -> Float.float;
  sin : Float.float -> Float.float;
  png_encode : image -> bool -> string
}.

(* ------------------------------------------------------------------ *)
(** * Time formatter                                                    *)
(* ------------------------------------------------------------------ *)

(** [format_time(total_seconds)]; [//] and [%] are floor division and the
    matching remainder, which [Z.div] and [Z.modulo] are. *)
Definition format_time (total_seconds : Z) : string * string * string :=
  let h := total_seconds / 3600 in
  let m := (total_seconds mod 3600) / 60 in
  let s := total_seconds mod 60 in
  (Py.format_0d 2 h, Py.format_0d 2 m, Py.format_0d 2 s).

(* ------------------------------------------------------------------ *)
(** * Rendering helpers                                                 *)
(* ------------------------------------------------------------------ *)

Import Py.

Section Rendering.

Variable E : Env.

Definition mono_font_candidates : list string :=
  [ "/System/Library/Fonts/SFMono-Bold.otf";
    "/System/Library/Fonts/Menlo.ttc";
    "/System/Library/Fonts/Courier.dfont";
    "/Library/Fonts/SF-Mono-Bold.otf";
    "/usr/share/fonts/truetype/dejavu/DejaVuSansMono-Bold.ttf";
    "/usr/share/fonts/truetype/liberation/LiberationMono-Bold.ttf";
    "/usr/share/fonts/truetype/ubuntu/UbuntuMono-Bold.ttf";
    "C:/Windows/Fonts/consola.ttf";
    "C:/Windows/Fonts/cour.ttf" ].

Definition label_font_candidates : list string :=
  [ "/System/Library/Fonts/SFMono-Regular.otf";
    "/System/Library/Fonts/Helvetica.ttc";
    "/usr/share/fonts/truetype/dejavu/DejaVuSans.ttf";
    "/usr/share/fonts/truetype/liberation/LiberationSans-Regular.ttf";
    "C:/Windows/Fonts/arial.ttf" ].

(** The probing loop: the first candidate that exists and loads. *)
Fixpoint probe_fonts (candidates : list string) (size : Z) : option font :=
  match candidates with
  | [] => None
  | path :: rest =>
      if path_exists E path then
        if truetype_loads E path size then Some (truetype path size)
        else probe_fonts rest size
      else probe_fonts rest size
  end.

Definition font_or_default (candidates : list string) (fallback : string)
  (size : Z) : font :=
  match probe_fonts candidates size with
  | Some f => f
  | None =>
      if truetype_loads E fallback size then truetype fallback size
      else load_default
  end.

Definition get_font_at_size (size : Z) : font :=
  font_or_default mono_font_candidates "DejaVuSansMono-Bold" size.

Definition get_label_font_at_size (size : Z) : font :=
  font_or_default label_font_candidates "DejaVuSans" size.

Definition get_font (style : StyleConfig.t) : font :=
  get_font_at_size (StyleConfig.font_size style).

Definition get_label_font (style : StyleConfig.t) : font :=
  get_label_font_at_size (StyleConfig.font_size style / 6).

Definition hex_to_rgb (c : color) : result (list Z) :=
  match c with
  | CTuple t => Ok t
  | CStr s =>
      let s := lstrip "#" s in
      r <- int16 (slice2 s 0) ;;
      g <- int16 (slice2 s 2) ;;
      b <- int16 (slice2 s 4) ;;
      Ok [r; g; b]
  end.

(** [int(top[k] + (bottom[k] - top[k]) * ratio)] *)
Definition gradient_channel (top bottom : list Z) (k : nat)
  (ratio : Float.float) : result Z :=
  t0 <- index top k ;;
  b0 <- index bottom k ;;
  t1 <- index top k ;;
  m <- Float.int_mul (b0 - t1) ratio ;;
  a <- Float.int_add t0 m ;;
  Float.to_int a.

Definition draw_gradient (img : image) (width height : Z)
  (top_color bottom_color : color) : result image :=
  top <- hex_to_rgb top_color ;;
  bottom <- hex_to_rgb bottom_color ;;
  for_each (range 0 height)
    (fun y img =>
       ratio <- Float.truediv y height ;;
       r <- gradient_channel top bottom 0 ratio ;;
       g <- gradient_channel top bottom 1 ratio ;;
       b <- gradient_channel top bottom 2 ratio ;;
       Ok (Draw img (line [(Int 0, Int y); (Int width, Int y)] [r; g; b] None)))
    img.

(** One layer of the glow: the text at every offset of the disc of
    radius [2 i]. *)
Definition glow_layer (img : image) (txt : string) (x y : Z) (fnt : font)
  (glow_color : list Z) (i : Z) : image :=
  fold_left
    (fun img dx =>
       fold_left
         (fun img dy =>
            if dx * dx + dy * dy <=? (i * 2) ^ 2
            then Draw img (text (Int (x + dx), Int (y + dy)) txt fnt
                             glow_color "mm")
            else img)
         (range (- i * 2) (i * 2 + 1)) img)
    (range (- i * 2) (i * 2 + 1)) img.

Definition draw_glow (img : image) (txt : string) (x y : Z) (fnt : font)
  (c : color) (layers : Z) : result image :=
  rgb <- hex_to_rgb c ;;
  for_each (range_down layers 0)
    (fun i img =>
       q <- Float.truediv 40 i ;;
       alpha <- Float.to_int q ;;
       r <- index rgb 0 ;;
       g <- index rgb 1 ;;
       b <- index rgb 2 ;;
       Ok (glow_layer img txt x y fnt [r; g; b; alpha] i))
    img.

Definition draw_rounded_rect (img : image) (bbox : list Z) (fill : list Z)
  (radius : Z) : image :=
  Draw img (rounded_rectangle bbox radius fill).

Definition draw_circle_progress (img : image) (cx cy radius : Z)
  (progress : Float.float) (c : color) (width : Z) : result image :=
  rgb <- hex_to_rgb c ;;
  let bbox := [cx - radius; cy - radius; cx + radius; cy + radius] in
  let img := Draw img (arc bbox (Int 0) (Int 360) (rgb ++ [60]) width) in
  let end_angle := Float.add (Float.lit (-90)) (Float.mul (Float.lit 360) progress) in
  if Float.gt0 progress
  then Ok (Draw img (arc bbox (Int (-90)) (Flt end_angle) rgb (width * 2)))
  else Ok img.

(* ------------------------------------------------------------------ *)
(** * Frame renderer                                                    *)
(* ------------------------------------------------------------------ *)

(** [1.0 - (total_seconds / total_duration) if total_duration > 0 else 1.0] *)
Definition progress_ratio (total_seconds total_duration : Z)
  : result Float.float :=
  if total_duration >? 0 then
    q <- Float.truediv total_seconds total_duration ;;
    Ok (Float.sub (Float.lit 1) q)
  else Ok (Float.lit 1).

(** Truth value of a [tuple | None] and of a [str | tuple | None]. *)
Definition tuple_truthy {A : Type} (o : option (list A)) : bool :=
  match o with
  | Some (_ :: _) => true
  | _ => false
  end.

Definition color_truthy (o : option color) : bool :=
  match o with
  | Some (CStr s) => negb (String.eqb s "")
  | Some (CTuple (_ :: _)) => true
  | _ => false
  end.

(** The gradient step shared by both renderers:
    [if style.gradient_bg and style.gradient_colors: draw_gradient(...)] *)
Definition gradient_background (img : image) (w h : Z) (gradient_bg : bool)
  (gradient_colors : option (list color)) : result image :=
  match gradient_colors with
  | Some gc =>
      if (gradient_bg && tuple_truthy gradient_colors)%bool then
        c0 <- index gc 0 ;;
        c1 <- index gc 1 ;;
        draw_gradient img w h c0 c1
      else Ok img
  | None => Ok img
  end.

(** The label block of [render_frame]. *)
Definition draw_labels (img : image) (style : StyleConfig.t)
  (fnt : font) (hh mm : string) (cx cy text_w text_h : Z) : result image :=
  let label_font := get_label_font style in
  let label_y := cy + text_h / 2 + 30 in
  let '(hh0, _, hh2, _) := textbbox E fnt hh in
  let '(sep0, _, sep2, _) := textbbox E fnt (StyleConfig.separator style) in
  let '(mm0, _, mm2, _) := textbbox E fnt mm in
  let hh_w := hh2 - hh0 in
  let sep_w := sep2 - sep0 in
  let mm_w := mm2 - mm0 in
  let start_x := cx - text_w / 2 in
  let hh_cx := start_x + hh_w / 2 in
  let mm_cx := start_x + hh_w + sep_w + mm_w / 2 in
  let ss_cx := start_x + hh_w + sep_w + mm_w + sep_w + hh_w / 2 in
  lc <- hex_to_rgb (StyleConfig.label_color style) ;;
  let img := Draw img (text (Int hh_cx, Int label_y) "HOURS" label_font lc "mt") in
  let img := Draw img (text (Int mm_cx, Int label_y) "MINUTES" label_font lc "mt") in
  let img := Draw img (text (Int ss_cx, Int label_y) "SECONDS" label_font lc "mt") in
  Ok img.

(** The progress bar block of [render_frame]. *)
Definition draw_progress_bar (img : image) (style : StyleConfig.t)
  (w h : Z) (progress : Float.float) : result image :=
  let bar_h := 6 in
  let bar_y := h - 40 in
  let bar_margin := 80 in
  let bar_w := w - bar_margin * 2 in
  pc <- hex_to_rgb (StyleConfig.progress_color style) ;;
  let img :=
    Draw img (rectangle [bar_margin; bar_y; bar_margin + bar_w; bar_y + bar_h]
                (Some (pc ++ [40])) None None) in
  f <- Float.int_mul bar_w progress ;;
  fill_w <- Float.to_int f ;;
  if fill_w >? 0
  then Ok (Draw img (rectangle [bar_margin; bar_y; bar_margin + fill_w;
                                bar_y + bar_h] (Some pc) None None))
  else Ok img.

(** [render_frame] from its fourth line on: the composition of a frame
    for the formatted time and the progress ratio. *)
Definition render_frame_body (style : StyleConfig.t) (hh mm ss : string)
  (progress : Float.float) : result image :=
  let w := StyleConfig.width style in
  let h := StyleConfig.height style in
  let sep := StyleConfig.separator style in
  let time_text := hh +++ sep +++ mm +++ sep +++ ss in
  (* Create image (RGBA for glow support) *)
  bg <- hex_to_rgb (StyleConfig.bg_color style) ;;
  let img := Image_new "RGBA" (w, h) (bg ++ [255]) in
  (* Gradient background *)
  img <- gradient_background img w h (StyleConfig.gradient_bg style)
           (StyleConfig.gradient_colors style) ;;
  (* Border *)
  img <- (if StyleConfig.border style then
            let bw := StyleConfig.border_width style in
            bc <- hex_to_rgb (StyleConfig.border_color style) ;;
            Ok (Draw img (rectangle [bw / 2; bw / 2; w - bw / 2; h - bw / 2]
                            None (Some bc) (Some bw)))
          else Ok img) ;;
  let fnt := get_font style in
  (* Measure text *)
  let '(b0, b1, b2, b3) := textbbox E fnt time_text in
  let text_w := b2 - b0 in
  let text_h := b3 - b1 in
  (* Center position *)
  let cx := w / 2 in
  let cy := h / 2 in
  (* Rounded digit background *)
  img <- (match StyleConfig.digit_bg_color style with
          | Some dbc =>
              if (StyleConfig.rounded_bg style
                  && color_truthy (StyleConfig.digit_bg_color style))%bool then
                let pad_x := 60 in
                let pad_y := 40 in
                let rect_bbox :=
                  [cx - text_w / 2 - pad_x; cy - text_h / 2 - pad_y;
                   cx + text_w / 2 + pad_x; cy + text_h / 2 + pad_y] in
                fill <- hex_to_rgb dbc ;;
                Ok (draw_rounded_rect img rect_bbox fill 30)
              else Ok img
          | None => Ok img
          end) ;;
  (* Circle progress *)
  img <- (if StyleConfig.circle_progress style then
            let radius := Z.min w h / 2 - 60 in
            draw_circle_progress img cx cy radius progress
              (StyleConfig.circle_color style) 8
          else Ok img) ;;
  (* Glow effect *)
  img <- (if StyleConfig.glow style then
            draw_glow img time_text cx cy fnt (StyleConfig.text_color style) 4
          else Ok img) ;;
  (* Main text *)
  tc <- hex_to_rgb (StyleConfig.text_color style) ;;
  let img := Draw img (text (Int cx, Int cy) time_text fnt tc "mm") in
  (* Labels *)
  img <- (if StyleConfig.show_labels style then
            draw_labels img style fnt hh mm cx cy text_w text_h
          else Ok img) ;;
  (* Progress bar *)
  img <- (if StyleConfig.progress_bar style then
            draw_progress_bar img style w h progress
          else Ok img) ;;
  (* Convert to RGB for PNG output *)
  Ok (convert img "RGB").

Definition render_frame (style : StyleConfig.t)
  (total_seconds total_duration : Z) : result image :=
  let '(hh, mm, ss) := format_time total_seconds in
  progress <- progress_ratio total_seconds total_duration ;;
  render_frame_body style hh mm ss progress.

(* ------------------------------------------------------------------ *)
(** * Circle (Time Timer) frame renderer                                *)
(* ------------------------------------------------------------------ *)

(** [total_seconds / total_duration if total_duration > 0 else 0.0] *)
Definition remaining_ratio (total_seconds total_duration : Z)
  : result Float.float :=
  if total_duration >? 0 then Float.truediv total_seconds total_duration
  else Ok (Float.lit 0).

(** The point [(cx + r * cos(a), cy + r * sin(a))]. *)
Definition polar (cx cy r : Z) (angle_rad : Float.float)
  : result (num * num) :=
  mx <- Float.int_mul r (cos E angle_rad) ;;
  px <- Float.int_add cx mx ;;
  my <- Float.int_mul r (sin E angle_rad) ;;
  py <- Float.int_add cy my ;;
  Ok (Flt px, Flt py).

(** The pie wedge, drawn on a layer of its own and composited. *)
Definition draw_wedge (img : image) (w h cx cy radius : Z)
  (ratio : Float.float) (wedge_rgb : list Z) (wedge_alpha : Z) : image :=
  let wedge_layer := Image_new "RGBA" (w, h) [0; 0; 0; 0] in
  let sweep_angle := Float.mul ratio (Float.lit 360) in
  let start_angle := -90 in
  let end_angle := Float.add (Float.lit start_angle) sweep_angle in
  let wedge_bbox := [cx - radius; cy - radius; cx + radius; cy + radius] in
  let wedge_layer :=
    Draw wedge_layer
      (pieslice wedge_bbox (Int start_angle) (Flt end_angle)
         (wedge_rgb ++ [wedge_alpha])) in
  alpha_composite img wedge_layer.

Definition draw_ticks (img : image) (style : CircleTimerConfig.t)
  (cx cy radius : Z) (tick_rgb : list Z) : result image :=
  for_each (range 0 60)
    (fun i img =>
       angle_rad <- Float.radians (i * 6 - 90) ;;
       let is_major := i mod 5 =? 0 in
       let tick_len :=
         if is_major then CircleTimerConfig.tick_major_len style
         else CircleTimerConfig.tick_minor_len style in
       if tick_len <=? 0 then Ok img
       else
         let tick_width := if is_major then 3 else 1 in
         let ring_width := CircleTimerConfig.ring_width style in
         outer <- polar cx cy (radius - ring_width) angle_rad ;;
         inner <- polar cx cy (radius - ring_width - tick_len) angle_rad ;;
         Ok (Draw img (line [inner; outer] tick_rgb (Some tick_width))))
    img.

Definition draw_hour_numbers (img : image) (style : CircleTimerConfig.t)
  (cx cy radius : Z) : result image :=
  let num_font := get_label_font_at_size (CircleTimerConfig.font_size style / 3) in
  num_rgb <- hex_to_rgb (CircleTimerConfig.hour_number_color style) ;;
  for_each (range 0 12)
    (fun i img =>
       let hour_val := i * 2 in
       angle_rad <- Float.radians (i * 30 - 90) ;;
       let num_r :=
         radius - CircleTimerConfig.ring_width style
         - Z.max (CircleTimerConfig.tick_major_len style)
                 (CircleTimerConfig.tick_minor_len style) - 30 in
       n <- polar cx cy num_r angle_rad ;;
       Ok (Draw img (text n (str hour_val) num_font num_rgb "mm")))
    img.

(** [render_circle_frame] from its fourth line on. *)
Definition render_circle_frame_body (style : CircleTimerConfig.t)
  (hh mm ss : string) (ratio : Float.float) : result image :=
  let w := CircleTimerConfig.width style in
  let h := CircleTimerConfig.height style in
  let time_text := hh +++ ":" +++ mm +++ ":" +++ ss in
  (* Create base image *)
  bg <- hex_to_rgb (CircleTimerConfig.bg_color style) ;;
  let img := Image_new "RGBA" (w, h) (bg ++ [255]) in
  (* Gradient background *)
  img <- gradient_background img w h (CircleTimerConfig.gradient_bg style)
           (CircleTimerConfig.gradient_colors style) ;;
  let cx := w / 2 in
  let cy := h / 2 in
  let margin := 80 in
  let radius := Z.min w h / 2 - margin in
  wedge_rgb <- hex_to_rgb (CircleTimerConfig.wedge_color style) ;;
  ring_rgb <- hex_to_rgb (CircleTimerConfig.ring_color style) ;;
  tick_rgb <- hex_to_rgb (CircleTimerConfig.tick_color style) ;;
  (* Draw the pie wedge on a separate layer for alpha *)
  let img :=
    if Float.gt0 ratio
    then draw_wedge img w h cx cy radius ratio wedge_rgb
           (CircleTimerConfig.wedge_alpha style)
    else img in
  (* Outer ring *)
  let ring_bbox := [cx - radius; cy - radius; cx + radius; cy + radius] in
  let img :=
    Draw img (ellipse ring_bbox None (Some ring_rgb)
                (Some (CircleTimerConfig.ring_width style))) in
  (* Tick marks *)
  img <- (if CircleTimerConfig.show_ticks style
          then draw_ticks img style cx cy radius tick_rgb
          else Ok img) ;;
  (* Hour numbers around the circle *)
  img <- (if CircleTimerConfig.show_hour_numbers style
          then draw_hour_numbers img style cx cy radius
          else Ok img) ;;
  (* Center dot *)
  img <- (if CircleTimerConfig.center_dot style then
            let dot_r := 8 in
            dot_rgb <- hex_to_rgb (CircleTimerConfig.center_dot_color style) ;;
            Ok (Draw img (ellipse [cx - dot_r; cy - dot_r; cx + dot_r; cy + dot_r]
                            (Some dot_rgb) None None))
          else Ok img) ;;
  (* Digital time text in center *)
  let fnt := get_font_at_size (CircleTimerConfig.font_size style) in
  img <- (if CircleTimerConfig.glow style then
            draw_glow img time_text cx cy fnt
              (CircleTimerConfig.text_color style) 3
          else Ok img) ;;
  tc <- hex_to_rgb (CircleTimerConfig.text_color style) ;;
  let img := Draw img (text (Int cx, Int cy) time_text fnt tc "mm") in
  Ok (convert img "RGB").

Definition render_circle_frame (style : CircleTimerConfig.t)
  (total_seconds total_duration : Z) : result image :=
  let '(hh, mm, ss) := format_time total_seconds in
  ratio <- remaining_ratio total_seconds total_duration ;;
  render_circle_frame_body style hh mm ss ratio.

End Rendering.

(* ------------------------------------------------------------------ *)
(** * Main generation logic                                             *)
(* ------------------------------------------------------------------ *)

(** What a run does that can be seen from outside, plus one event per
    call of a frame renderer. *)
Inductive event : Type :=
| Printed (line : string)
| Makedirs (path : string)
| Rendered (is_circle : bool) (second total_duration : Z)
| Saved (path : string) (img : image) (optimize : bool).

(** How a piece of the program ends: it returns, calls [sys.exit], or
    lets an exception escape. *)
Inductive status (A : Type) : Type :=
| Returned (a : A)
| Exited (code : Z)
| Raised (e : Py.exn).
Arguments Returned {A} a.
Arguments Exited {A} code.
Arguments Raised {A} e.

(** A statement: the events it emits, in order, and how it ends. *)
Definition run (A : Type) : Type := list event * status A.

Module Run.

Definition ret {A : Type} (a : A) : run A := ([], Returned a).

Definition bind {A B : Type} (m : run A) (k : A -> run B) : run B :=
  let '(t, s) := m in
  match s with
  | Returned a => let '(t', s') := k a in (t ++ t', s')
  | Exited c => (t, Exited c)
  | Raised e => (t, Raised e)
  end.

Definition emit (e : event) : run unit := ([e], Returned tt).

Definition print (line : string) : run unit := emit (Printed line).

Definition lift {A : Type} (r : Py.result A) : run A :=
  match r with
  | Py.Ok a => ([], Returned a)
  | Py.Raise e => ([], Raised e)
  end.

Definition sys_exit {A : Type} (code : Z) : run A := ([], Exited code).

(** [for x in xs: body] over a loop state. *)
Fixpoint for_each {A S : Type} (xs : list A) (body : A -> S -> run S) (s : S)
  : run S :=
  match xs with
  | [] => ret s
  | x :: xs' => bind (body x s) (for_each xs' body)
  end.

End Run.

Notation "x <~ e ;; k" := (Run.bind e (fun x => k))
  (at level 61, e at next level, right associativity).
Notation "e ;;; k" := (Run.bind e (fun _ => k))
  (at level 61, right associativity).

(** The files a run has written: path and bytes, in order. *)
Definition files_written (E : Env) (trace : list event)
  : list (string * string) :=
  flat_map
    (fun ev =>
       match ev with
       | Saved path img optimize => [(path, png_encode E img optimize)]
       | _ => []
       end)
    trace.

(** The renderer calls of a run: the second each one was asked to show. *)
Definition renders (trace : list event) : list Z :=
  flat_map
    (fun ev =>
       match ev with
       | Rendered _ second _ => [second]
       | _ => []
       end)
    trace.

Definition prints (trace : list event) : list string :=
  flat_map
    (fun ev =>
       match ev with
       | Printed l => [l]
       | _ => []
       end)
    trace.

Definition backslash : string := String (ascii_of_N 92) EmptyString.

Section Sequencer.

Variable E : Env.

(** The loop variables of [generate_frames] that outlive an iteration:
    the frame counter and [img], unbound until the first render. *)
Record loop_state : Type := {
  frame_num : Z;
  img : option image
}.

Definition render_style (s : style) (second total_duration : Z)
  : run image :=
  match s with
  | Circle c =>
      Run.emit (Rendered true second total_duration) ;;;
      Run.lift (render_circle_frame E c second total_duration)
  | Digital d =>
      Run.emit (Rendered false second total_duration) ;;;
      Run.lift (render_frame E d second total_duration)
  end.

(** The progress report, printed every [fps * 60] frames. *)
Definition report_progress (fps total_frames second frame_num : Z)
  : run unit :=
  if frame_num mod (fps * 60) =? 0 then
    let remaining_minutes := (total_frames - frame_num) / (fps * 60) in
    let '(hh, mm, ss) := format_time second in
    percent <~ Run.lift (if total_frames =? 0
                         then Py.Raise Py.ZeroDivisionError
                         else Py.Ok (frame_num * 100 / total_frames)) ;;
    Run.print ("  Progress: " +++ Py.str frame_num +++ "/"
               +++ Py.str total_frames +++ " frames ("
               +++ Py.str percent +++ "%) - Timer at "
               +++ hh +++ ":" +++ mm +++ ":" +++ ss
               +++ " - ~" +++ Py.str remaining_minutes
               +++ " min of frames remaining")
  else Run.ret tt.

(** The body of [for sub_frame in range(fps)]. *)
Definition sub_frame_body (s : style) (frame_dir : string)
  (fps total_frames start_seconds second : Z)
  (sub_frame : Z) (st : loop_state) : run loop_state :=
  (* Only render unique time displays (1 per second for the timer) *)
  cur <~ (if sub_frame =? 0 then
            i <~ render_style s second start_seconds ;;
            Run.ret (Some i)
          else Run.ret (img st)) ;;
  i <~ Run.lift (match cur with
                 | Some i => Py.Ok i
                 | None => Py.Raise Py.UnboundLocalError
                 end) ;;
  let frame_path :=
    Py.path_join frame_dir
      ("frame_" +++ Py.format_0d 8 (frame_num st) +++ ".png") in
  Run.emit (Saved frame_path i true) ;;;
  let frame_num := frame_num st + 1 in
  report_progress fps total_frames second frame_num ;;;
  Run.ret {| frame_num := frame_num; img := cur |}.

(** [for second in range(start_seconds, start_seconds - duration - 1, -1)]
    with its [if second < 0: break]. *)
Fixpoint seconds_loop (s : style) (frame_dir : string)
  (fps total_frames start_seconds : Z) (seconds : list Z) (st : loop_state)
  : run loop_state :=
  match seconds with
  | [] => Run.ret st
  | second :: rest =>
      if second <? 0 then Run.ret st
      else
        st' <~ Run.for_each (Py.range 0 fps)
                 (sub_frame_body s frame_dir fps total_frames start_seconds
                    second) st ;;
        seconds_loop s frame_dir fps total_frames start_seconds rest st'
  end.

Definition generate_frames (style_name output_dir : string)
  (fps duration start_seconds : Z) : run unit :=
  match dict_get ALL_STYLES style_name with
  | None =>
      Run.print ("Unknown style: " +++ style_name) ;;;
      Run.print ("Available: " +++ Py.join ", " (dict_keys ALL_STYLES)) ;;;
      Run.sys_exit 1
  | Some s =>
      let frame_dir := Py.path_join output_dir style_name in
      Run.emit (Makedirs frame_dir) ;;;
      let total_frames := duration * fps in
      Run.print ("Generating " +++ style_name +++ " countdown: "
                 +++ Py.str total_frames +++ " frames at "
                 +++ Py.str fps +++ " fps") ;;;
      Run.print ("  Resolution: " +++ Py.str (style_width s) +++ "x"
                 +++ Py.str (style_height s)) ;;;
      Run.print ("  Output: " +++ frame_dir +++ "/") ;;;
      Run.print ("  Duration: " +++ Py.str duration +++ "s ("
                 +++ Py.str (duration / 3600) +++ "h "
                 +++ Py.str ((duration mod 3600) / 60) +++ "m "
                 +++ Py.str (duration mod 60) +++ "s)") ;;;
      Run.print "" ;;;
      st <~ seconds_loop s frame_dir fps total_frames start_seconds
              (Py.range_down start_seconds (start_seconds - duration - 1))
              {| frame_num := 0; img := None |} ;;
      Run.print (Py.nl +++ "Done! " +++ Py.str (frame_num st)
                 +++ " frames saved to " +++ frame_dir +++ "/") ;;;
      Run.print (Py.nl +++ "To create video with ffmpeg:") ;;;
      Run.print ("  ffmpeg -framerate " +++ Py.str fps +++ " -i "
                 +++ frame_dir +++ "/frame_%08d.png " +++ backslash) ;;;
      Run.print ("    -c:v libx264 -pix_fmt yuv420p -crf 18 countdown_"
                 +++ style_name +++ ".mp4")
  end.

Definition preview_style (style_name output_dir : string) : run unit :=
  match dict_get ALL_STYLES style_name with
  | None => Run.print ("Unknown style: " +++ style_name)
  | Some s =>
      Run.emit (Makedirs output_dir) ;;;
      (* Preview at 12:34:56 (representative time) *)
      let preview_seconds := 12 * 3600 + 34 * 60 + 56 in
      i <~ render_style s preview_seconds 86400 ;;
      let path :=
        Py.path_join output_dir ("preview_" +++ style_name +++ ".png") in
      Run.emit (Saved path i false) ;;;
      Run.print ("Preview saved: " +++ path)
  end.

(** The parsed command line.  [argparse] has already checked [style]
    against [list(ALL_STYLES.keys()) + ["all"]]. *)
Record Args : Type := {
  style_arg : string;
  fps_arg : Z;
  duration_arg : Z;
  start_arg : Z;
  output_arg : string;
  list_styles : bool;
  preview : bool;
  preview_all : bool
}.

Definition for_all_styles (body : string -> run unit) : run unit :=
  Run.for_each (dict_keys ALL_STYLES) (fun name _ => body name) tt.

(** The [--list-styles] branch of [main]. *)
Definition print_styles : run unit :=
  Run.print "Available countdown styles:" ;;;
  Run.print (Py.replicate 60 "-") ;;;
  Run.for_each ALL_STYLES
    (fun kv _ =>
       Run.print ("  " +++ Py.format_s 12 (fst kv) +++ " - "
                  +++ style_description (snd kv)))
    tt ;;;
  Run.print (Py.nl +++ "Total: "
             +++ Py.str (Z.of_nat (List.length ALL_STYLES)) +++ " styles").

Definition main (args : Args) : run unit :=
  if list_styles args then print_styles
  else if preview_all args then
    Run.print "Generating preview frames for all styles..." ;;;
    for_all_styles (fun name => preview_style name (output_arg args)) ;;;
    Run.print (Py.nl +++ "All previews saved to " +++ output_arg args +++ "/")
  else if preview args then
    if String.eqb (style_arg args) "all" then
      for_all_styles (fun name => preview_style name (output_arg args))
    else preview_style (style_arg args) (output_arg args)
  else if String.eqb (style_arg args) "all" then
    for_all_styles
      (fun name =>
         generate_frames name (output_arg args) (fps_arg args)
           (duration_arg args) (start_arg args))
  else
    generate_frames (style_arg args) (output_arg args) (fps_arg args)
      (duration_arg args) (start_arg args).

End Sequencer.

(* ------------------------------------------------------------------ *)
(** * Notions used to state the properties                              *)
(* ------------------------------------------------------------------ *)

(** Every exception [r] can raise satisfies [P]. *)
Definition raises_only {A : Type} (r : Py.result A) (P : Py.exn -> Prop)
  : Prop :=
  forall e, r = Py.Raise e -> P e.

(** The value [render_frame] computes for the progress ratio when
    [0 <= r <= t] and [0 < t]: the quotient rounded, taken from one, and
    rounded again. *)
Definition progress_value (r t : Z) : Q :=
  Float.round (1 + - Float.round (inject_Z r / inject_Z t)).

Definition is_hex (c : ascii) : bool :=
  match Py.hex_val c with Some _ => true | None => false end.

Definition hex_byte (a b : ascii) : Z :=
  match Py.hex_val a, Py.hex_val b with
  | Some x, Some y => 16 * x + y
  | _, _ => 0
  end.

(** The string, once its leading [#]s are gone, starts with six
    hexadecimal digits. *)
Definition six_hex_digits (s : string) : bool :=
  match Py.lstrip "#" s with
  | String a (String b (String c (String d (String e (String f _))))) =>
      is_hex a && is_hex b && is_hex c && is_hex d && is_hex e && is_hex f
  | _ => false
  end.

(** The three bytes those six digits spell. *)
Definition rgb_of_six (s : string) : list Z :=
  match Py.lstrip "#" s with
  | String a (String b (String c (String d (String e (String f _))))) =>
      [hex_byte a b; hex_byte c d; hex_byte e f]
  | _ => []
  end.

(** A colour that [hex_to_rgb] certainly resolves: any tuple, or a string
    with at least six hexadecimal digits. *)
Definition well_formed_color (c : color) : bool :=
  match c with
  | CTuple _ => true
  | CStr s => six_hex_digits s
  end.

(** The gradient colours a renderer resolves: both, once the gradient is
    switched on and the tuple has two entries. *)
Definition gradient_resolved (gradient_bg : bool)
  (gradient_colors : option (list color)) : list color :=
  match gradient_colors with
  | Some (c0 :: c1 :: _) => if gradient_bg then [c0; c1] else []
  | _ => []
  end.

(** The colours [render_frame] hands to [hex_to_rgb] for a style: the
    ones it always needs and the ones whose feature flag is on. *)
Definition resolved_colors (s : StyleConfig.t) : list color :=
  [StyleConfig.bg_color s]
  ++ gradient_resolved (StyleConfig.gradient_bg s) (StyleConfig.gradient_colors s)
  ++ (if StyleConfig.border s then [StyleConfig.border_color s] else [])
  ++ match StyleConfig.digit_bg_color s with
     | Some c =>
         if (StyleConfig.rounded_bg s
             && color_truthy (StyleConfig.digit_bg_color s))%bool
         then [c] else []
     | None => []
     end
  ++ (if StyleConfig.circle_progress s then [StyleConfig.circle_color s] else [])
  ++ [StyleConfig.text_color s]
  ++ (if StyleConfig.show_labels s then [StyleConfig.label_color s] else [])
  ++ (if StyleConfig.progress_bar s then [StyleConfig.progress_color s] else []).

(** The same for [render_circle_frame]; wedge, ring and tick colours are
    resolved whatever the flags say. *)
Definition circle_resolved_colors (c : CircleTimerConfig.t) : list color :=
  [CircleTimerConfig.bg_color c]
  ++ gradient_resolved (CircleTimerConfig.gradient_bg c)
       (CircleTimerConfig.gradient_colors c)
  ++ [CircleTimerConfig.wedge_color c; CircleTimerConfig.ring_color c;
      CircleTimerConfig.tick_color c]
  ++ (if CircleTimerConfig.show_hour_numbers c
      then [CircleTimerConfig.hour_number_color c] else [])
  ++ (if CircleTimerConfig.center_dot c
      then [CircleTimerConfig.center_dot_color c] else [])
  ++ [CircleTimerConfig.text_color c].

(** Exceptions of the arithmetic and of tuple indexing. *)
Definition arith_exn (e : Py.exn) : Prop :=
  e = Py.OverflowError \/ e = Py.ValueError_nan \/ e = Py.IndexError.

(** What a renderer can raise on a style with resolved colours [cs]: no
    division fault, and the literal error of [int(s, 16)] only when one of
    those colours is malformed. *)
Definition render_exn (cs : list color) (e : Py.exn) : Prop :=
  e <> Py.ZeroDivisionError /\
  (e = Py.ValueError_int ->
   exists c, In c cs /\ hex_to_rgb c = Py.Raise Py.ValueError_int).

(** Sizes the arithmetic of the renderers handles without overflow. *)
Definition small (n : Z) : bool := Z.abs n <=? 2 ^ 30.

(** The colour resolves to at least three channels of moderate size. *)
Definition color_ok (c : color) : bool :=
  match hex_to_rgb c with
  | Py.Ok (r :: g :: b :: _) => small r && small g && small b
  | _ => false
  end.

(** A gradient that is switched on has its two colours. *)
Definition gradient_ok (gradient_bg : bool)
  (gradient_colors : option (list color)) : bool :=
  match gradient_colors with
  | Some [_] => negb gradient_bg
  | _ => true
  end.

(** Conditions under which [render_frame] returns an image. *)
Definition style_ok (s : StyleConfig.t) : bool :=
  forallb color_ok (resolved_colors s)
  && gradient_ok (StyleConfig.gradient_bg s) (StyleConfig.gradient_colors s)
  && small (StyleConfig.width s).

(** Conditions under which [render_circle_frame] returns an image. *)
Definition circle_style_ok (c : CircleTimerConfig.t) : bool :=
  forallb color_ok (circle_resolved_colors c)
  && gradient_ok (CircleTimerConfig.gradient_bg c)
       (CircleTimerConfig.gradient_colors c)
  && small (CircleTimerConfig.width c)
  && small (CircleTimerConfig.height c)
  && small (CircleTimerConfig.ring_width c)
  && small (CircleTimerConfig.tick_major_len c)
  && small (CircleTimerConfig.tick_minor_len c).

Definition any_style_ok (s : style) : bool :=
  match s with
  | Digital d => style_ok d
  | Circle c => circle_style_ok c
  end.

(** Three channels of moderate size. *)
Definition channels (rgb : list Z) : Prop :=
  exists r g b rest,
    rgb = r :: g :: b :: rest /\
    (Z.abs r <= 2 ^ 30 /\ Z.abs g <= 2 ^ 30 /\ Z.abs b <= 2 ^ 30)%Z.


(** The seconds a countdown shows: from [start_seconds] down to
    [max (start_seconds - duration) 0]. *)
Definition countdown_seconds (duration start_seconds : Z) : list Z :=
  Py.range_down start_seconds (Z.max (start_seconds - duration) 0 - 1).

(** The path of frame number [k]. *)
Definition frame_path (frame_dir : string) (k : Z) : string :=
  Py.path_join frame_dir ("frame_" +++ Py.format_0d 8 k +++ ".png").

(** The renderer of a style's family. *)
Definition render_result (E : Env) (s : style) (second total_duration : Z)
  : Py.result image :=
  match s with
  | Circle c => render_circle_frame E c second total_duration
  | Digital d => render_frame E d second total_duration
  end.

(** The image it returns (an empty image stands for "none"). *)
Definition frame_image (E : Env) (s : style) (second total_duration : Z)
  : image :=
  match render_result E s second total_duration with
  | Py.Ok i => i
  | Py.Raise _ => Image_new "" (0, 0) []
  end.

(** The files of the [j]-th second of a run: [fps] copies of its image
    under consecutive numbers. *)
Definition second_files (E : Env) (s : style) (frame_dir : string)
  (fps start_seconds j second : Z) : list (string * string) :=
  map (fun i => (frame_path frame_dir (j * fps + i),
                 png_encode E (frame_image E s second start_seconds) true))
      (Py.range 0 fps).

Fixpoint expected_files (E : Env) (s : style) (frame_dir : string)
  (fps start_seconds j : Z) (seconds : list Z) : list (string * string) :=
  match seconds with
  | [] => []
  | second :: rest =>
      second_files E s frame_dir fps start_seconds j second
      ++ expected_files E s frame_dir fps start_seconds (j + 1) rest
  end.

(** A statement returns [a], having asked for the renders [rs] and
    written the files [fs]. *)
Definition run_yields {A : Type} (E : Env) (m : run A) (a : A)
  (rs : list Z) (fs : list (string * string)) : Prop :=
  snd m = Returned a /\ renders (fst m) = rs /\ files_written E (fst m) = fs.

(** The command line [--list-styles], the other flags at their defaults. *)
Definition list_styles_args : Args :=
  {| style_arg := "modern"; fps_arg := 30; duration_arg := 86400;
     start_arg := 86400; output_arg := "output"; list_styles := true;
     preview := false; preview_all := false |}.


(** The frame of a catalog style, by name. *)
Definition catalog_image (E : Env) (name : string)
  (second total_duration : Z) : image :=
  match dict_get ALL_STYLES name with
  | Some s => frame_image E s second total_duration
  | None => Image_new "" (0, 0) []
  end.

(** The strings an image shows: the texts of its [draw.text] calls, in
    drawing order. *)
Fixpoint texts (i : image) : list string :=
  match i with
  | Image_new _ _ _ => []
  | Draw i' (text _ txt _ _ _) => texts i' ++ [txt]
  | Draw i' _ => texts i'
  | alpha_composite a b => texts a ++ texts b
  | convert i' _ => texts i'
  end.

(** [img] is [base] with further drawing calls applied. *)
Inductive drawn_on (base : image) : image -> Prop :=
| drawn_base : drawn_on base base
| drawn_step (img : image) (op : draw_op) :
    drawn_on base img -> drawn_on base (Draw img op).

(** The compositing calls behind an image: each [alpha_composite] with
    the image it was applied to and the layer put over it. *)
Fixpoint composites (i : image) : list (image * image) :=
  match i with
  | Image_new _ _ _ => []
  | Draw i' _ => composites i'
  | alpha_composite a b => composites a ++ composites b ++ [(a, b)]
  | convert i' _ => composites i'
  end.

(** An example platform: a Linux machine with the DejaVu fonts, a
    monospace metric of 0.6 em per character, and stand-ins for libm and
    for the PNG encoder. *)
Definition sample_env : Env :=
  {| path_exists := fun p =>
       (String.eqb p "/usr/share/fonts/truetype/dejavu/DejaVuSansMono-Bold.ttf"
        || String.eqb p "/usr/share/fonts/truetype/dejavu/DejaVuSans.ttf")%bool;
     truetype_loads := fun _ _ => true;
     textbbox := fun f s =>
       match f with
       | truetype _ size =>
           (0, 0, size * 6 / 10 * Z.of_nat (String.length s), size)
       | load_default => (0, 0, 6 * Z.of_nat (String.length s), 11)
       end;
     cos := fun _ => Float.lit 1;
     sin := fun _ => Float.lit 0;
     png_encode := fun _ _ => "PNG" |}.

(** The wedge layer as the specification words it: a fully transparent
    layer of the canvas size with one pie slice, centred on the canvas,
    of radius half the shorter side minus 80, from -90 degrees through
    [ratio * 360] degrees further, in the wedge colour at the configured
    alpha. *)
Definition spec_wedge_layer (s : CircleTimerConfig.t) (ratio : Float.float)
  (wedge_rgb : list Z) : image :=
  let w := CircleTimerConfig.width s in
  let h := CircleTimerConfig.height s in
  let cx := w / 2 in
  let cy := h / 2 in
  let radius := Z.min w h / 2 - 80 in
  Draw (Image_new "RGBA" (w, h) [0; 0; 0; 0])
    (pieslice [cx - radius; cy - radius; cx + radius; cy + radius]
       (Int (-90))
       (Flt (Float.add (Float.lit (-90)) (Float.mul ratio (Float.lit 360))))
       (wedge_rgb ++ [CircleTimerConfig.wedge_alpha s])).

(** The measured width of a string. *)
Definition text_width (E : Env) (fnt : font) (s : string) : Z :=
  let '(x0, _, x1, _) := textbbox E fnt s in x1 - x0.

(** The centres of the three digit groups as the specification words
    them: from the measured widths of hours, separator, minutes, separator
    and seconds, the time text starting at [start_x]. *)
Definition spec_label_centers (E : Env) (fnt : font)
  (hh sep mm ss : string) (start_x : Z) : Z * Z * Z :=
  let hh_w := text_width E fnt hh in
  let sep_w := text_width E fnt sep in
  let mm_w := text_width E fnt mm in
  let ss_w := text_width E fnt ss in
  (start_x + hh_w / 2,
   start_x + hh_w + sep_w + mm_w / 2,
   start_x + hh_w + sep_w + mm_w + sep_w + ss_w / 2).

(** The labels of an image: text, horizontal position and font of the
    [draw.text] calls anchored at their top middle. *)
Fixpoint labels (i : image) : list (string * num * font) :=
  match i with
  | Image_new _ _ _ => []
  | Draw i' (text (x, _) txt fnt _ anchor) =>
      if String.eqb anchor "mt" then labels i' ++ [(txt, x, fnt)]
      else labels i'
  | Draw i' _ => labels i'
  | alpha_composite a b => labels a ++ labels b
  | convert i' _ => labels i'
  end.

(** The progress ratio computed with the Standard Library's IEEE 754
    operations on binary64, for comparison with the model above. *)
Definition spec_float_progress (r t : Z) : option Q :=
  Float.of_spec_float
    (SpecFloat.SFsub 53 1024 (Float.spec_float_of_Z 1)
       (SpecFloat.SFdiv 53 1024 (Float.spec_float_of_Z r)
          (Float.spec_float_of_Z t))).

Definition progress_agrees (r t : Z) : bool :=
  match spec_float_progress r t, progress_ratio r t with
  | Some q, Py.Ok (Float.Fin q') => Qeq_bool q q'
  | _, _ => false
  end.

(** Every instant of every span up to 48, and a few large spans. *)
Definition progress_samples : list (Z * Z) :=
  flat_map (fun t => map (fun r => (r, t)) (Py.range 0 (t + 1)))
           (Py.range 1 49)
  ++ [(45296, 86400); (1, 86400); (86399, 86400); (1, 3); (2, 3);
      (1, 2 ^ 60); (2 ^ 53 + 1, 2 ^ 54 + 3); (1, 2 ^ 1074); (3, 2 ^ 1075);
      (1, 2 ^ 1080); (10 ^ 30, 3 * 10 ^ 30 + 1)].

(* ------------------------------------------------------------------ *)
(** * Further notions: drawing calls, geometry, traces                  *)
(* ------------------------------------------------------------------ *)

(** A candidate the probing loop accepts: the file exists and loads. *)
Definition usable (E : Env) (size : Z) (path : string) : bool :=
  (path_exists E path && truetype_loads E path size)%bool.

(** Reading a formatted time back: the seconds its three numerals spell. *)
Definition decode_time (t : string * string * string) : Z :=
  let '(hh, mm, ss) := t in
  3600 * Py.dec_value hh + 60 * Py.dec_value mm + Py.dec_value ss.

(** Every character, by code. *)
Definition all_ascii : list ascii := map ascii_of_nat (seq 0 256).

(** A string of at most two characters that [int(s, 16)] accepts has a
    value from -15 to 255. *)
Definition int16_in_range (s : string) : bool :=
  match Py.int16 s with
  | Py.Ok v => (-15 <=? v) && (v <=? 255)
  | Py.Raise _ => true
  end.

(** The drawing calls [ops] applied to [img], in order. *)
Definition draw_all (img : image) (ops : list draw_op) : image :=
  fold_left Draw ops img.

(** One row of the gradient: a line across the canvas at height [y]. *)
Definition scanline (width y : Z) (c : list Z) : draw_op :=
  line [(Int 0, Int y); (Int width, Int y)] c None.

(** [v] lies between [a] and [b], whichever is the larger. *)
Definition between (a b v : Z) : Prop := Z.min a b <= v <= Z.max a b.

(** The offsets one glow layer visits, in the order of its two loops:
    the points of the square of half side [2 i] that lie in the disc of
    radius [2 i]. *)
Definition disc_offsets (i : Z) : list (Z * Z) :=
  filter (fun d => fst d * fst d + snd d * snd d <=? (i * 2) ^ 2)
         (list_prod (Py.range (- i * 2) (i * 2 + 1))
                    (Py.range (- i * 2) (i * 2 + 1))).

(** The text calls of a glow of [layers] layers around [(x, y)]: layer
    [i], from the outermost in, at alpha [40 // i]. *)
Definition glow_stamps (txt : string) (x y : Z) (fnt : font) (r g b : Z)
  (layers : Z) : list draw_op :=
  flat_map
    (fun i =>
       map (fun d => text (Int (x + fst d), Int (y + snd d)) txt fnt
                       [r; g; b; 40 / i] "mm")
           (disc_offsets i))
    (Py.range_down layers 0).

(** The width [draw_progress_bar] fills on a canvas [w] wide when [r] of
    [t] seconds remain: [int(bar_w * progress)] with [bar_w = w - 160]. *)
Definition bar_fill (w r t : Z) : Py.result Z :=
  progress <- progress_ratio r t ;;
  f <- Float.int_mul (w - 80 * 2) progress ;;
  Float.to_int f.

(** The end angle of the progress arc: [-90 + (360 * progress)]. *)
Definition ring_end_angle (progress : Float.float) : Float.float :=
  Float.add (Float.lit (-90)) (Float.mul (Float.lit 360) progress).

(** The drawing calls made on the canvas of an image, in order.  What was
    drawn on a layer composited over it is found through [composites]. *)
Fixpoint drawn (i : image) : list draw_op :=
  match i with
  | Image_new _ _ _ => []
  | Draw i' op => drawn i' ++ [op]
  | alpha_composite a _ => drawn a
  | convert i' _ => drawn i'
  end.

(** The [Image.new] call an image goes back to. *)
Fixpoint canvas (i : image) : image :=
  match i with
  | Image_new _ _ _ => i
  | Draw i' _ => canvas i'
  | alpha_composite a _ => canvas a
  | convert i' _ => canvas i'
  end.

(** Size and mode of an image: drawing keeps both, [alpha_composite]
    returns an image like its first argument, [convert] sets the mode. *)
Fixpoint image_size (i : image) : Z * Z :=
  match i with
  | Image_new _ size _ => size
  | Draw i' _ => image_size i'
  | alpha_composite a _ => image_size a
  | convert i' _ => image_size i'
  end.

Fixpoint image_mode (i : image) : string :=
  match i with
  | Image_new mode _ _ => mode
  | Draw i' _ => image_mode i'
  | alpha_composite a _ => image_mode a
  | convert _ mode => mode
  end.

Definition is_text (op : draw_op) : bool :=
  match op with
  | text _ _ _ _ _ => true
  | _ => false
  end.

(** A line with an explicit stroke width: the tick marks are the only
    such lines, the rows of the gradient leave the width at its default. *)
Definition is_tick (op : draw_op) : bool :=
  match op with
  | line _ _ (Some _) => true
  | _ => false
  end.

(** The [draw.text] calls on the canvas of an image, and its tick marks. *)
Definition text_calls (i : image) : list draw_op := filter is_text (drawn i).

Definition tick_calls (i : image) : list draw_op := filter is_tick (drawn i).

(** [b] is [a] with further drawing calls, all of which satisfy [P]. *)
Definition adds (P : draw_op -> Prop) (a b : image) : Prop :=
  exists ops, b = draw_all a ops /\ Forall P ops.

Definition is_circle (s : style) : bool :=
  match s with
  | Circle _ => true
  | Digital _ => false
  end.

(** The time string a frame of a style shows for a second. *)
Definition time_text (s : style) (second : Z) : string :=
  let '(hh, mm, ss) := format_time second in
  match s with
  | Digital d =>
      hh +++ StyleConfig.separator d +++ mm +++ StyleConfig.separator d +++ ss
  | Circle _ => hh +++ ":" +++ mm +++ ":" +++ ss
  end.

(** The strings and the labels among a list of drawing calls. *)
Definition op_texts (ops : list draw_op) : list string :=
  flat_map (fun op => match op with
                      | text _ txt _ _ _ => [txt]
                      | _ => []
                      end) ops.

Definition op_labels (ops : list draw_op) : list (string * num * font) :=
  flat_map (fun op => match op with
                      | text (x, _) txt fnt _ anchor =>
                          if String.eqb anchor "mt" then [(txt, x, fnt)] else []
                      | _ => []
                      end) ops.

(** The measured height of a string. *)
Definition text_height (E : Env) (fnt : font) (s : string) : Z :=
  let '(_, y0, _, y1) := textbbox E fnt s in y1 - y0.

(** The length of tick [i] of the dial: every fifth tick is a major one. *)
Definition tick_len (s : CircleTimerConfig.t) (i : Z) : Z :=
  if i mod 5 =? 0 then CircleTimerConfig.tick_major_len s
  else CircleTimerConfig.tick_minor_len s.

(** The radius of the dial: half the shorter side less the margin. *)
Definition dial_radius (s : CircleTimerConfig.t) : Z :=
  Z.min (CircleTimerConfig.width s) (CircleTimerConfig.height s) / 2 - 80.

(** Tick [i] as a drawing call: a line between the two points at angle
    [6 i - 90] degrees, [tick_len] apart, inside the ring. *)
Definition is_tick_call (E : Env) (s : CircleTimerConfig.t)
  (tick_rgb : list Z) (i : Z) (op : draw_op) : Prop :=
  let cx := CircleTimerConfig.width s / 2 in
  let cy := CircleTimerConfig.height s / 2 in
  let r := dial_radius s - CircleTimerConfig.ring_width s in
  exists angle inner outer,
    Float.radians (i * 6 - 90) = Py.Ok angle /\
    polar E cx cy r angle = Py.Ok outer /\
    polar E cx cy (r - tick_len s i) angle = Py.Ok inner /\
    op = line [inner; outer] tick_rgb (Some (if i mod 5 =? 0 then 3 else 1)).

(** Hour number [i] as a drawing call: the numeral of [2 i] at angle
    [30 i - 90] degrees, 30 pixels inside the longer ticks. *)
Definition is_hour_number_call (E : Env) (s : CircleTimerConfig.t)
  (num_rgb : list Z) (i : Z) (op : draw_op) : Prop :=
  let cx := CircleTimerConfig.width s / 2 in
  let cy := CircleTimerConfig.height s / 2 in
  let num_r :=
    dial_radius s - CircleTimerConfig.ring_width s
    - Z.max (CircleTimerConfig.tick_major_len s)
            (CircleTimerConfig.tick_minor_len s) - 30 in
  exists angle pos,
    Float.radians (i * 30 - 90) = Py.Ok angle /\
    polar E cx cy num_r angle = Py.Ok pos /\
    op = text pos (Py.str (i * 2))
           (get_label_font_at_size E (CircleTimerConfig.font_size s / 3))
           num_rgb "mm".

(** The background colour of a style of either family. *)
Definition style_bg_color (s : style) : color :=
  match s with
  | Digital d => StyleConfig.bg_color d
  | Circle c => CircleTimerConfig.bg_color c
  end.

Definition style_glow (s : style) : bool :=
  match s with
  | Digital d => StyleConfig.glow d
  | Circle c => CircleTimerConfig.glow c
  end.

(** The numerals of the hour ring, when the style shows it. *)
Definition hour_number_texts (s : style) : list string :=
  match s with
  | Circle c =>
      if CircleTimerConfig.show_hour_numbers c
      then ["0"; "2"; "4"; "6"; "8"; "10"; "12"; "14"; "16"; "18"; "20"; "22"]
      else []
  | Digital _ => []
  end.

(** The label strings, when the style shows them. *)
Definition label_texts (s : style) : list string :=
  match s with
  | Digital d =>
      if StyleConfig.show_labels d then ["HOURS"; "MINUTES"; "SECONDS"] else []
  | Circle _ => []
  end.

(** How often the glow stamps the text: four layers on a digital frame,
    three on a circular one. *)
Definition glow_count (s : style) : nat :=
  if style_glow s
  then match s with Digital _ => 372 | Circle _ => 175 end
  else 0.

(** Two digital styles that agree on every field [render_frame] reads:
    size, colours of background and text, font size, separator and the
    feature flags always; the colour and width fields of a feature only
    when its flag is on.  [name], [description], [font_name] and
    [monospace] are left out. *)
Definition same_look (a b : StyleConfig.t) : Prop :=
  StyleConfig.width a = StyleConfig.width b /\
  StyleConfig.height a = StyleConfig.height b /\
  StyleConfig.bg_color a = StyleConfig.bg_color b /\
  StyleConfig.text_color a = StyleConfig.text_color b /\
  StyleConfig.font_size a = StyleConfig.font_size b /\
  StyleConfig.separator a = StyleConfig.separator b /\
  StyleConfig.show_labels a = StyleConfig.show_labels b /\
  StyleConfig.border a = StyleConfig.border b /\
  StyleConfig.rounded_bg a = StyleConfig.rounded_bg b /\
  StyleConfig.glow a = StyleConfig.glow b /\
  StyleConfig.progress_bar a = StyleConfig.progress_bar b /\
  StyleConfig.gradient_bg a = StyleConfig.gradient_bg b /\
  StyleConfig.circle_progress a = StyleConfig.circle_progress b /\
  (StyleConfig.show_labels a = true ->
   StyleConfig.label_color a = StyleConfig.label_color b) /\
  (StyleConfig.border a = true ->
   StyleConfig.border_color a = StyleConfig.border_color b /\
   StyleConfig.border_width a = StyleConfig.border_width b) /\
  (StyleConfig.rounded_bg a = true ->
   StyleConfig.digit_bg_color a = StyleConfig.digit_bg_color b) /\
  (StyleConfig.progress_bar a = true ->
   StyleConfig.progress_color a = StyleConfig.progress_color b) /\
  (StyleConfig.gradient_bg a = true ->
   StyleConfig.gradient_colors a = StyleConfig.gradient_colors b) /\
  (StyleConfig.circle_progress a = true ->
   StyleConfig.circle_color a = StyleConfig.circle_color b).

(** The same for two circular styles and [render_circle_frame]: the
    colours of wedge, ring and ticks are read whatever the flags say. *)
Definition same_dial (a b : CircleTimerConfig.t) : Prop :=
  CircleTimerConfig.width a = CircleTimerConfig.width b /\
  CircleTimerConfig.height a = CircleTimerConfig.height b /\
  CircleTimerConfig.bg_color a = CircleTimerConfig.bg_color b /\
  CircleTimerConfig.text_color a = CircleTimerConfig.text_color b /\
  CircleTimerConfig.font_size a = CircleTimerConfig.font_size b /\
  CircleTimerConfig.wedge_color a = CircleTimerConfig.wedge_color b /\
  CircleTimerConfig.wedge_alpha a = CircleTimerConfig.wedge_alpha b /\
  CircleTimerConfig.ring_color a = CircleTimerConfig.ring_color b /\
  CircleTimerConfig.ring_width a = CircleTimerConfig.ring_width b /\
  CircleTimerConfig.tick_color a = CircleTimerConfig.tick_color b /\
  CircleTimerConfig.show_ticks a = CircleTimerConfig.show_ticks b /\
  CircleTimerConfig.show_hour_numbers a
  = CircleTimerConfig.show_hour_numbers b /\
  CircleTimerConfig.center_dot a = CircleTimerConfig.center_dot b /\
  CircleTimerConfig.glow a = CircleTimerConfig.glow b /\
  CircleTimerConfig.gradient_bg a = CircleTimerConfig.gradient_bg b /\
  (CircleTimerConfig.show_ticks a = true \/
   CircleTimerConfig.show_hour_numbers a = true ->
   CircleTimerConfig.tick_major_len a = CircleTimerConfig.tick_major_len b /\
   CircleTimerConfig.tick_minor_len a = CircleTimerConfig.tick_minor_len b) /\
  (CircleTimerConfig.show_hour_numbers a = true ->
   CircleTimerConfig.hour_number_color a
   = CircleTimerConfig.hour_number_color b) /\
  (CircleTimerConfig.center_dot a = true ->
   CircleTimerConfig.center_dot_color a
   = CircleTimerConfig.center_dot_color b) /\
  (CircleTimerConfig.gradient_bg a = true ->
   CircleTimerConfig.gradient_colors a = CircleTimerConfig.gradient_colors b).

(** The line of the progress report after [frame_num] frames, while
    second [second] is on display. *)
Definition progress_line (fps total_frames second frame_num : Z) : string :=
  let '(hh, mm, ss) := format_time second in
  "  Progress: " +++ Py.str frame_num +++ "/" +++ Py.str total_frames
  +++ " frames (" +++ Py.str (frame_num * 100 / total_frames)
  +++ "%) - Timer at " +++ hh +++ ":" +++ mm +++ ":" +++ ss
  +++ " - ~" +++ Py.str ((total_frames - frame_num) / (fps * 60))
  +++ " min of frames remaining".

(** The events of one pass of the inner loop of [generate_frames]: frame
    number [k], sub-frame [sub_frame] of second [second]. *)
Definition frame_events (E : Env) (s : style) (frame_dir : string)
  (fps total_frames start_seconds second k sub_frame : Z) : list event :=
  (if sub_frame =? 0
   then [Rendered (is_circle s) second start_seconds] else [])
  ++ [Saved (frame_path frame_dir k)
        (frame_image E s second start_seconds) true]
  ++ (if (k + 1) mod (fps * 60) =? 0
      then [Printed (progress_line fps total_frames second (k + 1))]
      else []).

(** The events of the [j]-th second of a run, and of the seconds from the
    [j]-th on. *)
Definition second_events (E : Env) (s : style) (frame_dir : string)
  (fps total_frames start_seconds j second : Z) : list event :=
  flat_map
    (fun i => frame_events E s frame_dir fps total_frames start_seconds
                second (j * fps + i) i)
    (Py.range 0 fps).

Fixpoint loop_events (E : Env) (s : style) (frame_dir : string)
  (fps total_frames start_seconds j : Z) (seconds : list Z) : list event :=
  match seconds with
  | [] => []
  | second :: rest =>
      second_events E s frame_dir fps total_frames start_seconds j second
      ++ loop_events E s frame_dir fps total_frames start_seconds (j + 1) rest
  end.



(** The directories a run has asked for, in order. *)
Definition dirs_made (trace : list event) : list string :=
  flat_map
    (fun ev =>
       match ev with
       | Makedirs path => [path]
       | _ => []
       end)
    trace.

(** The progress lines of a run of [n] seconds: one after the last frame
    of every sixtieth second. *)
Definition progress_lines (fps total_frames start_seconds : Z) (n : nat)
  : list string :=
  flat_map
    (fun j =>
       if (j + 1) mod 60 =? 0
       then [progress_line fps total_frames (start_seconds - j)
               ((j + 1) * fps)]
       else [])
    (Py.range 0 (Z.of_nat n)).

(* ------------------------------------------------------------------ *)
(** * Properties of the Python primitives                               *)
(* ------------------------------------------------------------------ *)

Section DecimalFacts.

Import Py.

Lemma string_length_app (a b : string) :
  String.length (a ++ b) = (String.length a + String.length b)%nat.
Proof. induction a as [|c a IH]; simpl; [reflexivity | now rewrite IH]. Qed.

Lemma string_length_replicate k c : String.length (replicate k c) = k.
Proof. induction k; simpl; congruence. Qed.

Lemma all_digits_app a b :
  all_digits (a ++ b) = all_digits a && all_digits b.
Proof.
  induction a as [|c a IH]; simpl; [reflexivity|].
  now rewrite IH, andb_assoc.
Qed.

Lemma dec_value_from_app a b acc :
  dec_value_from acc (a ++ b) = dec_value_from (dec_value_from acc a) b.
Proof. revert acc; induction a as [|c a IH]; simpl; intros; auto. Qed.

Lemma digit_char_ok d :
  0 <= d < 10 ->
  is_digit (digit_char d) = true /\ digit_val (digit_char d) = d.
Proof.
  intros H.
  assert (E : d = 0 \/ d = 1 \/ d = 2 \/ d = 3 \/ d = 4 \/ d = 5 \/ d = 6
              \/ d = 7 \/ d = 8 \/ d = 9) by lia.
  repeat (destruct E as [-> | E]; [split; reflexivity|]).
  subst; split; reflexivity.
Qed.

Lemma str_digits_spec fuel : forall n,
  0 <= n < 10 ^ Z.of_nat fuel ->
  all_digits (str_digits fuel n) = true /\
  dec_value_from 0 (str_digits fuel n) = n /\
  (n < 10 -> fuel <> O -> String.length (str_digits fuel n) = 1%nat) /\
  (10 <= n -> (2 <= String.length (str_digits fuel n))%nat) /\
  (n < 100 -> (String.length (str_digits fuel n) <= 2)%nat).
Proof.
  induction fuel as [|f IH]; intros n Hn.
  - simpl in Hn. assert (n = 0) by lia. subst. simpl.
    repeat split; try lia; congruence.
  - cbn [str_digits].
    assert (Hm : 0 <= n mod 10 < 10) by (apply Z.mod_pos_bound; lia).
    destruct (digit_char_ok _ Hm) as [Hd Hv].
    destruct (Z.ltb_spec n 10) as [Hlt | Hge].
    + simpl. rewrite Hd, Hv. rewrite Z.mod_small by lia.
      repeat split; auto; lia.
    + assert (Hq : 0 <= n / 10 < 10 ^ Z.of_nat f).
      { split; [apply Z.div_pos; lia|].
        apply Z.div_lt_upper_bound; [lia|].
        rewrite Nat2Z.inj_succ, Z.pow_succ_r in Hn by lia. lia. }
      destruct (IH _ Hq) as (A & V & L1 & L2 & L3).
      assert (Hf : f <> O) by (intros ->; simpl in Hq; lia).
      rewrite all_digits_app, dec_value_from_app, string_length_app, A, V.
      cbn [all_digits dec_value_from String.length andb]. rewrite Hd, Hv.
      split; [reflexivity|]. split; [|split; [lia|split]].
      * pose proof (Z.div_mod n 10 ltac:(lia)). lia.
      * intros _. destruct (Z.ltb_spec (n / 10) 10).
        { rewrite L1 by (auto; lia). lia. }
        { specialize (L2 ltac:(lia)). lia. }
      * intros H100.
        assert (n / 10 < 10) by (apply Z.div_lt_upper_bound; lia).
        rewrite L1 by auto. lia.
Qed.

Lemma str_nat_fuel n : 0 <= n -> n < 10 ^ Z.of_nat (S (Z.to_nat (Z.log2 n))).
Proof.
  intros Hn.
  destruct (Z.eq_dec n 0) as [-> | Hnz]; [reflexivity|].
  rewrite Nat2Z.inj_succ, Z2Nat.id by apply Z.log2_nonneg.
  pose proof (Z.log2_spec n ltac:(lia)) as [_ Hu].
  eapply Z.lt_le_trans; [exact Hu|].
  apply Z.pow_le_mono_l. pose proof (Z.log2_nonneg n). lia.
Qed.

Lemma str_nat_spec n :
  0 <= n ->
  all_digits (str_nat n) = true /\ dec_value (str_nat n) = n /\
  (n < 10 -> String.length (str_nat n) = 1%nat) /\
  (10 <= n -> (2 <= String.length (str_nat n))%nat) /\
  (n < 100 -> (String.length (str_nat n) <= 2)%nat).
Proof.
  intros Hn. unfold str_nat, dec_value.
  destruct (str_digits_spec _ n (conj Hn (str_nat_fuel n Hn)))
    as (A & V & L1 & L2 & L3).
  repeat split; auto.
Qed.

Lemma all_digits_replicate_0 k : all_digits (replicate k "0") = true.
Proof. induction k; simpl; auto. Qed.

Lemma dec_value_from_replicate_0 k s :
  dec_value_from 0 (replicate k "0" ++ s) = dec_value_from 0 s.
Proof. induction k; simpl; auto. Qed.

Lemma str_digits_length_le fuel : forall n w,
  0 <= n < 10 ^ Z.of_nat w -> (1 <= w)%nat -> fuel <> O ->
  (String.length (str_digits fuel n) <= w)%nat.
Proof.
  induction fuel as [|f IH]; intros n w Hn Hw Hf; [congruence|].
  cbn [str_digits]. rewrite string_length_app. cbn [String.length].
  destruct (Z.ltb_spec n 10) as [Hlt | Hge]; [simpl; lia|].
  destruct w as [|w]; [lia|].
  destruct f as [|f'].
  - simpl. lia.
  - assert (Hq : 0 <= n / 10 < 10 ^ Z.of_nat w).
    { split; [apply Z.div_pos; lia|].
      apply Z.div_lt_upper_bound; [lia|].
      rewrite Nat2Z.inj_succ, Z.pow_succ_r in Hn by lia. lia. }
    assert (Hw1 : (1 <= w)%nat).
    { destruct w; [|lia]. simpl in Hq.
      assert (1 <= n / 10) by (apply Z.div_le_lower_bound; lia). lia. }
    specialize (IH (n / 10) w Hq Hw1 ltac:(discriminate)). lia.
Qed.

(** What [f"{n:0wd}"] is on a non-negative integer: the digits of [n],
    at least [w] of them, and exactly [w] while [n < 10^w]. *)
Lemma format_0d_spec w n :
  0 <= n -> (1 <= w)%nat ->
  let s := format_0d w n in
  all_digits s = true /\ dec_value s = n /\
  (w <= String.length s)%nat /\
  (n < 10 ^ Z.of_nat w -> String.length s = w).
Proof.
  intros Hn Hw s. subst s. unfold format_0d.
  destruct (Z.ltb_spec n 0); [lia|].
  destruct (str_nat_spec n Hn) as (A & V & L1 & L2 & L3).
  unfold zfill, dec_value in *.
  rewrite all_digits_app, all_digits_replicate_0, dec_value_from_replicate_0,
    string_length_app, string_length_replicate, A, V.
  repeat split; auto; [lia|].
  intros Hlt.
  pose proof (str_digits_length_le (S (Z.to_nat (Z.log2 n))) n w
                (conj Hn Hlt) Hw ltac:(discriminate)) as L.
  fold (str_nat n) in L. lia.
Qed.

(** What [f"{n:02d}"] is on a non-negative integer. *)
Lemma format_02d_spec n :
  0 <= n ->
  let s := format_0d 2 n in
  all_digits s = true /\ dec_value s = n /\
  (n < 100 -> String.length s = 2%nat) /\
  (2 <= String.length s)%nat /\
  (n < 10 -> s = "0" +++ str_nat n) /\
  (10 <= n -> s = str_nat n).
Proof.
  intros Hn s. subst s. unfold format_0d.
  destruct (Z.ltb_spec n 0); [lia|].
  destruct (str_nat_spec n Hn) as (A & V & L1 & L2 & L3).
  unfold zfill, dec_value in *.
  rewrite all_digits_app, all_digits_replicate_0, dec_value_from_replicate_0,
    string_length_app, string_length_replicate, A, V.
  repeat split; auto.
  - intros H100. specialize (L3 H100). destruct (Z.ltb_spec n 10).
    + rewrite L1 by lia. reflexivity.
    + specialize (L2 ltac:(lia)). lia.
  - lia.
  - intros H10. rewrite L1 by lia. reflexivity.
  - intros H10. specialize (L2 H10).
    replace (2 - String.length (str_nat n))%nat with O by lia. reflexivity.
Qed.

End DecimalFacts.

(** C3. For every non-negative [total_seconds], [format_time] returns three
    strings of decimal digits: HH reads back as [total_seconds / 3600], is
    the plain decimal numeral of that number from 10 on (so nothing is cut
    above 99) and gets one leading zero below 10, hence has at least 2
    characters; MM reads back as [(total_seconds mod 3600) / 60] and SS as
    [total_seconds mod 60], both exactly 2 characters long.  In particular
    [format_time 0 = ("00","00","00")], [format_time 86400 =
    ("24","00","00")] and [format_time 45296 = ("12","34","56")]. *)
Theorem format_time_spec (total_seconds : Z) (H : 0 <= total_seconds) :
  (let '(hh, mm, ss) := format_time total_seconds in
   let h := total_seconds / 3600 in
   (Py.all_digits hh = true /\ Py.dec_value hh = h /\
    (2 <= String.length hh)%nat /\
    (h < 10 -> hh = "0" +++ Py.str h) /\
    (10 <= h -> hh = Py.str h)) /\
   (Py.all_digits mm = true /\ String.length mm = 2%nat /\
    Py.dec_value mm = (total_seconds mod 3600) / 60) /\
   (Py.all_digits ss = true /\ String.length ss = 2%nat /\
    Py.dec_value ss = total_seconds mod 60)) /\
  format_time 0 = ("00", "00", "00") /\
  format_time 86400 = ("24", "00", "00") /\
  format_time 45296 = ("12", "34", "56").
Proof.
  split; [|repeat split; reflexivity].
  rename total_seconds into n, H into Hn. unfold format_time.
  assert (Hh : 0 <= n / 3600) by (apply Z.div_pos; lia).
  assert (Hm : 0 <= n mod 3600 / 60 < 60).
  { pose proof (Z.mod_pos_bound n 3600 ltac:(lia)).
    split; [apply Z.div_pos; lia | apply Z.div_lt_upper_bound; lia]. }
  assert (Hs : 0 <= n mod 60 < 60) by (apply Z.mod_pos_bound; lia).
  destruct (format_02d_spec _ Hh) as (A1 & V1 & _ & L1 & P1 & Q1).
  destruct (format_02d_spec (n mod 3600 / 60) ltac:(lia)) as (A2 & V2 & L2 & _).
  destruct (format_02d_spec (n mod 60) ltac:(lia)) as (A3 & V3 & L3 & _).
  assert (Hstr : Py.str (n / 3600) = Py.str_nat (n / 3600)).
  { unfold Py.str. destruct (Z.ltb_spec (n / 3600) 0); [lia | reflexivity]. }
  rewrite Hstr.
  repeat split; auto; try (apply L2; lia); try (apply L3; lia).
Qed.

(** The statement at 100 hours, 1 minute and 1 second, where HH has three
    digits. *)
Lemma format_time_spec_witness :
  0 <= 360061 /\
  Py.dec_value (fst (fst (format_time 360061))) = 100 /\
  format_time 360061 = ("100", "01", "01").
Proof.
  split; [lia|]. split; [|reflexivity].
  pose proof (proj1 (format_time_spec 360061 ltac:(lia))) as W.
  exact (proj1 (proj2 (proj1 W))).
Defined.

(* ------------------------------------------------------------------ *)
(** * Properties of the rounding                                        *)
(* ------------------------------------------------------------------ *)

Module FloatFacts.

Import Float.

Local Open Scope Q_scope.

Lemma pow2_pos e : 0 < pow2 e.
Proof. apply Qpower_0_lt. reflexivity. Qed.

Lemma pow2_add a b : pow2 (a + b) == pow2 a * pow2 b.
Proof. apply Qpower_plus. discriminate. Qed.

Lemma pow2_le a b : (a <= b)%Z -> pow2 a <= pow2 b.
Proof. intros H. apply Qpower_le_compat_l; [exact H|]. discriminate. Qed.

Lemma pow2_lt a b : (a < b)%Z -> pow2 a < pow2 b.
Proof. intros H. apply Qpower_lt_compat_l; [exact H|]. reflexivity. Qed.

Lemma pow2_Z k : (0 <= k)%Z -> pow2 k == inject_Z (2 ^ k).
Proof. intros H. unfold pow2. rewrite Zpower_Qpower by exact H. reflexivity. Qed.

Lemma pow2_sub a b : pow2 (a - b) == pow2 a / pow2 b.
Proof.
  unfold Z.sub. rewrite pow2_add. unfold pow2. rewrite Qpower_opp. reflexivity.
Qed.

Lemma pow2_succ a : pow2 (a + 1) == 2 * pow2 a.
Proof. rewrite pow2_add. unfold pow2 at 2. simpl. ring. Qed.

Lemma flog2_bounds x :
  0 < x -> pow2 (flog2 x) <= x /\ x < pow2 (flog2 x + 1).
Proof.
  intros Hx. unfold flog2.
  destruct x as [n d]. cbn [Qnum Qden].
  assert (Hn : (0 < n)%Z) by (unfold Qlt in Hx; simpl in Hx; lia).
  set (a := Z.log2 n). set (b := Z.log2 (Z.pos d)).
  destruct (Z.log2_spec n Hn) as [Ha1 Ha2]. fold a in Ha1, Ha2.
  destruct (Z.log2_spec (Z.pos d) ltac:(lia)) as [Hb1 Hb2]. fold b in Hb1, Hb2.
  assert (Ha0 : (0 <= a)%Z) by apply Z.log2_nonneg.
  assert (Hb0 : (0 <= b)%Z) by apply Z.log2_nonneg.
  assert (Hxd : (n # d) * inject_Z (Z.pos d) == inject_Z n).
  { unfold Qeq, Qmult, inject_Z. simpl. lia. }
  assert (Hlo : pow2 (a - b - 1) < n # d).
  { apply Qmult_lt_r with (z := pow2 (b + 1)); [apply pow2_pos|].
    rewrite <- pow2_add. replace (a - b - 1 + (b + 1))%Z with a by lia.
    rewrite !pow2_Z by lia.
    apply Qle_lt_trans with (inject_Z n); [rewrite <- Zle_Qle; exact Ha1|].
    rewrite <- Hxd. apply Qmult_lt_l; [exact Hx|]. rewrite <- Zlt_Qlt. exact Hb2. }
  assert (Hhi : n # d < pow2 (a - b + 1)).
  { apply Qmult_lt_r with (z := pow2 b); [apply pow2_pos|].
    rewrite <- pow2_add. replace (a - b + 1 + b)%Z with (a + 1)%Z by lia.
    rewrite !pow2_Z by lia.
    apply Qle_lt_trans with (inject_Z n); [|rewrite <- Zlt_Qlt; exact Ha2].
    rewrite <- Hxd. apply Qmult_le_l; [exact Hx|]. rewrite <- Zle_Qle. exact Hb1. }
  destruct (Qle_bool (pow2 (a - b)) (n # d)) eqn:E.
  - apply Qle_bool_iff in E. split; assumption.
  - assert (L : n # d < pow2 (a - b)).
    { apply Qnot_le_lt. intros C. apply Qle_bool_iff in C. congruence. }
    replace (a - b - 1 + 1)%Z with (a - b)%Z by lia.
    split; [apply Qlt_le_weak|]; assumption.
Qed.

Lemma flog2_unique x k : pow2 k <= x -> x < pow2 (k + 1) -> flog2 x = k.
Proof.
  intros H1 H2.
  assert (Hx : 0 < x) by (eapply Qlt_le_trans; [apply pow2_pos | exact H1]).
  destruct (flog2_bounds x Hx) as [B1 B2].
  destruct (Z.lt_trichotomy (flog2 x) k) as [L | [E | L]]; [|exact E|]; exfalso.
  - assert (pow2 (flog2 x + 1) <= pow2 k) by (apply pow2_le; lia). lra.
  - assert (pow2 (k + 1) <= pow2 (flog2 x)) by (apply pow2_le; lia). lra.
Qed.

Lemma flog2_mono x y : 0 < x -> x <= y -> (flog2 x <= flog2 y)%Z.
Proof.
  intros Hx Hxy.
  destruct (flog2_bounds x Hx) as [B1 _].
  destruct (flog2_bounds y ltac:(lra)) as [_ B2].
  destruct (Z_le_gt_dec (flog2 x) (flog2 y)) as [L | G]; [exact L|exfalso].
  assert (pow2 (flog2 y + 1) <= pow2 (flog2 x)) by (apply pow2_le; lia). lra.
Qed.

Lemma flog2_comp x y : 0 < x -> x == y -> flog2 x = flog2 y.
Proof.
  intros Hx E. symmetry.
  destruct (flog2_bounds x Hx) as [B1 B2].
  apply flog2_unique; rewrite <- E; assumption.
Qed.


Lemma rne_comp x y : x == y -> rne x = rne y.
Proof.
  intros E. unfold rne.
  assert (F : Qfloor x = Qfloor y) by (rewrite E; reflexivity).
  rewrite F.
  assert (C : (x - inject_Z (Qfloor y) ?= 1 # 2) = (y - inject_Z (Qfloor y) ?= 1 # 2))
    by (rewrite E; reflexivity).
  rewrite C. reflexivity.
Qed.

Lemma rne_floor y : (Qfloor y <= rne y <= Qfloor y + 1)%Z.
Proof.
  unfold rne. destruct (_ ?= _); [destruct (Z.even _)| |]; lia.
Qed.

Lemma rne_inject_Z n : rne (inject_Z n) = n.
Proof.
  unfold rne. rewrite Qfloor_Z.
  assert (C : (inject_Z n - inject_Z n ?= 1 # 2) = Lt).
  { rewrite <- Qlt_alt. lra. }
  rewrite C. reflexivity.
Qed.

Lemma rne_err y : Qabs (inject_Z (rne y) - y) <= 1 # 2.
Proof.
  pose proof (Qfloor_le y) as L. pose proof (Qlt_floor y) as U.
  rewrite inject_Z_plus in U. change (inject_Z 1) with 1 in U.
  unfold rne. destruct (Qcompare_spec (y - inject_Z (Qfloor y)) (1 # 2)) as [C|C|C].
  - destruct (Z.even _); [|rewrite inject_Z_plus; change (inject_Z 1) with 1];
      apply Qabs_case; intros; lra.
  - apply Qabs_case; intros; lra.
  - rewrite inject_Z_plus. change (inject_Z 1) with 1.
    apply Qabs_case; intros; lra.
Qed.

Lemma rne_mono x y : x <= y -> (rne x <= rne y)%Z.
Proof.
  intros Hxy.
  pose proof (Qfloor_resp_le _ _ Hxy) as Hf.
  pose proof (rne_floor x) as Bx. pose proof (rne_floor y) as By.
  destruct (Z.eq_dec (Qfloor x) (Qfloor y)) as [E | N]; [|lia].
  clear Bx By. unfold rne. rewrite E.
  destruct (Qcompare_spec (x - inject_Z (Qfloor y)) (1 # 2)) as [Cx|Cx|Cx];
    destruct (Qcompare_spec (y - inject_Z (Qfloor y)) (1 # 2)) as [Cy|Cy|Cy];
    try destruct (Z.even _); try lia; exfalso; lra.
Qed.

Lemma ulp_exp_mono x y : 0 < x -> x <= y -> (ulp_exp x <= ulp_exp y)%Z.
Proof.
  intros Hx Hxy. unfold ulp_exp. pose proof (flog2_mono x y Hx Hxy). lia.
Qed.

Lemma round_pos_raw_eq x : round_pos x == round_pos_raw x.
Proof. unfold round_pos. apply Qred_correct. Qed.

Lemma scaled_lt x : 0 < x -> x / pow2 (ulp_exp x) < inject_Z (2 ^ 53).
Proof.
  intros Hx. destruct (flog2_bounds x Hx) as [_ B].
  apply Qlt_shift_div_r; [apply pow2_pos|].
  rewrite <- pow2_Z by lia. rewrite <- pow2_add.
  eapply Qlt_le_trans; [exact B|]. apply pow2_le. unfold ulp_exp. lia.
Qed.

Lemma scaled_ge x :
  0 < x -> (-1074 < ulp_exp x)%Z -> inject_Z (2 ^ 52) <= x / pow2 (ulp_exp x).
Proof.
  intros Hx He. destruct (flog2_bounds x Hx) as [B _].
  apply Qle_shift_div_l; [apply pow2_pos|].
  rewrite <- pow2_Z by lia. rewrite <- pow2_add.
  eapply Qle_trans; [|exact B]. apply pow2_le. unfold ulp_exp in *. lia.
Qed.

Lemma round_pos_raw_mono x y :
  0 < x -> x <= y -> round_pos_raw x <= round_pos_raw y.
Proof.
  intros Hx Hxy. assert (Hy : 0 < y) by lra.
  pose proof (ulp_exp_mono x y Hx Hxy) as He.
  unfold round_pos_raw.
  destruct (Z.eq_dec (ulp_exp x) (ulp_exp y)) as [E | N].
  - rewrite E. apply Qmult_le_compat_r; [|apply Qlt_le_weak, pow2_pos].
    rewrite <- Zle_Qle. apply rne_mono.
    apply Qmult_le_compat_r; [exact Hxy|].
    apply Qlt_le_weak, Qinv_lt_0_compat, pow2_pos.
  - assert (Hlt : (ulp_exp x + 1 <= ulp_exp y)%Z) by lia.
    assert (Hm : (-1074 < ulp_exp y)%Z) by (unfold ulp_exp in *; lia).
    assert (Ux : (rne (x / pow2 (ulp_exp x)) <= 2 ^ 53)%Z).
    { rewrite <- (rne_inject_Z (2 ^ 53)). apply rne_mono.
      apply Qlt_le_weak, scaled_lt, Hx. }
    assert (Ly : (2 ^ 52 <= rne (y / pow2 (ulp_exp y)))%Z).
    { rewrite <- (rne_inject_Z (2 ^ 52)). apply rne_mono.
      apply scaled_ge; assumption. }
    apply Qle_trans with (inject_Z (2 ^ 53) * pow2 (ulp_exp x)).
    { apply Qmult_le_compat_r; [|apply Qlt_le_weak, pow2_pos].
      rewrite <- Zle_Qle. exact Ux. }
    apply Qle_trans with (inject_Z (2 ^ 52) * pow2 (ulp_exp y)).
    { apply Qle_trans with (inject_Z (2 ^ 52) * pow2 (ulp_exp x + 1)).
      - rewrite pow2_succ. change (inject_Z (2 ^ 53)) with (2 * inject_Z (2 ^ 52)).
        lra.
      - apply Qmult_le_l; [reflexivity|]. apply pow2_le. exact Hlt. }
    apply Qmult_le_compat_r; [|apply Qlt_le_weak, pow2_pos].
    rewrite <- Zle_Qle. exact Ly.
Qed.

Lemma round_pos_raw_nonneg x : 0 <= x -> 0 <= round_pos_raw x.
Proof.
  intros Hx. unfold round_pos_raw.
  apply Qmult_le_0_compat; [|apply Qlt_le_weak, pow2_pos].
  change 0 with (inject_Z 0). rewrite <- Zle_Qle.
  rewrite <- (rne_inject_Z 0) at 1. apply rne_mono.
  apply Qle_shift_div_l; [apply pow2_pos|].
  change (inject_Z 0) with 0. lra.
Qed.

Lemma round_pos_comp x y : 0 < x -> x == y -> round_pos x = round_pos y.
Proof.
  intros Hx E. unfold round_pos, round_pos_raw.
  assert (Ee : ulp_exp x = ulp_exp y).
  { unfold ulp_exp. now rewrite (flog2_comp x y Hx E). }
  rewrite Ee.
  assert (Er : rne (x / pow2 (ulp_exp y)) = rne (y / pow2 (ulp_exp y))).
  { apply rne_comp. rewrite E. reflexivity. }
  rewrite Er. reflexivity.
Qed.

Lemma round_comp x y : x == y -> round x = round y.
Proof.
  intros E. unfold round.
  assert (C : (x ?= 0) = (y ?= 0)) by (rewrite E; reflexivity).
  rewrite <- C. destruct (Qcompare_spec x 0) as [Cx|Cx|Cx].
  - reflexivity.
  - f_equal. apply round_pos_comp; [lra|]. rewrite E. reflexivity.
  - apply round_pos_comp; assumption.
Qed.

Lemma round_mono x y : x <= y -> round x <= round y.
Proof.
  intros Hxy. unfold round.
  destruct (Qcompare_spec x 0) as [Cx|Cx|Cx];
    destruct (Qcompare_spec y 0) as [Cy|Cy|Cy];
    rewrite ?round_pos_raw_eq; try lra.
  - apply round_pos_raw_nonneg; lra.
  - pose proof (round_pos_raw_nonneg (- x)). lra.
  - pose proof (round_pos_raw_mono (- y) (- x)). lra.
  - pose proof (round_pos_raw_nonneg (- x)).
    pose proof (round_pos_raw_nonneg y). lra.
  - apply round_pos_raw_mono; lra.
Qed.

Lemma round_eq_raw x : 0 < x -> round x == round_pos_raw x.
Proof.
  intros Hx. unfold round.
  assert (C : (x ?= 0) = Gt) by (apply Qgt_alt; exact Hx).
  rewrite C. apply round_pos_raw_eq.
Qed.

Lemma round_err x : 0 < x -> Qabs (round x - x) <= (1 # 2) * pow2 (ulp_exp x).
Proof.
  intros Hx. rewrite round_eq_raw by exact Hx. unfold round_pos_raw.
  set (e := ulp_exp x). pose proof (pow2_pos e) as Hp.
  assert (E : inject_Z (rne (x / pow2 e)) * pow2 e - x ==
              (inject_Z (rne (x / pow2 e)) - x / pow2 e) * pow2 e).
  { field. lra. }
  rewrite E, Qabs_Qmult, (Qabs_pos (pow2 e)) by lra.
  apply Qmult_le_compat_r; [apply rne_err | lra].
Qed.

Lemma round_err_unit x : 0 <= x -> x <= 1 -> Qabs (round x - x) <= pow2 (-54).
Proof.
  intros H0 H1.
  destruct (Qle_lt_or_eq _ _ H0) as [Hx | Hx].
  2:{ rewrite (round_comp x 0) by (symmetry; exact Hx).
      rewrite <- Hx. vm_compute. discriminate. }
  destruct (Qle_lt_or_eq _ _ H1) as [Hlt | Heq].
  2:{ rewrite (round_comp x 1) by exact Heq. rewrite Heq. vm_compute. discriminate. }
  eapply Qle_trans; [apply round_err; exact Hx|].
  assert (He : (ulp_exp x <= -53)%Z).
  { unfold ulp_exp.
    destruct (flog2_bounds x Hx) as [B _].
    destruct (Z_lt_ge_dec (flog2 x) 0) as [L | G]; [lia|exfalso].
    assert (pow2 0 <= pow2 (flog2 x)) by (apply pow2_le; lia).
    change (pow2 0) with 1 in *. lra. }
  apply Qle_trans with ((1 # 2) * pow2 (-53)).
  - apply Qmult_le_l; [reflexivity | apply pow2_le; exact He].
  - change (-53)%Z with (-54 + 1)%Z. rewrite pow2_succ. lra.
Qed.


Lemma round_opp x : round (- x) == - round x.
Proof.
  unfold round.
  destruct (Qcompare_spec x 0) as [C|C|C];
    destruct (Qcompare_spec (- x) 0) as [D|D|D]; try lra.
  rewrite (round_pos_comp (- - x) x) by (try lra; ring). reflexivity.
Qed.

(** Powers of two from [2^0] on are binary64 numbers. *)
Lemma round_pow2 k : (0 <= k)%Z -> round (pow2 k) == pow2 k.
Proof.
  intros Hk. pose proof (pow2_pos k) as Hp.
  rewrite round_eq_raw by exact Hp. unfold round_pos_raw.
  assert (L : flog2 (pow2 k) = k).
  { apply flog2_unique; [lra|]. apply pow2_lt. lia. }
  assert (U : ulp_exp (pow2 k) = (k - 52)%Z) by (unfold ulp_exp; lia).
  rewrite U.
  assert (D : pow2 k / pow2 (k - 52) == inject_Z (2 ^ 52)).
  { rewrite <- pow2_sub. replace (k - (k - 52))%Z with 52%Z by lia. reflexivity. }
  rewrite (rne_comp _ _ D), rne_inject_Z.
  change (inject_Z (2 ^ 52)) with (pow2 52). rewrite <- pow2_add.
  replace (52 + (k - 52))%Z with k by lia. reflexivity.
Qed.

Lemma round_abs_le k x :
  (0 <= k)%Z -> Qabs x <= pow2 k -> Qabs (round x) <= pow2 k.
Proof.
  intros Hk H. apply Qabs_Qle_condition in H. destruct H as [H1 H2].
  apply Qabs_Qle_condition. split.
  - rewrite <- (round_pow2 k Hk), <- round_opp. apply round_mono. exact H1.
  - rewrite <- (round_pow2 k Hk). apply round_mono. exact H2.
Qed.

Lemma overflows_false y : Qabs y < pow2 1024 -> overflows y = false.
Proof.
  intros H. unfold overflows.
  destruct (Qle_bool (pow2 1024) (Qabs y)) eqn:B; [|reflexivity].
  apply Qle_bool_iff in B. lra.
Qed.

(** Below [2^1024] in magnitude nothing overflows. *)
Lemma of_Q_bounded k x :
  (0 <= k < 1024)%Z -> Qabs x <= pow2 k ->
  of_Q x = Fin (round x) /\ Qabs (round x) <= pow2 k.
Proof.
  intros Hk H. pose proof (round_abs_le k x ltac:(lia) H) as B.
  split; [|exact B]. unfold of_Q. rewrite overflows_false; [reflexivity|].
  eapply Qle_lt_trans; [exact B|]. apply pow2_lt. lia.
Qed.

Lemma inject_Z_abs_le n k :
  (0 <= k)%Z -> (Z.abs n <= 2 ^ k)%Z -> Qabs (inject_Z n) <= pow2 k.
Proof.
  intros Hk H. rewrite pow2_Z by exact Hk.
  apply Qabs_Qle_condition. rewrite <- inject_Z_opp, <- !Zle_Qle. lia.
Qed.

Lemma of_int_bounded k n :
  (0 <= k < 1024)%Z -> (Z.abs n <= 2 ^ k)%Z ->
  exists q, of_int n = Py.Ok (Fin q) /\ Qabs q <= pow2 k.
Proof.
  intros Hk H. unfold of_int.
  destruct (of_Q_bounded k (inject_Z n) Hk (inject_Z_abs_le n k ltac:(lia) H))
    as [-> B].
  eexists. split; [reflexivity | exact B].
Qed.

Lemma Qabs_mult_le a b A B :
  Qabs a <= A -> Qabs b <= B -> Qabs (a * b) <= A * B.
Proof.
  intros Ha Hb. rewrite Qabs_Qmult.
  pose proof (Qabs_nonneg a). pose proof (Qabs_nonneg b).
  apply Qle_trans with (Qabs a * B).
  - rewrite (Qmult_comm (Qabs a) (Qabs b)), (Qmult_comm (Qabs a) B).
    apply Qmult_le_compat_r; lra.
  - apply Qmult_le_compat_r; lra.
Qed.

End FloatFacts.

(* ------------------------------------------------------------------ *)
(** * The progress ratio of the digital renderer                        *)
(* ------------------------------------------------------------------ *)

Section ProgressFacts.

Import Float FloatFacts.
Local Open Scope Q_scope.

Lemma round_0 : round 0 = 0.
Proof. reflexivity. Qed.

Lemma round_1 : round 1 = 1.
Proof. vm_compute. reflexivity. Qed.

Lemma pow2_1024_gt_1 : 1 < pow2 1024.
Proof. change 1 with (pow2 0). apply pow2_lt. lia. Qed.

(** Rounding keeps the unit interval, so nothing overflows there. *)
Lemma round_unit x : 0 <= x <= 1 -> 0 <= round x <= 1.
Proof.
  intros [H0 H1]. split.
  - rewrite <- round_0 at 1. apply round_mono. exact H0.
  - rewrite <- round_1 at 1. apply round_mono. exact H1.
Qed.

Lemma of_Q_unit x : 0 <= x <= 1 -> of_Q x = Fin (round x).
Proof.
  intros H. unfold of_Q. rewrite overflows_false; [reflexivity|].
  destruct (round_unit x H). pose proof pow2_1024_gt_1.
  rewrite Qabs_pos by assumption. lra.
Qed.

Lemma ratio_unit r t :
  (0 < t)%Z -> (0 <= r <= t)%Z -> 0 <= inject_Z r / inject_Z t <= 1.
Proof.
  intros Ht Hr.
  assert (T : 0 < inject_Z t) by (change 0 with (inject_Z 0); rewrite <- Zlt_Qlt; lia).
  split.
  - apply Qle_shift_div_l; [exact T|]. rewrite Qmult_0_l.
    change 0 with (inject_Z 0). rewrite <- Zle_Qle. lia.
  - apply Qle_shift_div_r; [exact T|]. rewrite Qmult_1_l.
    rewrite <- Zle_Qle. lia.
Qed.

Lemma truediv_unit r t :
  (0 < t)%Z -> (0 <= r <= t)%Z ->
  truediv r t = Py.Ok (Fin (round (inject_Z r / inject_Z t))).
Proof.
  intros Ht Hr. unfold truediv.
  destruct (Z.eqb_spec t 0); [lia|].
  rewrite of_Q_unit by (apply ratio_unit; assumption). reflexivity.
Qed.

Lemma progress_ratio_value r t :
  (0 < t)%Z -> (0 <= r <= t)%Z ->
  progress_ratio r t = Py.Ok (Fin (progress_value r t)).
Proof.
  intros Ht Hr. unfold progress_ratio.
  destruct (Z.gtb_spec t 0); [|lia].
  rewrite truediv_unit by assumption. cbn [Py.bind].
  unfold sub, neg, add, lit.
  destruct (round_unit _ (ratio_unit r t Ht Hr)).
  rewrite of_Q_unit; [reflexivity|].
  change (inject_Z 1) with 1. split; lra.
Qed.

Lemma progress_value_unit r t :
  (0 < t)%Z -> (0 <= r <= t)%Z -> 0 <= progress_value r t <= 1.
Proof.
  intros Ht Hr. unfold progress_value. apply round_unit.
  destruct (round_unit _ (ratio_unit r t Ht Hr)). split; lra.
Qed.

Lemma pow2_m54 : pow2 (-54) == 1 # 18014398509481984.
Proof. reflexivity. Qed.

Lemma progress_value_err r t :
  (0 < t)%Z -> (0 <= r <= t)%Z ->
  Qabs (progress_value r t - (1 - inject_Z r / inject_Z t)) <= pow2 (-53).
Proof.
  intros Ht Hr. unfold progress_value.
  pose proof (ratio_unit r t Ht Hr) as U.
  set (x := inject_Z r / inject_Z t) in *.
  destruct (round_unit x U) as [Q0 Q1].
  pose proof (round_err_unit x (proj1 U) (proj2 U)) as E1.
  pose proof (round_err_unit (1 + - round x) ltac:(lra) ltac:(lra)) as E2.
  apply Qabs_Qle_condition in E1. apply Qabs_Qle_condition in E2.
  apply Qabs_Qle_condition.
  assert (P : pow2 (-53) == 2 * pow2 (-54)) by reflexivity.
  rewrite P. split; lra.
Qed.

Lemma progress_value_mono r1 r2 t :
  (0 < t)%Z -> (r1 <= r2)%Z -> progress_value r2 t <= progress_value r1 t.
Proof.
  intros Ht H. unfold progress_value.
  assert (T : 0 < inject_Z t) by (change 0 with (inject_Z 0); rewrite <- Zlt_Qlt; lia).
  assert (M : round (inject_Z r1 / inject_Z t) <= round (inject_Z r2 / inject_Z t)).
  { apply round_mono. apply Qmult_le_compat_r.
    - rewrite <- Zle_Qle. exact H.
    - apply Qlt_le_weak, Qinv_lt_0_compat, T. }
  apply round_mono. lra.
Qed.

Lemma progress_value_strict r1 r2 t :
  (0 < t <= 2 ^ 50)%Z -> (0 <= r1)%Z -> (r1 < r2)%Z -> (r2 <= t)%Z ->
  progress_value r2 t < progress_value r1 t.
Proof.
  intros Ht H0 H12 H2.
  pose proof (progress_value_err r1 t ltac:(lia) ltac:(lia)) as E1.
  pose proof (progress_value_err r2 t ltac:(lia) ltac:(lia)) as E2.
  apply Qabs_Qle_condition in E1. apply Qabs_Qle_condition in E2.
  assert (T : 0 < inject_Z t) by (change 0 with (inject_Z 0); rewrite <- Zlt_Qlt; lia).
  assert (T50 : inject_Z t <= inject_Z (2 ^ 50)) by (rewrite <- Zle_Qle; lia).
  set (a1 := inject_Z r1 / inject_Z t) in *.
  set (a2 := inject_Z r2 / inject_Z t) in *.
  assert (A1 : a1 * inject_Z t == inject_Z r1) by (unfold a1; field; lra).
  assert (A2 : a2 * inject_Z t == inject_Z r2) by (unfold a2; field; lra).
  assert (D : inject_Z r1 + 1 <= inject_Z r2).
  { change 1 with (inject_Z 1). rewrite <- inject_Z_plus, <- Zle_Qle. lia. }
  assert (G : 1 <= (a2 - a1) * inject_Z t).
  { setoid_replace ((a2 - a1) * inject_Z t) with (a2 * inject_Z t - a1 * inject_Z t) by ring.
    rewrite A1, A2. lra. }
  assert (P : 0 <= a2 - a1).
  { destruct (Qlt_le_dec (a2 - a1) 0) as [N|]; [exfalso|assumption].
    assert ((a2 - a1) * inject_Z t <= 0 * inject_Z t)
      by (apply Qmult_le_compat_r; lra). lra. }
  assert (G50 : 1 <= (a2 - a1) * inject_Z (2 ^ 50)).
  { eapply Qle_trans; [exact G|].
    rewrite (Qmult_comm _ (inject_Z t)), (Qmult_comm _ (inject_Z (2 ^ 50))).
    apply Qmult_le_compat_r; assumption. }
  assert (P53 : pow2 (-53) == 1 # 9007199254740992) by reflexivity.
  rewrite P53 in E1, E2.
  change (inject_Z (2 ^ 50)) with (1125899906842624 # 1) in G50.
  lra.
Qed.

(** The model of binary64 agrees with the Standard Library's on the
    progress ratio of the sampled instants. *)
Lemma progress_agrees_on_samples :
  forallb (fun p => progress_agrees (fst p) (snd p)) progress_samples = true.
Proof. vm_compute. reflexivity. Qed.

End ProgressFacts.

(** C4. In [render_frame], for [total_duration > 0] and [0 <=
    remaining_seconds <= total_duration], the progress ratio the frame is
    composed with is the binary64 value of [1.0 - remaining_seconds /
    total_duration]: the quotient rounded, subtracted from one, and
    rounded again, which is within [2^-53] of [1 - remaining_seconds /
    total_duration] and lies in [0, 1].  It is exactly 0.0 at [remaining_seconds = total_duration] and
    exactly 1.0 at [remaining_seconds = 0]; it never decreases as
    [remaining_seconds] decreases, and strictly increases whenever
    [total_duration <= 2^50]. *)
Theorem progress_ratio_spec (total_duration : Z) (Ht : 0 < total_duration) :
  (forall remaining_seconds, 0 <= remaining_seconds <= total_duration ->
     exists p : Q,
       progress_ratio remaining_seconds total_duration = Py.Ok (Float.Fin p) /\
       (p == Float.round
               (1 - Float.round (inject_Z remaining_seconds
                                 / inject_Z total_duration)))%Q /\
       (Qabs (p - (1 - inject_Z remaining_seconds / inject_Z total_duration))
        <= Float.pow2 (-53))%Q /\
       (0 <= p <= 1)%Q /\
       forall E s,
         render_frame E s remaining_seconds total_duration
         = (let '(hh, mm, ss) := format_time remaining_seconds in
            render_frame_body E s hh mm ss (Float.Fin p))) /\
  progress_ratio total_duration total_duration = Py.Ok (Float.Fin 0) /\
  progress_ratio 0 total_duration = Py.Ok (Float.Fin 1) /\
  (forall r1 r2 p1 p2,
     0 <= r1 <= r2 -> r2 <= total_duration ->
     progress_ratio r1 total_duration = Py.Ok (Float.Fin p1) ->
     progress_ratio r2 total_duration = Py.Ok (Float.Fin p2) ->
     (p2 <= p1)%Q /\
     (r1 < r2 -> total_duration <= 2 ^ 50 -> (p2 < p1)%Q)).
Proof.
  split; [|split; [|split]].
  - intros r Hr. exists (progress_value r total_duration).
    split; [apply progress_ratio_value; assumption|].
    split; [reflexivity|].
    split; [apply progress_value_err; assumption|].
    split; [apply progress_value_unit; assumption|].
    intros E s. unfold render_frame.
    destruct (format_time r) as [[hh mm] ss].
    rewrite progress_ratio_value by assumption. reflexivity.
  - rewrite progress_ratio_value by lia. unfold progress_value.
    rewrite (FloatFacts.round_comp (inject_Z total_duration / inject_Z total_duration) 1).
    + reflexivity.
    + field. intros C. change 0%Q with (inject_Z 0) in C.
      rewrite inject_Z_injective in C. lia.
  - rewrite progress_ratio_value by lia. unfold progress_value.
    rewrite (FloatFacts.round_comp (inject_Z 0 / inject_Z total_duration) 0).
    + reflexivity.
    + unfold Qdiv. change (inject_Z 0) with 0%Q. ring.
  - intros r1 r2 p1 p2 H1 H2 E1 E2.
    rewrite progress_ratio_value in E1, E2 by lia.
    injection E1 as <-. injection E2 as <-.
    split.
    + apply progress_value_mono; lia.
    + intros. apply progress_value_strict; lia.
Qed.

(** The statement on a 24-hour span: the ends, and the preview instant
    12:34:56 against one second later in the countdown. *)
Lemma progress_ratio_spec_witness :
  0 < 86400 /\
  progress_ratio 86400 86400 = Py.Ok (Float.Fin 0) /\
  progress_ratio 0 86400 = Py.Ok (Float.Fin 1) /\
  progress_ratio 45296 86400
    = Py.Ok (Float.Fin (4285091645449927 # 9007199254740992)) /\
  (4285091645449927 # 9007199254740992
   < 2142597947720651 # 4503599627370496)%Q.
Proof.
  pose proof (progress_ratio_spec 86400 ltac:(lia)) as (_ & H0 & H1 & HM).
  split; [lia|]. split; [exact H0|]. split; [exact H1|].
  split; [vm_compute; reflexivity|].
  refine (proj2 (HM 45295 45296 _ _ _ _ _ _) _ _); try lia;
    vm_compute; reflexivity.
Defined.

(* ------------------------------------------------------------------ *)
(** * Exceptions: what a computation can raise                          *)
(* ------------------------------------------------------------------ *)

Section ResultFacts.

Import Py.

Lemma raises_only_Ok {A : Type} (a : A) P : raises_only (Ok a) P.
Proof. intros e H. discriminate. Qed.

Lemma raises_only_bind {A B : Type} (m : result A) (k : A -> result B) P :
  raises_only m P ->
  (forall a, m = Ok a -> raises_only (k a) P) ->
  raises_only (Py.bind m k) P.
Proof.
  intros Hm Hk e H. destruct m as [a|e']; simpl in H.
  - exact (Hk a eq_refl e H).
  - apply Hm. congruence.
Qed.

Lemma raises_only_weaken {A : Type} (r : result A) (P Q : exn -> Prop) :
  raises_only r P -> (forall e, P e -> Q e) -> raises_only r Q.
Proof. intros H I e He. auto. Qed.

Lemma raises_only_for_each {A S : Type} (xs : list A)
  (body : A -> S -> result S) P :
  (forall x s, In x xs -> raises_only (body x s) P) ->
  forall s, raises_only (for_each xs body s) P.
Proof.
  induction xs as [|x xs IH]; intros Hb s; simpl.
  - apply raises_only_Ok.
  - apply raises_only_bind.
    + apply Hb. now left.
    + intros s' _. apply IH. intros y s'' Hy. apply Hb. now right.
Qed.

Lemma for_each_ok {A S : Type} (xs : list A) (body : A -> S -> result S) :
  (forall x s, In x xs -> exists s', body x s = Ok s') ->
  forall s, exists s', for_each xs body s = Ok s'.
Proof.
  induction xs as [|x xs IH]; intros Hb s; simpl.
  - now exists s.
  - destruct (Hb x s (or_introl eq_refl)) as [s1 ->]. simpl.
    apply IH. intros y s'' Hy. apply Hb. now right.
Qed.

Lemma in_range a b x : In x (range a b) <-> a <= x < b.
Proof.
  unfold range. rewrite in_map_iff. split.
  - intros (i & <- & Hi). apply in_seq in Hi. lia.
  - intros H. exists (Z.to_nat (x - a)). split; [lia|]. apply in_seq. lia.
Qed.

Lemma in_range_down a b x : In x (range_down a b) <-> b < x <= a.
Proof.
  unfold range_down. rewrite in_map_iff. split.
  - intros (i & <- & Hi). apply in_seq in Hi. lia.
  - intros H. exists (Z.to_nat (a - x)). split; [lia|]. apply in_seq. lia.
Qed.

Lemma index_raises {A : Type} (l : list A) i :
  raises_only (index l i) (fun e => e = IndexError).
Proof.
  unfold index. intros e. destruct (nth_error l i); congruence.
Qed.

Lemma bind_Ok_inv {A B : Type} (m : result A) (k : A -> result B) b :
  bind m k = Ok b -> exists a, m = Ok a /\ k a = Ok b.
Proof. destruct m as [a|e]; simpl; intros H; [now exists a | discriminate]. Qed.

End ResultFacts.

(** Peels the binds of a hypothesis [H : x <- m ;; k = Ok _]. *)
Ltac peel H :=
  repeat match type of H with
         | Py.bind _ _ = Py.Ok _ =>
             let a := fresh "v" in let Ha := fresh "Hv" in
             apply bind_Ok_inv in H; destruct H as (a & Ha & H)
         end.

(* ------------------------------------------------------------------ *)
(** * Properties of [hex_to_rgb]                                        *)
(* ------------------------------------------------------------------ *)

Section HexFacts.

Import Py.

Lemma hex_char_facts c :
  is_hex c = true ->
  is_space c = false /\ Ascii.eqb c "_" = false /\ is_x c = false /\
  c <> "+"%char /\ c <> "-"%char.
Proof.
  destruct c as [[] [] [] [] [] [] [] []]; vm_compute; intros H;
    try discriminate H; repeat split; congruence.
Qed.

(** [int(s, 16)] on two hexadecimal digits. *)
Lemma int16_two_hex a b :
  is_hex a = true -> is_hex b = true ->
  int16 (String a (String b EmptyString)) = Ok (hex_byte a b).
Proof.
  intros Ha Hb.
  destruct (hex_char_facts a Ha) as (Sa & Ua & Xa & Pa & Ma).
  destruct (hex_char_facts b Hb) as (Sb & Ub & Xb & Pb & Mb).
  unfold is_hex in Ha, Hb. unfold hex_byte.
  destruct (hex_val a) as [x|] eqn:Va; [|discriminate].
  destruct (hex_val b) as [y|] eqn:Vb; [|discriminate].
  unfold int16. cbn [skip_spaces]. rewrite Sa.
  assert (S2 : (let '(neg, s2) :=
                  match String a (String b EmptyString) with
                  | String "+" r => (false, r)
                  | String "-" r => (true, r)
                  | _ => (false, String a (String b EmptyString))
                  end in (neg, s2)) = (false, String a (String b EmptyString))).
  { destruct a as [[] [] [] [] [] [] [] []]; try reflexivity; congruence. }
  assert (S3 : skip_prefix16 (String a (String b EmptyString))
               = String a (String b EmptyString)).
  { unfold skip_prefix16. rewrite Xb.
    destruct a as [[] [] [] [] [] [] [] []]; reflexivity. }
  destruct a as [[] [] [] [] [] [] [] []]; try congruence;
    (rewrite S3; cbn [startswith]; rewrite ?Ua;
     cbn [scan_hex]; rewrite ?Ua, ?Ub, ?Va, ?Vb; cbn [scan_hex];
     simpl in Va; try discriminate Va; injection Va as <-; reflexivity).
Qed.

Lemma hex_to_rgb_six s :
  six_hex_digits s = true -> hex_to_rgb (CStr s) = Ok (rgb_of_six s).
Proof.
  unfold six_hex_digits, rgb_of_six, hex_to_rgb.
  destruct (lstrip "#" s) as [|a [|b [|c [|d [|e [|f rest]]]]]]; try discriminate.
  intros H. repeat (apply andb_prop in H; destruct H as [H ?]).
  unfold slice2. cbn [String.substring].
  assert (R : forall r, String.substring 0 0 r = EmptyString)
    by (intros []; reflexivity).
  rewrite !R, !int16_two_hex by assumption. reflexivity.
Qed.

Lemma hex_to_rgb_well_formed c :
  well_formed_color c = true -> exists rgb, hex_to_rgb c = Ok rgb.
Proof.
  destruct c as [s|t]; intros H.
  - eexists. apply hex_to_rgb_six. exact H.
  - now exists t.
Qed.

Lemma hex_to_rgb_raises c :
  raises_only (hex_to_rgb c) (fun e => e = ValueError_int).
Proof.
  assert (I : forall s, raises_only (int16 s) (fun e => e = ValueError_int)).
  { intros s e. unfold int16.
    destruct (match skip_spaces s with
              | String "+" r => (false, r)
              | String "-" r => (true, r)
              | _ => (false, skip_spaces s)
              end) as [neg s2].
    destruct (startswith _ _); [congruence|].
    destruct (scan_hex _ _ _) as [[v rest]|]; [|congruence].
    destruct (_ =? _)%nat; [congruence|].
    destruct (skip_spaces rest); congruence. }
  destruct c as [s|t]; simpl.
  - repeat (apply raises_only_bind; [apply I|intros ? _]).
    apply raises_only_Ok.
  - apply raises_only_Ok.
Qed.

End HexFacts.

(* ------------------------------------------------------------------ *)
(** * What the renderers can raise                                      *)
(* ------------------------------------------------------------------ *)

Section RenderRaises.

Import Py.

Variable E : Env.

Lemma of_int_raises n :
  raises_only (Float.of_int n) (fun e => e = OverflowError).
Proof.
  unfold Float.of_int. intros e. destruct (Float.of_Q _); congruence.
Qed.

Lemma truediv_raises a b :
  b <> 0 -> raises_only (Float.truediv a b) (fun e => e = OverflowError).
Proof.
  intros Hb e. unfold Float.truediv.
  destruct (Z.eqb_spec b 0); [contradiction|].
  destruct (Float.of_Q _); congruence.
Qed.

Lemma int_mul_raises n x :
  raises_only (Float.int_mul n x) (fun e => e = OverflowError).
Proof.
  unfold Float.int_mul. apply raises_only_bind; [apply of_int_raises|].
  intros; apply raises_only_Ok.
Qed.

Lemma int_add_raises n x :
  raises_only (Float.int_add n x) (fun e => e = OverflowError).
Proof.
  unfold Float.int_add. apply raises_only_bind; [apply of_int_raises|].
  intros; apply raises_only_Ok.
Qed.

Lemma to_int_raises x :
  raises_only (Float.to_int x)
    (fun e => e = OverflowError \/ e = ValueError_nan).
Proof. intros e. destruct x; simpl; intros H; inversion H; auto. Qed.

Lemma radians_raises d :
  raises_only (Float.radians d) (fun e => e = OverflowError).
Proof.
  unfold Float.radians. apply raises_only_bind; [apply of_int_raises|].
  intros; apply raises_only_Ok.
Qed.

Lemma polar_raises cx cy r a :
  raises_only (polar E cx cy r a) (fun e => e = OverflowError).
Proof.
  unfold polar.
  repeat (apply raises_only_bind;
          [first [apply int_mul_raises | apply int_add_raises]|intros ? _]).
  apply raises_only_Ok.
Qed.

Ltac arith :=
  eapply (raises_only_weaken _ _ arith_exn);
  [first [apply radians_raises | apply polar_raises | apply index_raises
         | apply to_int_raises | apply int_mul_raises | apply int_add_raises
         | apply of_int_raises ]
  | let e := fresh "e" in let He := fresh "He" in
    intros e He; unfold arith_exn;
    repeat (destruct He as [He | He]); subst; tauto ].

Lemma gradient_channel_raises top bottom k ratio :
  raises_only (gradient_channel top bottom k ratio) arith_exn.
Proof.
  unfold gradient_channel.
  repeat (apply raises_only_bind; [arith|intros ? _]). arith.
Qed.

Section Helpers.

(** [P] holds of the arithmetic exceptions. *)
Variable P : exn -> Prop.
Hypothesis P_arith : forall e, arith_exn e -> P e.

Lemma draw_gradient_raises img w h c0 c1 :
  raises_only (hex_to_rgb c0) P -> raises_only (hex_to_rgb c1) P ->
  raises_only (draw_gradient img w h c0 c1) P.
Proof.
  intros H0 H1. unfold draw_gradient.
  apply raises_only_bind; [exact H0|intros top _].
  apply raises_only_bind; [exact H1|intros bottom _].
  apply raises_only_for_each. intros y i Hy. apply in_range in Hy.
  apply raises_only_bind.
  { eapply raises_only_weaken; [apply truediv_raises; lia|].
    intros e ->. apply P_arith. left. reflexivity. }
  intros ratio _.
  repeat (apply raises_only_bind;
          [eapply raises_only_weaken;
           [apply gradient_channel_raises|exact P_arith]|intros ? _]).
  apply raises_only_Ok.
Qed.

Lemma gradient_background_raises img w h flag gc :
  (forall c, In c (gradient_resolved flag gc) -> raises_only (hex_to_rgb c) P) ->
  raises_only (gradient_background img w h flag gc) P.
Proof.
  intros H. unfold gradient_background.
  destruct gc as [gc|]; [|apply raises_only_Ok].
  destruct (flag && tuple_truthy (Some gc))%bool eqn:F; [|apply raises_only_Ok].
  apply andb_prop in F. destruct F as [-> _].
  destruct gc as [|c0 [|c1 rest]]; simpl in *.
  - intros e He. apply P_arith. right. right. congruence.
  - intros e He. apply P_arith. right. right. congruence.
  - apply draw_gradient_raises; apply H; auto.
Qed.

Lemma draw_glow_raises img txt x y fnt c layers :
  raises_only (hex_to_rgb c) P ->
  raises_only (draw_glow img txt x y fnt c layers) P.
Proof.
  intros H. unfold draw_glow.
  apply raises_only_bind; [exact H|intros rgb _].
  apply raises_only_for_each. intros i im Hi. apply in_range_down in Hi.
  apply raises_only_bind.
  { eapply raises_only_weaken; [apply truediv_raises; lia|].
    intros e ->. apply P_arith. left. reflexivity. }
  intros q _.
  repeat (apply raises_only_bind;
          [eapply raises_only_weaken; [arith|exact P_arith]|intros ? _]).
  apply raises_only_Ok.
Qed.

Lemma draw_circle_progress_raises img cx cy radius progress c width :
  raises_only (hex_to_rgb c) P ->
  raises_only (draw_circle_progress img cx cy radius progress c width) P.
Proof.
  intros H. unfold draw_circle_progress.
  apply raises_only_bind; [exact H|intros rgb _].
  destruct (Float.gt0 progress); apply raises_only_Ok.
Qed.

Lemma draw_labels_raises img s fnt hh mm cx cy tw th :
  raises_only (hex_to_rgb (StyleConfig.label_color s)) P ->
  raises_only (draw_labels E img s fnt hh mm cx cy tw th) P.
Proof.
  intros H. unfold draw_labels.
  destruct (textbbox E fnt hh) as [[[? ?] ?] ?].
  destruct (textbbox E fnt (StyleConfig.separator s)) as [[[? ?] ?] ?].
  destruct (textbbox E fnt mm) as [[[? ?] ?] ?].
  apply raises_only_bind; [exact H|intros lc _]. apply raises_only_Ok.
Qed.

Lemma draw_progress_bar_raises img s w h progress :
  raises_only (hex_to_rgb (StyleConfig.progress_color s)) P ->
  raises_only (draw_progress_bar img s w h progress) P.
Proof.
  intros H. unfold draw_progress_bar.
  apply raises_only_bind; [exact H|intros pc _].
  repeat (apply raises_only_bind;
          [eapply raises_only_weaken; [arith|exact P_arith]|intros ? _]).
  destruct (_ >? _); apply raises_only_Ok.
Qed.

Lemma draw_ticks_raises img s cx cy radius rgb :
  raises_only (draw_ticks E img s cx cy radius rgb) P.
Proof.
  unfold draw_ticks. apply raises_only_for_each. intros i im _.
  apply raises_only_bind;
    [eapply raises_only_weaken; [arith|exact P_arith]|intros a _].
  destruct (_ <=? 0); [apply raises_only_Ok|].
  repeat (apply raises_only_bind;
          [eapply raises_only_weaken; [arith|exact P_arith]|intros ? _]).
  apply raises_only_Ok.
Qed.

Lemma draw_hour_numbers_raises img s cx cy radius :
  raises_only (hex_to_rgb (CircleTimerConfig.hour_number_color s)) P ->
  raises_only (draw_hour_numbers E img s cx cy radius) P.
Proof.
  intros H. unfold draw_hour_numbers.
  apply raises_only_bind; [exact H|intros rgb _].
  apply raises_only_for_each. intros i im _.
  repeat (apply raises_only_bind;
          [eapply raises_only_weaken; [arith|exact P_arith]|intros ? _]).
  apply raises_only_Ok.
Qed.

End Helpers.

Lemma progress_ratio_raises r t :
  raises_only (progress_ratio r t) (fun e => e = OverflowError).
Proof.
  unfold progress_ratio. destruct (Z.gtb_spec t 0); [|apply raises_only_Ok].
  apply raises_only_bind; [apply truediv_raises; lia|].
  intros; apply raises_only_Ok.
Qed.

Lemma remaining_ratio_raises r t :
  raises_only (remaining_ratio r t) (fun e => e = OverflowError).
Proof.
  unfold remaining_ratio. destruct (Z.gtb_spec t 0); [|apply raises_only_Ok].
  apply truediv_raises; lia.
Qed.

Lemma render_exn_arith cs e : arith_exn e -> render_exn cs e.
Proof.
  intros [-> | [-> | ->]]; split; intros; discriminate.
Qed.

Lemma render_exn_color cs c :
  In c cs -> raises_only (hex_to_rgb c) (render_exn cs).
Proof.
  intros Hc e He. pose proof (hex_to_rgb_raises c e He) as ->.
  split; [discriminate|]. intros _. now exists c.
Qed.

Lemma render_frame_body_raises s hh mm ss progress :
  raises_only (render_frame_body E s hh mm ss progress)
    (render_exn (resolved_colors s)).
Proof.
  set (P := render_exn (resolved_colors s)).
  assert (PA : forall e, arith_exn e -> P e) by apply render_exn_arith.
  assert (PC : forall c, In c (resolved_colors s) -> raises_only (hex_to_rgb c) P)
    by apply render_exn_color.
  unfold render_frame_body.
  apply raises_only_bind.
  { apply PC. unfold resolved_colors. simpl. auto. }
  intros bg _.
  apply raises_only_bind.
  { apply gradient_background_raises; [exact PA|].
    intros c Hc. apply PC. unfold resolved_colors.
    rewrite !in_app_iff. tauto. }
  intros img1 _.
  apply raises_only_bind.
  { destruct (StyleConfig.border s) eqn:F; [|apply raises_only_Ok].
    apply raises_only_bind; [|intros; apply raises_only_Ok].
    apply PC. unfold resolved_colors. rewrite F, !in_app_iff. simpl. tauto. }
  intros img2 _.
  destruct (textbbox E _ _) as [[[b0 b1] b2] b3].
  apply raises_only_bind.
  { destruct (StyleConfig.digit_bg_color s) as [dbc|] eqn:D; [|apply raises_only_Ok].
    destruct (StyleConfig.rounded_bg s && color_truthy (Some dbc))%bool eqn:F;
      [|apply raises_only_Ok].
    apply raises_only_bind; [|intros; apply raises_only_Ok].
    apply PC. unfold resolved_colors. rewrite D, F, !in_app_iff. simpl. tauto. }
  intros img3 _.
  apply raises_only_bind.
  { destruct (StyleConfig.circle_progress s) eqn:F; [|apply raises_only_Ok].
    apply draw_circle_progress_raises.
    apply PC. unfold resolved_colors. rewrite F, !in_app_iff. simpl. tauto. }
  intros img4 _.
  assert (TC : raises_only (hex_to_rgb (StyleConfig.text_color s)) P).
  { apply PC. unfold resolved_colors. rewrite !in_app_iff. simpl. tauto. }
  apply raises_only_bind.
  { destruct (StyleConfig.glow s); [|apply raises_only_Ok].
    apply draw_glow_raises; assumption. }
  intros img5 _.
  apply raises_only_bind; [exact TC|intros tc _].
  apply raises_only_bind.
  { destruct (StyleConfig.show_labels s) eqn:F; [|apply raises_only_Ok].
    apply draw_labels_raises.
    apply PC. unfold resolved_colors. rewrite F, !in_app_iff. simpl. tauto. }
  intros img6 _.
  apply raises_only_bind.
  { destruct (StyleConfig.progress_bar s) eqn:F; [|apply raises_only_Ok].
    apply draw_progress_bar_raises; [exact PA|].
    apply PC. unfold resolved_colors. rewrite F, !in_app_iff. simpl. tauto. }
  intros img7 _. apply raises_only_Ok.
Qed.

Lemma render_frame_raises s r t :
  raises_only (render_frame E s r t) (render_exn (resolved_colors s)).
Proof.
  unfold render_frame. destruct (format_time r) as [[hh mm] ss].
  apply raises_only_bind.
  - eapply raises_only_weaken; [apply progress_ratio_raises|].
    intros e ->. apply render_exn_arith. left. reflexivity.
  - intros progress _. apply render_frame_body_raises.
Qed.

Lemma render_circle_frame_body_raises s hh mm ss ratio :
  raises_only (render_circle_frame_body E s hh mm ss ratio)
    (render_exn (circle_resolved_colors s)).
Proof.
  set (P := render_exn (circle_resolved_colors s)).
  assert (PA : forall e, arith_exn e -> P e) by apply render_exn_arith.
  assert (PC : forall c, In c (circle_resolved_colors s) ->
                         raises_only (hex_to_rgb c) P)
    by apply render_exn_color.
  unfold render_circle_frame_body.
  apply raises_only_bind.
  { apply PC. unfold circle_resolved_colors. simpl. auto. }
  intros bg _.
  apply raises_only_bind.
  { apply gradient_background_raises; [exact PA|].
    intros c Hc. apply PC. unfold circle_resolved_colors.
    rewrite !in_app_iff. tauto. }
  intros img1 _.
  apply raises_only_bind.
  { apply PC. unfold circle_resolved_colors. rewrite !in_app_iff. simpl. tauto. }
  intros wedge_rgb _.
  apply raises_only_bind.
  { apply PC. unfold circle_resolved_colors. rewrite !in_app_iff. simpl. tauto. }
  intros ring_rgb _.
  apply raises_only_bind.
  { apply PC. unfold circle_resolved_colors. rewrite !in_app_iff. simpl. tauto. }
  intros tick_rgb _.
  apply raises_only_bind.
  { destruct (CircleTimerConfig.show_ticks s); [|apply raises_only_Ok].
    apply draw_ticks_raises. exact PA. }
  intros img2 _.
  apply raises_only_bind.
  { destruct (CircleTimerConfig.show_hour_numbers s) eqn:F; [|apply raises_only_Ok].
    apply draw_hour_numbers_raises; [exact PA|].
    apply PC. unfold circle_resolved_colors. rewrite F, !in_app_iff. simpl. tauto. }
  intros img3 _.
  apply raises_only_bind.
  { destruct (CircleTimerConfig.center_dot s) eqn:F; [|apply raises_only_Ok].
    apply raises_only_bind; [|intros; apply raises_only_Ok].
    apply PC. unfold circle_resolved_colors. rewrite F, !in_app_iff. simpl. tauto. }
  intros img4 _.
  assert (TC : raises_only (hex_to_rgb (CircleTimerConfig.text_color s)) P).
  { apply PC. unfold circle_resolved_colors. rewrite !in_app_iff. simpl. tauto. }
  apply raises_only_bind.
  { destruct (CircleTimerConfig.glow s); [|apply raises_only_Ok].
    apply draw_glow_raises; assumption. }
  intros img5 _.
  apply raises_only_bind; [exact TC|intros tc _]. apply raises_only_Ok.
Qed.

Lemma render_circle_frame_raises s r t :
  raises_only (render_circle_frame E s r t)
    (render_exn (circle_resolved_colors s)).
Proof.
  unfold render_circle_frame. destruct (format_time r) as [[hh mm] ss].
  apply raises_only_bind.
  - eapply raises_only_weaken; [apply remaining_ratio_raises|].
    intros e ->. apply render_exn_arith. left. reflexivity.
  - intros ratio _. apply render_circle_frame_body_raises.
Qed.

End RenderRaises.

(* ------------------------------------------------------------------ *)
(** * When the renderers return an image                                *)
(* ------------------------------------------------------------------ *)

Section RenderTotal.

Import Py.
Import Float FloatFacts.

Variable E : Env.

Local Open Scope Q_scope.

Lemma mul_fin_bounded a b ka kb :
  (0 <= ka)%Z -> (0 <= kb)%Z -> (ka + kb < 1024)%Z ->
  Qabs a <= pow2 ka -> Qabs b <= pow2 kb ->
  exists m, mul (Fin a) (Fin b) = Fin m /\ Qabs m <= pow2 (ka + kb).
Proof.
  intros Ha Hb Hk Ba Bb. unfold mul.
  destruct (of_Q_bounded (ka + kb) (a * b) ltac:(lia)) as [-> B].
  - rewrite pow2_add. apply Qabs_mult_le; assumption.
  - eexists. split; [reflexivity | exact B].
Qed.

Lemma add_fin_bounded a b k :
  (0 <= k)%Z -> (k + 1 < 1024)%Z ->
  Qabs a <= pow2 k -> Qabs b <= pow2 k ->
  exists m, add (Fin a) (Fin b) = Fin m /\ Qabs m <= pow2 (k + 1).
Proof.
  intros Hk Hk1 Ba Bb. unfold add.
  destruct (of_Q_bounded (k + 1) (a + b) ltac:(lia)) as [-> B].
  - rewrite pow2_succ. apply Qabs_Qle_condition in Ba, Bb.
    apply Qabs_Qle_condition. split; lra.
  - eexists. split; [reflexivity | exact B].
Qed.

Lemma unit_abs q : 0 <= q <= 1 -> Qabs q <= pow2 0.
Proof.
  intros [H0 H1]. rewrite Qabs_pos by exact H0. exact H1.
Qed.

Lemma pow2_abs_mono q a b : (a <= b)%Z -> Qabs q <= pow2 a -> Qabs q <= pow2 b.
Proof. intros H B. eapply Qle_trans; [exact B | apply pow2_le, H]. Qed.

Lemma small_abs n : small n = true -> (Z.abs n <= 2 ^ 30)%Z.
Proof. unfold small. intros H. apply Z.leb_le in H. exact H. Qed.

Lemma int_mul_any n x :
  (Z.abs n <= 2 ^ 40)%Z -> exists y, int_mul n x = Ok y.
Proof.
  intros H. unfold int_mul.
  destruct (of_int_bounded 40 n ltac:(lia) H) as (q & -> & _).
  eexists. reflexivity.
Qed.

Lemma int_add_any n x :
  (Z.abs n <= 2 ^ 40)%Z -> exists y, int_add n x = Ok y.
Proof.
  intros H. unfold int_add.
  destruct (of_int_bounded 40 n ltac:(lia) H) as (q & -> & _).
  eexists. reflexivity.
Qed.

Lemma int_mul_fin n q k kq :
  (0 <= k)%Z -> (0 <= kq)%Z -> (k + kq < 1024)%Z ->
  (Z.abs n <= 2 ^ k)%Z -> Qabs q <= pow2 kq ->
  exists m, int_mul n (Fin q) = Ok (Fin m) /\ Qabs m <= pow2 (k + kq).
Proof.
  intros Hk Hkq Hs Hn Hq. unfold int_mul.
  destruct (of_int_bounded k n ltac:(lia) Hn) as (f & -> & Bf). cbn [bind].
  destruct (mul_fin_bounded f q k kq Hk Hkq Hs Bf Hq) as (m & -> & Bm).
  now exists m.
Qed.

Lemma int_add_fin n q k :
  (0 <= k)%Z -> (k + 1 < 1024)%Z ->
  (Z.abs n <= 2 ^ k)%Z -> Qabs q <= pow2 k ->
  exists m, int_add n (Fin q) = Ok (Fin m) /\ Qabs m <= pow2 (k + 1).
Proof.
  intros Hk Hs Hn Hq. unfold int_add.
  destruct (of_int_bounded k n ltac:(lia) Hn) as (f & -> & Bf). cbn [bind].
  destruct (add_fin_bounded f q k Hk Hs Bf Hq) as (m & -> & Bm).
  now exists m.
Qed.

Lemma truediv_unit_ok r t :
  (0 < t)%Z -> (0 <= r <= t)%Z ->
  exists q, truediv r t = Ok (Fin q) /\ 0 <= q <= 1.
Proof.
  intros Ht Hr. eexists. split; [apply truediv_unit; assumption|].
  apply round_unit, ratio_unit; assumption.
Qed.

Lemma color_ok_channels c :
  color_ok c = true -> exists rgb, hex_to_rgb c = Ok rgb /\ channels rgb.
Proof.
  unfold color_ok. destruct (hex_to_rgb c) as [[|r [|g [|b rest]]]|];
    try discriminate.
  intros H. apply andb_prop in H. destruct H as [H Hb].
  apply andb_prop in H. destruct H as [Hr Hg].
  exists (r :: g :: b :: rest). split; [reflexivity|].
  exists r, g, b, rest. auto using small_abs.
Qed.

Lemma channels_index rgb k :
  channels rgb -> (k < 3)%nat ->
  exists v, index rgb k = Ok v /\ (Z.abs v <= 2 ^ 30)%Z.
Proof.
  intros (r & g & b & rest & -> & Hr & Hg & Hb) Hk.
  destruct k as [|[|[|k]]]; [| | |lia]; eexists; (split; [reflexivity|assumption]).
Qed.

Lemma gradient_channel_ok top bottom k q :
  channels top -> channels bottom -> (k < 3)%nat -> 0 <= q <= 1 ->
  exists v, gradient_channel top bottom k (Fin q) = Ok v.
Proof.
  intros Ht Hb Hk Hq. unfold gradient_channel.
  destruct (channels_index top k Ht Hk) as (t0 & -> & Bt). cbn [bind].
  destruct (channels_index bottom k Hb Hk) as (b0 & -> & Bb). cbn [bind].
  destruct (int_mul_fin (b0 - t0) q 31 0) as (m & -> & Bm);
    try lia; [apply unit_abs; exact Hq|]. cbn [bind].
  destruct (int_add_fin t0 m 31) as (a & -> & Ba); try lia; [exact Bm|].
  cbn [bind]. eexists. reflexivity.
Qed.

Lemma draw_gradient_ok img w h c0 c1 :
  color_ok c0 = true -> color_ok c1 = true ->
  exists img', draw_gradient img w h c0 c1 = Ok img'.
Proof.
  intros H0 H1. unfold draw_gradient.
  destruct (color_ok_channels c0 H0) as (top & -> & Ct).
  destruct (color_ok_channels c1 H1) as (bottom & -> & Cb). cbn [bind].
  apply for_each_ok. intros y im Hy. apply in_range in Hy.
  destruct (truediv_unit_ok y h ltac:(lia) ltac:(lia)) as (q & -> & Hq).
  cbn [bind].
  destruct (gradient_channel_ok top bottom 0 q Ct Cb ltac:(lia) Hq) as [r ->].
  destruct (gradient_channel_ok top bottom 1 q Ct Cb ltac:(lia) Hq) as [g ->].
  destruct (gradient_channel_ok top bottom 2 q Ct Cb ltac:(lia) Hq) as [b ->].
  cbn [bind]. eexists. reflexivity.
Qed.

Lemma gradient_background_ok img w h flag gc :
  gradient_ok flag gc = true ->
  forallb color_ok (gradient_resolved flag gc) = true ->
  exists img', gradient_background img w h flag gc = Ok img'.
Proof.
  intros G C. unfold gradient_background.
  destruct gc as [[|c0 [|c1 rest]]|]; simpl in *;
    try (destruct flag; simpl; eexists; reflexivity).
  - destruct flag; [discriminate|]. eexists. reflexivity.
  - destruct flag; simpl; [|eexists; reflexivity].
    simpl in C. apply andb_prop in C. destruct C as [C0 C].
    apply andb_prop in C. destruct C as [C1 _].
    apply draw_gradient_ok; assumption.
Qed.

Lemma draw_glow_ok img txt x y fnt c layers :
  color_ok c = true ->
  exists img', draw_glow img txt x y fnt c layers = Ok img'.
Proof.
  intros H. unfold draw_glow.
  destruct (color_ok_channels c H) as (rgb & -> & C). cbn [bind].
  apply for_each_ok. intros i im Hi. apply in_range_down in Hi.
  assert (Q : exists q, truediv 40 i = Ok (Fin q)).
  { unfold truediv. destruct (Z.eqb_spec i 0); [lia|].
    destruct (of_Q_bounded 6 (inject_Z 40 / inject_Z i) ltac:(lia)) as [-> _].
    - assert (I : 1 <= inject_Z i).
      { change 1 with (inject_Z 1). rewrite <- Zle_Qle. lia. }
      assert (D : 0 <= inject_Z 40 / inject_Z i <= 40).
      { split.
        - apply Qle_shift_div_l; [lra|]. rewrite Qmult_0_l. discriminate.
        - apply Qle_shift_div_r; [lra|]. change (inject_Z 40) with 40.
          assert (40 * 1 <= 40 * inject_Z i)
            by (apply Qmult_le_l; [reflexivity | exact I]). lra. }
      rewrite Qabs_pos by apply D.
      apply Qle_trans with 40; [apply D|]. discriminate.
    - eexists. reflexivity. }
  destruct Q as [q ->]. cbn [bind to_int].
  destruct (channels_index rgb 0 C ltac:(lia)) as (r & -> & _).
  destruct (channels_index rgb 1 C ltac:(lia)) as (g & -> & _).
  destruct (channels_index rgb 2 C ltac:(lia)) as (b & -> & _).
  cbn [bind]. eexists. reflexivity.
Qed.

Lemma color_ok_resolves c :
  color_ok c = true -> exists rgb, hex_to_rgb c = Ok rgb.
Proof.
  intros H. destruct (color_ok_channels c H) as (rgb & R & _). now exists rgb.
Qed.

Lemma draw_circle_progress_ok img cx cy radius progress c width :
  color_ok c = true ->
  exists img', draw_circle_progress img cx cy radius progress c width = Ok img'.
Proof.
  intros H. unfold draw_circle_progress.
  destruct (color_ok_resolves c H) as [rgb ->]. cbn [bind].
  destruct (gt0 progress); eexists; reflexivity.
Qed.

Lemma draw_labels_ok img s fnt hh mm cx cy tw th :
  color_ok (StyleConfig.label_color s) = true ->
  exists img', draw_labels E img s fnt hh mm cx cy tw th = Ok img'.
Proof.
  intros H. unfold draw_labels.
  destruct (textbbox E fnt hh) as [[[? ?] ?] ?].
  destruct (textbbox E fnt (StyleConfig.separator s)) as [[[? ?] ?] ?].
  destruct (textbbox E fnt mm) as [[[? ?] ?] ?].
  destruct (color_ok_resolves _ H) as [lc ->]. cbn [bind].
  eexists. reflexivity.
Qed.

Lemma draw_progress_bar_ok img s w h p :
  color_ok (StyleConfig.progress_color s) = true ->
  (Z.abs w <= 2 ^ 30)%Z -> 0 <= p <= 1 ->
  exists img', draw_progress_bar img s w h (Fin p) = Ok img'.
Proof.
  intros H Hw Hp. unfold draw_progress_bar.
  destruct (color_ok_resolves _ H) as [pc ->]. cbn [bind].
  destruct (int_mul_fin (w - 80 * 2) p 31 0) as (m & -> & _);
    try lia; [apply unit_abs; exact Hp|].
  cbn [bind to_int]. destruct (_ >? 0)%Z; eexists; reflexivity.
Qed.

Lemma radians_ok d :
  (Z.abs d <= 2 ^ 40)%Z -> exists a, radians d = Ok a.
Proof.
  intros H. unfold radians.
  destruct (of_int_bounded 40 d ltac:(lia) H) as (q & -> & _).
  eexists. reflexivity.
Qed.

Lemma polar_ok cx cy r a :
  (Z.abs cx <= 2 ^ 40)%Z -> (Z.abs cy <= 2 ^ 40)%Z -> (Z.abs r <= 2 ^ 40)%Z ->
  exists p, polar E cx cy r a = Ok p.
Proof.
  intros Hx Hy Hr. unfold polar.
  destruct (int_mul_any r (cos E a) Hr) as [mx ->]. cbn [bind].
  destruct (int_add_any cx mx Hx) as [px ->]. cbn [bind].
  destruct (int_mul_any r (sin E a) Hr) as [my ->]. cbn [bind].
  destruct (int_add_any cy my Hy) as [py ->]. cbn [bind].
  eexists. reflexivity.
Qed.

Lemma forallb_In {A : Type} (f : A -> bool) l x :
  forallb f l = true -> In x l -> f x = true.
Proof. intros H I. rewrite forallb_forall in H. auto. Qed.

Lemma render_frame_body_ok s hh mm ss p :
  style_ok s = true -> 0 <= p <= 1 ->
  exists img, render_frame_body E s hh mm ss (Fin p) = Ok img.
Proof.
  intros H Hp. unfold style_ok in H.
  apply andb_prop in H. destruct H as [H Hw].
  apply andb_prop in H. destruct H as [Hc Hg].
  apply small_abs in Hw.
  assert (C : forall c, In c (resolved_colors s) -> color_ok c = true)
    by (intros c; apply forallb_In; exact Hc).
  unfold render_frame_body.
  destruct (color_ok_resolves (StyleConfig.bg_color s)) as [bg ->].
  { apply C. unfold resolved_colors. simpl. tauto. }
  cbn [bind].
  destruct (gradient_background_ok
              (Image_new "RGBA" (StyleConfig.width s, StyleConfig.height s)
                 (bg ++ [255]%Z))
              (StyleConfig.width s) (StyleConfig.height s)
              (StyleConfig.gradient_bg s) (StyleConfig.gradient_colors s) Hg)
    as [img1 ->].
  { apply forallb_forall. intros c Hin. apply C.
    unfold resolved_colors. rewrite !in_app_iff. tauto. }
  cbn [bind].
  assert (S2 : exists img2,
             (if StyleConfig.border s
              then
                bc <- hex_to_rgb (StyleConfig.border_color s) ;;
                Ok (Draw img1
                      (rectangle
                         [(StyleConfig.border_width s / 2)%Z;
                          (StyleConfig.border_width s / 2)%Z;
                          (StyleConfig.width s - StyleConfig.border_width s / 2)%Z;
                          (StyleConfig.height s - StyleConfig.border_width s / 2)%Z]
                         None (Some bc) (Some (StyleConfig.border_width s))))
              else Ok img1) = Ok img2).
  { destruct (StyleConfig.border s) eqn:F; [|eexists; reflexivity].
    destruct (color_ok_resolves (StyleConfig.border_color s)) as [bc ->].
    - apply C. unfold resolved_colors. rewrite F, !in_app_iff. simpl. tauto.
    - eexists. reflexivity. }
  destruct S2 as [img2 ->]. cbn [bind].
  destruct (textbbox E _ _) as [[[b0 b1] b2] b3].
  match goal with
  | |- exists img, bind ?m _ = _ => assert (S3 : exists img3, m = Ok img3)
  end.
  { destruct (StyleConfig.digit_bg_color s) as [dbc|] eqn:D; [|eexists; reflexivity].
    destruct (StyleConfig.rounded_bg s && color_truthy (Some dbc))%bool eqn:F;
      [|eexists; reflexivity].
    destruct (color_ok_resolves dbc) as [fill ->].
    - apply C. unfold resolved_colors. rewrite D, F, !in_app_iff. simpl. tauto.
    - eexists. reflexivity. }
  destruct S3 as [img3 ->]. cbn [bind].
  match goal with
  | |- exists img, bind ?m _ = _ => assert (S4 : exists img4, m = Ok img4)
  end.
  { destruct (StyleConfig.circle_progress s) eqn:F; [|eexists; reflexivity].
    apply draw_circle_progress_ok. apply C.
    unfold resolved_colors. rewrite F, !in_app_iff. simpl. tauto. }
  destruct S4 as [img4 ->]. cbn [bind].
  assert (TC : color_ok (StyleConfig.text_color s) = true).
  { apply C. unfold resolved_colors. rewrite !in_app_iff. simpl. tauto. }
  match goal with
  | |- exists img, bind ?m _ = _ => assert (S5 : exists img5, m = Ok img5)
  end.
  { destruct (StyleConfig.glow s); [|eexists; reflexivity].
    apply draw_glow_ok. exact TC. }
  destruct S5 as [img5 ->]. cbn [bind].
  destruct (color_ok_resolves _ TC) as [tc ->]. cbn [bind].
  match goal with
  | |- exists img, bind ?m _ = _ => assert (S6 : exists img6, m = Ok img6)
  end.
  { destruct (StyleConfig.show_labels s) eqn:F; [|eexists; reflexivity].
    apply draw_labels_ok. apply C.
    unfold resolved_colors. rewrite F, !in_app_iff. simpl. tauto. }
  destruct S6 as [img6 ->]. cbn [bind].
  match goal with
  | |- exists img, bind ?m _ = _ => assert (S7 : exists img7, m = Ok img7)
  end.
  { destruct (StyleConfig.progress_bar s) eqn:F; [|eexists; reflexivity].
    apply draw_progress_bar_ok; [|exact Hw|exact Hp]. apply C.
    unfold resolved_colors. rewrite F, !in_app_iff. simpl. tauto. }
  destruct S7 as [img7 ->]. cbn [bind].
  eexists. reflexivity.
Qed.

Lemma progress_ratio_ok r t :
  (0 <= r <= t)%Z ->
  exists p, progress_ratio r t = Ok (Fin p) /\ 0 <= p <= 1.
Proof.
  intros Hr. destruct (Z.eq_dec t 0) as [-> | Ht].
  - exists 1. split; [reflexivity | split; discriminate].
  - exists (progress_value r t).
    split; [apply progress_ratio_value | apply progress_value_unit]; lia.
Qed.

(** [render_frame] returns an image for a style that passes [style_ok]
    and an instant within the span. *)
Lemma render_frame_ok s r t :
  style_ok s = true -> (0 <= r <= t)%Z ->
  exists img, render_frame E s r t = Ok img.
Proof.
  intros H Hr. unfold render_frame.
  destruct (format_time r) as [[hh mm] ss].
  destruct (progress_ratio_ok r t Hr) as (p & -> & Hp). cbn [bind].
  apply render_frame_body_ok; assumption.
Qed.

Lemma draw_ticks_ok img s cx cy radius rgb :
  (Z.abs cx <= 2 ^ 32)%Z -> (Z.abs cy <= 2 ^ 32)%Z -> (Z.abs radius <= 2 ^ 32)%Z ->
  small (CircleTimerConfig.ring_width s) = true ->
  small (CircleTimerConfig.tick_major_len s) = true ->
  small (CircleTimerConfig.tick_minor_len s) = true ->
  exists img', draw_ticks E img s cx cy radius rgb = Ok img'.
Proof.
  intros Hx Hy Hr Hw Hma Hmi.
  apply small_abs in Hw, Hma, Hmi.
  unfold draw_ticks. apply for_each_ok. intros i im Hi. apply in_range in Hi.
  destruct (radians_ok (i * 6 - 90) ltac:(lia)) as [a ->]. cbn [bind].
  destruct (_ <=? 0)%Z; [eexists; reflexivity|].
  destruct (polar_ok cx cy (radius - CircleTimerConfig.ring_width s) a)
    as [outer ->]; try lia.
  cbn [bind].
  match goal with
  | |- exists img', bind (polar E cx cy ?r a) _ = _ =>
      destruct (polar_ok cx cy r a) as [inner ->]; try lia
  end.
  - destruct (i mod 5 =? 0)%Z; lia.
  - cbn [bind]. eexists. reflexivity.
Qed.

Lemma draw_hour_numbers_ok img s cx cy radius :
  color_ok (CircleTimerConfig.hour_number_color s) = true ->
  (Z.abs cx <= 2 ^ 32)%Z -> (Z.abs cy <= 2 ^ 32)%Z -> (Z.abs radius <= 2 ^ 32)%Z ->
  small (CircleTimerConfig.ring_width s) = true ->
  small (CircleTimerConfig.tick_major_len s) = true ->
  small (CircleTimerConfig.tick_minor_len s) = true ->
  exists img', draw_hour_numbers E img s cx cy radius = Ok img'.
Proof.
  intros Hc Hx Hy Hr Hw Hma Hmi.
  apply small_abs in Hw, Hma, Hmi.
  unfold draw_hour_numbers.
  destruct (color_ok_resolves _ Hc) as [rgb ->]. cbn [bind].
  apply for_each_ok. intros i im Hi. apply in_range in Hi.
  destruct (radians_ok (i * 30 - 90) ltac:(lia)) as [a ->]. cbn [bind].
  match goal with
  | |- exists img', bind (polar E cx cy ?r a) _ = _ =>
      destruct (polar_ok cx cy r a) as [n ->]; try lia
  end.
  cbn [bind]. eexists. reflexivity.
Qed.

Lemma half_small n : (Z.abs n <= 2 ^ 30)%Z -> (Z.abs (n / 2) <= 2 ^ 30)%Z.
Proof.
  intros H. pose proof (Z.div_mod n 2 ltac:(lia)).
  pose proof (Z.mod_pos_bound n 2 ltac:(lia)). lia.
Qed.

Lemma render_circle_frame_body_ok s hh mm ss ratio :
  circle_style_ok s = true ->
  exists img, render_circle_frame_body E s hh mm ss ratio = Ok img.
Proof.
  intros H. unfold circle_style_ok in H. rewrite !andb_true_iff in H.
  destruct H as ((((((Hc & G) & W) & Hh') & RW) & MA) & MI).
  assert (C : forall c, In c (circle_resolved_colors s) -> color_ok c = true)
    by (intros c; apply forallb_In; exact Hc).
  pose proof (half_small _ (small_abs _ W)) as CX.
  pose proof (half_small _ (small_abs _ Hh')) as CY.
  assert (R : (Z.abs (Z.min (CircleTimerConfig.width s) (CircleTimerConfig.height s) / 2
                      - 80) <= 2 ^ 32)%Z).
  { pose proof (small_abs _ W). pose proof (small_abs _ Hh').
    pose proof (half_small (Z.min (CircleTimerConfig.width s)
                              (CircleTimerConfig.height s)) ltac:(lia)). lia. }
  unfold render_circle_frame_body.
  destruct (color_ok_resolves (CircleTimerConfig.bg_color s)) as [bg ->].
  { apply C. unfold circle_resolved_colors. simpl. tauto. }
  cbn [bind].
  destruct (gradient_background_ok
              (Image_new "RGBA"
                 (CircleTimerConfig.width s, CircleTimerConfig.height s)
                 (bg ++ [255]%Z))
              (CircleTimerConfig.width s) (CircleTimerConfig.height s)
              (CircleTimerConfig.gradient_bg s)
              (CircleTimerConfig.gradient_colors s) G)
    as [img1 ->].
  { apply forallb_forall. intros c Hin. apply C.
    unfold circle_resolved_colors. rewrite !in_app_iff. tauto. }
  cbn [bind].
  destruct (color_ok_resolves (CircleTimerConfig.wedge_color s)) as [wedge_rgb ->].
  { apply C. unfold circle_resolved_colors. rewrite !in_app_iff. simpl. tauto. }
  cbn [bind].
  destruct (color_ok_resolves (CircleTimerConfig.ring_color s)) as [ring_rgb ->].
  { apply C. unfold circle_resolved_colors. rewrite !in_app_iff. simpl. tauto. }
  cbn [bind].
  destruct (color_ok_resolves (CircleTimerConfig.tick_color s)) as [tick_rgb ->].
  { apply C. unfold circle_resolved_colors. rewrite !in_app_iff. simpl. tauto. }
  cbn [bind].
  match goal with
  | |- exists img, bind ?m _ = _ => assert (S2 : exists img2, m = Ok img2)
  end.
  { destruct (CircleTimerConfig.show_ticks s); [|eexists; reflexivity].
    apply draw_ticks_ok; try assumption; lia. }
  destruct S2 as [img2 ->]. cbn [bind].
  match goal with
  | |- exists img, bind ?m _ = _ => assert (S3 : exists img3, m = Ok img3)
  end.
  { destruct (CircleTimerConfig.show_hour_numbers s) eqn:F; [|eexists; reflexivity].
    apply draw_hour_numbers_ok; try assumption; try lia.
    apply C. unfold circle_resolved_colors. rewrite F, !in_app_iff. simpl. tauto. }
  destruct S3 as [img3 ->]. cbn [bind].
  match goal with
  | |- exists img, bind ?m _ = _ => assert (S4 : exists img4, m = Ok img4)
  end.
  { destruct (CircleTimerConfig.center_dot s) eqn:F; [|eexists; reflexivity].
    destruct (color_ok_resolves (CircleTimerConfig.center_dot_color s)) as [d ->].
    - apply C. unfold circle_resolved_colors. rewrite F, !in_app_iff. simpl. tauto.
    - eexists. reflexivity. }
  destruct S4 as [img4 ->]. cbn [bind].
  assert (TC : color_ok (CircleTimerConfig.text_color s) = true).
  { apply C. unfold circle_resolved_colors. rewrite !in_app_iff. simpl. tauto. }
  match goal with
  | |- exists img, bind ?m _ = _ => assert (S5 : exists img5, m = Ok img5)
  end.
  { destruct (CircleTimerConfig.glow s); [|eexists; reflexivity].
    apply draw_glow_ok. exact TC. }
  destruct S5 as [img5 ->]. cbn [bind].
  destruct (color_ok_resolves _ TC) as [tc ->]. cbn [bind].
  eexists. reflexivity.
Qed.

Lemma remaining_ratio_ok r t :
  (0 <= r <= t)%Z ->
  exists q, remaining_ratio r t = Ok (Fin q) /\ 0 <= q <= 1.
Proof.
  intros Hr. unfold remaining_ratio. destruct (Z.gtb_spec t 0).
  - apply truediv_unit_ok; lia.
  - exists 0. split; [reflexivity | split; discriminate].
Qed.

Lemma render_circle_frame_ok s r t :
  circle_style_ok s = true -> (0 <= r <= t)%Z ->
  exists img, render_circle_frame E s r t = Ok img.
Proof.
  intros H Hr. unfold render_circle_frame.
  destruct (format_time r) as [[hh mm] ss].
  destruct (remaining_ratio_ok r t Hr) as (q & -> & _). cbn [bind].
  apply render_circle_frame_body_ok; assumption.
Qed.

End RenderTotal.

(** Every style of the two catalogs passes the checks. *)
Lemma catalog_styles_ok : forallb (fun kv => any_style_ok (snd kv)) ALL_STYLES = true.
Proof. vm_compute. reflexivity. Qed.

Lemma ALL_STYLES_ok name s :
  dict_get ALL_STYLES name = Some s -> any_style_ok s = true.
Proof.
  intros H. pose proof catalog_styles_ok as C.
  rewrite forallb_forall in C.
  assert (G : forall (d : dict style) k v,
             dict_get d k = Some v -> exists k', In (k', v) d).
  { induction d as [|[k' v'] d IH]; simpl; intros k v Hk; [discriminate|].
    destruct (String.eqb k' k).
    - injection Hk as <-. exists k'. now left.
    - destruct (IH k v Hk) as [k'' I]. exists k''. now right. }
  destruct (G _ _ _ H) as [k' I]. exact (C _ I).
Qed.

(* ------------------------------------------------------------------ *)
(** * The sequencer                                                     *)
(* ------------------------------------------------------------------ *)

Section SequencerFacts.

Variable E : Env.

Lemma renders_app t1 t2 : renders (t1 ++ t2) = renders t1 ++ renders t2.
Proof. unfold renders. apply flat_map_app. Qed.

Lemma files_written_app t1 t2 :
  files_written E (t1 ++ t2) = files_written E t1 ++ files_written E t2.
Proof. unfold files_written. apply flat_map_app. Qed.

Lemma yields_ret {A : Type} (a : A) : run_yields E (Run.ret a) a [] [].
Proof. repeat split. Qed.

Lemma yields_bind {A B : Type} (m : run A) (k : A -> run B) a b rs fs rs' fs' :
  run_yields E m a rs fs -> run_yields E (k a) b rs' fs' ->
  run_yields E (Run.bind m k) b (rs ++ rs') (fs ++ fs').
Proof.
  intros (S1 & R1 & F1) (S2 & R2 & F2). unfold Run.bind, run_yields.
  destruct m as [t s]. simpl in *. subst s.
  destruct (k a) as [t' s']. simpl in *.
  rewrite renders_app, files_written_app. subst. repeat split.
Qed.

Lemma yields_print {l : string} : run_yields E (Run.print l) tt [] [].
Proof. repeat split. Qed.

Lemma yields_lift {A : Type} (r : Py.result A) a :
  r = Py.Ok a -> run_yields E (Run.lift r) a [] [].
Proof. intros ->. repeat split. Qed.

Lemma range_nil a b : b <= a -> Py.range a b = [].
Proof.
  intros H. unfold Py.range. replace (Z.to_nat (b - a)) with O by lia.
  reflexivity.
Qed.

Lemma range_cons a b : a < b -> Py.range a b = a :: Py.range (a + 1) b.
Proof.
  intros H. unfold Py.range.
  replace (Z.to_nat (b - a)) with (S (Z.to_nat (b - (a + 1)))) by lia.
  cbn [seq map]. f_equal; [lia|].
  rewrite <- seq_shift, map_map. apply map_ext. intros i. lia.
Qed.

Lemma range_down_nil a b : a <= b -> Py.range_down a b = [].
Proof.
  intros H. unfold Py.range_down. replace (Z.to_nat (a - b)) with O by lia.
  reflexivity.
Qed.

Lemma range_down_cons a b :
  b < a -> Py.range_down a b = a :: Py.range_down (a - 1) b.
Proof.
  intros H. unfold Py.range_down.
  replace (Z.to_nat (a - b)) with (S (Z.to_nat (a - 1 - b))) by lia.
  cbn [seq map]. f_equal; [lia|].
  rewrite <- seq_shift, map_map. apply map_ext. intros i. lia.
Qed.

(** The progress report neither renders nor writes, and it returns as
    long as a full minute of frames implies a non-zero total. *)
Lemma yields_report_progress fps total_frames second frame_num :
  (frame_num mod (fps * 60) = 0 -> total_frames <> 0) ->
  run_yields E (report_progress fps total_frames second frame_num) tt [] [].
Proof.
  intros H. unfold report_progress.
  destruct (Z.eqb_spec (frame_num mod (fps * 60)) 0) as [M|M];
    [|apply yields_ret].
  destruct (format_time second) as [[hh mm] ss].
  destruct (Z.eqb_spec total_frames 0) as [T|T]; [exfalso; exact (H M T)|].
  repeat split.
Qed.

Lemma full_minute_total fps duration j i :
  0 < fps -> 0 <= j <= duration -> 0 <= i < fps ->
  (j * fps + i + 1) mod (fps * 60) = 0 -> duration * fps <> 0.
Proof.
  intros Hf Hj Hi M.
  apply Z.mod_divide in M; [|lia]. destruct M as [q M].
  assert (1 <= q) by nia.
  assert (60 * fps <= (j + 1) * fps) by nia.
  assert (59 <= j) by nia. nia.
Qed.

Section Loop.

Variables (s : style) (frame_dir : string).
Variables (fps duration start_seconds : Z).
Hypothesis style_fine : any_style_ok s = true.

Lemma render_result_ok second :
  0 <= second <= start_seconds ->
  render_result E s second start_seconds
  = Py.Ok (frame_image E s second start_seconds).
Proof.
  intros H. unfold frame_image.
  destruct s as [d|c]; simpl in *.
  - destruct (render_frame_ok E d second start_seconds style_fine H) as [i ->].
    reflexivity.
  - destruct (render_circle_frame_ok E c second start_seconds style_fine H)
      as [i ->]. reflexivity.
Qed.

Lemma yields_render_style second :
  0 <= second <= start_seconds ->
  run_yields E (render_style E s second start_seconds)
    (frame_image E s second start_seconds) [second] [].
Proof.
  intros H. pose proof (render_result_ok second H) as R.
  unfold render_style, render_result in *.
  destruct s as [d|c]; rewrite R; repeat split.
Qed.

(** One pass of the body of the inner loop. *)
Lemma yields_sub_frame_body second j i cur :
  0 < fps -> 0 <= second <= start_seconds -> 0 <= j <= duration ->
  0 <= i < fps ->
  (i <> 0 -> cur = Some (frame_image E s second start_seconds)) ->
  run_yields E
    (sub_frame_body E s frame_dir fps (duration * fps) start_seconds second i
       {| frame_num := j * fps + i; img := cur |})
    {| frame_num := j * fps + (i + 1);
       img := Some (frame_image E s second start_seconds) |}
    (if i =? 0 then [second] else [])
    [(frame_path frame_dir (j * fps + i),
      png_encode E (frame_image E s second start_seconds) true)].
Proof.
  intros Hf Hs Hj Hi Hc. unfold sub_frame_body. cbn [frame_num img].
  set (im := frame_image E s second start_seconds) in *.
  replace (if i =? 0 then [second] else [])
    with ((if i =? 0 then [second] else []) ++ [] ++ [] ++ [] ++ [])
    by (rewrite !app_nil_r; reflexivity).
  change [(frame_path frame_dir (j * fps + i), png_encode E im true)]
    with ([] ++ [] ++ [(frame_path frame_dir (j * fps + i), png_encode E im true)]
          ++ [] ++ []).
  apply yields_bind with (a := Some im).
  { destruct (Z.eqb_spec i 0) as [-> | N].
    - rewrite <- (app_nil_r [second]).
      change (@nil (string * string)) with (@nil (string * string) ++ []).
      eapply yields_bind; [apply yields_render_style; exact Hs|].
      apply yields_ret.
    - rewrite (Hc N). apply yields_ret. }
  apply yields_bind with (a := im); [apply yields_lift; reflexivity|].
  apply yields_bind with (a := tt); [repeat split|].
  apply yields_bind with (a := tt).
  { apply yields_report_progress.
    replace (j * fps + i + 1) with (j * fps + i + 1) by lia.
    apply full_minute_total; assumption. }
  replace (j * fps + i + 1) with (j * fps + (i + 1)) by lia.
  apply yields_ret.
Qed.

(** The inner loop from sub-frame [i] on. *)
Lemma yields_sub_frames second j :
  0 < fps -> 0 <= second <= start_seconds -> 0 <= j <= duration ->
  forall n i cur,
    n = Z.to_nat (fps - i) -> 0 <= i <= fps ->
    (i <> 0 -> cur = Some (frame_image E s second start_seconds)) ->
    exists cur',
      run_yields E
        (Run.for_each (Py.range i fps)
           (sub_frame_body E s frame_dir fps (duration * fps) start_seconds
              second)
           {| frame_num := j * fps + i; img := cur |})
        {| frame_num := j * fps + fps; img := cur' |}
        (if i =? 0 then [second] else [])
        (map (fun i => (frame_path frame_dir (j * fps + i),
                        png_encode E (frame_image E s second start_seconds)
                          true))
             (Py.range i fps)).
Proof.
  intros Hf Hs Hj n. induction n as [|n IH]; intros i cur Hn Hi Hc.
  - assert (i = fps) by lia. subst i.
    rewrite range_nil by lia. exists cur.
    destruct (Z.eqb_spec fps 0); [lia|]. apply yields_ret.
  - rewrite range_cons by lia. cbn [Run.for_each map].
    destruct (IH (i + 1) (Some (frame_image E s second start_seconds)))
      as [cur' Y]; [lia | lia | reflexivity |].
    exists cur'.
    destruct (Z.eqb_spec (i + 1) 0) as [|_] in Y; [lia|].
    rewrite <- (app_nil_r (if i =? 0 then [second] else [])).
    match goal with
    | |- run_yields _ _ _ _ (?x :: ?l) => change (x :: l) with ([x] ++ l)
    end.
    eapply yields_bind; [|exact Y].
    apply yields_sub_frame_body; try assumption; lia.
Qed.

Lemma run_bind_ext {A B : Type} (m : run A) (k k' : A -> run B) :
  (forall a, k a = k' a) -> Run.bind m k = Run.bind m k'.
Proof.
  intros H. unfold Run.bind. destruct m as [t [a| |]]; try reflexivity.
  now rewrite H.
Qed.

(** A negative second ends the outer loop. *)
Lemma seconds_loop_break total_frames l1 l2 st :
  (forall x, In x l1 -> 0 <= x) ->
  (l2 = [] \/ exists x r, l2 = x :: r /\ x < 0) ->
  seconds_loop E s frame_dir fps total_frames start_seconds (l1 ++ l2) st
  = seconds_loop E s frame_dir fps total_frames start_seconds l1 st.
Proof.
  intros H1 H2. revert st. induction l1 as [|x l1 IH]; intros st.
  - destruct H2 as [-> | (x & r & -> & Hx)]; [reflexivity|].
    simpl. destruct (Z.ltb_spec x 0); [reflexivity | lia].
  - cbn [app seconds_loop].
    destruct (Z.ltb_spec x 0); [reflexivity|].
    apply run_bind_ext. intros st'. apply IH.
    intros y Hy. apply H1. now right.
Qed.

(** The outer loop over seconds that are all within the span. *)
Lemma yields_seconds_loop :
  0 < fps ->
  forall seconds j cur,
    (forall x, In x seconds -> 0 <= x <= start_seconds) ->
    0 <= j ->
    (seconds <> [] -> j + Z.of_nat (List.length seconds) <= duration + 1) ->
    exists cur',
      run_yields E
        (seconds_loop E s frame_dir fps (duration * fps) start_seconds seconds
           {| frame_num := j * fps; img := cur |})
        {| frame_num := (j + Z.of_nat (List.length seconds)) * fps; img := cur' |}
        seconds
        (expected_files E s frame_dir fps start_seconds j seconds).
Proof.
  intros Hf seconds. induction seconds as [|x rest IH]; intros j cur Hin Hj Hl.
  - exists cur. simpl. replace (j + 0) with j by lia. apply yields_ret.
  - cbn [seconds_loop expected_files].
    assert (Hx : 0 <= x <= start_seconds) by (apply Hin; now left).
    destruct (Z.ltb_spec x 0); [lia|].
    specialize (Hl ltac:(discriminate)). cbn [List.length] in Hl.
    destruct (yields_sub_frames x j Hf Hx ltac:(lia) (Z.to_nat (fps - 0)) 0 cur
                eq_refl ltac:(lia) ltac:(congruence)) as [cur1 Y1].
    replace (j * fps + 0) with (j * fps) in Y1 by lia.
    replace (j * fps + fps) with ((j + 1) * fps) in Y1 by lia.
    destruct (IH (j + 1) cur1) as [cur' Y2];
      [intros y Hy; apply Hin; now right | lia | intros _; lia |].
    exists cur'.
    replace ((j + Z.of_nat (List.length (x :: rest))) * fps)
      with ((j + 1 + Z.of_nat (List.length rest)) * fps)
      by (cbn [List.length]; lia).
    change (x :: rest) with ([x] ++ rest).
    eapply yields_bind; [exact Y1 | exact Y2].
Qed.

(** Without a positive [fps] the loop does nothing. *)
Lemma yields_seconds_loop_idle total_frames :
  fps <= 0 ->
  forall seconds st,
    run_yields E
      (seconds_loop E s frame_dir fps total_frames start_seconds seconds st)
      st [] [].
Proof.
  intros Hf seconds. induction seconds as [|x rest IH]; intros st.
  - apply yields_ret.
  - cbn [seconds_loop]. destruct (Z.ltb_spec x 0); [apply yields_ret|].
    rewrite range_nil by lia. cbn [Run.for_each].
    change (@nil Z) with (@nil Z ++ []).
    change (@nil (string * string)) with (@nil (string * string) ++ []).
    eapply yields_bind; [apply yields_ret | apply IH].
Qed.

End Loop.

Lemma range_down_split a b c :
  c <= b <= a -> Py.range_down a c = Py.range_down a b ++ Py.range_down b c.
Proof.
  intros H. remember (Z.to_nat (a - b)) as n eqn:Hn.
  revert a H Hn. induction n as [|n IH]; intros a H Hn.
  - assert (a = b) by lia. subst a.
    now rewrite (range_down_nil b b) by lia.
  - destruct (Z.eq_dec a b) as [->|N]; [lia|].
    rewrite (range_down_cons a c), (range_down_cons a b) by lia.
    cbn [app]. f_equal. apply IH; lia.
Qed.

(** The range of the outer loop: the seconds of the countdown, then
    nothing or a negative second. *)
Lemma loop_range_split duration start_seconds :
  exists rest,
    Py.range_down start_seconds (start_seconds - duration - 1)
    = countdown_seconds duration start_seconds ++ rest /\
    (rest = [] \/ exists x r, rest = x :: r /\ x < 0).
Proof.
  unfold countdown_seconds.
  set (stop := start_seconds - duration - 1).
  set (m := Z.max (start_seconds - duration) 0 - 1).
  destruct (Z_le_gt_dec m start_seconds) as [L|G].
  - exists (Py.range_down m stop). split.
    + apply range_down_split. unfold m, stop. lia.
    + destruct (Z_le_gt_dec m stop).
      * left. apply range_down_nil. lia.
      * right. rewrite range_down_cons by lia.
        eexists _, _. split; [reflexivity|]. unfold m, stop in *. lia.
  - exists (Py.range_down start_seconds stop). split.
    + rewrite (range_down_nil start_seconds m) by lia. reflexivity.
    + destruct (Z_le_gt_dec start_seconds stop).
      * left. apply range_down_nil. lia.
      * right. rewrite range_down_cons by lia.
        eexists _, _. split; [reflexivity|]. unfold m, stop in *. lia.
Qed.

Lemma countdown_seconds_in duration start_seconds x :
  In x (countdown_seconds duration start_seconds) ->
  0 <= x <= start_seconds /\ start_seconds - duration <= x.
Proof. unfold countdown_seconds. rewrite in_range_down. lia. Qed.

Lemma range_down_length a b :
  List.length (Py.range_down a b) = Z.to_nat (a - b).
Proof. unfold Py.range_down. now rewrite length_map, length_seq. Qed.

Lemma range_length a b : List.length (Py.range a b) = Z.to_nat (b - a).
Proof. unfold Py.range. now rewrite length_map, length_seq. Qed.

(** How many seconds a countdown shows. *)
Lemma countdown_seconds_length duration start_seconds :
  Z.of_nat (List.length (countdown_seconds duration start_seconds))
  = if (0 <=? duration) && (0 <=? start_seconds)
    then Z.min duration start_seconds + 1 else 0.
Proof.
  unfold countdown_seconds. rewrite range_down_length.
  destruct (Z.leb_spec 0 duration); destruct (Z.leb_spec 0 start_seconds);
    simpl; lia.
Qed.

Lemma countdown_seconds_nth duration start_seconds i :
  (i < List.length (countdown_seconds duration start_seconds))%nat ->
  nth i (countdown_seconds duration start_seconds) 0
  = start_seconds - Z.of_nat i.
Proof.
  unfold countdown_seconds. rewrite range_down_length. intros H.
  unfold Py.range_down.
  rewrite (nth_indep _ 0 ((fun i => start_seconds - Z.of_nat i) O))
    by (rewrite length_map, length_seq; exact H).
  rewrite (map_nth (fun i => start_seconds - Z.of_nat i)), seq_nth by exact H.
  reflexivity.
Qed.

Lemma NoDup_map_injective {A B : Type} (f : A -> B) l :
  (forall a b, f a = f b -> a = b) -> NoDup l -> NoDup (map f l).
Proof.
  intros Hf N. induction N as [|a l Ha N IH]; simpl; constructor; auto.
  intros I. apply in_map_iff in I. destruct I as (b & Hb & Ib).
  apply Hf in Hb. subst b. contradiction.
Qed.

Lemma countdown_seconds_NoDup duration start_seconds :
  NoDup (countdown_seconds duration start_seconds).
Proof.
  unfold countdown_seconds, Py.range_down.
  apply NoDup_map_injective; [|apply seq_NoDup].
  intros a b H. lia.
Qed.

Lemma second_files_length s frame_dir fps start_seconds j x :
  List.length (second_files E s frame_dir fps start_seconds j x)
  = Z.to_nat fps.
Proof.
  unfold second_files. rewrite length_map, range_length. f_equal. lia.
Qed.

Lemma expected_files_length s frame_dir fps start_seconds seconds : forall j,
  List.length (expected_files E s frame_dir fps start_seconds j seconds)
  = (Z.to_nat fps * List.length seconds)%nat.
Proof.
  induction seconds as [|x rest IH]; intros j; simpl; [lia|].
  rewrite length_app, second_files_length, IH. lia.
Qed.

(** File number [k] of a run is [frame_<k>.png] and holds the image of
    second number [k / fps]. *)
Lemma expected_files_nth s frame_dir fps start_seconds :
  0 < fps ->
  forall seconds j k,
    0 <= k < fps * Z.of_nat (List.length seconds) ->
    nth_error (expected_files E s frame_dir fps start_seconds j seconds)
      (Z.to_nat k)
    = Some (frame_path frame_dir (j * fps + k),
            png_encode E
              (frame_image E s (nth (Z.to_nat (k / fps)) seconds 0)
                 start_seconds)
              true).
Proof.
  intros Hf seconds. induction seconds as [|x rest IH]; intros j k Hk.
  - simpl in Hk. lia.
  - cbn [expected_files].
    destruct (Z_lt_ge_dec k fps) as [L|G].
    + rewrite nth_error_app1
        by (rewrite second_files_length; lia).
      unfold second_files, Py.range.
      rewrite nth_error_map, nth_error_map, nth_error_seq.
      destruct (Nat.ltb_spec (Z.to_nat k) (Z.to_nat (fps - 0))); [|lia].
      cbn [option_map]. rewrite Z.div_small by lia.
      cbn [Z.to_nat nth]. do 3 f_equal. lia.
    + rewrite nth_error_app2
        by (rewrite second_files_length; lia).
      rewrite second_files_length.
      replace (Z.to_nat k - Z.to_nat fps)%nat with (Z.to_nat (k - fps)) by lia.
      cbn [List.length] in Hk.
      rewrite IH by lia.
      assert (D : k / fps = (k - fps) / fps + 1).
      { replace k with ((k - fps) + 1 * fps) at 1 by lia.
        rewrite Z.div_add by lia. reflexivity. }
      assert (P : 0 <= (k - fps) / fps) by (apply Z.div_pos; lia).
      rewrite D.
      replace (Z.to_nat ((k - fps) / fps + 1)) with (S (Z.to_nat ((k - fps) / fps)))
        by lia.
      cbn [nth].
      replace ((j + 1) * fps + (k - fps)) with (j * fps + k) by lia.
      reflexivity.
Qed.

End SequencerFacts.

(* ------------------------------------------------------------------ *)
(** * What the drawing helpers add to an image                          *)
(* ------------------------------------------------------------------ *)

Section DrawnFacts.

Import Py.

Variable E : Env.

Lemma drawn_on_trans a b c : drawn_on a b -> drawn_on b c -> drawn_on a c.
Proof. intros H1 H2. induction H2; [assumption | now constructor]. Qed.

Lemma drawn_on_texts a b : drawn_on a b -> incl (texts a) (texts b).
Proof.
  intros H. induction H as [|img op H IH]; [apply incl_refl|].
  destruct op; simpl; try exact IH.
  apply incl_appr with (m := texts img) in IH.
  intros x Hx. apply in_or_app. left. apply IH in Hx.
  apply in_app_or in Hx. destruct Hx; assumption.
Qed.

Lemma drawn_on_composites a b : drawn_on a b -> composites b = composites a.
Proof. intros H. induction H; simpl; auto. Qed.

Lemma for_each_drawn {A : Type} (xs : list A) (body : A -> image -> result image) :
  (forall x i i', body x i = Ok i' -> drawn_on i i') ->
  forall i i', for_each xs body i = Ok i' -> drawn_on i i'.
Proof.
  intros Hb. induction xs as [|x xs IH]; simpl; intros i i' H.
  - injection H as <-. constructor.
  - apply bind_Ok_inv in H. destruct H as (i1 & H1 & H2).
    eapply drawn_on_trans; [exact (Hb x i i1 H1) | apply IH; exact H2].
Qed.

Lemma draw_gradient_drawn img w h c0 c1 img' :
  draw_gradient img w h c0 c1 = Ok img' -> drawn_on img img'.
Proof.
  unfold draw_gradient. intros H. peel H. revert H. apply for_each_drawn.
  intros y i i' Hy. peel Hy. injection Hy as <-. repeat constructor.
Qed.

Lemma gradient_background_drawn img w h flag gc img' :
  gradient_background img w h flag gc = Ok img' -> drawn_on img img'.
Proof.
  unfold gradient_background. intros H.
  destruct gc as [gc|]; [|injection H as <-; constructor].
  destruct (flag && tuple_truthy (Some gc))%bool;
    [|injection H as <-; constructor].
  apply bind_Ok_inv in H. destruct H as (c0 & _ & H).
  apply bind_Ok_inv in H. destruct H as (c1 & _ & H).
  eapply draw_gradient_drawn. exact H.
Qed.

Lemma fold_left_drawn {A : Type} (f : image -> A -> image) (xs : list A) :
  (forall i x, drawn_on i (f i x)) ->
  forall i, drawn_on i (fold_left f xs i).
Proof.
  intros Hf. induction xs as [|x xs IH]; simpl; intros i; [constructor|].
  eapply drawn_on_trans; [apply (Hf i x) | apply IH].
Qed.

Lemma glow_layer_drawn img txt x y fnt gc i :
  drawn_on img (glow_layer img txt x y fnt gc i).
Proof.
  unfold glow_layer. apply fold_left_drawn. intros i1 dx.
  apply fold_left_drawn. intros i2 dy.
  destruct (_ <=? _); repeat constructor.
Qed.

Lemma draw_glow_drawn img txt x y fnt c layers img' :
  draw_glow img txt x y fnt c layers = Ok img' -> drawn_on img img'.
Proof.
  unfold draw_glow. intros H. peel H. revert H. apply for_each_drawn.
  intros i i1 i2 Hi. peel Hi. injection Hi as <-. apply glow_layer_drawn.
Qed.

Lemma draw_circle_progress_drawn img cx cy radius progress c width img' :
  draw_circle_progress img cx cy radius progress c width = Ok img' ->
  drawn_on img img'.
Proof.
  unfold draw_circle_progress. intros H. peel H.
  destruct (Float.gt0 progress); injection H as <-; repeat constructor.
Qed.

Lemma draw_labels_drawn img s fnt hh mm cx cy tw th img' :
  draw_labels E img s fnt hh mm cx cy tw th = Ok img' -> drawn_on img img'.
Proof.
  unfold draw_labels. intros H.
  destruct (textbbox E fnt hh) as [[[? ?] ?] ?].
  destruct (textbbox E fnt (StyleConfig.separator s)) as [[[? ?] ?] ?].
  destruct (textbbox E fnt mm) as [[[? ?] ?] ?].
  peel H. injection H as <-. repeat constructor.
Qed.

Lemma draw_progress_bar_drawn img s w h progress img' :
  draw_progress_bar img s w h progress = Ok img' -> drawn_on img img'.
Proof.
  unfold draw_progress_bar. intros H. peel H.
  destruct (_ >? 0); injection H as <-; repeat constructor.
Qed.

Lemma draw_ticks_drawn img s cx cy radius rgb img' :
  draw_ticks E img s cx cy radius rgb = Ok img' -> drawn_on img img'.
Proof.
  unfold draw_ticks. apply for_each_drawn. intros i i1 i2 Hi. peel Hi.
  destruct (_ <=? 0); [injection Hi as <-; constructor|].
  peel Hi. injection Hi as <-. repeat constructor.
Qed.

Lemma draw_hour_numbers_drawn img s cx cy radius img' :
  draw_hour_numbers E img s cx cy radius = Ok img' -> drawn_on img img'.
Proof.
  unfold draw_hour_numbers. intros H. peel H. revert H.
  apply for_each_drawn. intros i i1 i2 Hi. peel Hi.
  injection Hi as <-. repeat constructor.
Qed.

(** A frame of the digital family shows its time string. *)
Lemma render_frame_shows_time s r t img :
  render_frame E s r t = Ok img ->
  let '(hh, mm, ss) := format_time r in
  In (hh +++ StyleConfig.separator s +++ mm +++ StyleConfig.separator s +++ ss)
     (texts img).
Proof.
  unfold render_frame. destruct (format_time r) as [[hh mm] ss].
  intros H. apply bind_Ok_inv in H. destruct H as (progress & _ & H).
  unfold render_frame_body in H.
  apply bind_Ok_inv in H. destruct H as (bg & _ & H).
  apply bind_Ok_inv in H. destruct H as (img1 & _ & H).
  apply bind_Ok_inv in H. destruct H as (img2 & _ & H).
  destruct (textbbox E _ _) as [[[b0 b1] b2] b3].
  apply bind_Ok_inv in H. destruct H as (img3 & _ & H).
  apply bind_Ok_inv in H. destruct H as (img4 & _ & H).
  apply bind_Ok_inv in H. destruct H as (img5 & _ & H).
  apply bind_Ok_inv in H. destruct H as (tc & _ & H).
  apply bind_Ok_inv in H. destruct H as (img6 & H6 & H).
  apply bind_Ok_inv in H. destruct H as (img7 & H7 & H).
  injection H as <-. cbn [texts].
  assert (D : drawn_on
                (Draw img5
                   (text (Int (StyleConfig.width s / 2),
                          Int (StyleConfig.height s / 2))
                      (hh +++ StyleConfig.separator s +++ mm
                       +++ StyleConfig.separator s +++ ss)
                      (get_font E s) tc "mm")) img7).
  { eapply drawn_on_trans.
    - destruct (StyleConfig.show_labels s).
      + eapply draw_labels_drawn. exact H6.
      + injection H6 as <-. constructor.
    - destruct (StyleConfig.progress_bar s).
      + eapply draw_progress_bar_drawn. exact H7.
      + injection H7 as <-. constructor. }
  apply (drawn_on_texts _ _ D). cbn [texts]. apply in_or_app. right. now left.
Qed.

(** A frame of the circular family shows [HH:MM:SS]. *)
Lemma render_circle_frame_shows_time s r t img :
  render_circle_frame E s r t = Ok img ->
  let '(hh, mm, ss) := format_time r in
  In (hh +++ ":" +++ mm +++ ":" +++ ss) (texts img).
Proof.
  unfold render_circle_frame. destruct (format_time r) as [[hh mm] ss].
  intros H. apply bind_Ok_inv in H. destruct H as (ratio & _ & H).
  unfold render_circle_frame_body in H. peel H.
  injection H as <-. cbn [texts]. apply in_or_app. right. now left.
Qed.

End DrawnFacts.

(* ------------------------------------------------------------------ *)
(** * Runs of [generate_frames]                                         *)
(* ------------------------------------------------------------------ *)

Section GenerateFacts.

Variable E : Env.

(** The events of a run on a catalog style: the directory and the five
    opening lines, the events of the loop, and the four closing lines,
    the first of which reports the frame counter. *)
Lemma generate_frames_trace name s output_dir fps duration start_seconds :
  dict_get ALL_STYLES name = Some s ->
  let frame_dir := Py.path_join output_dir name in
  let seconds := countdown_seconds duration start_seconds in
  exists loop_trace,
    generate_frames E name output_dir fps duration start_seconds
    = ([Makedirs frame_dir;
        Printed ("Generating " +++ name +++ " countdown: "
               +++ Py.str (duration * fps) +++ " frames at "
               +++ Py.str fps +++ " fps");
        Printed ("  Resolution: " +++ Py.str (style_width s) +++ "x"
               +++ Py.str (style_height s));
        Printed ("  Output: " +++ frame_dir +++ "/");
        Printed ("  Duration: " +++ Py.str duration +++ "s ("
               +++ Py.str (duration / 3600) +++ "h "
               +++ Py.str ((duration mod 3600) / 60) +++ "m "
               +++ Py.str (duration mod 60) +++ "s)");
        Printed ""]
       ++ loop_trace
       ++ [Printed (Py.nl +++ "Done! "
                  +++ Py.str (if 0 <? fps
                              then Z.of_nat (List.length seconds) * fps
                              else 0)
                  +++ " frames saved to " +++ frame_dir +++ "/");
           Printed (Py.nl +++ "To create video with ffmpeg:");
           Printed ("  ffmpeg -framerate " +++ Py.str fps +++ " -i "
                  +++ frame_dir +++ "/frame_%08d.png " +++ backslash);
           Printed ("    -c:v libx264 -pix_fmt yuv420p -crf 18 countdown_"
                  +++ name +++ ".mp4")],
       Returned tt) /\
    renders loop_trace = (if 0 <? fps then seconds else []) /\
    files_written E loop_trace
    = (if 0 <? fps
       then expected_files E s frame_dir fps start_seconds 0 seconds
       else []).
Proof.
  intros H frame_dir seconds. pose proof (ALL_STYLES_ok name s H) as Hok.
  unfold generate_frames. rewrite H.
  destruct (loop_range_split duration start_seconds) as (rest & -> & Hrest).
  rewrite seconds_loop_break;
    [|intros x Hx; apply countdown_seconds_in in Hx; lia | exact Hrest].
  fold frame_dir. fold seconds.
  assert (Y : exists cur,
             run_yields E
               (seconds_loop E s frame_dir fps (duration * fps) start_seconds
                  seconds {| frame_num := 0; img := None |})
               {| frame_num := if 0 <? fps
                               then Z.of_nat (List.length seconds) * fps
                               else 0;
                  img := cur |}
               (if 0 <? fps then seconds else [])
               (if 0 <? fps
                then expected_files E s frame_dir fps start_seconds 0 seconds
                else [])).
  { destruct (Z.ltb_spec 0 fps) as [Hf|Hf].
    - destruct (yields_seconds_loop E s frame_dir fps duration start_seconds Hok
                  Hf seconds 0 None)
        as [cur' Y'].
      + intros x Hx. apply countdown_seconds_in in Hx. lia.
      + lia.
      + intros N. unfold seconds. rewrite countdown_seconds_length.
        destruct ((0 <=? duration) && (0 <=? start_seconds))%bool eqn:B.
        * apply andb_prop in B. lia.
        * exfalso. apply N. apply length_zero_iff_nil.
          apply Nat2Z.inj. unfold seconds.
          rewrite countdown_seconds_length, B. reflexivity.
      + exists cur'. exact Y'.
    - eexists. apply yields_seconds_loop_idle. exact Hf. }
  destruct Y as (cur & S & R & F).
  destruct (seconds_loop E s frame_dir fps (duration * fps) start_seconds
              seconds {| frame_num := 0; img := None |}) as [t st0].
  cbn [fst snd] in S, R, F. subst st0.
  exists t. split; [|split; assumption].
  unfold Run.print, Run.emit, Run.bind. cbn [fst snd app frame_num].
  reflexivity.
Qed.

(** A run on a catalog style: it returns, asks for one render per second
    of the countdown, and writes the expected files. *)
Lemma generate_frames_run name s output_dir fps duration start_seconds :
  dict_get ALL_STYLES name = Some s ->
  run_yields E
    (generate_frames E name output_dir fps duration start_seconds) tt
    (if 0 <? fps then countdown_seconds duration start_seconds else [])
    (if 0 <? fps
     then expected_files E s (Py.path_join output_dir name) fps start_seconds 0
            (countdown_seconds duration start_seconds)
     else []).
Proof.
  intros H.
  destruct (generate_frames_trace name s output_dir fps duration start_seconds H)
    as (t & -> & R & F).
  unfold run_yields. cbn [fst snd].
  unfold renders, files_written in *.
  rewrite !flat_map_app, R, F. cbn [flat_map app]. rewrite !app_nil_r.
  auto.
Qed.

End GenerateFacts.

(* ------------------------------------------------------------------ *)
(** * The catalogs                                                      *)
(* ------------------------------------------------------------------ *)

Section CatalogFacts.

Lemma dict_get_In {V : Type} (d : dict V) k v :
  dict_get d k = Some v -> In (k, v) d.
Proof.
  induction d as [|[k' v'] d IH]; simpl; intros H; [discriminate|].
  destruct (String.eqb_spec k' k).
  - injection H as <-. subst. now left.
  - right. auto.
Qed.

Lemma dict_mem_In {V : Type} (d : dict V) k :
  dict_mem d k = true <-> In k (dict_keys d).
Proof.
  unfold dict_mem, dict_keys. induction d as [|[k' v'] d IH]; simpl.
  - split; [discriminate | contradiction].
  - destruct (String.eqb_spec k' k).
    + split; auto.
    + rewrite IH. split; [auto | intros [?|?]; [contradiction | assumption]].
Qed.

Lemma NoDup_by_nodup (l : list string) :
  nodup string_dec l = l -> NoDup l.
Proof. intros H. rewrite <- H. apply NoDup_nodup. Qed.

Lemma NoDup_app_disjoint {A : Type} (l1 l2 : list A) k :
  NoDup (l1 ++ l2) -> In k l1 -> In k l2 -> False.
Proof.
  induction l1 as [|a l1 IH]; simpl; intros N H1 H2; [contradiction|].
  inversion N as [|? ? Ha N']; subst.
  destruct H1 as [-> | H1].
  - apply Ha. apply in_or_app. now right.
  - now apply IH.
Qed.

End CatalogFacts.

(** C9. The digital and the circular catalog share no key; the merged
    catalog holds the entries of the digital catalog followed by those of
    the circular catalog, each once, so its keys are the union of both key
    sets without duplicates (20 names); and [--list-styles] prints one line
    per entry of the merged catalog, in that order, between its header and
    its total. *)
Theorem catalog_union :
  (forall k, In k (dict_keys STYLES) -> ~ In k (dict_keys CIRCLE_STYLES)) /\
  ALL_STYLES
  = map (fun kv => (fst kv, Digital (snd kv))) STYLES
    ++ map (fun kv => (fst kv, Circle (snd kv))) CIRCLE_STYLES /\
  dict_keys ALL_STYLES = dict_keys STYLES ++ dict_keys CIRCLE_STYLES /\
  NoDup (dict_keys ALL_STYLES) /\
  (forall k, dict_mem ALL_STYLES k
             = (dict_mem STYLES k || dict_mem CIRCLE_STYLES k)%bool) /\
  List.length ALL_STYLES = 20%nat /\
  (forall E args,
     list_styles args = true ->
     main E args
     = (map Printed
          (["Available countdown styles:"; Py.replicate 60 "-"]
           ++ map (fun kv => "  " +++ Py.format_s 12 (fst kv) +++ " - "
                             +++ style_description (snd kv))
                  ALL_STYLES
           ++ [Py.nl +++ "Total: 20 styles"]),
        Returned tt)).
Proof.
  assert (K : dict_keys ALL_STYLES = dict_keys STYLES ++ dict_keys CIRCLE_STYLES)
    by (vm_compute; reflexivity).
  assert (N : NoDup (dict_keys ALL_STYLES))
    by (apply NoDup_by_nodup; vm_compute; reflexivity).
  split; [|split; [|split; [|split; [|split; [|split]]]]].
  - intros k H1 H2. rewrite K in N.
    exact (NoDup_app_disjoint _ _ k N H1 H2).
  - vm_compute. reflexivity.
  - exact K.
  - exact N.
  - intros k. apply eq_true_iff_eq.
    rewrite orb_true_iff, !dict_mem_In, K, in_app_iff. reflexivity.
  - reflexivity.
  - intros E args H. unfold main. rewrite H. vm_compute. reflexivity.
Qed.

(** The statement on the command line [--list-styles] with the defaults
    of the other flags. *)
Lemma catalog_union_witness :
  list_styles list_styles_args = true /\
  forall E,
    prints (fst (main E list_styles_args))
    = ["Available countdown styles:"; Py.replicate 60 "-"]
      ++ map (fun kv => "  " +++ Py.format_s 12 (fst kv) +++ " - "
                        +++ style_description (snd kv))
             ALL_STYLES
      ++ [Py.nl +++ "Total: 20 styles"].
Proof.
  split; [reflexivity|]. intros E.
  rewrite (proj2 (proj2 (proj2 (proj2 (proj2 (proj2 catalog_union))))) E
             list_styles_args eq_refl).
  vm_compute. reflexivity.
Defined.

(* ------------------------------------------------------------------ *)
(** * Unknown style names                                               *)
(* ------------------------------------------------------------------ *)

(** What [generate_frames] does with a name that is not in the merged
    catalog: two lines, then [sys.exit(1)]. *)
Lemma generate_frames_unknown E name output_dir fps duration start_seconds :
  dict_get ALL_STYLES name = None ->
  generate_frames E name output_dir fps duration start_seconds
  = ([Printed ("Unknown style: " +++ name);
      Printed ("Available: " +++ Py.join ", " (dict_keys ALL_STYLES))],
     Exited 1).
Proof. intros H. unfold generate_frames. rewrite H. reflexivity. Qed.

(** What [preview_style] does with such a name: one line, then it
    returns. *)
Lemma preview_style_unknown E name output_dir :
  dict_get ALL_STYLES name = None ->
  preview_style E name output_dir
  = ([Printed ("Unknown style: " +++ name)], Returned tt).
Proof. intros H. unfold preview_style. rewrite H. reflexivity. Qed.

(** C7. On the style name ["bogus"], which is in neither catalog,
    [generate_frames] prints the name and the full list of valid names and
    exits with status 1, whereas [preview_style] prints the name only and
    returns normally: no list of valid names, no exit status. *)
Theorem unknown_style_runs :
  forall E,
    dict_get ALL_STYLES "bogus" = None /\
    generate_frames E "bogus" "output" 30 86400 86400
    = ([Printed "Unknown style: bogus";
        Printed ("Available: modern, classic, neon, minimal, retro, gradient, "
               +++ "terminal, cinematic, sport, elegant, circle-modern, "
               +++ "circle-classic, circle-neon, circle-minimal, circle-retro, "
               +++ "circle-gradient, circle-terminal, circle-cinematic, "
               +++ "circle-sport, circle-elegant")],
       Exited 1) /\
    preview_style E "bogus" "output"
    = ([Printed "Unknown style: bogus"], Returned tt).
Proof.
  intros E. split; [reflexivity|]. split.
  - rewrite generate_frames_unknown by reflexivity. vm_compute. reflexivity.
  - rewrite preview_style_unknown by reflexivity. reflexivity.
Qed.

(* ------------------------------------------------------------------ *)
(** * Colours of the catalog styles                                     *)
(* ------------------------------------------------------------------ *)

Lemma well_formed_resolves cs :
  forallb well_formed_color cs = true ->
  forall c, In c cs -> hex_to_rgb c <> Py.Raise Py.ValueError_int.
Proof.
  intros H c Hc. rewrite forallb_forall in H.
  destruct (hex_to_rgb_well_formed c (H c Hc)) as [rgb ->]. discriminate.
Qed.

Lemma render_frame_no_int_error E s r t :
  forallb well_formed_color (resolved_colors s) = true ->
  render_frame E s r t <> Py.Raise Py.ValueError_int.
Proof.
  intros H C. destruct (render_frame_raises E s r t _ C) as [_ X].
  destruct (X eq_refl) as (c & Hc & F).
  exact (well_formed_resolves _ H c Hc F).
Qed.

Lemma render_circle_frame_no_int_error E s r t :
  forallb well_formed_color (circle_resolved_colors s) = true ->
  render_circle_frame E s r t <> Py.Raise Py.ValueError_int.
Proof.
  intros H C. destruct (render_circle_frame_raises E s r t _ C) as [_ X].
  destruct (X eq_refl) as (c & Hc & F).
  exact (well_formed_resolves _ H c Hc F).
Qed.

(** C10. [hex_to_rgb] returns a tuple unchanged; on a string that, after
    its leading [#]s, starts with six hexadecimal digits it returns the
    three bytes those six digits spell, whatever follows, so ["#ffffffcc"]
    gives (255, 255, 255); on ["#000"] it raises.  In both catalogs every
    colour a renderer resolves for the style is a string with at least six
    hexadecimal digits (or a tuple), and no render of a catalog style, at
    any time and on any platform, fails with the error of [hex_to_rgb]. *)
Theorem hex_to_rgb_spec :
  (forall t, hex_to_rgb (CTuple t) = Py.Ok t) /\
  (forall s, six_hex_digits s = true ->
             hex_to_rgb (CStr s) = Py.Ok (rgb_of_six s)) /\
  hex_to_rgb (CStr "#ffffffcc") = Py.Ok [255; 255; 255] /\
  hex_to_rgb (CStr "#000") = Py.Raise Py.ValueError_int /\
  Forall (fun kv =>
            forallb well_formed_color (resolved_colors (snd kv)) = true /\
            forall E r t,
              render_frame E (snd kv) r t <> Py.Raise Py.ValueError_int)
         STYLES /\
  Forall (fun kv =>
            forallb well_formed_color (circle_resolved_colors (snd kv)) = true /\
            forall E r t,
              render_circle_frame E (snd kv) r t <> Py.Raise Py.ValueError_int)
         CIRCLE_STYLES.
Proof.
  split; [reflexivity|]. split; [exact hex_to_rgb_six|].
  split; [reflexivity|]. split; [reflexivity|]. split.
  - assert (W : forallb (fun kv => forallb well_formed_color
                                     (resolved_colors (snd kv))) STYLES = true)
      by (vm_compute; reflexivity).
    rewrite forallb_forall in W. apply Forall_forall. intros kv Hkv.
    split; [exact (W kv Hkv)|]. intros E r t.
    apply render_frame_no_int_error. exact (W kv Hkv).
  - assert (W : forallb (fun kv => forallb well_formed_color
                                     (circle_resolved_colors (snd kv)))
                  CIRCLE_STYLES = true)
      by (vm_compute; reflexivity).
    rewrite forallb_forall in W. apply Forall_forall. intros kv Hkv.
    split; [exact (W kv Hkv)|]. intros E r t.
    apply render_circle_frame_no_int_error. exact (W kv Hkv).
Qed.

(** The statement on the tick colour of [circle-gradient], whose two
    alpha digits are dropped. *)
Lemma hex_to_rgb_spec_witness :
  six_hex_digits "#ffffffcc" = true /\
  hex_to_rgb (CStr "#ffffffcc") = Py.Ok (rgb_of_six "#ffffffcc") /\
  rgb_of_six "#ffffffcc" = [255; 255; 255].
Proof.
  split; [reflexivity|]. split; [|reflexivity].
  exact (proj1 (proj2 hex_to_rgb_spec) "#ffffffcc" eq_refl).
Defined.

(* ------------------------------------------------------------------ *)
(** * Zero total duration                                               *)
(* ------------------------------------------------------------------ *)

(** C6. With [total_duration = 0], whatever [remaining_seconds] is, no
    division takes place: [render_frame] takes 1.0 for the progress ratio
    and composes the frame with it, [render_circle_frame] takes 0.0 for
    the remaining ratio and composes the frame with it, and neither
    raises [ZeroDivisionError], for any style. *)
Theorem zero_duration_spec :
  forall E remaining_seconds,
    progress_ratio remaining_seconds 0 = Py.Ok (Float.Fin 1) /\
    remaining_ratio remaining_seconds 0 = Py.Ok (Float.Fin 0) /\
    (forall s,
       render_frame E s remaining_seconds 0
       = (let '(hh, mm, ss) := format_time remaining_seconds in
          render_frame_body E s hh mm ss (Float.Fin 1)) /\
       render_frame E s remaining_seconds 0
       <> Py.Raise Py.ZeroDivisionError) /\
    (forall c,
       render_circle_frame E c remaining_seconds 0
       = (let '(hh, mm, ss) := format_time remaining_seconds in
          render_circle_frame_body E c hh mm ss (Float.Fin 0)) /\
       render_circle_frame E c remaining_seconds 0
       <> Py.Raise Py.ZeroDivisionError).
Proof.
  intros E r. split; [reflexivity|]. split; [reflexivity|]. split.
  - intros s. split.
    + unfold render_frame. destruct (format_time r) as [[hh mm] ss]. reflexivity.
    + intros C. destruct (render_frame_raises E s r 0 _ C) as [X _]. auto.
  - intros c. split.
    + unfold render_circle_frame. destruct (format_time r) as [[hh mm] ss].
      reflexivity.
    + intros C. destruct (render_circle_frame_raises E c r 0 _ C) as [X _]. auto.
Qed.

(* ------------------------------------------------------------------ *)
(** * Frames of a run                                                   *)
(* ------------------------------------------------------------------ *)

Lemma catalog_image_eq E name s second total_duration :
  dict_get ALL_STYLES name = Some s ->
  catalog_image E name second total_duration
  = frame_image E s second total_duration.
Proof. intros H. unfold catalog_image. now rewrite H. Qed.

(** The frame of a catalog style shows the time it was asked for. *)
Lemma frame_image_shows_time E name s second total_duration :
  dict_get ALL_STYLES name = Some s ->
  0 <= second <= total_duration ->
  let '(hh, mm, ss) := format_time second in
  In (hh +++ match s with
             | Digital d => StyleConfig.separator d
             | Circle _ => ":"
             end
         +++ mm
         +++ match s with
             | Digital d => StyleConfig.separator d
             | Circle _ => ":"
             end
         +++ ss)
     (texts (frame_image E s second total_duration)).
Proof.
  intros H Hs. pose proof (ALL_STYLES_ok name s H) as Hok.
  pose proof (render_result_ok E s total_duration Hok second Hs) as R.
  destruct s as [d|c]; simpl in R.
  - exact (render_frame_shows_time E d second total_duration _ R).
  - exact (render_circle_frame_shows_time E c second total_duration _ R).
Qed.

(** How many files a run on a catalog style writes. *)
Lemma generate_frames_count E name s output_dir fps duration start_seconds :
  dict_get ALL_STYLES name = Some s ->
  1 <= fps -> 0 <= duration -> 0 <= start_seconds ->
  Z.of_nat (List.length
              (files_written E
                 (fst (generate_frames E name output_dir fps duration
                         start_seconds))))
  = (Z.min duration start_seconds + 1) * fps.
Proof.
  intros H Hf Hd Hs.
  destruct (generate_frames_run E name s output_dir fps duration start_seconds H)
    as (_ & _ & F).
  rewrite F. destruct (Z.ltb_spec 0 fps); [|lia].
  rewrite expected_files_length, Nat2Z.inj_mul, countdown_seconds_length.
  destruct (Z.leb_spec 0 duration); [|lia].
  destruct (Z.leb_spec 0 start_seconds); [|lia]. simpl. lia.
Qed.

(** C1. The run [generate_frames("modern", "output", fps=1, duration=3,
    start_seconds=10)] announces 3 frames, renders the seconds 10, 9, 8
    and 7 and writes four files, [frame_00000000.png] to
    [frame_00000003.png], one more than [duration * fps = 3], as its own
    closing line says; the first holds the frame showing 00:00:10 and the
    last the frame showing 00:00:07. *)
Theorem generate_frames_modern_3_10 :
  forall E,
    let r := generate_frames E "modern" "output" 1 3 10 in
    snd r = Returned tt /\
    renders (fst r) = [10; 9; 8; 7] /\
    files_written E (fst r)
    = [("output/modern/frame_00000000.png",
        png_encode E (catalog_image E "modern" 10 10) true);
       ("output/modern/frame_00000001.png",
        png_encode E (catalog_image E "modern" 9 10) true);
       ("output/modern/frame_00000002.png",
        png_encode E (catalog_image E "modern" 8 10) true);
       ("output/modern/frame_00000003.png",
        png_encode E (catalog_image E "modern" 7 10) true)] /\
    In "00:00:10" (texts (catalog_image E "modern" 10 10)) /\
    In "00:00:07" (texts (catalog_image E "modern" 7 10)) /\
    In (Printed "Generating modern countdown: 3 frames at 1 fps") (fst r) /\
    In (Printed (Py.nl +++ "Done! 4 frames saved to output/modern/")) (fst r).
Proof.
  intros E r.
  destruct (dict_get ALL_STYLES "modern") as [s|] eqn:D;
    [|vm_compute in D; discriminate].
  destruct (generate_frames_run E "modern" s "output" 1 3 10 D) as (S & R & F).
  destruct (generate_frames_trace E "modern" s "output" 1 3 10 D)
    as (t & T & _).
  fold r in S, R, F, T.
  split; [exact S|]. split; [exact R|]. split; [|split; [|split; [|split]]].
  - rewrite F, !(catalog_image_eq E "modern" s) by exact D.
    reflexivity.
  - rewrite (catalog_image_eq E "modern" s) by exact D.
    pose proof (frame_image_shows_time E "modern" s 10 10 D ltac:(lia)) as X.
    vm_compute in D. injection D as <-. exact X.
  - rewrite (catalog_image_eq E "modern" s) by exact D.
    pose proof (frame_image_shows_time E "modern" s 7 10 D ltac:(lia)) as X.
    vm_compute in D. injection D as <-. exact X.
  - rewrite T. cbn [fst]. right. left. reflexivity.
  - rewrite T. cbn [fst]. apply in_or_app. right. apply in_or_app. right.
    left. reflexivity.
Qed.

(** C2. A run of [generate_frames] on a catalog style returns; it calls
    the renderer of the style's family once for each second of the
    countdown, from [start_seconds] downwards, and never twice for the
    same second; file number [k], counted from 0, is
    [frame_<k as 8 digits>.png] and holds the image rendered for second
    [start_seconds - k // fps], so the [fps] files of a second are
    consecutive and hold the same bytes, and the numbering does not depend
    on the second.  (Without a positive [fps] nothing is rendered and
    nothing written.) *)
Theorem generate_frames_spec E name s output_dir fps duration start_seconds
  (H : dict_get ALL_STYLES name = Some s) :
  let r := generate_frames E name output_dir fps duration start_seconds in
  let seconds := countdown_seconds duration start_seconds in
  let files := files_written E (fst r) in
  snd r = Returned tt /\
  renders (fst r) = (if 0 <? fps then seconds else []) /\
  NoDup (renders (fst r)) /\
  List.length files = (Z.to_nat fps * List.length seconds)%nat /\
  forall k, 0 <= k < fps * Z.of_nat (List.length seconds) ->
    let second := start_seconds - k / fps in
    let number := Py.format_0d 8 k in
    0 <= second <= start_seconds /\
    count_occ Z.eq_dec (renders (fst r)) second = 1%nat /\
    render_result E s second start_seconds
    = Py.Ok (frame_image E s second start_seconds) /\
    nth_error files (Z.to_nat k)
    = Some (Py.path_join (Py.path_join output_dir name)
              ("frame_" +++ number +++ ".png"),
            png_encode E (frame_image E s second start_seconds) true) /\
    Py.all_digits number = true /\ Py.dec_value number = k /\
    (8 <= String.length number)%nat /\
    (k < 10 ^ 8 -> String.length number = 8%nat).
Proof.
  intros r seconds files.
  destruct (generate_frames_run E name s output_dir fps duration start_seconds H)
    as (S & R & F).
  fold r in S, R, F. fold seconds in R, F. fold files in F.
  assert (N : NoDup (renders (fst r))).
  { rewrite R. destruct (0 <? fps); [apply countdown_seconds_NoDup | constructor]. }
  split; [exact S|]. split; [exact R|]. split; [exact N|]. split.
  - rewrite F. destruct (Z.ltb_spec 0 fps).
    + apply expected_files_length.
    + simpl. lia.
  - intros k Hk second number.
    assert (Hf : 0 < fps) by nia.
    assert (Q : 0 <= k / fps < Z.of_nat (List.length seconds)).
    { split; [apply Z.div_pos; lia|]. apply Z.div_lt_upper_bound; lia. }
    assert (Hn : nth (Z.to_nat (k / fps)) seconds 0 = second).
    { unfold seconds. rewrite countdown_seconds_nth by (fold seconds; lia).
      unfold second. rewrite Z2Nat.id by lia. reflexivity. }
    assert (Hin : In second seconds).
    { rewrite <- Hn. apply nth_In. lia. }
    pose proof (countdown_seconds_in _ _ _ Hin) as [Hs _].
    destruct (Z.ltb_spec 0 fps) as [_|]; [|lia].
    split; [exact Hs|]. split.
    { apply NoDup_count_occ'; [exact N | rewrite R; exact Hin]. }
    split.
    { exact (render_result_ok E s start_seconds (ALL_STYLES_ok name s H)
               second Hs). }
    split.
    { rewrite F, expected_files_nth by (fold seconds; lia).
      fold seconds. rewrite Hn. unfold frame_path.
      replace (0 * fps + k) with k by lia. reflexivity. }
    destruct (format_0d_spec 8 k ltac:(lia) ltac:(lia)) as (A & V & L & L').
    auto.
Qed.

(** The statement on the example platform: style [modern] at 2 frames per
    second, for 1 second, from second 5. *)
Lemma generate_frames_spec_witness :
  exists s,
    dict_get ALL_STYLES "modern" = Some s /\
    let r := generate_frames sample_env "modern" "output" 2 1 5 in
    snd r = Returned tt /\
    renders (fst r) = [5; 4] /\
    List.length (files_written sample_env (fst r)) = 4%nat /\
    nth_error (files_written sample_env (fst r)) 3
    = Some ("output/modern/frame_00000003.png",
            png_encode sample_env (frame_image sample_env s 4 5) true).
Proof.
  destruct (dict_get ALL_STYLES "modern") as [s|] eqn:D;
    [|vm_compute in D; discriminate].
  exists s. split; [reflexivity|].
  pose proof (generate_frames_spec sample_env "modern" s "output" 2 1 5 D)
    as (S & R & _ & L & K).
  split; [exact S|]. split; [exact R|]. split; [exact L|].
  destruct (K 3 ltac:(vm_compute; split; [discriminate | reflexivity]))
    as (_ & _ & _ & X & _).
  exact X.
Defined.

(* ------------------------------------------------------------------ *)
(** * The pie wedge                                                     *)
(* ------------------------------------------------------------------ *)

Section WedgeFacts.

Import Py.

Variable E : Env.

(** The compositing calls behind a frame of the circular family. *)
Lemma render_circle_frame_body_composites s hh mm ss ratio img :
  render_circle_frame_body E s hh mm ss ratio = Ok img ->
  exists bg base wedge_rgb,
    hex_to_rgb (CircleTimerConfig.bg_color s) = Ok bg /\
    gradient_background
      (Image_new "RGBA" (CircleTimerConfig.width s, CircleTimerConfig.height s)
         (bg ++ [255]))
      (CircleTimerConfig.width s) (CircleTimerConfig.height s)
      (CircleTimerConfig.gradient_bg s) (CircleTimerConfig.gradient_colors s)
    = Ok base /\
    hex_to_rgb (CircleTimerConfig.wedge_color s) = Ok wedge_rgb /\
    composites img
    = if Float.gt0 ratio
      then [(base, spec_wedge_layer s ratio wedge_rgb)]
      else [].
Proof.
  unfold render_circle_frame_body. intros H.
  apply bind_Ok_inv in H. destruct H as (bg & Hbg & H).
  apply bind_Ok_inv in H. destruct H as (base & Hbase & H).
  apply bind_Ok_inv in H. destruct H as (wedge_rgb & Hw & H).
  apply bind_Ok_inv in H. destruct H as (ring_rgb & _ & H).
  apply bind_Ok_inv in H. destruct H as (tick_rgb & _ & H).
  apply bind_Ok_inv in H. destruct H as (img2 & H2 & H).
  apply bind_Ok_inv in H. destruct H as (img3 & H3 & H).
  apply bind_Ok_inv in H. destruct H as (img4 & H4 & H).
  apply bind_Ok_inv in H. destruct H as (img5 & H5 & H).
  apply bind_Ok_inv in H. destruct H as (tc & _ & H).
  injection H as <-.
  exists bg, base, wedge_rgb. repeat split; try assumption.
  cbn [composites].
  assert (B : composites base = []).
  { apply gradient_background_drawn in Hbase.
    rewrite (drawn_on_composites _ _ Hbase). reflexivity. }
  set (wedged :=
         if Float.gt0 ratio
         then draw_wedge base (CircleTimerConfig.width s)
                (CircleTimerConfig.height s) (CircleTimerConfig.width s / 2)
                (CircleTimerConfig.height s / 2)
                (Z.min (CircleTimerConfig.width s) (CircleTimerConfig.height s) / 2
                 - 80)
                ratio wedge_rgb (CircleTimerConfig.wedge_alpha s)
         else base) in *.
  assert (D : drawn_on wedged img5).
  { apply drawn_on_trans with img2.
    { apply drawn_on_trans
        with (Draw wedged
                (ellipse
                   [CircleTimerConfig.width s / 2
                    - (Z.min (CircleTimerConfig.width s)
                         (CircleTimerConfig.height s) / 2 - 80);
                    CircleTimerConfig.height s / 2
                    - (Z.min (CircleTimerConfig.width s)
                         (CircleTimerConfig.height s) / 2 - 80);
                    CircleTimerConfig.width s / 2
                    + (Z.min (CircleTimerConfig.width s)
                         (CircleTimerConfig.height s) / 2 - 80);
                    CircleTimerConfig.height s / 2
                    + (Z.min (CircleTimerConfig.width s)
                         (CircleTimerConfig.height s) / 2 - 80)]
                   None (Some ring_rgb)
                   (Some (CircleTimerConfig.ring_width s))));
        [apply drawn_step, drawn_base|].
      destruct (CircleTimerConfig.show_ticks s).
      - eapply draw_ticks_drawn. exact H2.
      - injection H2 as <-. constructor. }
    apply drawn_on_trans with img3.
    { destruct (CircleTimerConfig.show_hour_numbers s).
      - eapply draw_hour_numbers_drawn. exact H3.
      - injection H3 as <-. constructor. }
    apply drawn_on_trans with img4.
    { destruct (CircleTimerConfig.center_dot s).
      - peel H4. injection H4 as <-. apply drawn_step, drawn_base.
      - injection H4 as <-. constructor. }
    destruct (CircleTimerConfig.glow s).
    - eapply draw_glow_drawn. exact H5.
    - injection H5 as <-. constructor. }
  rewrite (drawn_on_composites _ _ D). unfold wedged.
  destruct (Float.gt0 ratio); [|exact B].
  unfold draw_wedge. cbn [composites]. rewrite B. reflexivity.
Qed.

End WedgeFacts.

(** C5. In [render_circle_frame] with [total_duration > 0] the remaining
    ratio is the binary64 quotient [remaining_seconds / total_duration]
    (within [2^-54] of the exact quotient when [0 <= remaining_seconds <=
    total_duration]).  A frame it returns has one compositing call, the
    wedge layer over the base image, when that ratio is above zero, and
    none otherwise; the layer is a pie slice from -90 degrees (the top, in
    Pillow's clockwise angles) to [-90 + ratio * 360] in the wedge colour
    with the configured alpha.  At ratio 1.0 the slice ends at 270, a
    sweep of 360 degrees; at ratio 0 nothing is composited.  The renderer
    does return a frame for every catalog style and every instant within
    the span. *)
Theorem render_circle_frame_wedge E s remaining_seconds total_duration
  (Ht : 0 < total_duration) :
  remaining_ratio remaining_seconds total_duration
  = Float.truediv remaining_seconds total_duration /\
  (0 <= remaining_seconds <= total_duration ->
   exists q,
     remaining_ratio remaining_seconds total_duration = Py.Ok (Float.Fin q) /\
     (Qabs (q - inject_Z remaining_seconds / inject_Z total_duration)
      <= Float.pow2 (-54))%Q /\
     (Float.gt0 (Float.Fin q) = true <-> (0 < q)%Q)) /\
  (forall img,
     render_circle_frame E s remaining_seconds total_duration = Py.Ok img ->
     exists ratio bg base wedge_rgb,
       remaining_ratio remaining_seconds total_duration = Py.Ok ratio /\
       hex_to_rgb (CircleTimerConfig.bg_color s) = Py.Ok bg /\
       gradient_background
         (Image_new "RGBA"
            (CircleTimerConfig.width s, CircleTimerConfig.height s)
            (bg ++ [255]))
         (CircleTimerConfig.width s) (CircleTimerConfig.height s)
         (CircleTimerConfig.gradient_bg s)
         (CircleTimerConfig.gradient_colors s)
       = Py.Ok base /\
       hex_to_rgb (CircleTimerConfig.wedge_color s) = Py.Ok wedge_rgb /\
       composites img
       = if Float.gt0 ratio
         then [(base, spec_wedge_layer s ratio wedge_rgb)]
         else []) /\
  (remaining_ratio total_duration total_duration = Py.Ok (Float.Fin 1) /\
   Float.gt0 (Float.Fin 1) = true /\
   Float.mul (Float.Fin 1) (Float.lit 360) = Float.Fin 360 /\
   Float.add (Float.lit (-90)) (Float.mul (Float.Fin 1) (Float.lit 360))
   = Float.Fin 270) /\
  (remaining_ratio 0 total_duration = Py.Ok (Float.Fin 0) /\
   forall img,
     render_circle_frame E s 0 total_duration = Py.Ok img ->
     composites img = []) /\
  (circle_style_ok s = true ->
   0 <= remaining_seconds <= total_duration ->
   exists img,
     render_circle_frame E s remaining_seconds total_duration = Py.Ok img).
Proof.
  assert (R : forall r, remaining_ratio r total_duration
                        = Float.truediv r total_duration).
  { intros r. unfold remaining_ratio.
    destruct (Z.gtb_spec total_duration 0); [reflexivity | lia]. }
  assert (C : forall r img,
             render_circle_frame E s r total_duration = Py.Ok img ->
             exists ratio bg base wedge_rgb,
               remaining_ratio r total_duration = Py.Ok ratio /\
               hex_to_rgb (CircleTimerConfig.bg_color s) = Py.Ok bg /\
               gradient_background
                 (Image_new "RGBA"
                    (CircleTimerConfig.width s, CircleTimerConfig.height s)
                    (bg ++ [255]))
                 (CircleTimerConfig.width s) (CircleTimerConfig.height s)
                 (CircleTimerConfig.gradient_bg s)
                 (CircleTimerConfig.gradient_colors s)
               = Py.Ok base /\
               hex_to_rgb (CircleTimerConfig.wedge_color s) = Py.Ok wedge_rgb /\
               composites img
               = if Float.gt0 ratio
                 then [(base, spec_wedge_layer s ratio wedge_rgb)]
                 else []).
  { intros r img H. unfold render_circle_frame in H.
    destruct (format_time r) as [[hh mm] ss].
    apply bind_Ok_inv in H. destruct H as (ratio & Hr & H).
    destruct (render_circle_frame_body_composites E s hh mm ss ratio img H)
      as (bg & base & wedge_rgb & P).
    exists ratio, bg, base, wedge_rgb. split; [exact Hr | exact P]. }
  assert (R1 : remaining_ratio total_duration total_duration
               = Py.Ok (Float.Fin 1)).
  { rewrite R, truediv_unit by lia.
    rewrite (FloatFacts.round_comp
               (inject_Z total_duration / inject_Z total_duration) 1).
    - reflexivity.
    - field. intros X. change 0%Q with (inject_Z 0) in X.
      rewrite inject_Z_injective in X. lia. }
  assert (R0 : remaining_ratio 0 total_duration = Py.Ok (Float.Fin 0)).
  { rewrite R, truediv_unit by lia.
    rewrite (FloatFacts.round_comp (inject_Z 0 / inject_Z total_duration) 0).
    - reflexivity.
    - unfold Qdiv. change (inject_Z 0) with 0%Q. ring. }
  split; [apply R|]. split; [|split; [apply C|split; [|split]]].
  - intros Hr. eexists. split; [rewrite R; apply truediv_unit; assumption|].
    split.
    + apply FloatFacts.round_err_unit; apply ratio_unit; assumption.
    + unfold Float.gt0. rewrite negb_true_iff.
      split.
      * intros B. apply Qnot_le_lt. intros L. apply Qle_bool_iff in L. congruence.
      * intros L. destruct (Qle_bool _ 0) eqn:B; [|reflexivity].
        apply Qle_bool_iff in B. exfalso. apply (Qlt_not_le _ _ L B).
  - split; [exact R1|]. repeat split; vm_compute; reflexivity.
  - split; [exact R0|]. intros img H.
    destruct (C 0 img H) as (ratio & bg & base & rgb & Hr & _ & _ & _ & X).
    rewrite R0 in Hr. injection Hr as <-. exact X.
  - intros Hok Hr. apply render_circle_frame_ok; assumption.
Qed.

(** The statement on the example platform, for [circle-classic] at the
    preview instant of a 24-hour span. *)
Lemma render_circle_frame_wedge_witness :
  0 < 86400 /\
  exists s,
    dict_get CIRCLE_STYLES "circle-classic" = Some s /\
    circle_style_ok s = true /\
    exists img,
      render_circle_frame sample_env s 45296 86400 = Py.Ok img /\
      List.length (composites img) = 1%nat.
Proof.
  split; [lia|].
  destruct (dict_get CIRCLE_STYLES "circle-classic") as [s|] eqn:D;
    [|vm_compute in D; discriminate].
  exists s. split; [reflexivity|].
  assert (Hok : circle_style_ok s = true)
    by (vm_compute in D; injection D as <-; vm_compute; reflexivity).
  split; [exact Hok|].
  pose proof (render_circle_frame_wedge sample_env s 45296 86400 ltac:(lia))
    as (R & _ & C & _ & _ & T).
  destruct (T Hok ltac:(lia)) as [img Himg].
  exists img. split; [exact Himg|].
  destruct (C img Himg) as (ratio & bg & base & rgb & Hr & _ & _ & _ & X).
  rewrite X. rewrite R in Hr. vm_compute in Hr. injection Hr as <-.
  reflexivity.
Defined.

(* ------------------------------------------------------------------ *)
(** * Axis labels                                                       *)
(* ------------------------------------------------------------------ *)

(** What the label block draws: the three labels in the label font, sized
    at [font_size // 6], under the hours centre, the minutes centre, and a
    seconds centre computed with the width of the hours string. *)
Lemma draw_labels_draws E img s fnt hh mm cx cy text_w text_h lc :
  hex_to_rgb (StyleConfig.label_color s) = Py.Ok lc ->
  let hh_w := text_width E fnt hh in
  let sep_w := text_width E fnt (StyleConfig.separator s) in
  let mm_w := text_width E fnt mm in
  let start_x := cx - text_w / 2 in
  let label_y := cy + text_h / 2 + 30 in
  let label_font := get_label_font_at_size E (StyleConfig.font_size s / 6) in
  draw_labels E img s fnt hh mm cx cy text_w text_h
  = Py.Ok
      (Draw
         (Draw
            (Draw img
               (text (Int (start_x + hh_w / 2), Int label_y) "HOURS"
                  label_font lc "mt"))
            (text (Int (start_x + hh_w + sep_w + mm_w / 2), Int label_y)
               "MINUTES" label_font lc "mt"))
         (text (Int (start_x + hh_w + sep_w + mm_w + sep_w + hh_w / 2),
                Int label_y)
            "SECONDS" label_font lc "mt")).
Proof.
  intros H. unfold draw_labels, text_width, get_label_font.
  destruct (textbbox E fnt hh) as [[[? ?] ?] ?].
  destruct (textbbox E fnt (StyleConfig.separator s)) as [[[? ?] ?] ?].
  destruct (textbbox E fnt mm) as [[[? ?] ?] ?].
  rewrite H. reflexivity.
Qed.

(** The seconds centre of the code is the one of the specification
    exactly when half the hours width is half the seconds width. *)
Lemma seconds_center_agrees E fnt hh sep mm ss start_x :
  let hh_w := text_width E fnt hh in
  let sep_w := text_width E fnt sep in
  let mm_w := text_width E fnt mm in
  start_x + hh_w + sep_w + mm_w + sep_w + hh_w / 2
  = snd (spec_label_centers E fnt hh sep mm ss start_x)
  <-> text_width E fnt hh / 2 = text_width E fnt ss / 2.
Proof. unfold spec_label_centers. cbn [snd]. lia. Qed.

(** C8. On the example platform, [render_frame] of the style [modern] at
    100:00:00 draws HOURS, MINUTES and SECONDS in the label font of size
    [280 // 6 = 46], HOURS and MINUTES under the centres of their digit
    groups (x = 456 and x = 1044), but SECONDS at x = 1632, whereas the
    centre of the seconds group, from the measured widths of the five
    sub-strings, is x = 1548: the code takes the width of the hours
    string for the seconds. *)
Theorem labels_at_100_hours :
  exists s img,
    dict_get STYLES "modern" = Some s /\
    format_time 360000 = ("100", "00", "00") /\
    render_frame sample_env s 360000 360000 = Py.Ok img /\
    let fnt := get_font sample_env s in
    let label_font :=
      truetype "/usr/share/fonts/truetype/dejavu/DejaVuSans.ttf" 46 in
    get_label_font sample_env s = label_font /\
    labels img
    = [("HOURS", Int 456, label_font); ("MINUTES", Int 1044, label_font);
       ("SECONDS", Int 1632, label_font)] /\
    spec_label_centers sample_env fnt "100" ":" "00" "00"
      (StyleConfig.width s / 2
       - text_width sample_env fnt "100:00:00" / 2)
    = (456, 1044, 1548).
Proof.
  destruct (dict_get STYLES "modern") as [s|] eqn:D;
    [|vm_compute in D; discriminate].
  vm_compute in D. injection D as <-.
  eexists _, _. split; [reflexivity|]. split; [reflexivity|].
  split; [vm_compute; reflexivity|].
  repeat split; vm_compute; reflexivity.
Qed.

(* ------------------------------------------------------------------ *)
(** * Font probing                                                      *)
(* ------------------------------------------------------------------ *)

Section FontFacts.

Variable E : Env.

Lemma probe_fonts_first l1 p l2 size :
  usable E size p = true ->
  (forall q, In q l1 -> usable E size q = false) ->
  probe_fonts E (l1 ++ p :: l2) size = Some (truetype p size).
Proof.
  unfold usable. intros Hp. induction l1 as [|a l1 IH]; intros Hq.
  - simpl. apply andb_prop in Hp. destruct Hp as [-> ->]. reflexivity.
  - simpl. pose proof (Hq a (or_introl eq_refl)) as Ha.
    rewrite IH by (intros q Hin; apply Hq; now right).
    destruct (path_exists E a); [|reflexivity].
    simpl in Ha. rewrite Ha. reflexivity.
Qed.

Lemma probe_fonts_none l size :
  (forall q, In q l -> usable E size q = false) ->
  probe_fonts E l size = None.
Proof.
  unfold usable. induction l as [|a l IH]; intros Hq; [reflexivity|].
  simpl. pose proof (Hq a (or_introl eq_refl)) as Ha.
  rewrite IH by (intros q Hin; apply Hq; now right).
  destruct (path_exists E a); [|reflexivity].
  simpl in Ha. rewrite Ha. reflexivity.
Qed.

Lemma font_or_default_first candidates fallback l1 p l2 size :
  candidates = l1 ++ p :: l2 ->
  usable E size p = true ->
  (forall q, In q l1 -> usable E size q = false) ->
  font_or_default E candidates fallback size = truetype p size.
Proof.
  intros -> Hp Hq. unfold font_or_default.
  now rewrite probe_fonts_first.
Qed.

Lemma font_or_default_none candidates fallback size :
  (forall q, In q candidates -> usable E size q = false) ->
  font_or_default E candidates fallback size
  = if truetype_loads E fallback size then truetype fallback size
    else load_default.
Proof.
  intros Hq. unfold font_or_default. now rewrite probe_fonts_none.
Qed.

End FontFacts.

(** X1. The font loaders return the first candidate of their list, in
    order, whose file exists and loads at the requested size; when no
    candidate does, the font named ["DejaVuSansMono-Bold"] (for labels
    ["DejaVuSans"]) if it loads, and otherwise Pillow's built-in default
    font: they never raise.  [get_font] asks for the style's font size
    and [get_label_font] for a sixth of it, rounded down. *)
Theorem font_probing E size :
  (forall l1 p l2,
     mono_font_candidates = l1 ++ p :: l2 ->
     usable E size p = true ->
     (forall q, In q l1 -> usable E size q = false) ->
     get_font_at_size E size = truetype p size) /\
  ((forall q, In q mono_font_candidates -> usable E size q = false) ->
   get_font_at_size E size
   = if truetype_loads E "DejaVuSansMono-Bold" size
     then truetype "DejaVuSansMono-Bold" size else load_default) /\
  (forall l1 p l2,
     label_font_candidates = l1 ++ p :: l2 ->
     usable E size p = true ->
     (forall q, In q l1 -> usable E size q = false) ->
     get_label_font_at_size E size = truetype p size) /\
  ((forall q, In q label_font_candidates -> usable E size q = false) ->
   get_label_font_at_size E size
   = if truetype_loads E "DejaVuSans" size
     then truetype "DejaVuSans" size else load_default) /\
  (forall s,
     get_font E s = get_font_at_size E (StyleConfig.font_size s) /\
     get_label_font E s
     = get_label_font_at_size E (StyleConfig.font_size s / 6)).
Proof.
  split; [|split; [|split; [|split]]].
  - intros l1 p l2. apply font_or_default_first.
  - apply font_or_default_none.
  - intros l1 p l2. apply font_or_default_first.
  - apply font_or_default_none.
  - intros s. split; reflexivity.
Qed.

(** The statement on the example platform, where the fifth candidate is
    the first one present. *)
Lemma font_probing_witness :
  usable sample_env 280
    "/usr/share/fonts/truetype/dejavu/DejaVuSansMono-Bold.ttf" = true /\
  get_font_at_size sample_env 280
  = truetype "/usr/share/fonts/truetype/dejavu/DejaVuSansMono-Bold.ttf" 280.
Proof.
  split; [reflexivity|].
  apply (proj1 (font_probing sample_env 280)
           [ "/System/Library/Fonts/SFMono-Bold.otf";
             "/System/Library/Fonts/Menlo.ttc";
             "/System/Library/Fonts/Courier.dfont";
             "/Library/Fonts/SF-Mono-Bold.otf" ]
           "/usr/share/fonts/truetype/dejavu/DejaVuSansMono-Bold.ttf"
           [ "/usr/share/fonts/truetype/liberation/LiberationMono-Bold.ttf";
             "/usr/share/fonts/truetype/ubuntu/UbuntuMono-Bold.ttf";
             "C:/Windows/Fonts/consola.ttf";
             "C:/Windows/Fonts/cour.ttf" ]).
  - reflexivity.
  - reflexivity.
  - intros q Hq. simpl in Hq.
    destruct Hq as [<-|[<-|[<-|[<-|[]]]]]; reflexivity.
Defined.

(* ------------------------------------------------------------------ *)
(** * Colour strings at the edges                                       *)
(* ------------------------------------------------------------------ *)

Section HexEdgeFacts.

Lemma substring_nil n m : String.substring n m "" = "".
Proof. destruct n, m; reflexivity. Qed.

Lemma substring_short s : forall i m,
  (String.length s <= i)%nat -> String.substring i m s = "".
Proof.
  induction s as [|a s IH]; intros i m H; [apply substring_nil|].
  destruct i as [|i]; [simpl in H; lia|].
  simpl. apply IH. simpl in H. lia.
Qed.

Lemma substring_length_le s : forall i m,
  (String.length (String.substring i m s) <= m)%nat.
Proof.
  induction s as [|a s IH]; intros i m.
  - rewrite substring_nil. simpl. lia.
  - destruct i as [|i]; simpl.
    + destruct m as [|m]; simpl; [lia|]. specialize (IH 0%nat m). lia.
    + apply IH.
Qed.

Lemma in_all_ascii a : In a all_ascii.
Proof.
  unfold all_ascii. rewrite <- (ascii_nat_embedding a).
  apply in_map, in_seq. pose proof (nat_ascii_bounded a). lia.
Qed.

Lemma int16_two_in_range :
  forallb (fun a =>
             forallb (fun b => int16_in_range (String a (String b "")))
                     all_ascii)
          all_ascii = true.
Proof. vm_compute. reflexivity. Qed.

Lemma int16_one_in_range :
  forallb (fun a => int16_in_range (String a "")) all_ascii = true.
Proof. vm_compute. reflexivity. Qed.

(** [int(s, 16)] on a slice of at most two characters. *)
Lemma int16_short_range s v :
  (String.length s <= 2)%nat -> int16 s = Ok v -> -15 <= v <= 255.
Proof.
  intros L H.
  assert (R : int16_in_range s = true).
  { destruct s as [|a [|b [|c s]]].
    - reflexivity.
    - pose proof int16_one_in_range as T. rewrite forallb_forall in T.
      apply T, in_all_ascii.
    - pose proof int16_two_in_range as T. rewrite forallb_forall in T.
      specialize (T a (in_all_ascii a)). rewrite forallb_forall in T.
      apply T, in_all_ascii.
    - simpl in L. lia. }
  unfold int16_in_range in R. rewrite H in R.
  apply andb_prop in R. destruct R as [R1 R2].
  apply Z.leb_le in R1, R2. lia.
Qed.

End HexEdgeFacts.

(** X2. A colour string with fewer than five characters after its
    leading [#]s makes [hex_to_rgb] raise [ValueError], whatever the
    characters are: the slice for the third channel is empty. *)
Theorem hex_to_rgb_short s :
  (String.length (lstrip "#" s) <= 4)%nat ->
  hex_to_rgb (CStr s) = Raise ValueError_int.
Proof.
  intros L. pose proof (hex_to_rgb_raises (CStr s)) as R.
  destruct (hex_to_rgb (CStr s)) as [rgb|e] eqn:H.
  - exfalso. unfold hex_to_rgb in H. peel H.
    unfold slice2 in Hv1. rewrite substring_short in Hv1 by exact L.
    discriminate Hv1.
  - f_equal. apply R. reflexivity.
Qed.

(** The statement on a string of four hexadecimal digits. *)
Lemma hex_to_rgb_short_witness :
  (String.length (lstrip "#" "#12ab") <= 4)%nat /\
  hex_to_rgb (CStr "#12ab") = Raise ValueError_int.
Proof.
  split; [simpl; lia|]. apply hex_to_rgb_short. simpl. lia.
Defined.

(** X3. Whenever [hex_to_rgb] accepts a string it returns exactly three
    channels, each from -15 to 255: a slice such as ["-f"], ["+2"] or
    [" 3"] is a literal [int(s, 16)] accepts, so the result need not be
    a triple of bytes. *)
Theorem hex_to_rgb_channels s rgb :
  hex_to_rgb (CStr s) = Ok rgb ->
  exists r g b,
    rgb = [r; g; b] /\
    -15 <= r <= 255 /\ -15 <= g <= 255 /\ -15 <= b <= 255.
Proof.
  intros H. unfold hex_to_rgb in H. peel H. injection H as <-.
  exists v, v0, v1. split; [reflexivity|].
  repeat split;
    (eapply int16_short_range; [apply substring_length_le | eassumption]).
Qed.

(** The statement on a string with a sign and a blank among its
    characters. *)
Lemma hex_to_rgb_channels_witness :
  hex_to_rgb (CStr "#-f+2 3") = Ok [-15; 2; 3] /\
  exists r g b,
    [-15; 2; 3] = [r; g; b] /\
    -15 <= r <= 255 /\ -15 <= g <= 255 /\ -15 <= b <= 255.
Proof.
  split; [reflexivity|].
  apply (hex_to_rgb_channels "#-f+2 3"). reflexivity.
Defined.

(* ------------------------------------------------------------------ *)
(** * The time formatter, read back                                     *)
(* ------------------------------------------------------------------ *)

Section TimeFacts.

Lemma format_time_fields n :
  format_time n
  = (format_0d 2 (n / 3600), format_0d 2 (n mod 3600 / 60),
     format_0d 2 (n mod 60)).
Proof. reflexivity. Qed.

Lemma two_digits n :
  0 <= n < 60 ->
  all_digits (format_0d 2 n) = true /\
  String.length (format_0d 2 n) = 2%nat /\
  dec_value (format_0d 2 n) = n.
Proof.
  intros H. destruct (format_0d_spec 2 n ltac:(lia) ltac:(lia)) as (A & V & _ & L).
  split; [exact A|]. split; [|exact V]. apply L. simpl. lia.
Qed.

Lemma decode_format_time n : 0 <= n -> decode_time (format_time n) = n.
Proof.
  intros H. rewrite format_time_fields. unfold decode_time.
  assert (Hm : 0 <= n mod 3600 / 60 < 60).
  { pose proof (Z.mod_pos_bound n 3600 ltac:(lia)).
    split; [apply Z.div_pos; lia | apply Z.div_lt_upper_bound; lia]. }
  assert (Hs : 0 <= n mod 60 < 60) by (apply Z.mod_pos_bound; lia).
  destruct (format_0d_spec 2 (n / 3600) ltac:(apply Z.div_pos; lia) ltac:(lia))
    as (_ & -> & _).
  destruct (two_digits _ Hm) as (_ & _ & ->).
  destruct (two_digits _ Hs) as (_ & _ & ->).
  pose proof (Z.div_mod n 3600 ltac:(lia)).
  pose proof (Z.div_mod (n mod 3600) 60 ltac:(lia)).
  assert ((n mod 3600) mod 60 = n mod 60).
  { pose proof (Z.div_mod (n mod 3600) 60 ltac:(lia)).
    pose proof (Z.mod_pos_bound (n mod 3600) 60 ltac:(lia)).
    pose proof (Z.mod_pos_bound n 60 ltac:(lia)).
    pose proof (Z.div_mod n 60 ltac:(lia)).
    apply (Zmod_unique_full n 60 (60 * (n / 3600) + n mod 3600 / 60));
      [left|]; lia. }
  lia.
Qed.

(** The numeral after the sign of a negative number of hours. *)
Lemma format_0d_negative n :
  n < 0 ->
  exists d,
    format_0d 2 n = "-" +++ d /\ all_digits d = true /\ d <> "" /\
    dec_value d = - n.
Proof.
  intros H. unfold format_0d. destruct (Z.ltb_spec n 0); [|lia].
  exists (zfill (2 - 1) (str_nat (- n))). split; [reflexivity|].
  destruct (str_nat_spec (- n) ltac:(lia)) as (A & V & _).
  unfold zfill.
  assert (D : dec_value (replicate (2 - 1 - String.length (str_nat (- n))) "0"
                         +++ str_nat (- n)) = - n).
  { unfold dec_value. rewrite dec_value_from_replicate_0. exact V. }
  split; [|split].
  - rewrite all_digits_app, all_digits_replicate_0, A. reflexivity.
  - intros C. rewrite C in D. unfold dec_value in D. simpl in D. lia.
  - exact D.
Qed.

End TimeFacts.

(** X4. Formatting loses nothing on a non-negative number of seconds:
    [3600 * HH + 60 * MM + SS], read from the three numerals, is the
    number that was formatted, so different seconds never get the same
    display. *)
Theorem format_time_round_trip :
  (forall n, 0 <= n -> decode_time (format_time n) = n) /\
  (forall a b, 0 <= a -> 0 <= b -> format_time a = format_time b -> a = b).
Proof.
  split; [exact decode_format_time|].
  intros a b Ha Hb H.
  rewrite <- (decode_format_time a Ha), <- (decode_format_time b Hb), H.
  reflexivity.
Qed.

(** The statement at 12:34:56 and at its neighbour. *)
Lemma format_time_round_trip_witness :
  0 <= 45296 /\ decode_time (format_time 45296) = 45296 /\
  (format_time 45296 = format_time 45296 -> 45296 = 45296).
Proof.
  split; [lia|]. split.
  - apply (proj1 format_time_round_trip). lia.
  - apply (proj2 format_time_round_trip); lia.
Defined.

(** X5. For every integer, negative ones included, the minutes and
    seconds fields are two digits with values [(n mod 3600) // 60] and
    [n mod 60], both from 0 to 59; for a negative [n] the hours field is a
    minus sign followed by the numeral of [-(n // 3600)], the floor
    quotient, so [format_time(-1)] is [("-1", "59", "59")]. *)
Theorem format_time_any_sign n :
  (let '(hh, mm, ss) := format_time n in
   (all_digits mm = true /\ String.length mm = 2%nat /\
    dec_value mm = n mod 3600 / 60 /\ 0 <= dec_value mm < 60) /\
   (all_digits ss = true /\ String.length ss = 2%nat /\
    dec_value ss = n mod 60 /\ 0 <= dec_value ss < 60) /\
   (n < 0 ->
    exists d, hh = "-" +++ d /\ all_digits d = true /\ d <> "" /\
              dec_value d = - (n / 3600))) /\
  format_time (-1) = ("-1", "59", "59").
Proof.
  split; [|reflexivity]. rewrite format_time_fields.
  assert (Hm : 0 <= n mod 3600 / 60 < 60).
  { pose proof (Z.mod_pos_bound n 3600 ltac:(lia)).
    split; [apply Z.div_pos; lia | apply Z.div_lt_upper_bound; lia]. }
  assert (Hs : 0 <= n mod 60 < 60) by (apply Z.mod_pos_bound; lia).
  destruct (two_digits _ Hm) as (A1 & L1 & V1).
  destruct (two_digits _ Hs) as (A2 & L2 & V2).
  split; [|split].
  - rewrite V1. auto.
  - rewrite V2. auto.
  - intros Hn. apply format_0d_negative.
    apply Z.div_lt_upper_bound; lia.
Qed.

(** The statement one hour and one second before zero. *)
Lemma format_time_any_sign_witness :
  -3601 < 0 /\ format_time (-3601) = ("-2", "59", "59") /\
  exists d, "-2" = "-" +++ d /\ all_digits d = true /\ d <> "" /\
            dec_value d = - (-3601 / 3600).
Proof.
  split; [lia|]. split; [reflexivity|].
  pose proof (proj1 (format_time_any_sign (-3601))) as H.
  change (format_time (-3601)) with ("-2", "59", "59") in H.
  destruct H as (_ & _ & H). apply H. lia.
Defined.

(* ------------------------------------------------------------------ *)
(** * Integers and truncation in binary64                               *)
(* ------------------------------------------------------------------ *)

Section FloatExact.

Import Float FloatFacts.
Local Open Scope Q_scope.

Lemma flog2_int_le n :
  (0 < n < 2 ^ 53)%Z -> (0 <= flog2 (inject_Z n) <= 52)%Z.
Proof.
  intros Hn.
  assert (X : 0 < inject_Z n)
    by (change 0 with (inject_Z 0); rewrite <- Zlt_Qlt; lia).
  destruct (flog2_bounds _ X) as [L U].
  assert (X1 : pow2 0 <= inject_Z n).
  { change (pow2 0) with (inject_Z 1). rewrite <- Zle_Qle. lia. }
  assert (X53 : inject_Z n < pow2 53).
  { rewrite pow2_Z by lia. rewrite <- Zlt_Qlt. lia. }
  split.
  - destruct (Z_le_gt_dec 0 (flog2 (inject_Z n))) as [|G]; [assumption|].
    exfalso. assert (pow2 (flog2 (inject_Z n) + 1) <= pow2 0)
      by (apply pow2_le; lia). lra.
  - destruct (Z_le_gt_dec (flog2 (inject_Z n)) 52) as [|G]; [assumption|].
    exfalso. assert (pow2 53 <= pow2 (flog2 (inject_Z n)))
      by (apply pow2_le; lia). lra.
Qed.

Lemma round_pos_raw_int n :
  (0 < n < 2 ^ 53)%Z -> round_pos_raw (inject_Z n) == inject_Z n.
Proof.
  intros Hn. destruct (flog2_int_le n Hn) as [L0 L52].
  unfold round_pos_raw.
  assert (U : ulp_exp (inject_Z n) = (flog2 (inject_Z n) - 52)%Z)
    by (unfold ulp_exp; lia).
  rewrite U. set (k := (52 - flog2 (inject_Z n))%Z).
  replace (flog2 (inject_Z n) - 52)%Z with (- k)%Z by (unfold k; lia).
  assert (Hk : (0 <= k)%Z) by (unfold k; lia).
  assert (P : pow2 (- k) * pow2 k == 1).
  { rewrite <- pow2_add. replace (- k + k)%Z with 0%Z by lia. reflexivity. }
  pose proof (pow2_pos (- k)) as Pn. pose proof (pow2_pos k) as Pk.
  assert (I : pow2 k == / pow2 (- k)).
  { apply (Qmult_inj_l _ _ (pow2 (- k))); [lra|].
    rewrite Qmult_inv_r by lra. exact P. }
  assert (D : inject_Z n / pow2 (- k) == inject_Z (n * 2 ^ k)).
  { rewrite inject_Z_mult, <- pow2_Z by exact Hk. rewrite I. reflexivity. }
  rewrite (rne_comp _ _ D), rne_inject_Z.
  rewrite inject_Z_mult, <- pow2_Z by exact Hk.
  rewrite <- Qmult_assoc, (Qmult_comm (pow2 k)), P. ring.
Qed.

Lemma Qred_inject_Z q n : q == inject_Z n -> Qred q = inject_Z n.
Proof.
  intros H. rewrite (Qred_complete _ _ H).
  unfold Qred, inject_Z. cbn [Qnum Qden].
  pose proof (Z.ggcd_correct_divisors n 1) as C.
  pose proof (Z.ggcd_gcd n 1) as G. rewrite Z.gcd_1_r in G.
  destruct (Z.ggcd n 1) as [g [aa bb]]. cbn [fst snd] in *. subst g.
  destruct C as [-> C2]. rewrite Z.mul_1_l in C2. subst bb.
  rewrite Z.mul_1_l. reflexivity.
Qed.

(** An integer below [2^53] in magnitude is a binary64 number. *)
Lemma round_int n : (Z.abs n < 2 ^ 53)%Z -> round (inject_Z n) = inject_Z n.
Proof.
  intros Hn. unfold round.
  destruct (Qcompare_spec (inject_Z n) 0) as [C|C|C].
  - assert (n = 0%Z) by (unfold Qeq in C; simpl in C; lia).
    subst. reflexivity.
  - assert (n < 0)%Z by (unfold Qlt in C; simpl in C; lia).
    unfold round_pos.
    rewrite (Qred_inject_Z _ (- n)).
    + unfold Qopp, inject_Z. simpl. rewrite Z.opp_involutive. reflexivity.
    + rewrite <- inject_Z_opp. apply round_pos_raw_int. lia.
  - assert (0 < n)%Z by (unfold Qlt in C; simpl in C; lia).
    unfold round_pos. apply Qred_inject_Z, round_pos_raw_int. lia.
Qed.

Lemma of_Q_int n : (Z.abs n < 2 ^ 53)%Z -> of_Q (inject_Z n) = Fin (inject_Z n).
Proof.
  intros Hn. unfold of_Q. rewrite round_int by exact Hn.
  rewrite overflows_false; [reflexivity|].
  apply Qle_lt_trans with (pow2 53); [|apply pow2_lt; lia].
  apply inject_Z_abs_le; lia.
Qed.

Lemma of_int_small n :
  (Z.abs n < 2 ^ 53)%Z -> of_int n = Py.Ok (Fin (inject_Z n)).
Proof. intros Hn. unfold of_int. now rewrite of_Q_int. Qed.

(** Rounding keeps a value between two such integers between them. *)
Lemma round_between lo hi x :
  (Z.abs lo < 2 ^ 53)%Z -> (Z.abs hi < 2 ^ 53)%Z ->
  inject_Z lo <= x <= inject_Z hi ->
  inject_Z lo <= round x <= inject_Z hi.
Proof.
  intros Hl Hh [H1 H2]. split.
  - rewrite <- (round_int lo Hl). apply round_mono. exact H1.
  - rewrite <- (round_int hi Hh). apply round_mono. exact H2.
Qed.

Lemma of_Q_between lo hi x :
  (Z.abs lo < 2 ^ 53)%Z -> (Z.abs hi < 2 ^ 53)%Z ->
  inject_Z lo <= x <= inject_Z hi ->
  of_Q x = Fin (round x) /\ inject_Z lo <= round x <= inject_Z hi.
Proof.
  intros Hl Hh Hx. pose proof (round_between lo hi x Hl Hh Hx) as B.
  split; [|exact B]. unfold of_Q. rewrite overflows_false; [reflexivity|].
  apply Qle_lt_trans with (pow2 53); [|apply pow2_lt; lia].
  pose proof (inject_Z_abs_le lo 53 ltac:(lia) ltac:(lia)) as Al.
  pose proof (inject_Z_abs_le hi 53 ltac:(lia) ltac:(lia)) as Ah.
  apply Qabs_Qle_condition in Al, Ah. apply Qabs_Qle_condition.
  split; lra.
Qed.

(** [int(x)] of a value between two integers lies between them. *)
Lemma to_int_between lo hi q :
  inject_Z lo <= q <= inject_Z hi ->
  exists v, to_int (Fin q) = Py.Ok v /\ (lo <= v <= hi)%Z.
Proof.
  intros [H1 H2]. eexists. split; [reflexivity|].
  destruct q as [n d]. cbn [Qnum Qden].
  unfold Qle, inject_Z in H1, H2. simpl in H1, H2.
  split.
  - rewrite <- (Z.quot_mul lo (Z.pos d)) by lia.
    apply Z.quot_le_mono; lia.
  - rewrite <- (Z.quot_mul hi (Z.pos d)) by lia.
    apply Z.quot_le_mono; lia.
Qed.

Lemma to_int_inject_Z n : to_int (Fin (inject_Z n)) = Py.Ok n.
Proof. unfold to_int, inject_Z. simpl. now rewrite Z.quot_1_r. Qed.

(** Truncation is monotone. *)
Lemma to_int_mono q1 q2 v1 v2 :
  q1 <= q2 -> to_int (Fin q1) = Py.Ok v1 -> to_int (Fin q2) = Py.Ok v2 ->
  (v1 <= v2)%Z.
Proof.
  intros H H1 H2. simpl in H1, H2. injection H1 as <-. injection H2 as <-.
  destruct q1 as [n1 d1], q2 as [n2 d2]. cbn [Qnum Qden].
  unfold Qle in H. simpl in H.
  (* compare through the common denominator *)
  assert (A : (n1 ÷ Z.pos d1 = (n1 * Z.pos d2) ÷ (Z.pos d1 * Z.pos d2))%Z).
  { rewrite Z.quot_mul_cancel_r; lia. }
  assert (B : (n2 ÷ Z.pos d2 = (n2 * Z.pos d1) ÷ (Z.pos d1 * Z.pos d2))%Z).
  { rewrite (Z.mul_comm (Z.pos d1) (Z.pos d2)).
    rewrite Z.quot_mul_cancel_r; lia. }
  rewrite A, B. apply Z.quot_le_mono; lia.
Qed.

(** The product of an integer and a ratio of the unit interval. *)
Lemma int_mul_unit n p :
  (Z.abs n < 2 ^ 53)%Z -> 0 <= p <= 1 ->
  int_mul n (Fin p) = Py.Ok (Fin (round (inject_Z n * p))) /\
  inject_Z (Z.min 0 n) <= round (inject_Z n * p) <= inject_Z (Z.max 0 n).
Proof.
  intros Hn Hp. unfold int_mul. rewrite of_int_small by exact Hn.
  cbn [Py.bind mul].
  assert (B : inject_Z (Z.min 0 n) <= inject_Z n * p <= inject_Z (Z.max 0 n)).
  { destruct (Z.le_ge_cases 0 n) as [N|N].
    - rewrite Z.min_l, Z.max_r by lia.
      assert (0 <= inject_Z n)
        by (change 0 with (inject_Z 0); rewrite <- Zle_Qle; lia).
      change (inject_Z 0) with 0. split; nra.
    - rewrite Z.min_r, Z.max_l by lia.
      assert (inject_Z n <= 0)
        by (change 0 with (inject_Z 0); rewrite <- Zle_Qle; lia).
      change (inject_Z 0) with 0. split; nra. }
  destruct (of_Q_between (Z.min 0 n) (Z.max 0 n) _ ltac:(lia) ltac:(lia) B)
    as [-> R].
  split; [reflexivity | exact R].
Qed.

End FloatExact.

(* ------------------------------------------------------------------ *)
(** * The gradient                                                      *)
(* ------------------------------------------------------------------ *)

Section GradientFacts.

Import Float FloatFacts.
Local Open Scope Q_scope.

Lemma draw_all_app img a b :
  draw_all img (a ++ b) = draw_all (draw_all img a) b.
Proof. apply fold_left_app. Qed.

(** One channel of one row: between the two end colours, and the top
    colour itself at ratio 0. *)
Lemma gradient_channel_between top bottom k t b q :
  nth_error top k = Some t -> nth_error bottom k = Some b ->
  (Z.abs t <= 2 ^ 30)%Z -> (Z.abs b <= 2 ^ 30)%Z -> 0 <= q <= 1 ->
  exists v,
    gradient_channel top bottom k (Fin q) = Ok v /\ between t b v /\
    (q == 0 -> v = t).
Proof.
  intros Nt Nb Ht Hb Hq. unfold gradient_channel, index.
  assert (P : (2 ^ 30 + 2 ^ 30 < 2 ^ 53)%Z) by reflexivity.
  rewrite Nt, Nb. cbn [Py.bind].
  destruct (int_mul_unit (b - t) q ltac:(lia) Hq) as [-> Bm].
  cbn [Py.bind]. unfold int_add. rewrite of_int_small by lia.
  cbn [Py.bind add].
  remember (round (inject_Z (b - t) * q)) as m eqn:Em.
  assert (Eb : inject_Z b == inject_Z t + inject_Z (b - t)).
  { rewrite <- inject_Z_plus. replace (t + (b - t))%Z with b by lia.
    reflexivity. }
  assert (B : inject_Z (Z.min t b) <= inject_Z t + m <= inject_Z (Z.max t b)).
  { destruct (Z.le_ge_cases t b) as [N|N].
    - rewrite Z.min_l, Z.max_r by lia.
      rewrite Z.min_l, Z.max_r in Bm by lia.
      change (inject_Z 0) with 0 in Bm. split; lra.
    - rewrite Z.min_r, Z.max_l by lia.
      rewrite Z.min_r, Z.max_l in Bm by lia.
      change (inject_Z 0) with 0 in Bm. split; lra. }
  destruct (of_Q_between (Z.min t b) (Z.max t b) _ ltac:(lia) ltac:(lia) B)
    as [-> R].
  destruct (to_int_between _ _ _ R) as (v & Hv & Bv).
  exists v. split; [exact Hv|]. split; [exact Bv|].
  intros Q0. rewrite Em in Hv.
  rewrite (round_comp (inject_Z (b - t) * q) 0) in Hv by (rewrite Q0; ring).
  rewrite round_0 in Hv.
  rewrite (round_comp (inject_Z t + 0) (inject_Z t)) in Hv by ring.
  rewrite round_int, to_int_inject_Z in Hv by lia.
  now injection Hv as <-.
Qed.

Lemma gradient_rows w h top bottom t0 t1 t2 trest b0 b1 b2 brest :
  top = t0 :: t1 :: t2 :: trest -> bottom = b0 :: b1 :: b2 :: brest ->
  (Z.abs t0 <= 2 ^ 30 /\ Z.abs t1 <= 2 ^ 30 /\ Z.abs t2 <= 2 ^ 30)%Z ->
  (Z.abs b0 <= 2 ^ 30 /\ Z.abs b1 <= 2 ^ 30 /\ Z.abs b2 <= 2 ^ 30)%Z ->
  forall ys, (forall y, In y ys -> (0 <= y < h)%Z) ->
  forall im,
  exists cs,
    Forall2 (fun y c =>
               exists r g b,
                 c = [r; g; b] /\ between t0 b0 r /\ between t1 b1 g /\
                 between t2 b2 b /\ (y = 0%Z -> c = [t0; t1; t2]))
            ys cs /\
    for_each ys
      (fun y img =>
         ratio <- truediv y h ;;
         r <- gradient_channel top bottom 0 ratio ;;
         g <- gradient_channel top bottom 1 ratio ;;
         b <- gradient_channel top bottom 2 ratio ;;
         Ok (Draw img (line [(Int 0, Int y); (Int w, Int y)] [r; g; b] None)))
      im
    = Ok (draw_all im
            (map (fun yc => scanline w (fst yc) (snd yc)) (combine ys cs))).
Proof.
  intros -> -> (T0 & T1 & T2) (B0 & B1 & B2).
  induction ys as [|y ys IH]; intros Hy im.
  - exists []. split; [constructor | reflexivity].
  - assert (Y : (0 <= y < h)%Z) by (apply Hy; now left).
    cbn [for_each]. rewrite truediv_unit by lia. cbn [Py.bind].
    pose proof (round_unit _ (ratio_unit y h ltac:(lia) ltac:(lia))) as U.
    set (q := round (inject_Z y / inject_Z h)) in *.
    assert (Z0 : y = 0%Z -> q == 0).
    { intros ->. unfold q.
      rewrite (round_comp (inject_Z 0 / inject_Z h) 0); [reflexivity|].
      unfold Qdiv. change (inject_Z 0) with 0. ring. }
    destruct (gradient_channel_between (t0 :: t1 :: t2 :: trest)
                (b0 :: b1 :: b2 :: brest) 0 t0 b0 q eq_refl eq_refl T0 B0 U)
      as (r & -> & Br & Zr).
    destruct (gradient_channel_between (t0 :: t1 :: t2 :: trest)
                (b0 :: b1 :: b2 :: brest) 1 t1 b1 q eq_refl eq_refl T1 B1 U)
      as (g & -> & Bg & Zg).
    destruct (gradient_channel_between (t0 :: t1 :: t2 :: trest)
                (b0 :: b1 :: b2 :: brest) 2 t2 b2 q eq_refl eq_refl T2 B2 U)
      as (b & -> & Bb & Zb).
    cbn [Py.bind].
    destruct (IH (fun y' H' => Hy y' (or_intror H'))
                (Draw im (line [(Int 0, Int y); (Int w, Int y)] [r; g; b] None)))
      as (cs & F & ->).
    exists ([r; g; b] :: cs). split; [|reflexivity].
    constructor; [|exact F].
    exists r, g, b. repeat split; try assumption; try apply Br; try apply Bg;
      try apply Bb.
    intros Y0. rewrite (Zr (Z0 Y0)), (Zg (Z0 Y0)), (Zb (Z0 Y0)). reflexivity.
Qed.

End GradientFacts.

(** X6. Once both colours resolve to channels of moderate size,
    [draw_gradient] returns for every width and height: it draws one
    line per row [y] of [range(height)], from [(0, y)] to [(width, y)],
    whose three channels each lie between the top and the bottom value
    of that channel; row 0 has the top colour exactly.  With
    [height <= 0] nothing is drawn, and nothing is divided by zero. *)
Theorem draw_gradient_spec img w h top_color bottom_color
  t0 t1 t2 trest b0 b1 b2 brest :
  hex_to_rgb top_color = Ok (t0 :: t1 :: t2 :: trest) ->
  hex_to_rgb bottom_color = Ok (b0 :: b1 :: b2 :: brest) ->
  Z.abs t0 <= 2 ^ 30 /\ Z.abs t1 <= 2 ^ 30 /\ Z.abs t2 <= 2 ^ 30 ->
  Z.abs b0 <= 2 ^ 30 /\ Z.abs b1 <= 2 ^ 30 /\ Z.abs b2 <= 2 ^ 30 ->
  exists cs,
    Forall2 (fun y c =>
               exists r g b,
                 c = [r; g; b] /\ between t0 b0 r /\ between t1 b1 g /\
                 between t2 b2 b /\ (y = 0 -> c = [t0; t1; t2]))
            (range 0 h) cs /\
    draw_gradient img w h top_color bottom_color
    = Ok (draw_all img
            (map (fun yc => scanline w (fst yc) (snd yc))
                 (combine (range 0 h) cs))) /\
    (h <= 0 -> draw_gradient img w h top_color bottom_color = Ok img).
Proof.
  intros Ht Hb T B. unfold draw_gradient. rewrite Ht, Hb. cbn [Py.bind].
  destruct (gradient_rows w h _ _ t0 t1 t2 trest b0 b1 b2 brest
              eq_refl eq_refl T B (range 0 h)
              (fun y Hy => proj1 (in_range 0 h y) Hy) img)
    as (cs & F & R).
  exists cs. split; [exact F|]. split; [exact R|].
  intros Hh. rewrite range_nil by lia. reflexivity.
Qed.

(** The statement on the gradient of the style [gradient], three rows
    high. *)
Lemma draw_gradient_spec_witness :
  hex_to_rgb (CStr "#667eea") = Ok [102; 126; 234] /\
  hex_to_rgb (CStr "#764ba2") = Ok [118; 75; 162] /\
  draw_gradient (Image_new "RGBA" (4, 3) [0; 0; 0; 255]) 4 3
    (CStr "#667eea") (CStr "#764ba2")
  = Ok (draw_all (Image_new "RGBA" (4, 3) [0; 0; 0; 255])
          [scanline 4 0 [102; 126; 234]; scanline 4 1 [107; 109; 210];
           scanline 4 2 [112; 92; 186]]) /\
  exists cs,
    Forall2 (fun y c =>
               exists r g b,
                 c = [r; g; b] /\ between 102 118 r /\ between 126 75 g /\
                 between 234 162 b /\ (y = 0 -> c = [102; 126; 234]))
            (range 0 3) cs.
Proof.
  split; [reflexivity|]. split; [reflexivity|].
  split; [vm_compute; reflexivity|].
  destruct (draw_gradient_spec (Image_new "RGBA" (4, 3) [0; 0; 0; 255]) 4 3
              (CStr "#667eea") (CStr "#764ba2")
              102 126 234 [] 118 75 162 [] eq_refl eq_refl
              ltac:(simpl; lia) ltac:(simpl; lia))
    as (cs & F & _).
  exists cs. exact F.
Defined.

(* ------------------------------------------------------------------ *)
(** * The glow                                                          *)
(* ------------------------------------------------------------------ *)

Section GlowFacts.

Import Float FloatFacts.
Local Open Scope Q_scope.

Lemma glow_alpha_near :
  forallb (fun i =>
             match (q <- truediv 40 i ;; to_int q) with
             | Ok v => (v =? 40 / i)%Z
             | Raise _ => false
             end)
          (range 1 41) = true.
Proof. vm_compute. reflexivity. Qed.

Lemma round_40_41 : round (40 # 41) < 1.
Proof. vm_compute. reflexivity. Qed.

(** The alpha of glow layer [i]: [int(40 / i)] is the floor quotient. *)
Lemma glow_alpha i :
  (1 <= i)%Z -> (q <- truediv 40 i ;; to_int q) = Ok (40 / i)%Z.
Proof.
  intros Hi. destruct (Z_le_gt_dec i 40) as [L|G].
  - pose proof glow_alpha_near as T. rewrite forallb_forall in T.
    specialize (T i (proj2 (in_range 1 41 i) ltac:(lia))).
    destruct (q <- truediv 40 i ;; to_int q) as [v|]; [|discriminate].
    apply Z.eqb_eq in T. now subst.
  - rewrite truediv_unit by lia. cbn [Py.bind to_int].
    rewrite Z.div_small by lia. f_equal.
    assert (I : 41 <= inject_Z i).
    { change 41 with (inject_Z 41). rewrite <- Zle_Qle. lia. }
    assert (B : 0 <= inject_Z 40 / inject_Z i <= 40 # 41).
    { split.
      - apply Qle_shift_div_l; [lra|]. rewrite Qmult_0_l. discriminate.
      - apply Qle_shift_div_r; [lra|]. change (inject_Z 40) with 40.
        assert (E : (40 # 41) * inject_Z i == 40 * (inject_Z i / 41))
          by (field).
        rewrite E.
        assert (1 <= inject_Z i / 41) by (apply Qle_shift_div_l; lra).
        lra. }
    assert (R0 : 0 <= round (inject_Z 40 / inject_Z i)).
    { rewrite <- round_0 at 1. apply round_mono. apply B. }
    assert (R1 : round (inject_Z 40 / inject_Z i) < 1).
    { eapply Qle_lt_trans; [apply round_mono, B | exact round_40_41]. }
    destruct (round (inject_Z 40 / inject_Z i)) as [n d].
    cbn [Qnum Qden]. unfold Qle, Qlt in R0, R1. simpl in R0, R1.
    apply Z.quot_small. lia.
Qed.

Lemma fold_filter_drawn {A : Type} (c : A -> bool) (f : A -> draw_op) ys :
  forall im,
    fold_left (fun im y => if c y then Draw im (f y) else im) ys im
    = draw_all im (map f (filter c ys)).
Proof.
  induction ys as [|y ys IH]; intros im; [reflexivity|].
  cbn [fold_left filter]. rewrite IH. destruct (c y); reflexivity.
Qed.

Lemma filter_list_prod_cons {A B : Type} (c : A * B -> bool) x xs ys :
  filter c (list_prod (x :: xs) ys)
  = filter c (map (fun y => (x, y)) ys) ++ filter c (list_prod xs ys).
Proof. cbn [list_prod]. apply filter_app. Qed.

Lemma filter_map_pair {A B : Type} (c : A * B -> bool) (x : A) ys :
  filter c (map (fun y => (x, y)) ys)
  = map (fun y => (x, y)) (filter (fun y => c (x, y)) ys).
Proof.
  induction ys as [|y ys IH]; [reflexivity|].
  cbn [map filter]. rewrite IH. destruct (c (x, y)); reflexivity.
Qed.

Lemma glow_fold txt x y fnt gc (bound : Z) xs ys :
  forall im,
    fold_left
      (fun im dx =>
         fold_left
           (fun im dy =>
              if (dx * dx + dy * dy <=? bound)%Z
              then Draw im (text (Int (x + dx), Int (y + dy)) txt fnt gc "mm")
              else im)
           ys im)
      xs im
    = draw_all im
        (map (fun d => text (Int (x + fst d), Int (y + snd d)) txt fnt gc "mm")
             (filter (fun d => (fst d * fst d + snd d * snd d <=? bound)%Z)
                     (list_prod xs ys))).
Proof.
  induction xs as [|dx xs IH]; intros im; [reflexivity|].
  cbn [fold_left]. rewrite IH, filter_list_prod_cons, map_app, draw_all_app.
  f_equal.
  rewrite (fold_filter_drawn
             (fun dy => (dx * dx + dy * dy <=? bound)%Z)
             (fun dy => text (Int (x + dx), Int (y + dy)) txt fnt gc "mm")).
  rewrite filter_map_pair, map_map. reflexivity.
Qed.

(** One glow layer: the text once at every offset of the disc. *)
Lemma glow_layer_stamps im txt x y fnt gc i :
  glow_layer im txt x y fnt gc i
  = draw_all im
      (map (fun d => text (Int (x + fst d), Int (y + snd d)) txt fnt gc "mm")
           (disc_offsets i)).
Proof. unfold glow_layer, disc_offsets. apply glow_fold. Qed.

Lemma glow_layers txt x y fnt r g b rest :
  forall layers_list,
    (forall i, In i layers_list -> (1 <= i)%Z) ->
    forall im,
      for_each layers_list
        (fun i im =>
           q <- truediv 40 i ;;
           alpha <- to_int q ;;
           r' <- index (r :: g :: b :: rest) 0 ;;
           g' <- index (r :: g :: b :: rest) 1 ;;
           b' <- index (r :: g :: b :: rest) 2 ;;
           Ok (glow_layer im txt x y fnt [r'; g'; b'; alpha] i))
        im
      = Ok (draw_all im
              (flat_map
                 (fun i =>
                    map (fun d => text (Int (x + fst d), Int (y + snd d)) txt
                                    fnt [r; g; b; (40 / i)%Z] "mm")
                        (disc_offsets i))
                 layers_list)).
Proof.
  induction layers_list as [|i l IH]; intros Hl im; [reflexivity|].
  cbn [for_each flat_map].
  pose proof (glow_alpha i (Hl i (or_introl eq_refl))) as A.
  destruct (truediv 40 i) as [q|e]; [|discriminate A].
  cbn [Py.bind] in A |- *. rewrite A. cbn [Py.bind index nth_error].
  rewrite IH by (intros j Hj; apply Hl; now right).
  rewrite draw_all_app, glow_layer_stamps. reflexivity.
Qed.

Lemma in_list_prod_iff {A B : Type} (l : list A) (l' : list B) x y :
  In (x, y) (list_prod l l') <-> In x l /\ In y l'.
Proof. apply in_prod_iff. Qed.

Lemma NoDup_range a b : NoDup (range a b).
Proof.
  unfold range. apply NoDup_map_injective; [|apply seq_NoDup].
  intros i j H. lia.
Qed.


Lemma draw_glow_stamps im txt x y fnt c layers r g b rest :
  hex_to_rgb c = Ok (r :: g :: b :: rest) ->
  draw_glow im txt x y fnt c layers
  = Ok (draw_all im (glow_stamps txt x y fnt r g b layers)).
Proof.
  intros H. unfold draw_glow, glow_stamps. rewrite H. cbn [Py.bind].
  apply glow_layers. intros i Hi. apply in_range_down in Hi. lia.
Qed.

(** A glow of at least one layer that returns had three channels to
    take. *)
Lemma draw_glow_channels im txt x y fnt c layers im' :
  (0 < layers)%Z ->
  draw_glow im txt x y fnt c layers = Ok im' ->
  exists r g b rest, hex_to_rgb c = Ok (r :: g :: b :: rest).
Proof.
  intros L H. unfold draw_glow in H.
  apply bind_Ok_inv in H. destruct H as (rgb & Hc & H).
  rewrite range_down_cons in H by lia. cbn [for_each] in H.
  apply bind_Ok_inv in H. destruct H as (im1 & H & _).
  peel H. unfold index in *.
  destruct rgb as [|r [|g [|b rest]]]; try discriminate.
  now exists r, g, b, rest.
Qed.

End GlowFacts.

(** X7. Once the colour resolves, [draw_glow] returns for any number of
    layers: it stamps the text for the layers [i = layers, ..., 1] in
    that order, layer [i] at every offset of its disc with the colour's
    first three channels and alpha [40 // i] (10, 13, 20, 40 for four
    layers); with [layers <= 0] it draws nothing.  No layer divides by
    zero. *)
Theorem draw_glow_spec img txt x y fnt c layers r g b rest :
  hex_to_rgb c = Ok (r :: g :: b :: rest) ->
  draw_glow img txt x y fnt c layers
  = Ok (draw_all img (glow_stamps txt x y fnt r g b layers)) /\
  (layers <= 0 -> draw_glow img txt x y fnt c layers = Ok img) /\
  map (fun i => 40 / i) (range_down 4 0) = [10; 13; 20; 40].
Proof.
  intros H.
  pose proof (draw_glow_stamps img txt x y fnt c layers r g b rest H) as G.
  split; [exact G|]. split; [|reflexivity].
  intros L. rewrite G. unfold glow_stamps.
  rewrite range_down_nil by lia. reflexivity.
Qed.

(** The statement on a glow of one layer in the text colour of the style
    [neon]. *)
Lemma draw_glow_spec_witness :
  hex_to_rgb (CStr "#ff00ff") = Ok [255; 0; 255] /\
  draw_glow (Image_new "RGBA" (8, 8) [0; 0; 0; 255]) "00:00:01" 4 4
    load_default (CStr "#ff00ff") 1
  = Ok (draw_all (Image_new "RGBA" (8, 8) [0; 0; 0; 255])
          (glow_stamps "00:00:01" 4 4 load_default 255 0 255 1)) /\
  List.length (glow_stamps "00:00:01" 4 4 load_default 255 0 255 1) = 13%nat.
Proof.
  split; [reflexivity|]. split; [|reflexivity].
  apply (proj1 (draw_glow_spec (Image_new "RGBA" (8, 8) [0; 0; 0; 255])
                  "00:00:01" 4 4 load_default (CStr "#ff00ff") 1
                  255 0 255 [] eq_refl)).
Defined.



(* ------------------------------------------------------------------ *)
(** * The progress ring and the progress bar of the digital family      *)
(* ------------------------------------------------------------------ *)

Section RingBarFacts.

Import Float FloatFacts.
Local Open Scope Q_scope.

Lemma progress_value_start t : (0 < t)%Z -> progress_value t t = 0.
Proof.
  intros Ht. unfold progress_value.
  rewrite (round_comp (inject_Z t / inject_Z t) 1).
  - reflexivity.
  - field. intros C. unfold Qeq in C. simpl in C. lia.
Qed.

Lemma progress_value_end t : progress_value 0 t = 1.
Proof.
  unfold progress_value.
  rewrite (round_comp (inject_Z 0 / inject_Z t) 0).
  - reflexivity.
  - unfold Qdiv. change (inject_Z 0) with 0. ring.
Qed.

Lemma progress_value_pos r t :
  (0 < t <= 2 ^ 50)%Z -> (0 <= r < t)%Z -> 0 < progress_value r t.
Proof.
  intros Ht Hr. rewrite <- (progress_value_start t) by lia.
  apply progress_value_strict; lia.
Qed.

(** The end angle for a ratio of the unit interval. *)
Lemma ring_end_angle_unit p :
  0 <= p <= 1 ->
  ring_end_angle (Fin p)
  = Fin (round (inject_Z (-90) + round (inject_Z 360 * p))) /\
  - (90) <= round (inject_Z (-90) + round (inject_Z 360 * p)) <= 270.
Proof.
  intros Hp. unfold ring_end_angle, lit. cbn [mul].
  assert (B : inject_Z 0 <= inject_Z 360 * p <= inject_Z 360).
  { change (inject_Z 0) with 0. change (inject_Z 360) with 360. lra. }
  destruct (of_Q_between 0 360 _ ltac:(reflexivity) ltac:(reflexivity) B)
    as [-> R].
  cbn [add].
  assert (B2 : inject_Z (-90) <= inject_Z (-90) + round (inject_Z 360 * p)
               <= inject_Z 270).
  { change (inject_Z 0) with 0 in R. change (inject_Z 360) with 360 in *.
    change (inject_Z (-90)) with (- (90)). change (inject_Z 270) with 270.
    lra. }
  destruct (of_Q_between (-90) 270 _ ltac:(reflexivity) ltac:(reflexivity) B2)
    as [-> R2].
  split; [reflexivity|].
  change (inject_Z (-90)) with (- (90)) in R2 at 1.
  change (inject_Z 270) with 270 in R2. exact R2.
Qed.

(** The fill of the bar for a ratio of the unit interval. *)
Lemma fill_unit w p :
  (160 <= w <= 2 ^ 30)%Z -> 0 <= p <= 1 ->
  exists f,
    (m <- int_mul (w - 80 * 2) (Fin p) ;; to_int m) = Ok f /\
    to_int (Fin (round (inject_Z (w - 80 * 2) * p))) = Ok f /\
    (0 <= f <= w - 160)%Z.
Proof.
  intros Hw Hp.
  assert (P : (2 ^ 30 < 2 ^ 53)%Z) by reflexivity.
  destruct (int_mul_unit (w - 80 * 2) p ltac:(lia) Hp) as [-> B].
  cbn [Py.bind].
  rewrite Z.min_l, Z.max_r in B by lia.
  destruct (to_int_between _ _ _ B) as (f & Hf & Bf).
  exists f. split; [exact Hf|]. split; [exact Hf|]. lia.
Qed.

Lemma bar_fill_value w r t :
  (160 <= w <= 2 ^ 30)%Z -> (0 < t)%Z -> (0 <= r <= t)%Z ->
  exists f,
    bar_fill w r t = Ok f /\
    to_int (Fin (round (inject_Z (w - 80 * 2) * progress_value r t))) = Ok f /\
    (0 <= f <= w - 160)%Z.
Proof.
  intros Hw Ht Hr. unfold bar_fill.
  rewrite progress_ratio_value by assumption. cbn [Py.bind].
  apply fill_unit; [exact Hw|]. apply progress_value_unit; assumption.
Qed.

End RingBarFacts.

(** X9. The progress ring of [render_frame]: for a span [t] up to
    [2^50] seconds and [0 <= r <= t], [draw_circle_progress] with the
    frame's progress ratio always draws the full track (arc from 0 to
    360 in the ring colour at alpha 60), and over it the progress arc,
    twice as wide, from -90 to [-90 + 360 * progress] degrees exactly
    when [r < t]; the end angle lies between -90 and 270 and is 270 at
    [r = 0].  At the start of the countdown ([r = t]) there is no
    progress arc. *)
Theorem draw_circle_progress_spec img cx cy radius c width rgb r t :
  hex_to_rgb c = Ok rgb -> 0 < t <= 2 ^ 50 -> 0 <= r <= t ->
  exists p e,
    progress_ratio r t = Ok (Float.Fin p) /\
    ring_end_angle (Float.Fin p) = Float.Fin e /\
    (- (90) <= e <= 270)%Q /\
    (r = 0 -> e = 270%Q) /\
    let bbox := [cx - radius; cy - radius; cx + radius; cy + radius] in
    let track := Draw img (arc bbox (Int 0) (Int 360) (rgb ++ [60]) width) in
    draw_circle_progress img cx cy radius (Float.Fin p) c width
    = Ok (if r <? t
          then Draw track
                 (arc bbox (Int (-90)) (Flt (Float.Fin e)) rgb (width * 2))
          else track).
Proof.
  intros Hc Ht Hr.
  pose proof (progress_value_unit r t ltac:(lia) Hr) as U.
  destruct (ring_end_angle_unit _ U) as [A B].
  eexists (progress_value r t), _.
  split; [apply progress_ratio_value; lia|].
  split; [exact A|]. split; [exact B|]. split.
  - intros ->. rewrite progress_value_end. vm_compute. reflexivity.
  - cbn zeta. unfold draw_circle_progress. rewrite Hc. cbn [Py.bind].
    fold (ring_end_angle (Float.Fin (progress_value r t))). rewrite A.
    unfold Float.gt0. destruct (Z.ltb_spec r t) as [L|G].
    + pose proof (progress_value_pos r t Ht ltac:(lia)) as P.
      destruct (Qle_bool (progress_value r t) 0) eqn:Q; [|reflexivity].
      apply Qle_bool_iff in Q. exfalso. apply (Qlt_not_le _ _ P Q).
    + assert (r = t) by lia. subst r.
      rewrite progress_value_start by lia. reflexivity.
Qed.

(** The statement half way through a one-hour countdown. *)
Lemma draw_circle_progress_spec_witness :
  hex_to_rgb (CStr "#ffffff") = Ok [255; 255; 255] /\
  0 < 3600 <= 2 ^ 50 /\ 0 <= 1800 <= 3600 /\
  progress_ratio 1800 3600 = Ok (Float.Fin (1 # 2)) /\
  ring_end_angle (Float.Fin (1 # 2)) = Float.Fin 90 /\
  exists p e,
    progress_ratio 1800 3600 = Ok (Float.Fin p) /\
    ring_end_angle (Float.Fin p) = Float.Fin e /\
    (- (90) <= e <= 270)%Q.
Proof.
  split; [reflexivity|]. split; [vm_compute; intuition discriminate|].
  split; [lia|]. split; [vm_compute; reflexivity|].
  split; [vm_compute; reflexivity|].
  destruct (draw_circle_progress_spec (Image_new "RGBA" (8, 8) []) 4 4 2
              (CStr "#ffffff") 8 [255; 255; 255] 1800 3600 eq_refl
              ltac:(vm_compute; intuition discriminate) ltac:(lia))
    as (p & e & H1 & H2 & H3 & _).
  exists p, e. auto.
Defined.

(** X10. The progress bar of [render_frame] on a canvas from 160 to
    [2^30] pixels wide, for [0 <= r <= t] and [0 < t]: the filled width
    [int((w - 160) * progress)] is never negative and never wider than
    the track, it is the whole track at [r = 0] and nothing at [r = t],
    and it does not shrink as the remaining seconds decrease.
    [draw_progress_bar] draws the track at alpha 40 and, only when that
    width is positive, the fill from the same left edge. *)
Theorem bar_fill_spec w t (Hw : 160 <= w <= 2 ^ 30) (Ht : 0 < t) :
  (forall r, 0 <= r <= t ->
     exists f, bar_fill w r t = Ok f /\ 0 <= f <= w - 160) /\
  bar_fill w 0 t = Ok (w - 160) /\
  bar_fill w t t = Ok 0 /\
  (forall r1 r2 f1 f2,
     0 <= r1 <= r2 -> r2 <= t ->
     bar_fill w r1 t = Ok f1 -> bar_fill w r2 t = Ok f2 -> f2 <= f1) /\
  (forall img s h r p pc,
     0 <= r <= t ->
     hex_to_rgb (StyleConfig.progress_color s) = Ok pc ->
     progress_ratio r t = Ok p ->
     exists f,
       bar_fill w r t = Ok f /\
       let track :=
         Draw img (rectangle [80; h - 40; 80 + (w - 80 * 2); h - 40 + 6]
                     (Some (pc ++ [40])) None None) in
       draw_progress_bar img s w h p
       = Ok (if 0 <? f
             then Draw track (rectangle [80; h - 40; 80 + f; h - 40 + 6]
                                (Some pc) None None)
             else track)).
Proof.
  split; [|split; [|split; [|split]]].
  - intros r Hr. destruct (bar_fill_value w r t Hw Ht Hr) as (f & F & _ & B).
    exists f. auto.
  - destruct (bar_fill_value w 0 t Hw Ht ltac:(lia)) as (f & -> & V & _).
    rewrite progress_value_end in V.
    rewrite (FloatFacts.round_comp (inject_Z (w - 80 * 2) * 1)
               (inject_Z (w - 80 * 2))) in V by ring.
    assert (P : 2 ^ 30 < 2 ^ 53) by reflexivity.
    rewrite round_int, to_int_inject_Z in V by lia.
    injection V as <-. reflexivity.
  - destruct (bar_fill_value w t t Hw Ht ltac:(lia)) as (f & -> & V & _).
    rewrite progress_value_start in V by lia.
    rewrite (FloatFacts.round_comp (inject_Z (w - 80 * 2) * 0) 0) in V by ring.
    rewrite round_0 in V. injection V as <-. reflexivity.
  - intros r1 r2 f1 f2 H1 H2 F1 F2.
    destruct (bar_fill_value w r1 t Hw Ht ltac:(lia)) as (g1 & G1 & V1 & _).
    destruct (bar_fill_value w r2 t Hw Ht ltac:(lia)) as (g2 & G2 & V2 & _).
    rewrite G1 in F1. rewrite G2 in F2.
    injection F1 as <-. injection F2 as <-.
    refine (to_int_mono _ _ _ _ _ V2 V1).
    apply FloatFacts.round_mono.
    pose proof (progress_value_mono r1 r2 t Ht ltac:(lia)) as M.
    assert (0 <= inject_Z (w - 80 * 2))%Q.
    { change 0%Q with (inject_Z 0). rewrite <- Zle_Qle. lia. }
    rewrite !(Qmult_comm (inject_Z (w - 80 * 2))).
    apply Qmult_le_compat_r; assumption.
  - intros im s h r p pc Hr Hc Hp.
    destruct (bar_fill_value w r t Hw Ht Hr) as (f & F & _ & _).
    exists f. split; [exact F|]. cbn zeta.
    unfold bar_fill in F. rewrite Hp in F. cbn [Py.bind] in F.
    unfold draw_progress_bar. rewrite Hc. cbn [Py.bind].
    destruct (Float.int_mul (w - 80 * 2) p) as [m|]; [|discriminate F].
    cbn [Py.bind] in F |- *. rewrite F. cbn [Py.bind].
    rewrite Z.gtb_ltb. destruct (0 <? f); reflexivity.
Qed.

(** The statement on a full-HD canvas, a quarter into one hour. *)
Lemma bar_fill_spec_witness :
  160 <= 1920 <= 2 ^ 30 /\ 0 < 3600 /\
  bar_fill 1920 0 3600 = Ok 1760 /\
  bar_fill 1920 3600 3600 = Ok 0 /\
  bar_fill 1920 2700 3600 = Ok 440.
Proof.
  assert (Hw : 160 <= 1920 <= 2 ^ 30) by (vm_compute; intuition discriminate).
  split; [exact Hw|]. split; [lia|].
  destruct (bar_fill_spec 1920 3600 Hw ltac:(lia)) as (_ & H0 & H1 & _).
  split; [exact H0|]. split; [exact H1|]. vm_compute. reflexivity.
Defined.

(* ------------------------------------------------------------------ *)
(** * The drawing calls behind a frame                                  *)
(* ------------------------------------------------------------------ *)

Section CallFacts.

Variable E : Env.

Lemma Ok_inj {A : Type} (a b : A) : Ok a = Ok b -> a = b.
Proof. congruence. Qed.

Lemma draw_all_snoc a ops op :
  draw_all a (ops ++ [op]) = Draw (draw_all a ops) op.
Proof. unfold draw_all. now rewrite fold_left_app. Qed.

Lemma drawn_draw_all ops : forall a, drawn (draw_all a ops) = drawn a ++ ops.
Proof.
  induction ops as [|op ops IH]; intros a.
  - simpl. now rewrite app_nil_r.
  - change (draw_all a (op :: ops)) with (draw_all (Draw a op) ops).
    rewrite IH. simpl. now rewrite <- app_assoc.
Qed.

Lemma canvas_draw_all ops : forall a, canvas (draw_all a ops) = canvas a.
Proof.
  induction ops as [|op ops IH]; intros a; [reflexivity|].
  change (draw_all a (op :: ops)) with (draw_all (Draw a op) ops).
  now rewrite IH.
Qed.

Lemma image_size_draw_all ops :
  forall a, image_size (draw_all a ops) = image_size a.
Proof.
  induction ops as [|op ops IH]; intros a; [reflexivity|].
  change (draw_all a (op :: ops)) with (draw_all (Draw a op) ops).
  now rewrite IH.
Qed.

Lemma image_mode_draw_all ops :
  forall a, image_mode (draw_all a ops) = image_mode a.
Proof.
  induction ops as [|op ops IH]; intros a; [reflexivity|].
  change (draw_all a (op :: ops)) with (draw_all (Draw a op) ops).
  now rewrite IH.
Qed.

Lemma composites_draw_all ops :
  forall a, composites (draw_all a ops) = composites a.
Proof.
  induction ops as [|op ops IH]; intros a; [reflexivity|].
  change (draw_all a (op :: ops)) with (draw_all (Draw a op) ops).
  now rewrite IH.
Qed.

Lemma op_texts_app a b : op_texts (a ++ b) = op_texts a ++ op_texts b.
Proof. apply flat_map_app. Qed.

Lemma op_labels_app a b : op_labels (a ++ b) = op_labels a ++ op_labels b.
Proof. apply flat_map_app. Qed.

Lemma texts_draw_all ops :
  forall a, texts (draw_all a ops) = texts a ++ op_texts ops.
Proof.
  induction ops as [|op ops IH]; intros a.
  - simpl. now rewrite app_nil_r.
  - change (draw_all a (op :: ops)) with (draw_all (Draw a op) ops).
    rewrite IH. change (op :: ops) with ([op] ++ ops).
    rewrite op_texts_app, app_assoc. f_equal.
    destruct op; simpl; rewrite ?app_nil_r; reflexivity.
Qed.

Lemma labels_draw_all ops :
  forall a, labels (draw_all a ops) = labels a ++ op_labels ops.
Proof.
  induction ops as [|op ops IH]; intros a.
  - simpl. now rewrite app_nil_r.
  - change (draw_all a (op :: ops)) with (draw_all (Draw a op) ops).
    rewrite IH. change (op :: ops) with ([op] ++ ops).
    rewrite op_labels_app, app_assoc. f_equal.
    destruct op as [| | | |[x y] txt fnt fill anchor| |]; simpl;
      rewrite ?app_nil_r; try reflexivity.
    destruct (String.eqb anchor "mt"); simpl; rewrite ?app_nil_r; reflexivity.
Qed.

Lemma op_texts_plain ops :
  Forall (fun op => is_text op = false) ops -> op_texts ops = [].
Proof.
  induction 1 as [|op ops H _ IH]; [reflexivity|].
  unfold op_texts in *. simpl. rewrite IH.
  destruct op; try reflexivity; discriminate.
Qed.

Lemma op_labels_plain ops :
  Forall (fun op => is_text op = false) ops -> op_labels ops = [].
Proof.
  induction 1 as [|op ops H _ IH]; [reflexivity|].
  unfold op_labels in *. simpl. rewrite IH.
  destruct op; try reflexivity; discriminate.
Qed.

Lemma filter_plain (f : draw_op -> bool) ops :
  Forall (fun op => f op = false) ops -> filter f ops = [].
Proof.
  induction 1 as [|op ops H _ IH]; [reflexivity|].
  simpl. now rewrite H.
Qed.

(** ** Steps that add calls of one kind *)

Section Adds.

Variable P : draw_op -> Prop.

Lemma adds_refl a : adds P a a.
Proof. exists []. split; [reflexivity | constructor]. Qed.

Lemma adds_step a op : P op -> adds P a (Draw a op).
Proof. intros H. exists [op]. split; [reflexivity | repeat constructor; exact H]. Qed.

Lemma adds_trans a b c : adds P a b -> adds P b c -> adds P a c.
Proof.
  intros (o1 & -> & F1) (o2 & -> & F2). exists (o1 ++ o2).
  split; [now rewrite draw_all_app | now apply Forall_app].
Qed.

Lemma for_each_adds {A : Type} (xs : list A)
  (body : A -> image -> result image) :
  (forall x i i', body x i = Ok i' -> adds P i i') ->
  forall i i', for_each xs body i = Ok i' -> adds P i i'.
Proof.
  intros Hb. induction xs as [|x xs IH]; simpl; intros i i' H.
  - injection H as <-. apply adds_refl.
  - apply bind_Ok_inv in H. destruct H as (i1 & H1 & H2).
    eapply adds_trans; [exact (Hb x i i1 H1) | apply IH; exact H2].
Qed.

Lemma draw_gradient_adds im w h c0 c1 im' :
  (forall xy fill, P (line xy fill None)) ->
  draw_gradient im w h c0 c1 = Ok im' -> adds P im im'.
Proof.
  intros HP. unfold draw_gradient. intros H. peel H. revert H.
  apply for_each_adds. intros y i i' Hy. peel Hy. injection Hy as <-.
  apply adds_step, HP.
Qed.

Lemma gradient_background_adds im w h flag gc im' :
  (forall xy fill, P (line xy fill None)) ->
  gradient_background im w h flag gc = Ok im' -> adds P im im'.
Proof.
  intros HP. unfold gradient_background. intros H.
  destruct gc as [gc|]; [|injection H as <-; apply adds_refl].
  destruct (flag && tuple_truthy (Some gc))%bool;
    [|injection H as <-; apply adds_refl].
  apply bind_Ok_inv in H. destruct H as (c0 & _ & H).
  apply bind_Ok_inv in H. destruct H as (c1 & _ & H).
  eapply draw_gradient_adds; eassumption.
Qed.

Lemma draw_circle_progress_adds im cx cy radius progress c width im' :
  (forall xy a b fill w, P (arc xy a b fill w)) ->
  draw_circle_progress im cx cy radius progress c width = Ok im' ->
  adds P im im'.
Proof.
  intros HP. unfold draw_circle_progress. intros H. peel H.
  destruct (Float.gt0 progress); injection H as <-.
  - eapply adds_trans; apply adds_step, HP.
  - apply adds_step, HP.
Qed.

Lemma draw_progress_bar_adds im s w h progress im' :
  (forall xy fill, P (rectangle xy (Some fill) None None)) ->
  draw_progress_bar im s w h progress = Ok im' -> adds P im im'.
Proof.
  intros HP. unfold draw_progress_bar. intros H. peel H.
  destruct (_ >? 0); injection H as <-.
  - eapply adds_trans; apply adds_step, HP.
  - apply adds_step, HP.
Qed.

End Adds.

(** ** Steps whose calls are known one by one *)

(** A loop that adds at most one call per element. *)
Lemma for_each_calls {A : Type} (keep : A -> bool)
  (R : A -> draw_op -> Prop) (body : A -> image -> result image) :
  (forall x i i', body x i = Ok i' ->
     if keep x then exists op, i' = Draw i op /\ R x op else i' = i) ->
  forall xs i i',
    for_each xs body i = Ok i' ->
    exists ops, i' = draw_all i ops /\ Forall2 R (filter keep xs) ops.
Proof.
  intros Hb. induction xs as [|x xs IH]; simpl; intros i i' H.
  - injection H as <-. exists []. split; [reflexivity | constructor].
  - apply bind_Ok_inv in H. destruct H as (i1 & H1 & H2).
    destruct (IH _ _ H2) as (ops & -> & F). specialize (Hb x i i1 H1).
    destruct (keep x).
    + destruct Hb as (op & -> & Rop). exists (op :: ops).
      split; [reflexivity | now constructor].
    + subst i1. exists ops. split; [reflexivity | exact F].
Qed.

Lemma filter_true {A : Type} (l : list A) : filter (fun _ => true) l = l.
Proof. induction l as [|a l IH]; simpl; congruence. Qed.

Lemma draw_ticks_calls im s tick_rgb im' :
  draw_ticks E im s (CircleTimerConfig.width s / 2)
    (CircleTimerConfig.height s / 2) (dial_radius s) tick_rgb = Ok im' ->
  exists ops,
    im' = draw_all im ops /\
    Forall2 (is_tick_call E s tick_rgb)
            (filter (fun i => 0 <? tick_len s i) (range 0 60)) ops.
Proof.
  unfold draw_ticks. apply for_each_calls. intros i im0 im1 H.
  apply bind_Ok_inv in H. destruct H as (angle & Ha & H).
  fold (tick_len s i) in H. rewrite Z.ltb_antisym.
  destruct (tick_len s i <=? 0); cbn [negb].
  - now injection H as <-.
  - apply bind_Ok_inv in H. destruct H as (outer & Ho & H).
    apply bind_Ok_inv in H. destruct H as (inner & Hi & H).
    injection H as <-. eexists. split; [reflexivity|].
    exists angle, inner, outer. auto.
Qed.

Lemma draw_hour_numbers_calls im s im' :
  draw_hour_numbers E im s (CircleTimerConfig.width s / 2)
    (CircleTimerConfig.height s / 2) (dial_radius s) = Ok im' ->
  exists num_rgb ops,
    hex_to_rgb (CircleTimerConfig.hour_number_color s) = Ok num_rgb /\
    im' = draw_all im ops /\
    Forall2 (is_hour_number_call E s num_rgb) (range 0 12) ops.
Proof.
  unfold draw_hour_numbers. intros H.
  apply bind_Ok_inv in H. destruct H as (num_rgb & Hc & H).
  exists num_rgb.
  eapply (for_each_calls (fun _ => true) (is_hour_number_call E s num_rgb))
    in H.
  - destruct H as (ops & -> & F). rewrite filter_true in F.
    exists ops. auto.
  - intros i im0 im1 Hb. cbn beta in Hb |- *.
    apply bind_Ok_inv in Hb. destruct Hb as (angle & Ha & Hb).
    apply bind_Ok_inv in Hb. destruct Hb as (pos & Hp & Hb).
    injection Hb as <-. eexists. split; [reflexivity|].
    exists angle, pos. auto.
Qed.

Lemma draw_labels_calls im s fnt hh mm cx cy text_w text_h im' :
  draw_labels E im s fnt hh mm cx cy text_w text_h = Ok im' ->
  exists lc,
    hex_to_rgb (StyleConfig.label_color s) = Ok lc /\
    let hh_w := text_width E fnt hh in
    let sep_w := text_width E fnt (StyleConfig.separator s) in
    let mm_w := text_width E fnt mm in
    let start_x := cx - text_w / 2 in
    let label_y := cy + text_h / 2 + 30 in
    let label_font := get_label_font_at_size E (StyleConfig.font_size s / 6) in
    im' = draw_all im
            [text (Int (start_x + hh_w / 2), Int label_y) "HOURS"
               label_font lc "mt";
             text (Int (start_x + hh_w + sep_w + mm_w / 2), Int label_y)
               "MINUTES" label_font lc "mt";
             text (Int (start_x + hh_w + sep_w + mm_w + sep_w + hh_w / 2),
                   Int label_y)
               "SECONDS" label_font lc "mt"].
Proof.
  intros H.
  destruct (hex_to_rgb (StyleConfig.label_color s)) as [lc|e] eqn:Hc.
  - exists lc. split; [reflexivity|].
    rewrite (draw_labels_draws E im s fnt hh mm cx cy text_w text_h lc Hc) in H.
    injection H as <-. reflexivity.
  - exfalso. unfold draw_labels in H.
    destruct (textbbox E fnt hh) as [[[? ?] ?] ?].
    destruct (textbbox E fnt (StyleConfig.separator s)) as [[[? ?] ?] ?].
    destruct (textbbox E fnt mm) as [[[? ?] ?] ?].
    rewrite Hc in H. discriminate H.
Qed.

(** ** The calls of a digital frame *)

(** The calls behind a frame of the digital family: background steps
    that draw no text, the glow, the time text, the labels, the bar. *)
Lemma render_frame_body_calls s hh mm ss progress im :
  render_frame_body E s hh mm ss progress = Ok im ->
  let w := StyleConfig.width s in
  let h := StyleConfig.height s in
  let sep := StyleConfig.separator s in
  let txt := hh +++ sep +++ mm +++ sep +++ ss in
  let fnt := get_font E s in
  exists bg tc pre glow_ops label_ops bar_ops,
    hex_to_rgb (StyleConfig.bg_color s) = Ok bg /\
    hex_to_rgb (StyleConfig.text_color s) = Ok tc /\
    im = convert
           (draw_all (Image_new "RGBA" (w, h) (bg ++ [255]))
              (pre ++ glow_ops
               ++ [text (Int (w / 2), Int (h / 2)) txt fnt tc "mm"]
               ++ label_ops ++ bar_ops))
           "RGB" /\
    Forall (fun op => is_text op = false) pre /\
    Forall (fun op => is_text op = false) bar_ops /\
    (if StyleConfig.glow s
     then exists r g b rest,
            tc = r :: g :: b :: rest /\
            glow_ops = glow_stamps txt (w / 2) (h / 2) fnt r g b 4
     else glow_ops = []) /\
    (if StyleConfig.show_labels s
     then exists lc,
            hex_to_rgb (StyleConfig.label_color s) = Ok lc /\
            let hh_w := text_width E fnt hh in
            let sep_w := text_width E fnt sep in
            let mm_w := text_width E fnt mm in
            let start_x := w / 2 - text_width E fnt txt / 2 in
            let label_y := h / 2 + text_height E fnt txt / 2 + 30 in
            let label_font :=
              get_label_font_at_size E (StyleConfig.font_size s / 6) in
            label_ops
            = [text (Int (start_x + hh_w / 2), Int label_y) "HOURS"
                 label_font lc "mt";
               text (Int (start_x + hh_w + sep_w + mm_w / 2), Int label_y)
                 "MINUTES" label_font lc "mt";
               text (Int (start_x + hh_w + sep_w + mm_w + sep_w + hh_w / 2),
                     Int label_y)
                 "SECONDS" label_font lc "mt"]
     else label_ops = []).
Proof.
  intros H w h sep txt fnt. unfold render_frame_body in H.
  fold w h sep in H. fold txt in H. fold fnt in H.
  apply bind_Ok_inv in H. destruct H as (bg & Hbg & H).
  apply bind_Ok_inv in H. destruct H as (im1 & H1 & H).
  apply bind_Ok_inv in H. destruct H as (im2 & H2 & H).
  unfold text_width, text_height.
  destruct (textbbox E fnt txt) as [[[b0 b1] b2] b3].
  apply bind_Ok_inv in H. destruct H as (im3 & H3 & H).
  apply bind_Ok_inv in H. destruct H as (im4 & H4 & H).
  apply bind_Ok_inv in H. destruct H as (im5 & H5 & H).
  apply bind_Ok_inv in H. destruct H as (tc & Htc & H).
  apply bind_Ok_inv in H. destruct H as (im6 & H6 & H).
  apply bind_Ok_inv in H. destruct H as (im7 & H7 & H).
  injection H as <-.
  set (P := fun op => is_text op = false).
  assert (A1 : adds P (Image_new "RGBA" (w, h) (bg ++ [255])) im1).
  { eapply gradient_background_adds; [|exact H1]. reflexivity. }
  assert (A2 : adds P im1 im2).
  { destruct (StyleConfig.border s).
    - peel H2. injection H2 as <-. apply adds_step. reflexivity.
    - injection H2 as <-. apply adds_refl. }
  assert (A3 : adds P im2 im3).
  { destruct (StyleConfig.digit_bg_color s) as [dbc|];
      [|injection H3 as <-; apply adds_refl].
    destruct (StyleConfig.rounded_bg s && color_truthy (Some dbc))%bool;
      [|injection H3 as <-; apply adds_refl].
    peel H3. injection H3 as <-. apply adds_step. reflexivity. }
  assert (A4 : adds P im3 im4).
  { destruct (StyleConfig.circle_progress s).
    - eapply draw_circle_progress_adds; [|exact H4]. reflexivity.
    - injection H4 as <-. apply adds_refl. }
  destruct (adds_trans P _ _ _ (adds_trans P _ _ _ A1 A2)
              (adds_trans P _ _ _ A3 A4)) as (pre & -> & Fpre).
  assert (A7 : adds P im6 im7).
  { destruct (StyleConfig.progress_bar s).
    - eapply draw_progress_bar_adds; [|exact H7]. reflexivity.
    - injection H7 as <-. apply adds_refl. }
  destruct A7 as (bar_ops & -> & Fbar).
  assert (G : exists glow_ops,
             im5 = draw_all (draw_all (Image_new "RGBA" (w, h) (bg ++ [255])) pre)
                     glow_ops /\
             (if StyleConfig.glow s
              then exists r g b rest,
                     tc = r :: g :: b :: rest /\
                     glow_ops = glow_stamps txt (w / 2) (h / 2) fnt r g b 4
              else glow_ops = [])).
  { destruct (StyleConfig.glow s).
    - destruct (draw_glow_channels _ _ _ _ _ _ 4 _ ltac:(lia) H5)
        as (r & g & b & rest & Hc).
      rewrite (draw_glow_stamps _ _ _ _ _ _ _ r g b rest Hc) in H5.
      apply Ok_inj in H5. subst im5. eexists. split; [reflexivity|].
      exists r, g, b, rest. split; [congruence | reflexivity].
    - injection H5 as <-. exists []. split; reflexivity. }
  destruct G as (glow_ops & -> & Hg).
  assert (L : exists label_ops,
             im6 = draw_all
                     (Draw (draw_all
                              (draw_all (Image_new "RGBA" (w, h) (bg ++ [255]))
                                 pre) glow_ops)
                        (text (Int (w / 2), Int (h / 2)) txt fnt tc "mm"))
                     label_ops /\
             (if StyleConfig.show_labels s
              then exists lc,
                  hex_to_rgb (StyleConfig.label_color s) = Ok lc /\
                  label_ops
                  = [text (Int (w / 2 - (b2 - b0) / 2
                                + text_width E fnt hh / 2),
                           Int (h / 2 + (b3 - b1) / 2 + 30)) "HOURS"
                       (get_label_font_at_size E (StyleConfig.font_size s / 6))
                       lc "mt";
                     text (Int (w / 2 - (b2 - b0) / 2 + text_width E fnt hh
                                + text_width E fnt sep
                                + text_width E fnt mm / 2),
                           Int (h / 2 + (b3 - b1) / 2 + 30)) "MINUTES"
                       (get_label_font_at_size E (StyleConfig.font_size s / 6))
                       lc "mt";
                     text (Int (w / 2 - (b2 - b0) / 2 + text_width E fnt hh
                                + text_width E fnt sep + text_width E fnt mm
                                + text_width E fnt sep
                                + text_width E fnt hh / 2),
                           Int (h / 2 + (b3 - b1) / 2 + 30)) "SECONDS"
                       (get_label_font_at_size E (StyleConfig.font_size s / 6))
                       lc "mt"]
              else label_ops = [])).
  { destruct (StyleConfig.show_labels s).
    - destruct (draw_labels_calls _ _ _ _ _ _ _ _ _ _ H6) as (lc & Hlc & ->).
      eexists. split; [reflexivity|]. exists lc. split; [exact Hlc|].
      reflexivity.
    - injection H6 as <-. exists []. split; reflexivity. }
  destruct L as (label_ops & -> & Hl).
  exists bg, tc, pre, glow_ops, label_ops, bar_ops.
  split; [exact Hbg|]. split; [exact Htc|]. split.
  { f_equal. rewrite !draw_all_app. reflexivity. }
  split; [exact Fpre|]. split; [exact Fbar|]. split; [exact Hg|].
  exact Hl.
Qed.

(** ** The calls of a circular frame *)

Lemma render_circle_frame_body_calls s hh mm ss ratio im :
  render_circle_frame_body E s hh mm ss ratio = Ok im ->
  let w := CircleTimerConfig.width s in
  let h := CircleTimerConfig.height s in
  let cx := w / 2 in
  let cy := h / 2 in
  let radius := dial_radius s in
  let txt := hh +++ ":" +++ mm +++ ":" +++ ss in
  let fnt := get_font_at_size E (CircleTimerConfig.font_size s) in
  exists bg base wedge_rgb ring_rgb tick_rgb tc
         tick_ops number_ops dot_ops glow_ops,
    hex_to_rgb (CircleTimerConfig.bg_color s) = Ok bg /\
    adds (fun op => is_text op = false /\ is_tick op = false)
      (Image_new "RGBA" (w, h) (bg ++ [255])) base /\
    hex_to_rgb (CircleTimerConfig.wedge_color s) = Ok wedge_rgb /\
    hex_to_rgb (CircleTimerConfig.ring_color s) = Ok ring_rgb /\
    hex_to_rgb (CircleTimerConfig.tick_color s) = Ok tick_rgb /\
    hex_to_rgb (CircleTimerConfig.text_color s) = Ok tc /\
    im = convert
           (draw_all
              (if Float.gt0 ratio
               then alpha_composite base (spec_wedge_layer s ratio wedge_rgb)
               else base)
              ([ellipse [cx - radius; cy - radius; cx + radius; cy + radius]
                  None (Some ring_rgb)
                  (Some (CircleTimerConfig.ring_width s))]
               ++ tick_ops ++ number_ops ++ dot_ops ++ glow_ops
               ++ [text (Int cx, Int cy) txt fnt tc "mm"]))
           "RGB" /\
    (if CircleTimerConfig.show_ticks s
     then Forall2 (is_tick_call E s tick_rgb)
            (filter (fun i => 0 <? tick_len s i) (range 0 60)) tick_ops
     else tick_ops = []) /\
    (if CircleTimerConfig.show_hour_numbers s
     then exists num_rgb,
            hex_to_rgb (CircleTimerConfig.hour_number_color s) = Ok num_rgb /\
            Forall2 (is_hour_number_call E s num_rgb) (range 0 12) number_ops
     else number_ops = []) /\
    (if CircleTimerConfig.center_dot s
     then exists dot_rgb,
            hex_to_rgb (CircleTimerConfig.center_dot_color s) = Ok dot_rgb /\
            dot_ops = [ellipse [cx - 8; cy - 8; cx + 8; cy + 8]
                         (Some dot_rgb) None None]
     else dot_ops = []) /\
    (if CircleTimerConfig.glow s
     then exists r g b rest,
            tc = r :: g :: b :: rest /\
            glow_ops = glow_stamps txt cx cy fnt r g b 3
     else glow_ops = []).
Proof.
  intros H w h cx cy radius txt fnt. unfold render_circle_frame_body in H.
  fold w h in H. fold cx cy in H. fold (dial_radius s) in H.
  fold radius in H. fold txt in H. fold fnt in H.
  apply bind_Ok_inv in H. destruct H as (bg & Hbg & H).
  apply bind_Ok_inv in H. destruct H as (base & H1 & H).
  apply bind_Ok_inv in H. destruct H as (wedge_rgb & Hw & H).
  apply bind_Ok_inv in H. destruct H as (ring_rgb & Hr & H).
  apply bind_Ok_inv in H. destruct H as (tick_rgb & Ht & H).
  apply bind_Ok_inv in H. destruct H as (im3 & H3 & H).
  apply bind_Ok_inv in H. destruct H as (im4 & H4 & H).
  apply bind_Ok_inv in H. destruct H as (im5 & H5 & H).
  apply bind_Ok_inv in H. destruct H as (im6 & H6 & H).
  apply bind_Ok_inv in H. destruct H as (tc & Htc & H).
  injection H as <-.
  pose (im0 := if Float.gt0 ratio
               then alpha_composite base (spec_wedge_layer s ratio wedge_rgb)
               else base).
  pose (ring := ellipse [cx - radius; cy - radius; cx + radius; cy + radius]
                  None (Some ring_rgb)
                  (Some (CircleTimerConfig.ring_width s))).
  assert (H3' : (if CircleTimerConfig.show_ticks s
                 then draw_ticks E (Draw im0 ring) s cx cy radius tick_rgb
                 else Ok (Draw im0 ring)) = Ok im3) by exact H3.
  clear H3. rename H3' into H3.
  assert (T : exists tick_ops,
             im3 = draw_all (Draw im0 ring) tick_ops /\
             (if CircleTimerConfig.show_ticks s
              then Forall2 (is_tick_call E s tick_rgb)
                     (filter (fun i => 0 <? tick_len s i) (range 0 60)) tick_ops
              else tick_ops = [])).
  { destruct (CircleTimerConfig.show_ticks s).
    - apply draw_ticks_calls in H3. exact H3.
    - injection H3 as <-. exists []. split; reflexivity. }
  destruct T as (tick_ops & -> & Ft).
  assert (N : exists number_ops,
             im4 = draw_all (draw_all (Draw im0 ring) tick_ops) number_ops /\
             (if CircleTimerConfig.show_hour_numbers s
              then exists num_rgb,
                  hex_to_rgb (CircleTimerConfig.hour_number_color s)
                  = Ok num_rgb /\
                  Forall2 (is_hour_number_call E s num_rgb) (range 0 12)
                    number_ops
              else number_ops = [])).
  { destruct (CircleTimerConfig.show_hour_numbers s).
    - apply draw_hour_numbers_calls in H4.
      destruct H4 as (num_rgb & ops & Hn & -> & F).
      exists ops. split; [reflexivity|]. exists num_rgb. auto.
    - injection H4 as <-. exists []. split; reflexivity. }
  destruct N as (number_ops & -> & Fn).
  assert (D : exists dot_ops,
             im5 = draw_all
                     (draw_all (draw_all (Draw im0 ring) tick_ops) number_ops)
                     dot_ops /\
             (if CircleTimerConfig.center_dot s
              then exists dot_rgb,
                  hex_to_rgb (CircleTimerConfig.center_dot_color s)
                  = Ok dot_rgb /\
                  dot_ops = [ellipse [cx - 8; cy - 8; cx + 8; cy + 8]
                               (Some dot_rgb) None None]
              else dot_ops = [])).
  { destruct (CircleTimerConfig.center_dot s).
    - apply bind_Ok_inv in H5. destruct H5 as (dot_rgb & Hd & H5).
      apply Ok_inj in H5. subst im5.
      exists [ellipse [cx - 8; cy - 8; cx + 8; cy + 8] (Some dot_rgb) None None].
      split; [reflexivity|]. exists dot_rgb. auto.
    - injection H5 as <-. exists []. split; reflexivity. }
  destruct D as (dot_ops & -> & Fd).
  assert (G : exists glow_ops,
             im6 = draw_all
                     (draw_all
                        (draw_all (draw_all (Draw im0 ring) tick_ops)
                           number_ops) dot_ops) glow_ops /\
             (if CircleTimerConfig.glow s
              then exists r g b rest,
                     tc = r :: g :: b :: rest /\
                     glow_ops = glow_stamps txt cx cy fnt r g b 3
              else glow_ops = [])).
  { destruct (CircleTimerConfig.glow s).
    - destruct (draw_glow_channels _ _ _ _ _ _ 3 _ ltac:(lia) H6)
        as (r & g & b & rest & Hc).
      rewrite (draw_glow_stamps _ _ _ _ _ _ _ r g b rest Hc) in H6.
      apply Ok_inj in H6. subst im6. eexists. split; [reflexivity|].
      exists r, g, b, rest. split; [congruence | reflexivity].
    - injection H6 as <-. exists []. split; reflexivity. }
  destruct G as (glow_ops & -> & Fg).
  exists bg, base, wedge_rgb, ring_rgb, tick_rgb, tc,
         tick_ops, number_ops, dot_ops, glow_ops.
  split; [exact Hbg|]. split.
  { eapply gradient_background_adds; [|exact H1]. intros; split; reflexivity. }
  split; [exact Hw|]. split; [exact Hr|]. split; [exact Ht|].
  split; [exact Htc|]. split.
  { f_equal. rewrite !draw_all_app. reflexivity. }
  auto.
Qed.

End CallFacts.

(* ------------------------------------------------------------------ *)
(** * What a frame holds                                                *)
(* ------------------------------------------------------------------ *)

Section FrameFacts.

Variable E : Env.

Lemma filter_all {A : Type} (f : A -> bool) l :
  Forall (fun x => f x = true) l -> filter f l = l.
Proof.
  induction 1 as [|x l H _ IH]; [reflexivity|].
  simpl. now rewrite H, IH.
Qed.

Lemma Forall2_right {A B : Type} (R : A -> B -> Prop) (P : B -> Prop) xs ys :
  (forall x y, R x y -> P y) -> Forall2 R xs ys -> Forall P ys.
Proof. intros H F. induction F; constructor; eauto. Qed.

Lemma Forall2_length_eq {A B : Type} (R : A -> B -> Prop) xs ys :
  Forall2 R xs ys -> List.length ys = List.length xs.
Proof. intros F. induction F; simpl; congruence. Qed.

Lemma glow_stamps_text txt x y fnt r g b layers :
  Forall (fun op => exists xy fill, op = text xy txt fnt fill "mm")
         (glow_stamps txt x y fnt r g b layers).
Proof.
  unfold glow_stamps. apply Forall_forall. intros op H.
  apply in_flat_map in H. destruct H as (i & _ & H).
  apply in_map_iff in H. destruct H as (d & <- & _). eauto.
Qed.

Lemma op_texts_same txt fnt ops :
  Forall (fun op => exists xy fill, op = text xy txt fnt fill "mm") ops ->
  op_texts ops = repeat txt (List.length ops).
Proof.
  induction 1 as [|op ops (xy & fill & ->) _ IH]; [reflexivity|].
  unfold op_texts in *. simpl. now rewrite IH.
Qed.

Lemma op_texts_text xy txt fnt fill anchor :
  op_texts [text xy txt fnt fill anchor] = [txt].
Proof. reflexivity. Qed.

Lemma glow_stamps_count txt x y fnt r g b :
  List.length (glow_stamps txt x y fnt r g b 4) = 372%nat /\
  List.length (glow_stamps txt x y fnt r g b 3) = 175%nat.
Proof. split; vm_compute; reflexivity. Qed.

Lemma hour_number_texts_of num_rgb s ops :
  Forall2 (is_hour_number_call E s num_rgb) (range 0 12) ops ->
  op_texts ops
  = ["0"; "2"; "4"; "6"; "8"; "10"; "12"; "14"; "16"; "18"; "20"; "22"].
Proof.
  intros F.
  assert (G : forall xs ops,
             Forall2 (is_hour_number_call E s num_rgb) xs ops ->
             op_texts ops = map (fun i => str (i * 2)) xs).
  { clear. intros xs ops F. induction F as [|i op xs ops R _ IH]; [reflexivity|].
    destruct R as (angle & pos & _ & _ & ->).
    unfold op_texts in *. simpl. now rewrite IH. }
  rewrite (G _ _ F). vm_compute. reflexivity.
Qed.

Lemma is_tick_call_tick s rgb i op : is_tick_call E s rgb i op -> is_tick op = true.
Proof. intros (a & inner & outer & _ & _ & _ & ->). reflexivity. Qed.

Lemma is_tick_call_plain s rgb i op : is_tick_call E s rgb i op -> is_text op = false.
Proof. intros (a & inner & outer & _ & _ & _ & ->). reflexivity. Qed.

Lemma is_hour_number_call_text s rgb i op :
  is_hour_number_call E s rgb i op -> is_text op = true /\ is_tick op = false.
Proof. intros (a & pos & _ & _ & ->). split; reflexivity. Qed.

Lemma glow_stamps_kind txt x y fnt r g b layers :
  Forall (fun op => is_text op = true /\ is_tick op = false)
         (glow_stamps txt x y fnt r g b layers).
Proof.
  eapply Forall_impl; [|apply glow_stamps_text].
  intros op (xy & fill & ->). split; reflexivity.
Qed.

(** The ticks drawn, by the two lengths. *)
Lemma tick_filter_length s :
  List.length (filter (fun i => 0 <? tick_len s i) (range 0 60))
  = ((if (0 <? CircleTimerConfig.tick_major_len s)%Z then 12 else 0)
     + (if (0 <? CircleTimerConfig.tick_minor_len s)%Z then 48 else 0))%nat.
Proof.
  rewrite (filter_ext _
             (fun i => if i mod 5 =? 0
                       then 0 <? CircleTimerConfig.tick_major_len s
                       else 0 <? CircleTimerConfig.tick_minor_len s)).
  - destruct (0 <? CircleTimerConfig.tick_major_len s),
             (0 <? CircleTimerConfig.tick_minor_len s);
      vm_compute; reflexivity.
  - intros i. unfold tick_len. destruct (i mod 5 =? 0); reflexivity.
Qed.

End FrameFacts.

(** X11. Every frame a renderer returns is an RGB image of the style's
    width and height, drawn over an [Image.new("RGBA", ...)] canvas of
    that size filled with the style's background colour at alpha 255.  A
    digital frame involves no compositing; on a circular frame every
    [Image.alpha_composite] is between two RGBA images of equal size, as
    Pillow requires. *)
Theorem frame_geometry E s second total_duration img :
  render_result E s second total_duration = Ok img ->
  image_size img = (style_width s, style_height s) /\
  image_mode img = "RGB" /\
  (exists bg,
     hex_to_rgb (style_bg_color s) = Ok bg /\
     canvas img
     = Image_new "RGBA" (style_width s, style_height s) (bg ++ [255])) /\
  Forall (fun ab =>
            image_size (fst ab) = image_size (snd ab) /\
            image_mode (fst ab) = "RGBA" /\ image_mode (snd ab) = "RGBA")
         (composites img) /\
  (is_circle s = false -> composites img = []).
Proof.
  destruct s as [d|c]; cbn [render_result style_width style_height
                              style_bg_color is_circle].
  - unfold render_frame. destruct (format_time second) as [[hh mm] ss].
    intros H. apply bind_Ok_inv in H. destruct H as (p & _ & H).
    destruct (render_frame_body_calls E d hh mm ss p img H)
      as (bg & tc & pre & gl & lb & bar & Hbg & _ & -> & _).
    cbn [image_size image_mode canvas composites].
    rewrite image_size_draw_all, canvas_draw_all, composites_draw_all.
    cbn [image_size canvas composites].
    split; [reflexivity|]. split; [reflexivity|].
    split; [exists bg; auto|]. split; [constructor | reflexivity].
  - unfold render_circle_frame. destruct (format_time second) as [[hh mm] ss].
    intros H. apply bind_Ok_inv in H. destruct H as (ratio & _ & H).
    destruct (render_circle_frame_body_calls E c hh mm ss ratio img H)
      as (bg & base & wrgb & rrgb & trgb & tc & tk & nb & dt & gl
          & Hbg & (gops & -> & _) & _ & _ & _ & _ & -> & _).
    cbn [image_size image_mode canvas composites].
    rewrite image_size_draw_all, canvas_draw_all, composites_draw_all.
    split; [|split; [reflexivity|split; [|split; [|discriminate]]]].
    + destruct (Float.gt0 ratio); cbn [image_size];
        now rewrite image_size_draw_all.
    + exists bg. split; [exact Hbg|].
      destruct (Float.gt0 ratio); cbn [canvas]; now rewrite canvas_draw_all.
    + destruct (Float.gt0 ratio); cbn [composites];
        rewrite composites_draw_all; cbn [composites app];
        [|constructor].
      repeat constructor; cbn [fst snd];
        rewrite ?image_size_draw_all, ?image_mode_draw_all; reflexivity.
Qed.

(** The statement on the preview frame of [circle-modern] on the example
    platform. *)
Lemma frame_geometry_witness :
  exists s img,
    dict_get ALL_STYLES "circle-modern" = Some s /\
    render_result sample_env s 45296 86400 = Ok img /\
    image_size img = (1080, 1080) /\ image_mode img = "RGB" /\
    List.length (composites img) = 1%nat.
Proof.
  destruct (dict_get ALL_STYLES "circle-modern") as [s|] eqn:D;
    [|vm_compute in D; discriminate].
  pose proof (render_result_ok sample_env s 86400 (ALL_STYLES_ok _ _ D) 45296
                ltac:(lia)) as R.
  exists s, (frame_image sample_env s 45296 86400).
  split; [reflexivity|]. split; [exact R|].
  destruct (frame_geometry sample_env s 45296 86400 _ R) as (S & M & _).
  vm_compute in D. injection D as <-.
  split; [exact S|]. split; [exact M|]. vm_compute. reflexivity.
Defined.

(** X12. The strings on a frame, in drawing order: on a circular frame
    with hour numbers first the twelve numerals 0, 2, ..., 22; then the
    copies of the time string the glow stamps (372 on a digital frame
    with glow, 175 on a circular one, none without glow); then the time
    string itself; and on a digital frame with labels last HOURS,
    MINUTES, SECONDS.  A frame shows no other string, and no time but
    the one it was asked for. *)
Theorem frame_texts E s second total_duration img :
  render_result E s second total_duration = Ok img ->
  texts img
  = hour_number_texts s
    ++ repeat (time_text s second) (glow_count s)
    ++ [time_text s second]
    ++ label_texts s.
Proof.
  destruct s as [d|c]; cbn [render_result hour_number_texts label_texts];
    unfold time_text, glow_count; cbn [style_glow].
  - unfold render_frame. destruct (format_time second) as [[hh mm] ss].
    intros H. apply bind_Ok_inv in H. destruct H as (p & _ & H).
    destruct (render_frame_body_calls E d hh mm ss p img H)
      as (bg & tc & pre & gl & lb & bar & _ & _ & -> & Fpre & Fbar & Hg & Hl).
    cbn [texts]. rewrite texts_draw_all. cbn [texts].
    rewrite !op_texts_app, (op_texts_plain pre Fpre), (op_texts_plain bar Fbar).
    rewrite op_texts_text, app_nil_r. cbn [app]. f_equal; [|f_equal].
    + destruct (StyleConfig.glow d).
      * destruct Hg as (r & g & b & rest & _ & ->).
        rewrite (op_texts_same _ _ _ (glow_stamps_text _ _ _ _ _ _ _ _)).
        now rewrite (proj1 (glow_stamps_count _ _ _ _ _ _ _)).
      * subst gl. reflexivity.
    + destruct (StyleConfig.show_labels d).
      * destruct Hl as (lc & _ & ->). reflexivity.
      * subst lb. reflexivity.
  - unfold render_circle_frame. destruct (format_time second) as [[hh mm] ss].
    intros H. apply bind_Ok_inv in H. destruct H as (ratio & _ & H).
    destruct (render_circle_frame_body_calls E c hh mm ss ratio img H)
      as (bg & base & wrgb & rrgb & trgb & tc & tk & nb & dt & gl
          & _ & (gops & -> & Fg) & _ & _ & _ & _ & -> & Ft & Fn & Fd & Hg).
    cbn [texts]. rewrite texts_draw_all.
    assert (T0 : texts (if Float.gt0 ratio
                        then alpha_composite
                               (draw_all
                                  (Image_new "RGBA"
                                     (CircleTimerConfig.width c,
                                      CircleTimerConfig.height c)
                                     (bg ++ [255])) gops)
                               (spec_wedge_layer c ratio wrgb)
                        else draw_all
                               (Image_new "RGBA"
                                  (CircleTimerConfig.width c,
                                   CircleTimerConfig.height c)
                                  (bg ++ [255])) gops) = []).
    { assert (P : op_texts gops = []).
      { apply op_texts_plain. eapply Forall_impl; [|exact Fg].
        intros op [X _]. exact X. }
      destruct (Float.gt0 ratio); cbn [texts];
        rewrite texts_draw_all, P; reflexivity. }
    rewrite T0. rewrite !op_texts_app.
    assert (Tk : op_texts tk = []).
    { apply op_texts_plain. destruct (CircleTimerConfig.show_ticks c).
      - eapply Forall2_right; [|exact Ft]. intros i op.
        apply is_tick_call_plain.
      - subst tk. constructor. }
    assert (Td : op_texts dt = []).
    { destruct (CircleTimerConfig.center_dot c).
      - destruct Fd as (rgb & _ & ->). reflexivity.
      - subst dt. reflexivity. }
    rewrite Tk, Td, op_texts_text.
    change (op_texts [ellipse ?a ?b ?c ?d]) with (@nil string).
    cbn [app]. f_equal; [|f_equal].
    + destruct (CircleTimerConfig.show_hour_numbers c).
      * destruct Fn as (rgb & _ & F). exact (hour_number_texts_of E rgb c nb F).
      * subst nb. reflexivity.
    + destruct (CircleTimerConfig.glow c).
      * destruct Hg as (r & g & b & rest & _ & ->).
        rewrite (op_texts_same _ _ _ (glow_stamps_text _ _ _ _ _ _ _ _)).
        now rewrite (proj2 (glow_stamps_count _ _ _ _ _ _ _)).
      * subst gl. reflexivity.
Qed.

(** The statement on the preview frame of [minimal], which has labels
    and no glow. *)
Lemma frame_texts_witness :
  exists s img,
    dict_get ALL_STYLES "minimal" = Some s /\
    render_result sample_env s 45296 86400 = Ok img /\
    texts img = ["12:34:56"; "HOURS"; "MINUTES"; "SECONDS"].
Proof.
  destruct (dict_get ALL_STYLES "minimal") as [s|] eqn:D;
    [|vm_compute in D; discriminate].
  pose proof (render_result_ok sample_env s 86400 (ALL_STYLES_ok _ _ D) 45296
                ltac:(lia)) as R.
  exists s, (frame_image sample_env s 45296 86400).
  split; [reflexivity|]. split; [exact R|].
  rewrite (frame_texts sample_env s 45296 86400 _ R).
  vm_compute in D. injection D as <-. vm_compute. reflexivity.
Defined.

Section TextCallFacts.

Variable E : Env.

Lemma glow_part_texts (flag : bool) tc glow_ops txt x y fnt layers :
  (if flag
   then exists r g b rest,
          tc = r :: g :: b :: rest /\
          glow_ops = glow_stamps txt x y fnt r g b layers
   else glow_ops = []) ->
  Forall (fun op => is_text op = true /\ is_tick op = false) glow_ops.
Proof.
  destruct flag.
  - intros (r & g & b & rest & _ & ->). apply glow_stamps_kind.
  - intros ->. constructor.
Qed.

Lemma filter_text_kind ops :
  Forall (fun op => is_text op = true /\ is_tick op = false) ops ->
  filter is_text ops = ops /\ filter is_tick ops = [].
Proof.
  intros F. split.
  - apply filter_all. eapply Forall_impl; [|exact F]. now intros op [].
  - apply filter_plain. eapply Forall_impl; [|exact F]. now intros op [].
Qed.

End TextCallFacts.

(** X13. The text calls of a digital frame, in order: the glow stamps
    (four layers, when the style has glow); the time string at the centre
    of the canvas in the style font and text colour, anchored at its
    middle; and, when the style shows labels, HOURS, MINUTES and SECONDS
    in the label font at height [cy + text_h // 2 + 30], anchored at
    their top middle: HOURS under the centre of the hours digits, MINUTES
    under the centre of the minutes digits, SECONDS at
    [start_x + hh_w + sep_w + mm_w + sep_w + hh_w // 2], which is the
    centre of the seconds digits whenever the hours and the seconds
    strings measure the same half width. *)
Theorem render_frame_text_calls E s remaining total img :
  render_frame E s remaining total = Ok img ->
  let '(hh, mm, ss) := format_time remaining in
  let w := StyleConfig.width s in
  let h := StyleConfig.height s in
  let sep := StyleConfig.separator s in
  let txt := hh +++ sep +++ mm +++ sep +++ ss in
  let fnt := get_font E s in
  let hh_w := text_width E fnt hh in
  let sep_w := text_width E fnt sep in
  let mm_w := text_width E fnt mm in
  let start_x := w / 2 - text_width E fnt txt / 2 in
  let label_y := h / 2 + text_height E fnt txt / 2 + 30 in
  let label_font := get_label_font E s in
  exists tc glow_ops label_ops,
    hex_to_rgb (StyleConfig.text_color s) = Ok tc /\
    text_calls img
    = glow_ops ++ [text (Int (w / 2), Int (h / 2)) txt fnt tc "mm"]
      ++ label_ops /\
    (if StyleConfig.glow s
     then exists r g b rest,
            tc = r :: g :: b :: rest /\
            glow_ops = glow_stamps txt (w / 2) (h / 2) fnt r g b 4
     else glow_ops = []) /\
    (if StyleConfig.show_labels s
     then exists lc,
            hex_to_rgb (StyleConfig.label_color s) = Ok lc /\
            label_ops
            = [text (Int (start_x + hh_w / 2), Int label_y) "HOURS"
                 label_font lc "mt";
               text (Int (start_x + hh_w + sep_w + mm_w / 2), Int label_y)
                 "MINUTES" label_font lc "mt";
               text (Int (start_x + hh_w + sep_w + mm_w + sep_w + hh_w / 2),
                     Int label_y)
                 "SECONDS" label_font lc "mt"]
     else label_ops = []) /\
    (text_width E fnt hh / 2 = text_width E fnt ss / 2 ->
     (start_x + hh_w / 2, start_x + hh_w + sep_w + mm_w / 2,
      start_x + hh_w + sep_w + mm_w + sep_w + hh_w / 2)
     = spec_label_centers E fnt hh sep mm ss start_x).
Proof.
  unfold render_frame. destruct (format_time remaining) as [[hh mm] ss].
  intros H. apply bind_Ok_inv in H. destruct H as (p & _ & H).
  destruct (render_frame_body_calls E s hh mm ss p img H)
    as (bg & tc & pre & gl & lb & bar & _ & Htc & -> & Fpre & Fbar & Hg & Hl).
  cbn zeta. exists tc, gl, lb.
  split; [exact Htc|]. split; [|split; [exact Hg|split; [exact Hl|]]].
  - unfold text_calls. cbn [drawn]. rewrite drawn_draw_all. cbn [drawn].
    rewrite app_nil_l.
    rewrite !filter_app, (filter_plain is_text pre Fpre),
      (filter_plain is_text bar Fbar), app_nil_r.
    rewrite (proj1 (filter_text_kind gl (glow_part_texts _ _ _ _ _ _ _ _ Hg))).
    cbn [app filter is_text]. f_equal. f_equal.
    destruct (StyleConfig.show_labels s).
    + destruct Hl as (lc & _ & ->). reflexivity.
    + subst lb. reflexivity.
  - intros Hw. unfold spec_label_centers. rewrite Hw. reflexivity.
Qed.

(** The statement on the preview frame of [minimal] on the example
    platform, where hours and seconds are two digits each. *)
Lemma render_frame_text_calls_witness :
  exists s img,
    dict_get STYLES "minimal" = Some s /\
    render_frame sample_env s 45296 86400 = Ok img /\
    map (fun op => match op with
                   | text (x, _) txt _ _ _ => (txt, x)
                   | _ => ("", Int 0)
                   end)
        (text_calls img)
    = [("12:34:56", Int 960); ("HOURS", Int 492); ("MINUTES", Int 960);
       ("SECONDS", Int 1428)].
Proof.
  destruct (dict_get STYLES "minimal") as [s|] eqn:D;
    [|vm_compute in D; discriminate].
  assert (A : dict_get ALL_STYLES "minimal" = Some (Digital s)).
  { vm_compute in D. injection D as <-. reflexivity. }
  pose proof (render_result_ok sample_env (Digital s) 86400
                (ALL_STYLES_ok _ _ A) 45296 ltac:(lia)) as R.
  cbn [render_result] in R.
  exists s, (frame_image sample_env (Digital s) 45296 86400).
  split; [reflexivity|]. split; [exact R|].
  pose proof (render_frame_text_calls sample_env s 45296 86400 _ R) as T.
  change (format_time 45296) with ("12", "34", "56") in T. cbn zeta in T.
  destruct T as (tc & gl & lb & _ & -> & Hg & Hl & _).
  vm_compute in D. injection D as <-.
  cbn [StyleConfig.glow StyleConfig.show_labels] in Hg, Hl.
  subst gl. destruct Hl as (lc & _ & ->). vm_compute. reflexivity.
Defined.

(** X14. The tick marks of a circular frame are its only lines with an
    explicit width.  With [show_ticks] on there is one for each position
    [i] of [range(60)] whose length, [tick_major_len] when [i] is a
    multiple of 5 and [tick_minor_len] otherwise, is positive: a line in
    the tick colour between the points at angle [6 i - 90] degrees at
    distance [radius - ring_width - length] and [radius - ring_width]
    from the centre, 3 wide for a major tick and 1 wide for a minor one;
    positions with a length of zero or less are skipped, so there are 12
    major and 48 minor ticks at most.  With [show_ticks] off there is
    none. *)
Theorem render_circle_frame_ticks E s remaining total img :
  render_circle_frame E s remaining total = Ok img ->
  exists tick_rgb,
    hex_to_rgb (CircleTimerConfig.tick_color s) = Ok tick_rgb /\
    (if CircleTimerConfig.show_ticks s
     then Forall2 (is_tick_call E s tick_rgb)
            (filter (fun i => 0 <? tick_len s i) (range 0 60))
            (tick_calls img) /\
          List.length (tick_calls img)
          = ((if (0 <? CircleTimerConfig.tick_major_len s)%Z then 12 else 0)
             + (if (0 <? CircleTimerConfig.tick_minor_len s)%Z then 48 else 0)
            )%nat
     else tick_calls img = []).
Proof.
  unfold render_circle_frame. destruct (format_time remaining) as [[hh mm] ss].
  intros H. apply bind_Ok_inv in H. destruct H as (ratio & _ & H).
  destruct (render_circle_frame_body_calls E s hh mm ss ratio img H)
    as (bg & base & wrgb & rrgb & trgb & tc & tk & nb & dt & gl
        & _ & (gops & -> & Fg) & _ & _ & Ht & _ & -> & Ft & Fn & Fd & Hg).
  exists trgb. split; [exact Ht|].
  assert (T : tick_calls
                (convert
                   (draw_all
                      (if Float.gt0 ratio
                       then alpha_composite
                              (draw_all
                                 (Image_new "RGBA"
                                    (CircleTimerConfig.width s,
                                     CircleTimerConfig.height s)
                                    (bg ++ [255])) gops)
                              (spec_wedge_layer s ratio wrgb)
                       else draw_all
                              (Image_new "RGBA"
                                 (CircleTimerConfig.width s,
                                  CircleTimerConfig.height s)
                                 (bg ++ [255])) gops)
                      ([ellipse
                          [CircleTimerConfig.width s / 2 - dial_radius s;
                           CircleTimerConfig.height s / 2 - dial_radius s;
                           CircleTimerConfig.width s / 2 + dial_radius s;
                           CircleTimerConfig.height s / 2 + dial_radius s]
                          None (Some rrgb)
                          (Some (CircleTimerConfig.ring_width s))]
                       ++ tk ++ nb ++ dt ++ gl
                       ++ [text (Int (CircleTimerConfig.width s / 2),
                                 Int (CircleTimerConfig.height s / 2))
                             (hh +++ ":" +++ mm +++ ":" +++ ss)
                             (get_font_at_size E (CircleTimerConfig.font_size s))
                             tc "mm"]))
                   "RGB")
              = filter is_tick tk).
  { unfold tick_calls. cbn [drawn]. rewrite drawn_draw_all.
    assert (D0 : drawn (if Float.gt0 ratio
                        then alpha_composite
                               (draw_all
                                  (Image_new "RGBA"
                                     (CircleTimerConfig.width s,
                                      CircleTimerConfig.height s)
                                     (bg ++ [255])) gops)
                               (spec_wedge_layer s ratio wrgb)
                        else draw_all
                               (Image_new "RGBA"
                                  (CircleTimerConfig.width s,
                                   CircleTimerConfig.height s)
                                  (bg ++ [255])) gops) = gops).
    { destruct (Float.gt0 ratio); cbn [drawn]; now rewrite drawn_draw_all. }
    rewrite D0, !filter_app.
    rewrite (filter_plain is_tick gops)
      by (eapply Forall_impl; [|exact Fg]; now intros op []).
    assert (Nb : filter is_tick nb = []).
    { apply filter_plain. destruct (CircleTimerConfig.show_hour_numbers s).
      - destruct Fn as (rgb & _ & F). eapply Forall2_right; [|exact F].
        intros i op R. apply (is_hour_number_call_text E s rgb i op R).
      - subst nb. constructor. }
    assert (Dt : filter is_tick dt = []).
    { destruct (CircleTimerConfig.center_dot s).
      - destruct Fd as (rgb & _ & ->). reflexivity.
      - subst dt. reflexivity. }
    rewrite Nb, Dt.
    rewrite (proj2 (filter_text_kind gl (glow_part_texts _ _ _ _ _ _ _ _ Hg))).
    cbn [filter is_tick app]. now rewrite !app_nil_r. }
  rewrite T. destruct (CircleTimerConfig.show_ticks s).
  - assert (A : filter is_tick tk = tk).
    { apply filter_all. eapply Forall2_right; [|exact Ft].
      intros i op. apply is_tick_call_tick. }
    rewrite A. split; [exact Ft|].
    rewrite (Forall2_length_eq _ _ _ Ft). apply tick_filter_length.
  - subst tk. reflexivity.
Qed.

(** The statement on [circle-minimal], whose minor ticks have length 0,
    on the example platform: twelve ticks. *)
Lemma render_circle_frame_ticks_witness :
  exists s img,
    dict_get CIRCLE_STYLES "circle-minimal" = Some s /\
    CircleTimerConfig.tick_minor_len s = 0 /\
    render_circle_frame sample_env s 45296 86400 = Ok img /\
    List.length (tick_calls img) = 12%nat.
Proof.
  destruct (dict_get CIRCLE_STYLES "circle-minimal") as [s|] eqn:D;
    [|vm_compute in D; discriminate].
  assert (A : dict_get ALL_STYLES "circle-minimal" = Some (Circle s)).
  { vm_compute in D. injection D as <-. reflexivity. }
  pose proof (render_result_ok sample_env (Circle s) 86400
                (ALL_STYLES_ok _ _ A) 45296 ltac:(lia)) as R.
  cbn [render_result] in R.
  exists s, (frame_image sample_env (Circle s) 45296 86400).
  split; [reflexivity|].
  destruct (render_circle_frame_ticks sample_env s 45296 86400 _ R)
    as (rgb & _ & T).
  vm_compute in D. injection D as <-.
  split; [reflexivity|]. split; [exact R|].
  cbn [CircleTimerConfig.show_ticks CircleTimerConfig.tick_major_len
       CircleTimerConfig.tick_minor_len] in T.
  destruct T as [_ L]. rewrite L. reflexivity.
Defined.

(** X15. The text calls of a circular frame, in order: with
    [show_hour_numbers] on, twelve numerals, the [i]-th being [2 i] at
    angle [30 i - 90] degrees and distance
    [radius - ring_width - max(tick_major_len, tick_minor_len) - 30]
    from the centre, in the label font at a third of the font size; then
    the glow stamps (three layers, when the style has glow); then the
    time string [HH:MM:SS] at the centre, which is the last drawing call
    of the frame, over the wedge, the ring, the ticks, the numbers and
    the centre dot. *)
Theorem render_circle_frame_text_calls E s remaining total img :
  render_circle_frame E s remaining total = Ok img ->
  let '(hh, mm, ss) := format_time remaining in
  let cx := CircleTimerConfig.width s / 2 in
  let cy := CircleTimerConfig.height s / 2 in
  let txt := hh +++ ":" +++ mm +++ ":" +++ ss in
  let fnt := get_font_at_size E (CircleTimerConfig.font_size s) in
  exists tc number_ops glow_ops before,
    hex_to_rgb (CircleTimerConfig.text_color s) = Ok tc /\
    text_calls img
    = number_ops ++ glow_ops ++ [text (Int cx, Int cy) txt fnt tc "mm"] /\
    drawn img = before ++ [text (Int cx, Int cy) txt fnt tc "mm"] /\
    (if CircleTimerConfig.show_hour_numbers s
     then exists num_rgb,
            hex_to_rgb (CircleTimerConfig.hour_number_color s) = Ok num_rgb /\
            Forall2 (is_hour_number_call E s num_rgb) (range 0 12) number_ops
     else number_ops = []) /\
    (if CircleTimerConfig.glow s
     then exists r g b rest,
            tc = r :: g :: b :: rest /\
            glow_ops = glow_stamps txt cx cy fnt r g b 3
     else glow_ops = []).
Proof.
  unfold render_circle_frame. destruct (format_time remaining) as [[hh mm] ss].
  intros H. apply bind_Ok_inv in H. destruct H as (ratio & _ & H).
  destruct (render_circle_frame_body_calls E s hh mm ss ratio img H)
    as (bg & base & wrgb & rrgb & trgb & tc & tk & nb & dt & gl
        & _ & (gops & -> & Fg) & _ & _ & _ & Htc & -> & Ft & Fn & Fd & Hg).
  cbn zeta. exists tc, nb, gl. eexists.
  split; [exact Htc|]. split; [|split; [|split; [exact Fn | exact Hg]]].
  - unfold text_calls. cbn [drawn]. rewrite drawn_draw_all.
    assert (D0 : filter is_text
                   (drawn (if Float.gt0 ratio
                           then alpha_composite
                                  (draw_all
                                     (Image_new "RGBA"
                                        (CircleTimerConfig.width s,
                                         CircleTimerConfig.height s)
                                        (bg ++ [255])) gops)
                                  (spec_wedge_layer s ratio wrgb)
                           else draw_all
                                  (Image_new "RGBA"
                                     (CircleTimerConfig.width s,
                                      CircleTimerConfig.height s)
                                     (bg ++ [255])) gops)) = []).
    { apply filter_plain.
      destruct (Float.gt0 ratio); cbn [drawn]; rewrite drawn_draw_all;
        cbn [drawn app]; (eapply Forall_impl; [|exact Fg]); now intros op []. }
    rewrite !filter_app, D0.
    assert (Tk : filter is_text tk = []).
    { apply filter_plain. destruct (CircleTimerConfig.show_ticks s).
      - eapply Forall2_right; [|exact Ft]. intros i op.
        apply is_tick_call_plain.
      - subst tk. constructor. }
    assert (Nb : filter is_text nb = nb).
    { apply filter_all. destruct (CircleTimerConfig.show_hour_numbers s).
      - destruct Fn as (rgb & _ & F). eapply Forall2_right; [|exact F].
        intros i op R. apply (is_hour_number_call_text E s rgb i op R).
      - subst nb. constructor. }
    assert (Dt : filter is_text dt = []).
    { destruct (CircleTimerConfig.center_dot s).
      - destruct Fd as (rgb & _ & ->). reflexivity.
      - subst dt. reflexivity. }
    rewrite Tk, Nb, Dt.
    rewrite (proj1 (filter_text_kind gl (glow_part_texts _ _ _ _ _ _ _ _ Hg))).
    reflexivity.
  - cbn [drawn]. rewrite drawn_draw_all, !app_assoc. reflexivity.
Qed.

(** The statement on [circle-classic], which shows hour numbers, on the
    example platform. *)
Lemma render_circle_frame_text_calls_witness :
  exists s img,
    dict_get CIRCLE_STYLES "circle-classic" = Some s /\
    render_circle_frame sample_env s 45296 86400 = Ok img /\
    texts img
    = ["0"; "2"; "4"; "6"; "8"; "10"; "12"; "14"; "16"; "18"; "20"; "22";
       "12:34:56"] /\
    exists before op, drawn img = before ++ [op] /\ is_text op = true.
Proof.
  destruct (dict_get CIRCLE_STYLES "circle-classic") as [s|] eqn:D;
    [|vm_compute in D; discriminate].
  assert (A : dict_get ALL_STYLES "circle-classic" = Some (Circle s)).
  { vm_compute in D. injection D as <-. reflexivity. }
  pose proof (render_result_ok sample_env (Circle s) 86400
                (ALL_STYLES_ok _ _ A) 45296 ltac:(lia)) as R.
  cbn [render_result] in R.
  exists s, (frame_image sample_env (Circle s) 45296 86400).
  split; [reflexivity|]. split; [exact R|].
  pose proof (render_circle_frame_text_calls sample_env s 45296 86400 _ R) as T.
  change (format_time 45296) with ("12", "34", "56") in T. cbn zeta in T.
  destruct T as (tc & nb & gl & before & _ & _ & Dr & _).
  split.
  - vm_compute in D. injection D as <-. vm_compute. reflexivity.
  - eexists _, _. split; [exact Dr | reflexivity].
Defined.

(* ------------------------------------------------------------------ *)
(** * Fields a renderer does not read                                   *)
(* ------------------------------------------------------------------ *)

Section IndependenceFacts.

Variable E : Env.

Lemma gradient_background_off im w h gc :
  gradient_background im w h false gc = Ok im.
Proof. unfold gradient_background. destruct gc; reflexivity. Qed.

Lemma render_frame_body_same a b hh mm ss p :
  same_look a b ->
  render_frame_body E a hh mm ss p = render_frame_body E b hh mm ss p.
Proof.
  destruct a as [an ad aw ah abg atc afs afn asep asl alc abo abc abw arb adb
                 agl apb apc agb agc acp acc amo].
  destruct b as [bn bd bw bh bbg btc bfs bfn bsep bsl blc bbo bbc bbw brb bdb
                 bgl bpb bpc bgb bgc bcp bcc bmo].
  unfold same_look. cbv beta iota delta [StyleConfig.name StyleConfig.description StyleConfig.width StyleConfig.height StyleConfig.bg_color StyleConfig.text_color StyleConfig.font_size StyleConfig.font_name StyleConfig.separator StyleConfig.show_labels StyleConfig.label_color StyleConfig.border StyleConfig.border_color StyleConfig.border_width StyleConfig.rounded_bg StyleConfig.digit_bg_color StyleConfig.glow StyleConfig.progress_bar StyleConfig.progress_color StyleConfig.gradient_bg StyleConfig.gradient_colors StyleConfig.circle_progress StyleConfig.circle_color StyleConfig.monospace].
  intros (<- & <- & <- & <- & <- & <- & <- & <- & <- & <- & <- & <- & <-
          & Hl & Hb & Hr & Hp & Hg & Hc).
  unfold render_frame_body, get_font, draw_labels, get_label_font,
    draw_progress_bar, gradient_background.
  cbv beta iota delta [StyleConfig.name StyleConfig.description StyleConfig.width StyleConfig.height StyleConfig.bg_color StyleConfig.text_color StyleConfig.font_size StyleConfig.font_name StyleConfig.separator StyleConfig.show_labels StyleConfig.label_color StyleConfig.border StyleConfig.border_color StyleConfig.border_width StyleConfig.rounded_bg StyleConfig.digit_bg_color StyleConfig.glow StyleConfig.progress_bar StyleConfig.progress_color StyleConfig.gradient_bg StyleConfig.gradient_colors StyleConfig.circle_progress StyleConfig.circle_color StyleConfig.monospace].
  repeat match goal with
         | H : ?f = true -> _ |- _ =>
             destruct f; [specialize (H eq_refl) | clear H]
         end;
    repeat match goal with H : _ /\ _ |- _ => destruct H end; subst;
    try reflexivity;
    try destruct agc; try destruct bgc; try reflexivity;
    try destruct adb; try destruct bdb; reflexivity.
Qed.

Lemma render_circle_frame_body_same a b hh mm ss ratio :
  same_dial a b ->
  render_circle_frame_body E a hh mm ss ratio
  = render_circle_frame_body E b hh mm ss ratio.
Proof.
  destruct a as [an ad aw ah abg atc afs awc awa arc arw atk ama ami ast ash
                 ahc acd acc agl agb agc].
  destruct b as [bn bd bw bh bbg btc bfs bwc bwa brc brw btk bma bmi bst bsh
                 bhc bcd bcc bgl bgb bgc].
  unfold same_dial. cbv beta iota delta [CircleTimerConfig.name CircleTimerConfig.description CircleTimerConfig.width CircleTimerConfig.height CircleTimerConfig.bg_color CircleTimerConfig.text_color CircleTimerConfig.font_size CircleTimerConfig.wedge_color CircleTimerConfig.wedge_alpha CircleTimerConfig.ring_color CircleTimerConfig.ring_width CircleTimerConfig.tick_color CircleTimerConfig.tick_major_len CircleTimerConfig.tick_minor_len CircleTimerConfig.show_ticks CircleTimerConfig.show_hour_numbers CircleTimerConfig.hour_number_color CircleTimerConfig.center_dot CircleTimerConfig.center_dot_color CircleTimerConfig.glow CircleTimerConfig.gradient_bg CircleTimerConfig.gradient_colors].
  intros (<- & <- & <- & <- & <- & <- & <- & <- & <- & <- & <- & <- & <- & <-
          & <- & Ht & Hh & Hd & Hg).
  unfold render_circle_frame_body, draw_ticks, draw_hour_numbers,
    draw_wedge, gradient_background.
  cbv beta iota delta [CircleTimerConfig.name CircleTimerConfig.description CircleTimerConfig.width CircleTimerConfig.height CircleTimerConfig.bg_color CircleTimerConfig.text_color CircleTimerConfig.font_size CircleTimerConfig.wedge_color CircleTimerConfig.wedge_alpha CircleTimerConfig.ring_color CircleTimerConfig.ring_width CircleTimerConfig.tick_color CircleTimerConfig.tick_major_len CircleTimerConfig.tick_minor_len CircleTimerConfig.show_ticks CircleTimerConfig.show_hour_numbers CircleTimerConfig.hour_number_color CircleTimerConfig.center_dot CircleTimerConfig.center_dot_color CircleTimerConfig.glow CircleTimerConfig.gradient_bg CircleTimerConfig.gradient_colors].
  repeat match goal with
         | H : ?f = true -> _ |- _ =>
             destruct f; [specialize (H eq_refl) | clear H]
         end;
    destruct ast;
    try (destruct (Ht (or_introl eq_refl)) as [<- <-]);
    try (destruct (Ht (or_intror eq_refl)) as [<- <-]);
    clear Ht; subst; try reflexivity;
    try destruct agc; try destruct bgc; reflexivity.
Qed.

End IndependenceFacts.

(** X16. [render_frame] reads neither [name], [description],
    [font_name] nor [monospace], and it reads the colour and width fields
    of a feature (labels, border, digit panel, progress bar, gradient,
    progress ring) only when the feature's flag is on: two styles that
    agree on all the other fields, and on these where the flag is on,
    give the same result for every time, span and platform, be it a
    frame or an exception.  In particular the font a style names is
    never loaded. *)
Theorem render_frame_same_look a b (H : same_look a b) :
  forall E remaining total,
    render_frame E a remaining total = render_frame E b remaining total.
Proof.
  intros E remaining total. unfold render_frame.
  destruct (format_time remaining) as [[hh mm] ss].
  destruct (progress_ratio remaining total) as [p|e]; [|reflexivity].
  cbn [Py.bind]. apply render_frame_body_same. exact H.
Qed.

(** The statement on the style [classic] against a copy with another
    name, a font name, and other colours for the features it has
    switched off. *)
Lemma render_frame_same_look_witness :
  exists a,
    let b :=
      {| StyleConfig.name := "copy";
         StyleConfig.description := "";
         StyleConfig.width := 1920;
         StyleConfig.height := 1080;
         StyleConfig.bg_color := CStr "#000000";
         StyleConfig.text_color := CStr "#ffffff";
         StyleConfig.font_size := 300;
         StyleConfig.font_name := Some "Helvetica";
         StyleConfig.separator := ":";
         StyleConfig.show_labels := false;
         StyleConfig.label_color := CStr "not a colour";
         StyleConfig.border := true;
         StyleConfig.border_color := CStr "#ffffff";
         StyleConfig.border_width := 4;
         StyleConfig.rounded_bg := false;
         StyleConfig.digit_bg_color := Some (CStr "#123456");
         StyleConfig.glow := false;
         StyleConfig.progress_bar := false;
         StyleConfig.progress_color := CStr "";
         StyleConfig.gradient_bg := false;
         StyleConfig.gradient_colors := Some [CStr "#ffffff"];
         StyleConfig.circle_progress := false;
         StyleConfig.circle_color := CTuple [];
         StyleConfig.monospace := false |} in
    dict_get STYLES "classic" = Some a /\
    same_look a b /\
    render_frame sample_env a 45296 86400
    = render_frame sample_env b 45296 86400.
Proof.
  destruct (dict_get STYLES "classic") as [a|] eqn:D;
    [|vm_compute in D; discriminate].
  exists a. cbn zeta. split; [reflexivity|].
  match goal with
  | |- same_look a ?b /\ _ =>
      assert (S : same_look a b)
        by (vm_compute in D; injection D as <-; unfold same_look; cbn;
            repeat split; try reflexivity; discriminate)
  end.
  split; [exact S|]. apply render_frame_same_look. exact S.
Defined.

(** X17. [render_circle_frame] reads neither [name] nor [description];
    it reads the hour number colour, the centre dot colour and the
    gradient colours only when their flag is on, and the two tick
    lengths only when ticks or hour numbers are shown.  The colours of
    wedge, ring and ticks, however, are resolved on every call: a frame
    is returned only if all three resolve, also when no wedge is drawn
    and ticks are off. *)
Theorem render_circle_frame_same_dial :
  (forall a b,
     same_dial a b ->
     forall E remaining total,
       render_circle_frame E a remaining total
       = render_circle_frame E b remaining total) /\
  (forall E s remaining total img,
     render_circle_frame E s remaining total = Ok img ->
     exists wedge_rgb ring_rgb tick_rgb,
       hex_to_rgb (CircleTimerConfig.wedge_color s) = Ok wedge_rgb /\
       hex_to_rgb (CircleTimerConfig.ring_color s) = Ok ring_rgb /\
       hex_to_rgb (CircleTimerConfig.tick_color s) = Ok tick_rgb).
Proof.
  split.
  - intros a b H E remaining total. unfold render_circle_frame.
    destruct (format_time remaining) as [[hh mm] ss].
    destruct (remaining_ratio remaining total) as [p|e]; [|reflexivity].
    cbn [Py.bind]. apply render_circle_frame_body_same. exact H.
  - intros E s remaining total im H. unfold render_circle_frame in H.
    destruct (format_time remaining) as [[hh mm] ss].
    apply bind_Ok_inv in H. destruct H as (ratio & _ & H).
    destruct (render_circle_frame_body_calls E s hh mm ss ratio im H)
      as (bg & base & wrgb & rrgb & trgb & tc & tk & nb & dt & gl
          & _ & _ & Hw & Hr & Ht & _).
    exists wrgb, rrgb, trgb. auto.
Qed.

(** The statement on the style [circle-minimal] against a copy with
    another name and other colours for the hour numbers and the centre
    dot, which it does not show. *)
Lemma render_circle_frame_same_dial_witness :
  exists a,
    let b :=
      {| CircleTimerConfig.name := "copy";
         CircleTimerConfig.description := "";
         CircleTimerConfig.width := 1080;
         CircleTimerConfig.height := 1080;
         CircleTimerConfig.bg_color := CStr "#ffffff";
         CircleTimerConfig.text_color := CStr "#333333";
         CircleTimerConfig.font_size := 80;
         CircleTimerConfig.wedge_color := CStr "#90caf9";
         CircleTimerConfig.wedge_alpha := 140;
         CircleTimerConfig.ring_color := CStr "#cccccc";
         CircleTimerConfig.ring_width := 2;
         CircleTimerConfig.tick_color := CStr "#cccccc";
         CircleTimerConfig.tick_major_len := 15;
         CircleTimerConfig.tick_minor_len := 0;
         CircleTimerConfig.show_ticks := true;
         CircleTimerConfig.show_hour_numbers := false;
         CircleTimerConfig.hour_number_color := CStr "not a colour";
         CircleTimerConfig.center_dot := false;
         CircleTimerConfig.center_dot_color := CTuple [];
         CircleTimerConfig.glow := false;
         CircleTimerConfig.gradient_bg := false;
         CircleTimerConfig.gradient_colors := Some [] |} in
    dict_get CIRCLE_STYLES "circle-minimal" = Some a /\
    same_dial a b /\
    render_circle_frame sample_env a 45296 86400
    = render_circle_frame sample_env b 45296 86400.
Proof.
  destruct (dict_get CIRCLE_STYLES "circle-minimal") as [a|] eqn:D;
    [|vm_compute in D; discriminate].
  exists a. cbn zeta. split; [reflexivity|].
  match goal with
  | |- same_dial a ?b /\ _ =>
      assert (S : same_dial a b)
        by (vm_compute in D; injection D as <-; unfold same_dial; cbn;
            repeat split; try reflexivity;
            try discriminate; intros [X|X]; discriminate)
  end.
  split; [exact S|]. apply (proj1 render_circle_frame_same_dial). exact S.
Defined.

(* ------------------------------------------------------------------ *)
(** * The events of a run, one by one                                   *)
(* ------------------------------------------------------------------ *)

Section EventFacts.

Variable E : Env.

Lemma run_bind_eq {A B : Type} (m : run A) (k : A -> run B) t a t' s' :
  m = (t, Returned a) -> k a = (t', s') -> Run.bind m k = (t ++ t', s').
Proof. intros -> K. unfold Run.bind. now rewrite K. Qed.

Lemma report_progress_run fps total_frames second n :
  (n mod (fps * 60) = 0 -> total_frames <> 0) ->
  report_progress fps total_frames second n
  = ((if n mod (fps * 60) =? 0
      then [Printed (progress_line fps total_frames second n)] else []),
     Returned tt).
Proof.
  intros H. unfold report_progress, progress_line.
  destruct (Z.eqb_spec (n mod (fps * 60)) 0) as [M|M]; [|reflexivity].
  destruct (format_time second) as [[hh mm] ss].
  destruct (Z.eqb_spec total_frames 0) as [T|T]; [exfalso; exact (H M T)|].
  reflexivity.
Qed.

Section Loop.

Variables (s : style) (frame_dir : string).
Variables (fps duration start_seconds : Z).
Hypothesis style_fine : any_style_ok s = true.

Lemma render_style_run second total :
  render_result E s second total = Py.Ok (frame_image E s second total) ->
  render_style E s second total
  = ([Rendered (is_circle s) second total],
     Returned (frame_image E s second total)).
Proof.
  intros R. unfold render_style, render_result in *.
  destruct s as [d|c]; rewrite R; reflexivity.
Qed.

Lemma sub_frame_body_run second j i cur :
  0 < fps -> 0 <= second <= start_seconds -> 0 <= j <= duration ->
  0 <= i < fps ->
  (i <> 0 -> cur = Some (frame_image E s second start_seconds)) ->
  sub_frame_body E s frame_dir fps (duration * fps) start_seconds second i
    {| frame_num := j * fps + i; img := cur |}
  = (frame_events E s frame_dir fps (duration * fps) start_seconds second
       (j * fps + i) i,
     Returned {| frame_num := j * fps + (i + 1);
                 img := Some (frame_image E s second start_seconds) |}).
Proof.
  intros Hf Hs Hj Hi Hc. unfold sub_frame_body, frame_events.
  cbn [frame_num img].
  set (im := frame_image E s second start_seconds) in *.
  assert (C : (if i =? 0
               then i0 <~ render_style E s second start_seconds ;;
                    Run.ret (Some i0)
               else Run.ret cur)
              = ((if i =? 0
                  then [Rendered (is_circle s) second start_seconds]
                  else []),
                 Returned (Some im))).
  { destruct (Z.eqb_spec i 0) as [-> | N].
    - rewrite (render_style_run second start_seconds
                 (render_result_ok E s start_seconds style_fine second Hs)).
      reflexivity.
    - rewrite (Hc N). reflexivity. }
  eapply run_bind_eq; [exact C|].
  cbn [Run.lift]. unfold Run.bind at 1. cbn [app].
  rewrite (report_progress_run fps (duration * fps) second (j * fps + i + 1))
    by (apply full_minute_total; assumption).
  unfold Run.emit, Run.bind, Run.ret. cbn [app].
  rewrite app_nil_r.
  replace (j * fps + i + 1) with (j * fps + (i + 1)) by lia.
  unfold frame_path. reflexivity.
Qed.

Lemma sub_frames_run second j :
  0 < fps -> 0 <= second <= start_seconds -> 0 <= j <= duration ->
  forall n i cur,
    n = Z.to_nat (fps - i) -> 0 <= i <= fps ->
    (i <> 0 -> cur = Some (frame_image E s second start_seconds)) ->
    exists cur',
      Run.for_each (Py.range i fps)
        (sub_frame_body E s frame_dir fps (duration * fps) start_seconds
           second)
        {| frame_num := j * fps + i; img := cur |}
      = (flat_map
           (fun i => frame_events E s frame_dir fps (duration * fps)
                       start_seconds second (j * fps + i) i)
           (Py.range i fps),
         Returned {| frame_num := j * fps + fps; img := cur' |}).
Proof.
  intros Hf Hs Hj n. induction n as [|n IH]; intros i cur Hn Hi Hc.
  - assert (i = fps) by lia. subst i.
    rewrite range_nil by lia. exists cur. reflexivity.
  - rewrite range_cons by lia. cbn [Run.for_each flat_map].
    destruct (IH (i + 1) (Some (frame_image E s second start_seconds)))
      as [cur' Y]; [lia | lia | reflexivity |].
    exists cur'.
    eapply run_bind_eq; [|exact Y].
    apply sub_frame_body_run; try assumption; lia.
Qed.

Lemma seconds_loop_run :
  0 < fps ->
  forall seconds j cur,
    (forall x, In x seconds -> 0 <= x <= start_seconds) ->
    0 <= j ->
    (seconds <> [] -> j + Z.of_nat (List.length seconds) <= duration + 1) ->
    exists cur',
      seconds_loop E s frame_dir fps (duration * fps) start_seconds seconds
        {| frame_num := j * fps; img := cur |}
      = (loop_events E s frame_dir fps (duration * fps) start_seconds j
           seconds,
         Returned {| frame_num := (j + Z.of_nat (List.length seconds)) * fps;
                     img := cur' |}).
Proof.
  intros Hf seconds. induction seconds as [|x rest IH]; intros j cur Hin Hj Hl.
  - exists cur. simpl. replace (j + 0) with j by lia. reflexivity.
  - cbn [seconds_loop loop_events].
    assert (Hx : 0 <= x <= start_seconds) by (apply Hin; now left).
    destruct (Z.ltb_spec x 0); [lia|].
    specialize (Hl ltac:(discriminate)). cbn [List.length] in Hl.
    destruct (sub_frames_run x j Hf Hx ltac:(lia) (Z.to_nat (fps - 0)) 0 cur
                eq_refl ltac:(lia) ltac:(congruence)) as [cur1 Y1].
    replace (j * fps + 0) with (j * fps) in Y1 by lia.
    replace (j * fps + fps) with ((j + 1) * fps) in Y1 by lia.
    destruct (IH (j + 1) cur1) as [cur' Y2];
      [intros y Hy; apply Hin; now right | lia | intros _; lia |].
    exists cur'.
    replace ((j + Z.of_nat (List.length (x :: rest))) * fps)
      with ((j + 1 + Z.of_nat (List.length rest)) * fps)
      by (cbn [List.length]; lia).
    eapply run_bind_eq; [exact Y1 | exact Y2].
Qed.

Lemma seconds_loop_idle total_frames :
  fps <= 0 ->
  forall seconds st,
    seconds_loop E s frame_dir fps total_frames start_seconds seconds st
    = ([], Returned st).
Proof.
  intros Hf seconds. induction seconds as [|x rest IH]; intros st.
  - reflexivity.
  - cbn [seconds_loop]. destruct (Z.ltb_spec x 0); [reflexivity|].
    rewrite range_nil by lia. cbn [Run.for_each].
    unfold Run.ret, Run.bind. rewrite IH. reflexivity.
Qed.

End Loop.

(** The events of a run on a catalog style. *)
Lemma generate_frames_run_events name s output_dir fps duration start_seconds :
  dict_get ALL_STYLES name = Some s ->
  let frame_dir := Py.path_join output_dir name in
  let seconds := countdown_seconds duration start_seconds in
  generate_frames E name output_dir fps duration start_seconds
  = ([Makedirs frame_dir;
      Printed ("Generating " +++ name +++ " countdown: "
               +++ Py.str (duration * fps) +++ " frames at "
               +++ Py.str fps +++ " fps");
      Printed ("  Resolution: " +++ Py.str (style_width s) +++ "x"
               +++ Py.str (style_height s));
      Printed ("  Output: " +++ frame_dir +++ "/");
      Printed ("  Duration: " +++ Py.str duration +++ "s ("
               +++ Py.str (duration / 3600) +++ "h "
               +++ Py.str ((duration mod 3600) / 60) +++ "m "
               +++ Py.str (duration mod 60) +++ "s)");
      Printed ""]
     ++ (if 0 <? fps
         then loop_events E s frame_dir fps (duration * fps) start_seconds 0
                seconds
         else [])
     ++ [Printed (Py.nl +++ "Done! "
                  +++ Py.str (if 0 <? fps
                              then Z.of_nat (List.length seconds) * fps
                              else 0)
                  +++ " frames saved to " +++ frame_dir +++ "/");
         Printed (Py.nl +++ "To create video with ffmpeg:");
         Printed ("  ffmpeg -framerate " +++ Py.str fps +++ " -i "
                  +++ frame_dir +++ "/frame_%08d.png " +++ backslash);
         Printed ("    -c:v libx264 -pix_fmt yuv420p -crf 18 countdown_"
                  +++ name +++ ".mp4")],
     Returned tt).
Proof.
  intros H frame_dir seconds. pose proof (ALL_STYLES_ok name s H) as Hok.
  unfold generate_frames. rewrite H.
  destruct (loop_range_split duration start_seconds) as (rest & -> & Hrest).
  rewrite seconds_loop_break;
    [|intros x Hx; apply countdown_seconds_in in Hx; lia | exact Hrest].
  fold frame_dir. fold seconds.
  assert (Y : exists cur,
             seconds_loop E s frame_dir fps (duration * fps) start_seconds
               seconds {| frame_num := 0; img := None |}
             = ((if 0 <? fps
                 then loop_events E s frame_dir fps (duration * fps)
                        start_seconds 0 seconds
                 else []),
                Returned
                  {| frame_num := if 0 <? fps
                                  then Z.of_nat (List.length seconds) * fps
                                  else 0;
                     img := cur |})).
  { destruct (Z.ltb_spec 0 fps) as [Hf|Hf].
    - destruct (seconds_loop_run s frame_dir fps duration start_seconds Hok
                  Hf seconds 0 None)
        as [cur' Y'].
      + intros x Hx. apply countdown_seconds_in in Hx. lia.
      + lia.
      + intros N. unfold seconds. rewrite countdown_seconds_length.
        destruct ((0 <=? duration) && (0 <=? start_seconds))%bool eqn:B.
        * apply andb_prop in B. lia.
        * exfalso. apply N. apply length_zero_iff_nil.
          apply Nat2Z.inj. unfold seconds.
          rewrite countdown_seconds_length, B. reflexivity.
      + exists cur'. exact Y'.
    - eexists. apply seconds_loop_idle. exact Hf. }
  destruct Y as (cur & ->).
  unfold Run.print, Run.emit, Run.bind. cbn [fst snd app frame_num].
  reflexivity.
Qed.







End EventFacts.

(* ------------------------------------------------------------------ *)
(** * Paths                                                             *)
(* ------------------------------------------------------------------ *)

Section PathFacts.

Lemma append_assoc (a b c : string) : (a +++ b) +++ c = a +++ b +++ c.
Proof. induction a as [|x a IH]; simpl; congruence. Qed.

Lemma append_inj_l (a x y : string) : a +++ x = a +++ y -> x = y.
Proof. induction a as [|c a IH]; simpl; intros H; [assumption|]. injection H. auto. Qed.

Lemma append_inj_r (s : string) : forall x y, x +++ s = y +++ s -> x = y.
Proof.
  assert (L : forall x y, String.length x = String.length y ->
                          x +++ s = y +++ s -> x = y).
  { induction x as [|c x IH]; destruct y as [|d y]; simpl; intros Hl H;
      try discriminate; [reflexivity|].
    injection H as -> H. f_equal. apply IH; [lia | exact H]. }
  intros x y H. apply L; [|exact H].
  apply (f_equal String.length) in H. rewrite !string_length_app in H. lia.
Qed.

(** Joining a directory and a relative name puts a fixed prefix before
    the name. *)
Lemma path_join_relative a :
  exists p, forall b, startswith b "/" = false -> path_join a b = p +++ b.
Proof.
  destruct (String.eqb a "" || endswith a "/")%bool eqn:C.
  - exists a. intros b Hb. unfold path_join. now rewrite Hb, C.
  - exists (a +++ "/"). intros b Hb. unfold path_join.
    rewrite Hb, C. now rewrite append_assoc.
Qed.

Lemma frame_path_inj frame_dir k k' :
  0 <= k -> 0 <= k' ->
  frame_path frame_dir k = frame_path frame_dir k' -> k = k'.
Proof.
  intros Hk Hk' H. unfold frame_path in H.
  destruct (path_join_relative frame_dir) as [p P].
  rewrite !P in H by reflexivity.
  apply append_inj_l in H. apply (append_inj_l "frame_") in H.
  apply append_inj_r in H.
  destruct (format_0d_spec 8 k Hk ltac:(lia)) as (_ & V & _).
  destruct (format_0d_spec 8 k' Hk' ltac:(lia)) as (_ & V' & _).
  cbn zeta in V, V'. rewrite <- V, <- V', H. reflexivity.
Qed.


Lemma NoDup_map_on {A B : Type} (f : A -> B) l :
  (forall a b, In a l -> In b l -> f a = f b -> a = b) ->
  NoDup l -> NoDup (map f l).
Proof.
  intros Hf N. induction N as [|x l Hx N IH]; [constructor|].
  cbn [map]. constructor.
  - intros H. apply in_map_iff in H. destruct H as (y & Hy & Iy).
    assert (y = x) by (apply Hf; [now right | now left | exact Hy]).
    subst y. contradiction.
  - apply IH. intros a b Ha Hb. apply Hf; now right.
Qed.

Lemma range_app a b c : a <= b <= c -> range a b ++ range b c = range a c.
Proof.
  intros H. remember (Z.to_nat (b - a)) as n eqn:Hn.
  revert a H Hn. induction n as [|n IH]; intros a H Hn.
  - assert (a = b) by lia. subst a. now rewrite (range_nil b b) by lia.
  - rewrite (range_cons a b), (range_cons a c) by lia.
    cbn [app]. f_equal. apply IH; lia.
Qed.

Lemma range_shift a n d :
  map (fun i => d + i) (range a n) = range (d + a) (d + n).
Proof.
  unfold range. rewrite map_map.
  replace (d + n - (d + a)) with (n - a) by lia.
  apply map_ext. intros i. lia.
Qed.

End PathFacts.

(* ------------------------------------------------------------------ *)
(** * Files, directories and lines of a run                             *)
(* ------------------------------------------------------------------ *)

Section RunFacts.

Variable E : Env.

Lemma expected_files_paths s frame_dir fps start_seconds :
  0 < fps ->
  forall seconds j,
    map fst (expected_files E s frame_dir fps start_seconds j seconds)
    = map (frame_path frame_dir)
        (range (j * fps) ((j + Z.of_nat (List.length seconds)) * fps)).
Proof.
  intros Hf. induction seconds as [|x rest IH]; intros j.
  - cbn [expected_files List.length map]. rewrite range_nil by lia.
    reflexivity.
  - cbn [expected_files]. rewrite map_app, IH.
    unfold second_files. rewrite map_map. cbn [fst].
    rewrite <- (map_map (fun i => j * fps + i) (frame_path frame_dir)).
    rewrite range_shift, <- map_app.
    replace (j * fps + 0) with (j * fps) by lia.
    replace (j * fps + fps) with ((j + 1) * fps) by lia.
    rewrite range_app by (cbn [List.length]; nia).
    f_equal. f_equal. cbn [List.length]. lia.
Qed.

Lemma dirs_made_app t1 t2 : dirs_made (t1 ++ t2) = dirs_made t1 ++ dirs_made t2.
Proof. apply flat_map_app. Qed.

Lemma prints_app t1 t2 : prints (t1 ++ t2) = prints t1 ++ prints t2.
Proof. apply flat_map_app. Qed.

Lemma frame_events_dirs s frame_dir fps total start second k i :
  dirs_made (frame_events E s frame_dir fps total start second k i) = [].
Proof.
  unfold frame_events. rewrite !dirs_made_app.
  destruct (i =? 0), ((k + 1) mod (fps * 60) =? 0); reflexivity.
Qed.

Lemma loop_events_dirs s frame_dir fps total start :
  forall seconds j,
    dirs_made (loop_events E s frame_dir fps total start j seconds) = [].
Proof.
  induction seconds as [|x rest IH]; intros j; [reflexivity|].
  cbn [loop_events]. rewrite dirs_made_app, IH, app_nil_r.
  unfold second_events. generalize (range 0 fps) as l.
  induction l as [|i l IHl]; [reflexivity|].
  cbn [flat_map]. now rewrite dirs_made_app, frame_events_dirs, IHl.
Qed.

(** A full minute of frames is reached on the last sub-frame of a
    sixtieth second, and nowhere else. *)
Lemma minute_mark fps j i :
  0 < fps -> 0 <= j -> 0 <= i < fps ->
  ((j * fps + i + 1) mod (fps * 60) =? 0)
  = ((i =? fps - 1) && ((j + 1) mod 60 =? 0))%bool.
Proof.
  intros Hf Hj Hi. apply eq_true_iff_eq.
  rewrite andb_true_iff, !Z.eqb_eq. split.
  - intros M. apply Z.mod_divide in M; [|lia]. destruct M as [q M].
    assert (I : i = fps - 1).
    { assert (D : (i + 1) = (q * 60 - j) * fps) by lia.
      assert (0 < q * 60 - j) by nia.
      assert (q * 60 - j < 2) by nia. nia. }
    split; [exact I|]. subst i.
    apply Z.mod_divide; [lia|]. exists q. nia.
  - intros [-> M]. apply Z.mod_divide in M; [|lia]. destruct M as [q M].
    apply Z.mod_divide; [lia|]. exists q. nia.
Qed.

Lemma flat_map_single {B : Type} (g : Z -> list B) a l :
  NoDup l -> In a l ->
  flat_map (fun i => if i =? a then g i else []) l = g a.
Proof.
  intros N. induction N as [|x l Hx N IH]; intros H; [contradiction|].
  cbn [flat_map]. destruct (Z.eqb_spec x a) as [->|Ne].
  - assert (R : flat_map (fun i => if i =? a then g i else []) l = []).
    { clear IH H N. induction l as [|y l IHl]; [reflexivity|].
      cbn [flat_map]. destruct (Z.eqb_spec y a) as [->|_].
      - exfalso. apply Hx. now left.
      - apply IHl. intros C. apply Hx. now right. }
    now rewrite R, app_nil_r.
  - destruct H as [H|H]; [contradiction|]. cbn [app]. now apply IH.
Qed.

Lemma flat_map_none {A B : Type} (l : list A) :
  flat_map (fun _ : A => @nil B) l = [].
Proof. induction l; simpl; auto. Qed.

Lemma second_events_prints s frame_dir fps total start j second :
  0 < fps -> 0 <= j ->
  prints (second_events E s frame_dir fps total start j second)
  = if (j + 1) mod 60 =? 0
    then [progress_line fps total second ((j + 1) * fps)] else [].
Proof.
  intros Hf Hj. unfold second_events.
  assert (P : forall l,
             (forall i, In i l -> 0 <= i < fps) ->
             prints
               (flat_map
                  (fun i => frame_events E s frame_dir fps total start second
                              (j * fps + i) i) l)
             = flat_map
                 (fun i => if i =? fps - 1
                           then if (j + 1) mod 60 =? 0
                                then [progress_line fps total second
                                        (j * fps + i + 1)]
                                else []
                           else []) l).
  { induction l as [|i l IH]; intros Hl; [reflexivity|].
    cbn [flat_map]. rewrite prints_app, IH by (intros; apply Hl; now right).
    f_equal. unfold frame_events. rewrite !prints_app.
    rewrite (minute_mark fps j i Hf Hj (Hl i (or_introl eq_refl))).
    destruct (i =? 0), (i =? fps - 1), ((j + 1) mod 60 =? 0); reflexivity. }
  rewrite P by (intros i Hi; apply in_range in Hi; lia).
  rewrite (flat_map_single
             (fun i => if (j + 1) mod 60 =? 0
                       then [progress_line fps total second (j * fps + i + 1)]
                       else [])
             (fps - 1) (range 0 fps) (NoDup_range 0 fps)
             (proj2 (in_range 0 fps (fps - 1)) ltac:(lia))).
  replace (j * fps + (fps - 1) + 1) with ((j + 1) * fps) by lia.
  reflexivity.
Qed.

Lemma loop_events_prints s frame_dir fps total start :
  0 < fps ->
  forall n a,
    prints
      (loop_events E s frame_dir fps total start (Z.of_nat a)
         (map (fun i => start - Z.of_nat i) (seq a n)))
    = flat_map
        (fun j => if (j + 1) mod 60 =? 0
                  then [progress_line fps total (start - j) ((j + 1) * fps)]
                  else [])
        (map Z.of_nat (seq a n)).
Proof.
  intros Hf. induction n as [|n IH]; intros a; [reflexivity|].
  cbn [seq map loop_events flat_map].
  rewrite prints_app, second_events_prints by lia.
  f_equal. replace (Z.of_nat a + 1) with (Z.of_nat (S a)) by lia. apply IH.
Qed.

Lemma countdown_prints s frame_dir fps total duration start :
  0 < fps ->
  prints
    (loop_events E s frame_dir fps total start 0
       (countdown_seconds duration start))
  = progress_lines fps total start
      (List.length (countdown_seconds duration start)).
Proof.
  intros Hf. unfold progress_lines, countdown_seconds.
  rewrite range_down_length. unfold range_down, range.
  set (n := Z.to_nat (start - (Z.max (start - duration) 0 - 1))).
  pose proof (loop_events_prints s frame_dir fps total start Hf n 0) as L.
  change (Z.of_nat 0) with 0 in L. rewrite L.
  replace (Z.to_nat (Z.of_nat n - 0)) with n by lia.
  f_equal.
Qed.

End RunFacts.

(** X18. The events of a run of [generate_frames] on a catalog style, in
    order: the directory [output_dir/name] is asked for once, before
    anything else; four header lines and an empty line are printed; then,
    for every second of the countdown and each of its [fps] sub-frames,
    the frame is rendered (on sub-frame 0 only), saved with
    [optimize=True], and a progress line is printed when the frame
    counter has reached a multiple of [fps * 60]; last come four closing
    lines, the first of which reports the number of files that were
    written.  Without a positive [fps] the loop contributes nothing. *)
Theorem generate_frames_events E name s output_dir fps duration start_seconds :
  dict_get ALL_STYLES name = Some s ->
  let r := generate_frames E name output_dir fps duration start_seconds in
  let frame_dir := Py.path_join output_dir name in
  let seconds := countdown_seconds duration start_seconds in
  r = ([Makedirs frame_dir;
        Printed ("Generating " +++ name +++ " countdown: "
                 +++ Py.str (duration * fps) +++ " frames at "
                 +++ Py.str fps +++ " fps");
        Printed ("  Resolution: " +++ Py.str (style_width s) +++ "x"
                 +++ Py.str (style_height s));
        Printed ("  Output: " +++ frame_dir +++ "/");
        Printed ("  Duration: " +++ Py.str duration +++ "s ("
                 +++ Py.str (duration / 3600) +++ "h "
                 +++ Py.str ((duration mod 3600) / 60) +++ "m "
                 +++ Py.str (duration mod 60) +++ "s)");
        Printed ""]
       ++ (if 0 <? fps
           then loop_events E s frame_dir fps (duration * fps) start_seconds 0
                  seconds
           else [])
       ++ [Printed (Py.nl +++ "Done! "
                    +++ Py.str (Z.of_nat
                                  (List.length (files_written E (fst r))))
                    +++ " frames saved to " +++ frame_dir +++ "/");
           Printed (Py.nl +++ "To create video with ffmpeg:");
           Printed ("  ffmpeg -framerate " +++ Py.str fps +++ " -i "
                    +++ frame_dir +++ "/frame_%08d.png " +++ backslash);
           Printed ("    -c:v libx264 -pix_fmt yuv420p -crf 18 countdown_"
                    +++ name +++ ".mp4")],
       Returned tt) /\
  dirs_made (fst r) = [frame_dir].
Proof.
  intros H r frame_dir seconds.
  pose proof (generate_frames_run_events E name s output_dir fps duration
                start_seconds H) as T.
  cbn zeta in T. fold r frame_dir seconds in T.
  destruct (generate_frames_run E name s output_dir fps duration start_seconds H)
    as (_ & _ & F).
  fold r in F. fold frame_dir seconds in F.
  assert (L : Z.of_nat (List.length (files_written E (fst r)))
              = if 0 <? fps then Z.of_nat (List.length seconds) * fps else 0).
  { rewrite F. destruct (Z.ltb_spec 0 fps); [|reflexivity].
    rewrite expected_files_length. lia. }
  split.
  - rewrite L. exact T.
  - rewrite T. cbn [fst]. rewrite !dirs_made_app.
    assert (D : dirs_made
                  (if 0 <? fps
                   then loop_events E s frame_dir fps (duration * fps)
                          start_seconds 0 seconds
                   else []) = []).
    { destruct (0 <? fps); [apply loop_events_dirs | reflexivity]. }
    rewrite D. reflexivity.
Qed.

(** The statement on the style [modern] at one frame per second, for one
    second from second 2, on the example platform. *)
Lemma generate_frames_events_witness :
  exists s,
    dict_get ALL_STYLES "modern" = Some s /\
    fst (generate_frames sample_env "modern" "output" 1 1 2)
    = [Makedirs "output/modern";
       Printed "Generating modern countdown: 1 frames at 1 fps";
       Printed "  Resolution: 1920x1080";
       Printed "  Output: output/modern/";
       Printed "  Duration: 1s (0h 0m 1s)";
       Printed "";
       Rendered false 2 2;
       Saved "output/modern/frame_00000000.png"
         (frame_image sample_env s 2 2) true;
       Rendered false 1 2;
       Saved "output/modern/frame_00000001.png"
         (frame_image sample_env s 1 2) true;
       Printed (Py.nl +++ "Done! 2 frames saved to output/modern/");
       Printed (Py.nl +++ "To create video with ffmpeg:");
       Printed ("  ffmpeg -framerate 1 -i output/modern/frame_%08d.png "
                +++ backslash);
       Printed "    -c:v libx264 -pix_fmt yuv420p -crf 18 countdown_modern.mp4"].
Proof.
  destruct (dict_get ALL_STYLES "modern") as [s|] eqn:D;
    [|vm_compute in D; discriminate].
  exists s. split; [reflexivity|].
  destruct (generate_frames_events sample_env "modern" s "output" 1 1 2 D)
    as (T & _).
  destruct (generate_frames_run sample_env "modern" s "output" 1 1 2 D)
    as (_ & _ & F).
  rewrite T. cbn [fst]. rewrite F.
  vm_compute in D. injection D as <-. reflexivity.
Defined.

(** X19. The lines a run with a positive [fps] prints: the header, one
    progress line after the last frame of every sixtieth second of the
    run, and the closing lines.  The progress line after second number
    [j] (counted from 0) reports [(j + 1) * fps] frames and the timer at
    [start_seconds - j]; a run of [n] seconds prints [n // 60] of them,
    none when it is shorter than a minute. *)
Theorem generate_frames_progress E name s output_dir fps duration
  start_seconds :
  dict_get ALL_STYLES name = Some s -> 0 < fps ->
  let r := generate_frames E name output_dir fps duration start_seconds in
  let frame_dir := Py.path_join output_dir name in
  let n := List.length (countdown_seconds duration start_seconds) in
  prints (fst r)
  = ["Generating " +++ name +++ " countdown: "
     +++ Py.str (duration * fps) +++ " frames at " +++ Py.str fps +++ " fps";
     "  Resolution: " +++ Py.str (style_width s) +++ "x"
     +++ Py.str (style_height s);
     "  Output: " +++ frame_dir +++ "/";
     "  Duration: " +++ Py.str duration +++ "s ("
     +++ Py.str (duration / 3600) +++ "h "
     +++ Py.str ((duration mod 3600) / 60) +++ "m "
     +++ Py.str (duration mod 60) +++ "s)";
     ""]
    ++ progress_lines fps (duration * fps) start_seconds n
    ++ [Py.nl +++ "Done! " +++ Py.str (Z.of_nat n * fps)
        +++ " frames saved to " +++ frame_dir +++ "/";
        Py.nl +++ "To create video with ffmpeg:";
        "  ffmpeg -framerate " +++ Py.str fps +++ " -i "
        +++ frame_dir +++ "/frame_%08d.png " +++ backslash;
        "    -c:v libx264 -pix_fmt yuv420p -crf 18 countdown_"
        +++ name +++ ".mp4"] /\
  Z.of_nat (List.length (progress_lines fps (duration * fps) start_seconds n))
  = Z.of_nat n / 60.
Proof.
  intros H Hf r frame_dir n.
  pose proof (generate_frames_run_events E name s output_dir fps duration
                start_seconds H) as T.
  cbn zeta in T. fold r frame_dir in T.
  destruct (Z.ltb_spec 0 fps) as [_|]; [|lia].
  split.
  - rewrite T. cbn [fst]. rewrite !prints_app.
    rewrite (countdown_prints E s frame_dir fps (duration * fps) duration
               start_seconds Hf).
    reflexivity.
  - unfold progress_lines. generalize n. clear. intros n.
    induction n as [|n IH].
    + reflexivity.
    + rewrite <- (range_app 0 (Z.of_nat n) (Z.of_nat (S n))) by lia.
      rewrite flat_map_app, length_app, Nat2Z.inj_add, IH.
      rewrite (range_cons (Z.of_nat n)), range_nil by lia.
      cbn [flat_map]. rewrite app_nil_r.
      destruct (Z.eqb_spec ((Z.of_nat n + 1) mod 60) 0) as [M|M];
        cbn [List.length]; rewrite Nat2Z.inj_succ;
        pose proof (Z.div_mod (Z.of_nat n) 60 ltac:(lia));
        pose proof (Z.div_mod (Z.succ (Z.of_nat n)) 60 ltac:(lia));
        pose proof (Z.div_mod (Z.of_nat n + 1) 60 ltac:(lia));
        pose proof (Z.mod_pos_bound (Z.of_nat n) 60 ltac:(lia));
        pose proof (Z.mod_pos_bound (Z.succ (Z.of_nat n)) 60 ltac:(lia));
        pose proof (Z.mod_pos_bound (Z.of_nat n + 1) 60 ltac:(lia));
        replace (Z.succ (Z.of_nat n)) with (Z.of_nat n + 1) in * by lia;
        lia.
Qed.

(** The statement on a run of 61 seconds at one frame per second: one
    progress line, after 60 frames, with the timer at 00:00:01. *)
Lemma generate_frames_progress_witness :
  0 < 1 /\
  progress_lines 1 60 60 (List.length (countdown_seconds 60 60))
  = ["  Progress: 60/60 frames (100%) - Timer at 00:00:01 "
     +++ "- ~0 min of frames remaining"] /\
  exists s,
    dict_get ALL_STYLES "modern" = Some s /\
    List.length (prints (fst (generate_frames sample_env "modern" "output"
                                1 60 60))) = 10%nat.
Proof.
  split; [lia|]. split; [vm_compute; reflexivity|].
  destruct (dict_get ALL_STYLES "modern") as [s|] eqn:D;
    [|vm_compute in D; discriminate].
  exists s. split; [reflexivity|].
  destruct (generate_frames_progress sample_env "modern" s "output" 1 60 60 D
              ltac:(lia)) as (P & _).
  rewrite P. rewrite !length_app. reflexivity.
Defined.

(** X20. No run of [generate_frames] on a catalog style writes two files
    to the same path: the paths are [frame_dir/frame_<k>.png] for
    [k = 0, 1, ...] up to the number of files, each once, in this
    order. *)
Theorem generate_frames_paths E name s output_dir fps duration start_seconds :
  dict_get ALL_STYLES name = Some s ->
  let files :=
    files_written E
      (fst (generate_frames E name output_dir fps duration start_seconds)) in
  map fst files
  = map (frame_path (Py.path_join output_dir name))
      (range 0 (Z.of_nat (List.length files))) /\
  NoDup (map fst files).
Proof.
  intros H files.
  destruct (generate_frames_run E name s output_dir fps duration start_seconds H)
    as (_ & _ & F).
  fold files in F.
  assert (P : map fst files
              = map (frame_path (Py.path_join output_dir name))
                  (range 0 (Z.of_nat (List.length files)))).
  { rewrite F. destruct (Z.ltb_spec 0 fps) as [Hf|Hf]; [|reflexivity].
    rewrite expected_files_paths, expected_files_length by exact Hf.
    f_equal. f_equal. lia. }
  split; [exact P|]. rewrite P.
  apply NoDup_map_on; [|apply NoDup_range].
  intros a b Ha Hb. apply in_range in Ha, Hb. apply frame_path_inj; lia.
Qed.

(** The statement on the style [neon] at 2 frames per second, for one
    second from second 5. *)
Lemma generate_frames_paths_witness :
  exists s,
    dict_get ALL_STYLES "neon" = Some s /\
    map fst
      (files_written sample_env
         (fst (generate_frames sample_env "neon" "output/" 2 1 5)))
    = ["output/neon/frame_00000000.png"; "output/neon/frame_00000001.png";
       "output/neon/frame_00000002.png"; "output/neon/frame_00000003.png"].
Proof.
  destruct (dict_get ALL_STYLES "neon") as [s|] eqn:D;
    [|vm_compute in D; discriminate].
  exists s. split; [reflexivity|].
  destruct (generate_frames_paths sample_env "neon" s "output/" 2 1 5 D)
    as (P & _).
  rewrite P.
  destruct (generate_frames_run sample_env "neon" s "output/" 2 1 5 D)
    as (_ & _ & F).
  rewrite F. change (0 <? 2) with true. cbv iota.
  rewrite expected_files_length. reflexivity.
Defined.








(* ------------------------------------------------------------------ *)
(** * When a renderer fails                                             *)
(* ------------------------------------------------------------------ *)


